(** * PhjBuilder: the build side of the partitioned, spilling hash join

    A shallow embedding of [be/src/exec/partitioned-hash-join-builder.cc].

    The builder is a C++ object that mutates itself, the partitions it owns
    and a number of collaborators (buffered tuple streams, hash tables, the
    buffer-pool client, the runtime-filter bank, the query state).  The
    embedding keeps the builder and its partitions as records, threads them
    through a state-and-error monad, and takes every collaborator as a
    method of the class [Collaborators]: whatever a collaborator answers,
    the theorems below hold.

    Integers of the source ([int], [int64_t]) are [Z]; signed overflow is
    undefined in the source and none of the quantities below (row counts,
    byte counts, levels) is assumed to come near the 64-bit range. *)

From Stdlib Require Import ZArith Lia Bool.
From stdpp Require Import base list.
Local Open Scope Z_scope.

(** ** Enumerations *)

(** [TJoinOp::type], declared in the generated [PlanNodes_types.h]. *)
Inductive TJoinOp :=
  | INNER_JOIN | LEFT_OUTER_JOIN | LEFT_SEMI_JOIN | LEFT_ANTI_JOIN
  | NULL_AWARE_LEFT_ANTI_JOIN | RIGHT_OUTER_JOIN | RIGHT_SEMI_JOIN
  | RIGHT_ANTI_JOIN | FULL_OUTER_JOIN | CROSS_JOIN.

(** [PhjBuilder::HashJoinState], the five states [PrintState] names. *)
Inductive HashJoinState :=
  | PARTITIONING_BUILD | PARTITIONING_PROBE | PROBING_SPILLED_PARTITION
  | REPARTITIONING_BUILD | REPARTITIONING_PROBE.

(** [BufferedTupleStream::UnpinMode]. *)
Inductive UnpinMode := UNPIN_ALL | UNPIN_ALL_EXCEPT_CURRENT.

Definition TJoinOp_eqb (x y : TJoinOp) : bool :=
  match x, y with
  | INNER_JOIN, INNER_JOIN | LEFT_OUTER_JOIN, LEFT_OUTER_JOIN
  | LEFT_SEMI_JOIN, LEFT_SEMI_JOIN | LEFT_ANTI_JOIN, LEFT_ANTI_JOIN
  | NULL_AWARE_LEFT_ANTI_JOIN, NULL_AWARE_LEFT_ANTI_JOIN
  | RIGHT_OUTER_JOIN, RIGHT_OUTER_JOIN | RIGHT_SEMI_JOIN, RIGHT_SEMI_JOIN
  | RIGHT_ANTI_JOIN, RIGHT_ANTI_JOIN | FULL_OUTER_JOIN, FULL_OUTER_JOIN
  | CROSS_JOIN, CROSS_JOIN => true
  | _, _ => false
  end.

Definition HashJoinState_eqb (x y : HashJoinState) : bool :=
  match x, y with
  | PARTITIONING_BUILD, PARTITIONING_BUILD
  | PARTITIONING_PROBE, PARTITIONING_PROBE
  | PROBING_SPILLED_PARTITION, PROBING_SPILLED_PARTITION
  | REPARTITIONING_BUILD, REPARTITIONING_BUILD
  | REPARTITIONING_PROBE, REPARTITIONING_PROBE => true
  | _, _ => false
  end.

(** A [Partition*]: the position of the partition in [all_partitions_]. *)
Abbreviation ptr := nat (only parsing).

(** ** Answers of the collaborators *)

(** What a collaborator call that reports a [Status] and a [bool] answers:
    [Success] is an OK status with the flag set ([AddRow] returned true,
    [PinStream] pinned, [Init] succeeded), [Failure] an OK status with the
    flag clear (no memory for it), [Fault e] a non-OK status. *)
Inductive CallResult (E : Type) :=
  | Success | Failure | Fault (e : E).
Arguments Success {E}.
Arguments Failure {E}.
Arguments Fault {E} e.

(** Stream calls that only report a [Status]. *)
Inductive StreamStatusOp :=
  | OpInit | OpUnpinStream (mode : UnpinMode) | OpGetNext.

(** Stream calls that report a [Status] and a [bool]. *)
Inductive StreamBoolOp (Row : Type) :=
  | OpPrepareForWrite | OpPinStream | OpPrepareForRead (delete_on_read : bool)
  | OpAddRow (row : Row).
Arguments OpPrepareForWrite {Row}.
Arguments OpPinStream {Row}.
Arguments OpPrepareForRead {Row} delete_on_read.
Arguments OpAddRow {Row} row.

(** Calls into the runtime state that only report a [Status]. *)
Inductive RuntimeOp :=
  | OpStartSpilling | OpCheckQueryState | OpGetQueryStatus
  | OpDataSinkPrepare | OpHashTableCtxCreate | OpExprEvalCreate (filter_id : Z)
  | OpHashTableCtxOpen | OpExprEvalOpen (filter_id : Z).

(** [void] calls that release a collaborator in [PhjBuilder::Close]. *)
Inductive ReleaseOp :=
  | OpHashTableCtxClose | OpExprEvalClose (filter_id : Z)
  | OpScalarExprClose | OpObjPoolClear | OpDataSinkClose.

(** The collaborators of the builder.  None of them is part of
    [partitioned-hash-join-builder.cc]; each is an arbitrary function of the
    state of the world outside the builder ([World]: buffer pool, disk,
    query state).  A stream is split in two: the rows it holds, which the
    embedding keeps itself, and its memory-side state ([StreamState]: pages,
    pins, iterators), which only the stream knows about. *)
Class Collaborators := {
  World : Type;
  TupleRow : Type;
  StreamState : Type;
  HashTable : Type;
  BloomFilter : Type;
  MinMaxFilter : Type;
  ExtError : Type;
  (* constants declared in partitioned-hash-join-builder.h *)
  PARTITION_FANOUT : nat;
  MAX_PARTITION_DEPTH : Z;
  (* BufferedTupleStream *)
  stream_new : World -> StreamState * World;
  stream_BytesPinned : StreamState -> Z;
  stream_status_op :
    StreamStatusOp -> list TupleRow -> StreamState -> World ->
    option ExtError * StreamState * World;
  stream_bool_op :
    StreamBoolOp TupleRow -> list TupleRow -> StreamState -> World ->
    CallResult ExtError * StreamState * World;
  stream_Close : bool -> StreamState -> World -> World;
  (* the batches in which GetNext hands out the rows of a stream *)
  stream_batches : list TupleRow -> list (list TupleRow);
  stream_batches_concat : forall rows, concat (stream_batches rows) = rows;
  (* HashTable *)
  ht_Create : list TupleRow -> World -> HashTable * World;
  ht_Init : HashTable -> World -> CallResult ExtError * HashTable * World;
  ht_InsertBatch :
    HashTable -> list TupleRow -> World ->
    CallResult ExtError * HashTable * World;
  ht_ByteSize : HashTable -> Z;
  ht_HasMatches : HashTable -> bool;
  ht_Close : HashTable -> World -> World;
  (* RuntimeState *)
  runtime_op : RuntimeOp -> World -> option ExtError * World;
  is_cancelled : World -> bool;
  (* BufferPool::ClientHandle *)
  GetUnusedReservation : World -> Z;
  client_SaveReservation : Z -> World -> World;
  client_RestoreReservation : Z -> World -> World;
  (* RuntimeFilterBank, MinMaxFilter, FilterContext *)
  FpRateTooHigh : Z -> Z -> bool;
  AlwaysTrue : MinMaxFilter -> bool;
  AllocateScratchBloomFilter : Z -> World -> option BloomFilter * World;
  AllocateScratchMinMaxFilter : Z -> World -> option MinMaxFilter * World;
  bloom_Insert : BloomFilter -> TupleRow -> BloomFilter;
  minmax_Insert : MinMaxFilter -> TupleRow -> MinMaxFilter;
  (* HashTableCtx::EvalAndHashBuild followed by the choice of the
     partition: [None] when the row has a NULL key that is not stored *)
  EvalAndHashBuild : Z -> TupleRow -> option nat;
  (* join-op helper declared outside this file *)
  IsLeftSemiJoin : TJoinOp -> bool;
  (* the Close methods of the objects the builder releases in Close *)
  release_op : ReleaseOp -> World -> World
}.

Section Model.
Context `{C : Collaborators}.

(** ** Status *)

(** The statuses the builder produces or passes on.  Two are not statuses of
    the source.  [NULL_POINTER] stands for the undefined behaviour of
    dereferencing a [Partition*] that [all_partitions_] does not own, a null
    [build_rows_], [hash_tbl_] or [ht_ctx_], or an index outside
    [hash_partitions_].  [LOOP_CUT] marks a spill loop cut for lack of fuel;
    the loops are given enough fuel never to report it. *)
Inductive Error :=
  | INTERNAL_ERROR_NO_PARTITION_TO_SPILL (join_node_id : Z)
  | MEM_LIMIT_EXCEEDED (join_node_id : Z)
  | CANCELLED
  | PARTITIONED_HASH_JOIN_MAX_PARTITION_DEPTH (join_node_id max_depth : Z)
  | PARTITIONED_HASH_JOIN_REPARTITION_FAILS
      (join_node_id next_partition_level num_input_rows : Z)
  | COLLABORATOR (e : ExtError)
  | NULL_POINTER
  | LOOP_CUT.

Inductive Status := OK | Failed (e : Error).

Definition ok (s : Status) : bool :=
  match s with OK => true | Failed _ => false end.

(** ** Data model *)

(** A [BufferedTupleStream]: the rows appended so far, in order, and the
    memory-side state. *)
Record BufferedTupleStream := mkStream {
  rows : list TupleRow;
  mem : StreamState
}.

Definition num_rows (s : BufferedTupleStream) : Z := Z.of_nat (length (rows s)).
Definition BytesPinned (s : BufferedTupleStream) : Z := stream_BytesPinned (mem s).

(** [PhjBuilder::Partition].  [build_rows_] and [hash_tbl_] are owning
    pointers: [None] is the null pointer. *)
Record Partition := mkPartition {
  is_spilled_ : bool;
  level_ : Z;
  build_rows_ : option BufferedTupleStream;
  hash_tbl_ : option HashTable
}.

(** [HashTableCtx]: the level that selects the hash function, and whether
    rows with NULL keys are stored. *)
Record HashTableCtx := mkCtx { ctx_level : Z; stores_nulls : bool }.

(** [FilterContext]: the registered filter (its id and size) and the
    scratch filters [AllocateRuntimeFilters] obtained for it. *)
Record FilterContext := mkFilterCtx {
  filter_id : Z;
  filter_size : Z;
  is_bloom_filter : bool;
  local_bloom_filter : option BloomFilter;
  local_min_max_filter : option MinMaxFilter
}.

(** The [BloomFilter*] handed to the filter bank. *)
Inductive BloomFilterPtr :=
  | ALWAYS_TRUE_FILTER
  | Scratch (f : BloomFilter).

(** One call [UpdateFilterFromLocal(id, bloom_filter, min_max_filter)]. *)
Record FilterUpdate := mkUpdate {
  upd_id : Z;
  upd_bloom : option BloomFilterPtr;
  upd_min_max : option MinMaxFilter
}.

Record PhjBuilder := mkBuilder {
  join_node_id_ : Z;
  join_op_ : TJoinOp;
  spillable_buffer_size_ : Z;
  is_not_distinct_from_ : list bool;
  filter_ctxs_ : list FilterContext;
  ht_ctx_ : option HashTableCtx;
  state_ : HashJoinState;
  non_empty_build_ : bool;
  closed_ : bool;
  all_partitions_ : list Partition;
  hash_partitions_ : list ptr;
  null_aware_partition_ : option ptr;
  (* bytes held by the sub-reservation; [None] while it is closed *)
  probe_stream_reservation_ : option Z;
  (* the calls made to RuntimeFilterBank::UpdateFilterFromLocal, oldest first *)
  filter_bank_updates : list FilterUpdate;
  (* the "n of m Runtime Filters Published" count of the last publication *)
  num_enabled_filters_info : option Z;
  world : World
}.

Definition set_world (w : World) (b : PhjBuilder) : PhjBuilder :=
  mkBuilder (join_node_id_ b) (join_op_ b) (spillable_buffer_size_ b)
    (is_not_distinct_from_ b) (filter_ctxs_ b) (ht_ctx_ b) (state_ b)
    (non_empty_build_ b) (closed_ b) (all_partitions_ b) (hash_partitions_ b)
    (null_aware_partition_ b) (probe_stream_reservation_ b)
    (filter_bank_updates b) (num_enabled_filters_info b) w.

Definition set_filter_ctxs (x : list FilterContext) (b : PhjBuilder) : PhjBuilder :=
  mkBuilder (join_node_id_ b) (join_op_ b) (spillable_buffer_size_ b)
    (is_not_distinct_from_ b) x (ht_ctx_ b) (state_ b)
    (non_empty_build_ b) (closed_ b) (all_partitions_ b) (hash_partitions_ b)
    (null_aware_partition_ b) (probe_stream_reservation_ b)
    (filter_bank_updates b) (num_enabled_filters_info b) (world b).

Definition set_ht_ctx (x : option HashTableCtx) (b : PhjBuilder) : PhjBuilder :=
  mkBuilder (join_node_id_ b) (join_op_ b) (spillable_buffer_size_ b)
    (is_not_distinct_from_ b) (filter_ctxs_ b) x (state_ b)
    (non_empty_build_ b) (closed_ b) (all_partitions_ b) (hash_partitions_ b)
    (null_aware_partition_ b) (probe_stream_reservation_ b)
    (filter_bank_updates b) (num_enabled_filters_info b) (world b).

Definition set_state (x : HashJoinState) (b : PhjBuilder) : PhjBuilder :=
  mkBuilder (join_node_id_ b) (join_op_ b) (spillable_buffer_size_ b)
    (is_not_distinct_from_ b) (filter_ctxs_ b) (ht_ctx_ b) x
    (non_empty_build_ b) (closed_ b) (all_partitions_ b) (hash_partitions_ b)
    (null_aware_partition_ b) (probe_stream_reservation_ b)
    (filter_bank_updates b) (num_enabled_filters_info b) (world b).

Definition set_non_empty_build (x : bool) (b : PhjBuilder) : PhjBuilder :=
  mkBuilder (join_node_id_ b) (join_op_ b) (spillable_buffer_size_ b)
    (is_not_distinct_from_ b) (filter_ctxs_ b) (ht_ctx_ b) (state_ b)
    x (closed_ b) (all_partitions_ b) (hash_partitions_ b)
    (null_aware_partition_ b) (probe_stream_reservation_ b)
    (filter_bank_updates b) (num_enabled_filters_info b) (world b).

Definition set_closed (x : bool) (b : PhjBuilder) : PhjBuilder :=
  mkBuilder (join_node_id_ b) (join_op_ b) (spillable_buffer_size_ b)
    (is_not_distinct_from_ b) (filter_ctxs_ b) (ht_ctx_ b) (state_ b)
    (non_empty_build_ b) x (all_partitions_ b) (hash_partitions_ b)
    (null_aware_partition_ b) (probe_stream_reservation_ b)
    (filter_bank_updates b) (num_enabled_filters_info b) (world b).

Definition set_all_partitions (x : list Partition) (b : PhjBuilder) : PhjBuilder :=
  mkBuilder (join_node_id_ b) (join_op_ b) (spillable_buffer_size_ b)
    (is_not_distinct_from_ b) (filter_ctxs_ b) (ht_ctx_ b) (state_ b)
    (non_empty_build_ b) (closed_ b) x (hash_partitions_ b)
    (null_aware_partition_ b) (probe_stream_reservation_ b)
    (filter_bank_updates b) (num_enabled_filters_info b) (world b).

Definition set_hash_partitions (x : list ptr) (b : PhjBuilder) : PhjBuilder :=
  mkBuilder (join_node_id_ b) (join_op_ b) (spillable_buffer_size_ b)
    (is_not_distinct_from_ b) (filter_ctxs_ b) (ht_ctx_ b) (state_ b)
    (non_empty_build_ b) (closed_ b) (all_partitions_ b) x
    (null_aware_partition_ b) (probe_stream_reservation_ b)
    (filter_bank_updates b) (num_enabled_filters_info b) (world b).

Definition set_null_aware_partition (x : option ptr) (b : PhjBuilder) : PhjBuilder :=
  mkBuilder (join_node_id_ b) (join_op_ b) (spillable_buffer_size_ b)
    (is_not_distinct_from_ b) (filter_ctxs_ b) (ht_ctx_ b) (state_ b)
    (non_empty_build_ b) (closed_ b) (all_partitions_ b) (hash_partitions_ b)
    x (probe_stream_reservation_ b)
    (filter_bank_updates b) (num_enabled_filters_info b) (world b).

Definition set_probe_stream_reservation (x : option Z) (b : PhjBuilder) : PhjBuilder :=
  mkBuilder (join_node_id_ b) (join_op_ b) (spillable_buffer_size_ b)
    (is_not_distinct_from_ b) (filter_ctxs_ b) (ht_ctx_ b) (state_ b)
    (non_empty_build_ b) (closed_ b) (all_partitions_ b) (hash_partitions_ b)
    (null_aware_partition_ b) x
    (filter_bank_updates b) (num_enabled_filters_info b) (world b).

Definition set_filter_bank_updates (x : list FilterUpdate) (b : PhjBuilder) : PhjBuilder :=
  mkBuilder (join_node_id_ b) (join_op_ b) (spillable_buffer_size_ b)
    (is_not_distinct_from_ b) (filter_ctxs_ b) (ht_ctx_ b) (state_ b)
    (non_empty_build_ b) (closed_ b) (all_partitions_ b) (hash_partitions_ b)
    (null_aware_partition_ b) (probe_stream_reservation_ b)
    x (num_enabled_filters_info b) (world b).

Definition set_num_enabled_filters_info (x : option Z) (b : PhjBuilder) : PhjBuilder :=
  mkBuilder (join_node_id_ b) (join_op_ b) (spillable_buffer_size_ b)
    (is_not_distinct_from_ b) (filter_ctxs_ b) (ht_ctx_ b) (state_ b)
    (non_empty_build_ b) (closed_ b) (all_partitions_ b) (hash_partitions_ b)
    (null_aware_partition_ b) (probe_stream_reservation_ b)
    (filter_bank_updates b) x (world b).

(** ** The monad of the builder's methods

    A method runs on the builder and leaves a builder behind, also when it
    returns early with a non-OK status ([RETURN_IF_ERROR]): what it did up
    to that point stays done. *)

Inductive Result (A : Type) :=
  | Ok (a : A)
  | Err (e : Error).
Arguments Ok {A} a.
Arguments Err {A} e.

Definition M (A : Type) : Type := PhjBuilder -> Result A * PhjBuilder.

Definition ret {A} (a : A) : M A := fun b => (Ok a, b).
Definition fail {A} (e : Error) : M A := fun b => (Err e, b).

Definition bind {A B} (m : M A) (k : A -> M B) : M B :=
  fun b =>
    match m b with
    | (Ok a, b1) => k a b1
    | (Err e, b1) => (Err e, b1)
    end.

Definition get : M PhjBuilder := fun b => (Ok b, b).
Definition gets {A} (f : PhjBuilder -> A) : M A := fun b => (Ok (f b), b).
Definition modify (f : PhjBuilder -> PhjBuilder) : M unit := fun b => (Ok tt, f b).

(** Lift a [Status]-valued builder function: [RETURN_IF_ERROR]. *)
Definition to_status {A} (r : Result A) : Status :=
  match r with Ok _ => OK | Err e => Failed e end.

Notation "x <- m ;; k" := (bind m (fun x => k))
  (at level 100, m at next level, right associativity).
Notation "m ;;; k" := (bind m (fun _ => k))
  (at level 100, right associativity).

(** *** Calls into the collaborators *)

Definition set_is_spilled (v : bool) (x : Partition) : Partition :=
  mkPartition v (level_ x) (build_rows_ x) (hash_tbl_ x).
Definition set_build_rows (v : option BufferedTupleStream) (x : Partition) : Partition :=
  mkPartition (is_spilled_ x) (level_ x) v (hash_tbl_ x).
Definition set_hash_tbl (v : option HashTable) (x : Partition) : Partition :=
  mkPartition (is_spilled_ x) (level_ x) (build_rows_ x) v.

(** [*p] for a [Partition* p]. *)
Definition deref (p : ptr) : M Partition :=
  fun b =>
    match all_partitions_ b !! p with
    | Some x => (Ok x, b)
    | None => (Err NULL_POINTER, b)
    end.

(** [*p = x]: the partition is updated in place, for every holder of [p]. *)
Definition assign (p : ptr) (x : Partition) : M unit :=
  modify (fun b => set_all_partitions (<[p := x]> (all_partitions_ b)) b).

(** An assignment to members of [*p], such as [p->is_spilled_ = true]. *)
Definition update (p : ptr) (f : Partition -> Partition) : M unit :=
  x <- deref p ;;
  assign p (f x).

(** The stream of a partition after a call on it: the same rows, with the
    new memory-side state. *)
Definition set_mem (m1 : StreamState) (x : Partition) : Partition :=
  match build_rows_ x with
  | Some s => set_build_rows (Some (mkStream (rows s) m1)) x
  | None => x
  end.

(** The stream of a partition after [AddRow] returned true. *)
Definition add_row (row : TupleRow) (x : Partition) : Partition :=
  match build_rows_ x with
  | Some s => set_build_rows (Some (mkStream (rows s ++ [row]) (mem s))) x
  | None => x
  end.

(** [p->build_rows()], dereferenced. *)
Definition build_rows (p : ptr) : M BufferedTupleStream :=
  x <- deref p ;;
  match build_rows_ x with
  | Some s => ret s
  | None => fail NULL_POINTER
  end.

Definition of_ext (st : option ExtError) : M unit :=
  match st with
  | None => ret tt
  | Some e => fail (COLLABORATOR e)
  end.

(** A call on the runtime state, under [RETURN_IF_ERROR]. *)
Definition runtime (op : RuntimeOp) : M unit :=
  w <- gets world ;;
  let '(st, w1) := runtime_op op w in
  modify (set_world w1) ;;;
  of_ext st.

(** A [Status]-only call on the stream of [p]; the status is handed back. *)
Definition stream_status_raw (p : ptr) (op : StreamStatusOp) : M (option ExtError) :=
  s <- build_rows p ;;
  w <- gets world ;;
  let '(st, m1, w1) := stream_status_op op (rows s) (mem s) w in
  update p (set_mem m1) ;;;
  modify (set_world w1) ;;;
  ret st.

(** The same under [RETURN_IF_ERROR]. *)
Definition stream_status (p : ptr) (op : StreamStatusOp) : M unit :=
  st <- stream_status_raw p op ;;
  of_ext st.

(** A [Status]-and-[bool] call on the stream of [p].  [AddRow] appends the
    row exactly when it answers true. *)
Definition stream_bool_raw (p : ptr) (op : StreamBoolOp TupleRow) :
    M (CallResult ExtError) :=
  s <- build_rows p ;;
  w <- gets world ;;
  let '(r, m1, w1) := stream_bool_op op (rows s) (mem s) w in
  update p (set_mem m1) ;;;
  match op, r with
  | OpAddRow row, Success => update p (add_row row)
  | _, _ => ret tt
  end ;;;
  modify (set_world w1) ;;;
  ret r.

(** The same under [RETURN_IF_ERROR]: the flag is returned. *)
Definition stream_bool (p : ptr) (op : StreamBoolOp TupleRow) : M bool :=
  r <- stream_bool_raw p op ;;
  match r with
  | Success => ret true
  | Failure => ret false
  | Fault e => fail (COLLABORATOR e)
  end.

(** [hash_tbl_->Close(); hash_tbl_.reset();] when [hash_tbl_] is not null. *)
Definition close_and_reset_hash_tbl (p : ptr) : M unit :=
  x <- deref p ;;
  match hash_tbl_ x with
  | Some ht =>
      modify (fun b => set_world (ht_Close ht (world b)) b) ;;;
      update p (set_hash_tbl None)
  | None => ret tt
  end.

(** ** PhjBuilder::Partition *)

(** Modelled from the spec: [Partition::IsClosed] is inline in the header,
    which is not part of the sources at hand; the spec has [closed] as the
    state in which [build_rows] is released, and [Close] below tests it
    before it resets [build_rows_]. *)
Definition IsClosed (x : Partition) : bool :=
  match build_rows_ x with
  | None => true
  | Some _ => false
  end.

(** Modelled from the spec: [Partition::CanSpill] is inline in the header;
    a partition can be spilled while it is neither closed nor spilled
    already ("non-recoverable once every partition is spilled"). *)
Definition CanSpill (x : Partition) : bool :=
  negb (IsClosed x) && negb (is_spilled_ x).

(** [Partition::Close(RowBatch* batch)]; [batch] says whether the pointer is
    non-null.  The method touches the partition and the world only. *)
Definition Partition_Close (batch : bool) (x : Partition) (w : World) :
    Partition * World :=
  if IsClosed x then (x, w)
  else
    let w1 :=
      match hash_tbl_ x with
      | Some ht => ht_Close ht w
      | None => w
      end in
    match build_rows_ x with
    | Some s => (set_build_rows None x, stream_Close batch (mem s) w1)
    | None => (x, w1)
    end.

(** [p->Close(batch)]. *)
Definition Close_partition (p : ptr) (batch : bool) : M unit :=
  x <- deref p ;;
  w <- gets world ;;
  let '(x1, w1) := Partition_Close batch x w in
  assign p x1 ;;;
  modify (set_world w1).

(** [Partition::Spill(mode)], as [p->Spill(mode)].  The profile counter
    [num_spilled_partitions_] is left out. *)
Definition Spill (p : ptr) (mode : UnpinMode) : M unit :=
  (* DCHECK(!IsClosed()) *)
  deref p ;;;
  runtime OpStartSpilling ;;;
  close_and_reset_hash_tbl p ;;;
  stream_status p (OpUnpinStream mode) ;;;
  update p (set_is_spilled true).

(** How the insert loop of [BuildHashTable] is left. *)
Inductive LoopExit :=
  | Finished
  | NotBuilt (status : option ExtError).

(** The batches a reader of the stream goes through: the loops of the
    source run their body once even on an empty stream. *)
Definition batches_of (s : BufferedTupleStream) : list (list TupleRow) :=
  match stream_batches (rows s) with
  | [] => [[]]
  | bs => bs
  end.

(** The [do ... while (!eos)] loop of [BuildHashTable], one turn per batch.
    [InsertBatch] stands for the interpreted and the generated function. *)
Fixpoint insert_loop (p : ptr) (bs : list (list TupleRow)) : M LoopExit :=
  match bs with
  | [] => ret Finished
  | batch :: rest =>
      st <- stream_status_raw p OpGetNext ;;
      match st with
      | Some e => ret (NotBuilt (Some e))
      | None =>
          x <- deref p ;;
          match hash_tbl_ x with
          | None => fail NULL_POINTER
          | Some ht =>
              w <- gets world ;;
              let '(r, ht1, w1) := ht_InsertBatch ht batch w in
              update p (set_hash_tbl (Some ht1)) ;;;
              modify (set_world w1) ;;;
              match r with
              | Failure => ret (NotBuilt None)
              | Fault e => ret (NotBuilt (Some e))
              | Success =>
                  w2 <- gets world ;;
                  if is_cancelled w2 then fail CANCELLED
                  else
                    runtime OpGetQueryStatus ;;;
                    insert_loop p rest
              end
          end
      end
  end.

(** The [not_built:] label of [BuildHashTable]. *)
Definition not_built (p : ptr) (status : option ExtError) : M bool :=
  close_and_reset_hash_tbl p ;;;
  of_ext status ;;;
  ret false.

(** [ht_ctx_->set_level(level)]. *)
Definition set_level (level : Z) : M unit :=
  c <- gets ht_ctx_ ;;
  match c with
  | Some c => modify (set_ht_ctx (Some (mkCtx level (stores_nulls c))))
  | None => fail NULL_POINTER
  end.

(** [ht_ctx_->level()]. *)
Definition ht_ctx_level : M Z :=
  c <- gets ht_ctx_ ;;
  match c with
  | Some c => ret (ctx_level c)
  | None => fail NULL_POINTER
  end.

(** [Partition::BuildHashTable(bool* built)], as [p->BuildHashTable(&built)]:
    the result is [*built] when the status is OK. *)
Definition BuildHashTable (p : ptr) : M bool :=
  (* DCHECK(build_rows_ != nullptr) *)
  built <- stream_bool p OpPinStream ;;
  if negb built then ret false
  else
    x <- deref p ;;
    set_level (level_ x) ;;;
    s <- build_rows p ;;
    w <- gets world ;;
    let '(ht, w1) := ht_Create (rows s) w in
    let '(r, ht1, w2) := ht_Init ht w1 in
    update p (set_hash_tbl (Some ht1)) ;;;
    modify (set_world w2) ;;;
    match r with
    | Failure => not_built p None
    | Fault e => not_built p (Some e)
    | Success =>
        r1 <- stream_bool_raw p (OpPrepareForRead false) ;;
        match r1 with
        | Fault e => not_built p (Some e)
        | _ =>
            (* DCHECK(success) << "Stream was already pinned." *)
            e <- insert_loop p (batches_of s) ;;
            match e with
            | NotBuilt status => not_built p status
            | Finished =>
                (* The hash table fits in memory and is built. *)
                update p (set_is_spilled false) ;;;
                ret true
            end
        end
    end.

(** ** PhjBuilder *)

Fixpoint for_each {A} (l : list A) (f : A -> M unit) : M unit :=
  match l with
  | [] => ret tt
  | a :: rest => f a ;;; for_each rest f
  end.

(** [hash_partitions_[i]]. *)
Definition hash_partition_at (i : nat) : M ptr :=
  hp <- gets hash_partitions_ ;;
  match hp !! i with
  | Some p => ret p
  | None => fail NULL_POINTER
  end.

(** The legal transitions [UpdateState] asserts. *)
Definition UpdateState_DCHECK (state next_state : HashJoinState) : bool :=
  match state with
  | PARTITIONING_BUILD => HashJoinState_eqb next_state PARTITIONING_PROBE
  | PARTITIONING_PROBE | REPARTITIONING_PROBE | PROBING_SPILLED_PARTITION =>
      HashJoinState_eqb next_state REPARTITIONING_BUILD
      || HashJoinState_eqb next_state PROBING_SPILLED_PARTITION
  | REPARTITIONING_BUILD => HashJoinState_eqb next_state REPARTITIONING_PROBE
  end.

(** [PhjBuilder::UpdateState]. *)
Definition UpdateState (next_state : HashJoinState) : M unit :=
  (* DCHECK: UpdateState_DCHECK state_ next_state *)
  modify (set_state next_state).

(** [PhjBuilder::CreateAndPreparePartition(level, Partition** partition)].
    [out] is the assignment [*partition = ...], made before the stream is
    initialised; a new stream holds no row. *)
Definition CreateAndPreparePartition (level : Z) (out : ptr -> M unit) : M ptr :=
  b <- get ;;
  let '(m, w1) := stream_new (world b) in
  let p := length (all_partitions_ b) in
  modify (fun b =>
    set_world w1
      (set_all_partitions
         (all_partitions_ b ++ [mkPartition false level (Some (mkStream [] m)) None]) b)) ;;;
  out p ;;;
  stream_status p OpInit ;;;
  stream_bool p OpPrepareForWrite ;;;
  (* DCHECK(got_buffer) *)
  ret p.

Fixpoint CreateHashPartitions_loop (n : nat) (level : Z) : M unit :=
  match n with
  | O => ret tt
  | S n' =>
      new_partition <- CreateAndPreparePartition level (fun _ => ret tt) ;;
      modify (fun b => set_hash_partitions (hash_partitions_ b ++ [new_partition]) b) ;;;
      CreateHashPartitions_loop n' level
  end.

(** [PhjBuilder::CreateHashPartitions(level)]; the profile counters are
    left out. *)
Definition CreateHashPartitions (level : Z) : M unit :=
  (* DCHECK(hash_partitions_.empty()) *)
  set_level level ;;;
  CreateHashPartitions_loop PARTITION_FANOUT level.

(** The loop of [SpillPartition] over [hash_partitions_]: "pick the largest
    partition to spill". *)
Fixpoint largest_candidate (candidates : list ptr) (max_freed_mem : Z)
    (best_candidate : option ptr) : M (option ptr) :=
  match candidates with
  | [] => ret best_candidate
  | candidate :: rest =>
      x <- deref candidate ;;
      if negb (CanSpill x) then largest_candidate rest max_freed_mem best_candidate
      else
        s <- build_rows candidate ;;
        let mem := BytesPinned s in
        let mem :=
          match hash_tbl_ x with
          | Some ht =>
              (* DCHECK(!candidate->hash_tbl()->HasMatches()) *)
              mem + ht_ByteSize ht
          | None => mem
          end in
        if mem >? max_freed_mem then largest_candidate rest mem (Some candidate)
        else largest_candidate rest max_freed_mem best_candidate
  end.

(** The first part of [SpillPartition]: the choice of [best_candidate]. *)
Definition best_candidate : M (option ptr) :=
  (* DCHECK_EQ(hash_partitions_.size(), PARTITION_FANOUT) *)
  b <- get ;;
  null_aware_can_spill <-
    match null_aware_partition_ b with
    | Some na => x <- deref na ;; ret (CanSpill x)
    | None => ret false
    end ;;
  if null_aware_can_spill : bool then
    (* Spill null-aware partition first if possible - it is always
       processed last. *)
    ret (null_aware_partition_ b)
  else largest_candidate (hash_partitions_ b) 0 None.

(** [PhjBuilder::SpillPartition(mode, Partition** spilled_partition)]: the
    result is [*spilled_partition]. *)
Definition SpillPartition (mode : UnpinMode) : M ptr :=
  best <- best_candidate ;;
  match best with
  | None =>
      id <- gets join_node_id_ ;;
      fail (INTERNAL_ERROR_NO_PARTITION_TO_SPILL id)
  | Some p =>
      Spill p mode ;;;
      ret p
  end.

(** The [while (true)] loop of [AppendRowStreamFull], cut after [fuel]
    turns.  Running out of fuel is reported as [LOOP_CUT]; with the fuel
    [AppendRowStreamFull] gives, the loop stops before. *)
Fixpoint AppendRowStreamFull_loop (fuel : nat) (p : ptr) (row : TupleRow) : M unit :=
  match fuel with
  | O => fail LOOP_CUT
  | S fuel' =>
      (* We ran out of memory. Pick a partition to spill. *)
      SpillPartition UNPIN_ALL_EXCEPT_CURRENT ;;;
      r <- stream_bool_raw p (OpAddRow row) ;;
      match r with
      | Success => ret tt
      | Fault e => fail (COLLABORATOR e)
      | Failure =>
          (* Spilling one partition does not guarantee we can append a row.
             Keep spilling until we can append this row. *)
          AppendRowStreamFull_loop fuel' p row
      end
  end.

(** [PhjBuilder::AppendRowStreamFull(stream, row, status)], with [stream]
    the stream of partition [p].  The source returns false only with a
    non-OK [*status]: [Ok tt] is "true", [Err e] is "false" with status [e].
    Every turn that goes on has spilled one more partition, so one turn per
    partition and one more are enough. *)
Definition AppendRowStreamFull (p : ptr) (row : TupleRow) : M unit :=
  fun b => AppendRowStreamFull_loop (S (length (all_partitions_ b))) p row b.

(** Modelled from the spec: [PhjBuilder::AppendRow] is inline in the header:
    "on append failure due to memory, invoke spill-and-retry". *)
Definition AppendRow (p : ptr) (row : TupleRow) : M unit :=
  r <- stream_bool_raw p (OpAddRow row) ;;
  match r with
  | Success => ret tt
  | Fault e => fail (COLLABORATOR e)
  | Failure => AppendRowStreamFull p row
  end.

(** [FilterContext::Insert]. *)
Definition FilterContext_Insert (row : TupleRow) (ctx : FilterContext) : FilterContext :=
  mkFilterCtx (filter_id ctx) (filter_size ctx) (is_bloom_filter ctx)
    (option_map (fun f => bloom_Insert f row) (local_bloom_filter ctx))
    (option_map (fun f => minmax_Insert f row) (local_min_max_filter ctx)).

(** [PhjBuilder::InsertRuntimeFilters(build_row)]. *)
Definition InsertRuntimeFilters (row : TupleRow) : M unit :=
  modify (fun b => set_filter_ctxs (map (FilterContext_Insert row) (filter_ctxs_ b)) b).

(** Modelled from the spec: [PhjBuilder::ProcessBuildBatch] is defined in a
    file that is not part of the sources at hand.  "Route every row of batch
    into its partition by hashing key columns with the level's hash
    function; for the NULL_AWARE_LEFT_ANTI_JOIN op, null-key rows go to
    null_aware_partition; update build-side Bloom/min-max filters only at
    level == 0; on append failure due to memory, invoke spill-and-retry";
    other rows with NULL keys "are discarded". *)
Fixpoint ProcessBuildBatch (batch : list TupleRow) (build_filters is_null_aware : bool) :
    M unit :=
  match batch with
  | [] => ret tt
  | build_row :: rest =>
      level <- ht_ctx_level ;;
      match EvalAndHashBuild level build_row with
      | None =>
          (if is_null_aware then
             na <- gets null_aware_partition_ ;;
             match na with
             | Some p => AppendRow p build_row
             | None => fail NULL_POINTER
             end
           else ret tt) ;;;
          ProcessBuildBatch rest build_filters is_null_aware
      | Some partition_idx =>
          (if build_filters then InsertRuntimeFilters build_row else ret tt) ;;;
          p <- hash_partition_at partition_idx ;;
          AppendRow p build_row ;;;
          ProcessBuildBatch rest build_filters is_null_aware
      end
  end.

(** [PhjBuilder::Send(state, batch)].  The generated functions
    [process_build_batch_fn_] are [ProcessBuildBatch] specialised; timers,
    counters and the expression-result pool are left out. *)
Definition Send (batch : list TupleRow) : M unit :=
  level <- ht_ctx_level ;;
  ctxs <- gets filter_ctxs_ ;;
  op <- gets join_op_ ;;
  let build_filters := (level =? 0) && (0 <? Z.of_nat (length ctxs)) in
  ProcessBuildBatch batch build_filters (TJoinOp_eqb op NULL_AWARE_LEFT_ANTI_JOIN).

(** [PhjBuilder::GetNumSpilledPartitions(partitions)]. *)
Fixpoint GetNumSpilledPartitions (partitions : list ptr) : M Z :=
  match partitions with
  | [] => ret 0
  | p :: rest =>
      x <- deref p ;;
      n <- GetNumSpilledPartitions rest ;;
      ret (if negb (IsClosed x) && is_spilled_ x then n + 1 else n)
  end.

(** [probe_stream_reservation_.GetReservation()]; a closed sub-reservation
    holds nothing. *)
Definition GetReservation (b : PhjBuilder) : Z :=
  match probe_stream_reservation_ b with
  | Some bytes => bytes
  | None => 0
  end.

(** Modelled from the spec: [BufferPool::ClientHandle::SaveReservation(sub,
    bytes)] moves [bytes] of the client's unused reservation into the
    sub-reservation ("save the computed amount into the named
    sub-reservation"). *)
Definition SaveReservation (bytes : Z) : M unit :=
  modify (fun b =>
    set_world (client_SaveReservation bytes (world b))
      (set_probe_stream_reservation (Some (GetReservation b + bytes)) b)).

(** Modelled from the spec: [RestoreReservation(sub, bytes)] moves [bytes]
    back from the sub-reservation to the client. *)
Definition RestoreReservation (bytes : Z) : M unit :=
  modify (fun b =>
    set_world (client_RestoreReservation bytes (world b))
      (set_probe_stream_reservation (Some (GetReservation b - bytes)) b)).

(** The [while] loop of [ReserveProbeBuffers], cut after [fuel] turns (see
    [AppendRowStreamFull_loop]); the result is [addtl_reservation]. *)
Fixpoint ReserveProbeBuffers_loop (fuel : nat) (addtl_reservation : Z) : M Z :=
  b <- get ;;
  if addtl_reservation >? GetUnusedReservation (world b) then
    match fuel with
    | O => fail LOOP_CUT
    | S fuel' =>
        spilled_partition <- SpillPartition UNPIN_ALL ;;
        (* Don't need to create a probe stream for the null-aware partition. *)
        if decide (Some spilled_partition <> null_aware_partition_ b) then
          ReserveProbeBuffers_loop fuel' (addtl_reservation + spillable_buffer_size_ b)
        else ReserveProbeBuffers_loop fuel' addtl_reservation
    end
  else ret addtl_reservation.

(** [PhjBuilder::ReserveProbeBuffers(input_is_spilled)]. *)
Definition ReserveProbeBuffers (input_is_spilled : bool) : M unit :=
  (* DCHECK_EQ(PARTITION_FANOUT, hash_partitions_.size()) *)
  b <- get ;;
  n <- GetNumSpilledPartitions (hash_partitions_ b) ;;
  let num_probe_streams := n + (if input_is_spilled then 1 else 0) in
  let per_stream_reservation := spillable_buffer_size_ b in
  let addtl_reservation :=
    num_probe_streams * per_stream_reservation - GetReservation b in
  addtl <- ReserveProbeBuffers_loop (S (length (all_partitions_ b))) addtl_reservation ;;
  SaveReservation addtl.

(** [PhjBuilder::BuildHashTablesAndReserveProbeBuffers()]. *)
Definition BuildHashTablesAndReserveProbeBuffers : M unit :=
  (* DCHECK_EQ(PARTITION_FANOUT, hash_partitions_.size()) *)
  for_each (seq 0 PARTITION_FANOUT) (fun i =>
    partition <- hash_partition_at i ;;
    s <- build_rows partition ;;
    x <- deref partition ;;
    if num_rows s =? 0 then
      (* This partition is empty, no need to do anything else. *)
      Close_partition partition false
    else if is_spilled_ x then
      (* We don't need any build-side data for spilled partitions in memory. *)
      stream_status partition (OpUnpinStream UNPIN_ALL)
    else ret tt) ;;;
  level <- ht_ctx_level ;;
  let input_is_spilled := level >? 0 in
  ReserveProbeBuffers input_is_spilled ;;;
  for_each (seq 0 PARTITION_FANOUT) (fun i =>
    partition <- hash_partition_at i ;;
    x <- deref partition ;;
    if IsClosed x || is_spilled_ x then ret tt
    else
      (* DCHECK(partition->build_rows()->is_pinned()) *)
      built <- BuildHashTable partition ;;
      (* If we did not have enough memory to build this hash table, we need
         to spill this partition (clean up the hash table, unpin build). *)
      if negb built then Spill partition UNPIN_ALL else ret tt) ;;;
  (* We may have spilled additional partitions while building hash tables. *)
  ReserveProbeBuffers input_is_spilled.

(** The loop of [PublishRuntimeFilters] over [filter_ctxs_]; the result is
    [num_enabled_filters]. *)
Fixpoint PublishRuntimeFilters_loop (ctxs : list FilterContext) (num_build_rows : Z)
    (num_enabled_filters : Z) : M Z :=
  match ctxs with
  | [] => ret num_enabled_filters
  | ctx :: rest =>
      let '(bloom_filter, n1) :=
        match local_bloom_filter ctx with
        | Some f =>
            if FpRateTooHigh (filter_size ctx) num_build_rows
            then (Some ALWAYS_TRUE_FILTER, num_enabled_filters)
            else (Some (Scratch f), num_enabled_filters + 1)
        | None =>
            match local_min_max_filter ctx with
            | Some m =>
                if negb (AlwaysTrue m) then (None, num_enabled_filters + 1)
                else (None, num_enabled_filters)
            | None => (None, num_enabled_filters)
            end
        end in
      (* runtime_state_->filter_bank()->UpdateFilterFromLocal(...) *)
      modify (fun b =>
        set_filter_bank_updates
          (filter_bank_updates b
             ++ [mkUpdate (filter_id ctx) bloom_filter (local_min_max_filter ctx)]) b) ;;;
      PublishRuntimeFilters_loop rest num_build_rows n1
  end.

(** [PhjBuilder::PublishRuntimeFilters(num_build_rows)].  The info string
    "n of m Runtime Filters Published" is kept as its [n]. *)
Definition PublishRuntimeFilters (num_build_rows : Z) : M unit :=
  ctxs <- gets filter_ctxs_ ;;
  num_enabled_filters <- PublishRuntimeFilters_loop ctxs num_build_rows 0 ;;
  if 0 <? Z.of_nat (length ctxs) then
    modify (set_num_enabled_filters_info (Some num_enabled_filters))
  else ret tt.

(** The first loop of [FlushFinal]: the rows of the round. *)
Fixpoint sum_num_rows (partitions : list ptr) (num_build_rows : Z) : M Z :=
  match partitions with
  | [] => ret num_build_rows
  | p :: rest =>
      s <- build_rows p ;;
      sum_num_rows rest (num_build_rows + num_rows s)
  end.

(** [PhjBuilder::FlushFinal(state)]; the [LargestPartitionPercent] counter
    and the log are left out. *)
Definition FlushFinal : M unit :=
  hp <- gets hash_partitions_ ;;
  num_build_rows <- sum_num_rows hp 0 ;;
  level <- ht_ctx_level ;;
  (if level =? 0 then
     PublishRuntimeFilters num_build_rows ;;;
     modify (fun b => set_non_empty_build (non_empty_build_ b || (0 <? num_build_rows)) b)
   else ret tt) ;;;
  na <- gets null_aware_partition_ ;;
  match na with
  | Some p =>
      x <- deref p ;;
      if is_spilled_ x then
        (* Free up memory for the hash tables of other partitions by
           unpinning the last block of the null aware partition's stream. *)
        Spill p UNPIN_ALL
      else ret tt
  | None => ret tt
  end ;;;
  BuildHashTablesAndReserveProbeBuffers ;;;
  st <- gets state_ ;;
  if HashJoinState_eqb st PARTITIONING_BUILD then UpdateState PARTITIONING_PROBE
  else
    (* DCHECK_ENUM_EQ(state_, HashJoinState::REPARTITIONING_BUILD) *)
    UpdateState REPARTITIONING_PROBE.

(** [PhjBuilder::HashTableStoresNulls()]; [std::accumulate] folds from the
    left.  [is_not_distinct_from_] has one flag per equality conjunct,
    pushed by [InitExprsAndFilters]. *)
Definition HashTableStoresNulls (b : PhjBuilder) : bool :=
  TJoinOp_eqb (join_op_ b) RIGHT_OUTER_JOIN
  || TJoinOp_eqb (join_op_ b) RIGHT_ANTI_JOIN
  || TJoinOp_eqb (join_op_ b) FULL_OUTER_JOIN
  || fold_left orb (is_not_distinct_from_ b) false.

(** [PhjBuilder::Prepare(state, parent_mem_tracker)]: the hash-table context
    is created at level 0 with [HashTableStoresNulls()]; the profile
    counters are left out. *)
Definition Prepare : M unit :=
  runtime OpDataSinkPrepare ;;;
  runtime OpHashTableCtxCreate ;;;
  modify (fun b => set_ht_ctx (Some (mkCtx 0 (HashTableStoresNulls b))) b) ;;;
  ctxs <- gets filter_ctxs_ ;;
  for_each ctxs (fun ctx => runtime (OpExprEvalCreate (filter_id ctx))).

(** The loop of [AllocateRuntimeFilters] over [filter_ctxs_]. *)
Fixpoint AllocateRuntimeFilters_loop (ctxs : list FilterContext) (w : World) :
    list FilterContext * World :=
  match ctxs with
  | [] => ([], w)
  | ctx :: rest =>
      let '(ctx1, w1) :=
        if is_bloom_filter ctx then
          let '(f, w1) := AllocateScratchBloomFilter (filter_id ctx) w in
          (mkFilterCtx (filter_id ctx) (filter_size ctx) (is_bloom_filter ctx)
             f (local_min_max_filter ctx), w1)
        else
          let '(f, w1) := AllocateScratchMinMaxFilter (filter_id ctx) w in
          (mkFilterCtx (filter_id ctx) (filter_size ctx) (is_bloom_filter ctx)
             (local_bloom_filter ctx) f, w1) in
      let '(rest1, w2) := AllocateRuntimeFilters_loop rest w1 in
      (ctx1 :: rest1, w2)
  end.

(** [PhjBuilder::AllocateRuntimeFilters()]. *)
Definition AllocateRuntimeFilters : M unit :=
  modify (fun b =>
    let '(ctxs, w) := AllocateRuntimeFilters_loop (filter_ctxs_ b) (world b) in
    set_world w (set_filter_ctxs ctxs b)).

(** [PhjBuilder::Open(state)]. *)
Definition Open : M unit :=
  modify (fun b =>
    match probe_stream_reservation_ b with
    | None => set_probe_stream_reservation (Some 0) b
    | Some _ => b
    end) ;;;
  c <- gets ht_ctx_ ;;
  match c with
  | None => fail NULL_POINTER
  | Some _ => runtime OpHashTableCtxOpen
  end ;;;
  ctxs <- gets filter_ctxs_ ;;
  for_each ctxs (fun ctx => runtime (OpExprEvalOpen (filter_id ctx))) ;;;
  CreateHashPartitions 0 ;;;
  AllocateRuntimeFilters ;;;
  op <- gets join_op_ ;;
  if TJoinOp_eqb op NULL_AWARE_LEFT_ANTI_JOIN then
    CreateAndPreparePartition 0
      (fun p => modify (set_null_aware_partition (Some p))) ;;;
    ret tt
  else ret tt.

(** The loop of [CloseAndDeletePartitions]: [Close] on every partition of
    [all_partitions_], in order. *)
Fixpoint close_all (batch : bool) (l : list Partition) (w : World) :
    list Partition * World :=
  match l with
  | [] => ([], w)
  | x :: rest =>
      let '(x1, w1) := Partition_Close batch x w in
      let '(rest1, w2) := close_all batch rest w1 in
      (x1 :: rest1, w2)
  end.

Definition close_all_partitions (batch : bool) (b : PhjBuilder) : PhjBuilder :=
  let '(l, w) := close_all batch (all_partitions_ b) (world b) in
  set_world w (set_all_partitions l b).

(** [PhjBuilder::CloseAndDeletePartitions(row_batch)]: close all the
    partitions and clean up all references to them. *)
Definition CloseAndDeletePartitions (row_batch : bool) (b : PhjBuilder) : PhjBuilder :=
  let b1 := close_all_partitions row_batch b in
  set_null_aware_partition None (set_hash_partitions [] (set_all_partitions [] b1)).

(** [PhjBuilder::Close(state)]. *)
Definition Close (b : PhjBuilder) : PhjBuilder :=
  if closed_ b then b
  else
    let b1 := CloseAndDeletePartitions false b in
    let w1 :=
      match ht_ctx_ b1 with
      | Some _ => release_op OpHashTableCtxClose (world b1)
      | None => world b1
      end in
    let w2 :=
      fold_left (fun w ctx => release_op (OpExprEvalClose (filter_id ctx)) w)
        (filter_ctxs_ b1) w1 in
    let w3 := release_op OpObjPoolClear (release_op OpScalarExprClose w2) in
    let w4 := release_op OpDataSinkClose w3 in
    set_closed true
      (set_world w4 (set_probe_stream_reservation None (set_ht_ctx None b1))).

(** The assertion of [PhjBuilder::Reset]:
    [DCHECK_EQ(0, probe_stream_reservation_.GetReservation())]. *)
Definition Reset_DCHECK (b : PhjBuilder) : Prop := GetReservation b = 0.

(** [PhjBuilder::Reset(row_batch)]; the expression-result pool is left out. *)
Definition Reset (row_batch : bool) (b : PhjBuilder) : PhjBuilder :=
  (* DCHECK_EQ(0, probe_stream_reservation_.GetReservation()) *)
  CloseAndDeletePartitions row_batch
    (set_non_empty_build false (set_state PARTITIONING_BUILD b)).

(** [PhjBuilder::HashPartitions]; the source keeps a pointer to
    [hash_partitions_], this is the vector at the time of the call. *)
Record HashPartitions := mkHashPartitions {
  level : Z;
  hash_partitions : list ptr;
  non_empty_build : bool
}.

(** [PhjBuilder::TransferProbeStreamReservation(probe_client)]. *)
Definition TransferProbeStreamReservation : M unit :=
  b <- get ;;
  n <- GetNumSpilledPartitions (hash_partitions_ b) ;;
  let num_buffers :=
    n + (if HashJoinState_eqb (state_ b) PARTITIONING_PROBE then 0 else 1) in
  let saved_reservation := GetReservation b in
  (* DCHECK_GE(saved_reservation, spillable_buffer_size_ * num_buffers) *)
  (* DCHECK_EQ(probe_client, buffer_pool_client_) *)
  RestoreReservation saved_reservation.

(** [PhjBuilder::BeginInitialProbe(probe_client)]. *)
Definition BeginInitialProbe : M HashPartitions :=
  (* DCHECK_ENUM_EQ(state_, HashJoinState::PARTITIONING_PROBE) *)
  (* DCHECK_EQ(PARTITION_FANOUT, hash_partitions_.size()) *)
  TransferProbeStreamReservation ;;;
  level <- ht_ctx_level ;;
  b <- get ;;
  ret (mkHashPartitions level (hash_partitions_ b) (non_empty_build_ b)).

(** Modelled from the spec: [NeedToProcessUnmatchedBuildRows] is declared
    outside this file: "the join op emits unmatched build rows (RIGHT_OUTER,
    RIGHT_ANTI, FULL_OUTER)". *)
Definition NeedToProcessUnmatchedBuildRows (op : TJoinOp) : bool :=
  match op with
  | RIGHT_OUTER_JOIN | RIGHT_ANTI_JOIN | FULL_OUTER_JOIN => true
  | _ => false
  end.

(** The loop of [DoneProbingHashPartitions]; the result is
    [output_partitions]. *)
Fixpoint DoneProbingHashPartitions_loop (indices : list nat) (retain_partition : nat -> bool)
    (output_partitions : list ptr) (batch : bool) : M (list ptr) :=
  match indices with
  | [] => ret output_partitions
  | i :: rest =>
      partition <- hash_partition_at i ;;
      x <- deref partition ;;
      if IsClosed x then
        DoneProbingHashPartitions_loop rest retain_partition output_partitions batch
      else if is_spilled_ x then
        (* Release resources associated with completed partitions. *)
        (if negb (retain_partition i) then Close_partition partition false else ret tt) ;;;
        DoneProbingHashPartitions_loop rest retain_partition output_partitions batch
      else
        op <- gets join_op_ ;;
        if NeedToProcessUnmatchedBuildRows op then
          DoneProbingHashPartitions_loop rest retain_partition
            (output_partitions ++ [partition]) batch
        else
          (* No more processing is required for this partition. *)
          Close_partition partition batch ;;;
          DoneProbingHashPartitions_loop rest retain_partition output_partitions batch
  end.

(** [PhjBuilder::DoneProbingHashPartitions(retain_partition,
    output_partitions, batch)]. *)
Definition DoneProbingHashPartitions (retain_partition : nat -> bool) (batch : bool) :
    M (list ptr) :=
  (* DCHECK(output_partitions->empty()) *)
  out <- DoneProbingHashPartitions_loop (seq 0 PARTITION_FANOUT) retain_partition [] batch ;;
  modify (set_hash_partitions []) ;;;
  ret out.

(** [PhjBuilder::DoneProbingSinglePartition(partition, output_partitions,
    batch)]. *)
Definition DoneProbingSinglePartition (partition : ptr) (output_partitions : list ptr)
    (batch : bool) : M (list ptr) :=
  op <- gets join_op_ ;;
  if NeedToProcessUnmatchedBuildRows op then
    ret (output_partitions ++ [partition])
  else
    (* In any other case, just close the input build partition. *)
    Close_partition partition (if IsLeftSemiJoin op then false else batch) ;;;
    ret output_partitions.

(** [PhjBuilder::LargestPartitionRows()]. *)
Fixpoint LargestPartitionRows_loop (partitions : list ptr) (max_rows : Z) : M Z :=
  match partitions with
  | [] => ret max_rows
  | p :: rest =>
      x <- deref p ;;
      match build_rows_ x with
      | None => LargestPartitionRows_loop rest max_rows
      | Some s =>
          let rows := num_rows s in
          LargestPartitionRows_loop rest (if rows >? max_rows then rows else max_rows)
      end
  end.

Definition LargestPartitionRows : M Z :=
  hp <- gets hash_partitions_ ;;
  LargestPartitionRows_loop hp 0.

(** [RETURN_IF_CANCELLED(state)]. *)
Definition RETURN_IF_CANCELLED : M unit :=
  w <- gets world ;;
  if is_cancelled w then fail CANCELLED else ret tt.

(** [PhjBuilder::RepartitionBuildInput(input_partition)]; timers and
    counters are left out. *)
Definition RepartitionBuildInput (input_partition : ptr) : M unit :=
  x <- deref input_partition ;;
  let new_level := level_ x + 1 in
  (* DCHECK_GE(new_level, 1) *)
  got_read_buffer <- stream_bool input_partition (OpPrepareForRead true) ;;
  if negb got_read_buffer then
    id <- gets join_node_id_ ;;
    fail (MEM_LIMIT_EXCEEDED id)
  else
    CreateHashPartitions new_level ;;;
    (* Repartition 'input_stream' into 'hash_partitions_'. *)
    s <- build_rows input_partition ;;
    for_each (batches_of s) (fun build_batch =>
      RETURN_IF_CANCELLED ;;;
      runtime OpCheckQueryState ;;;
      stream_status input_partition OpGetNext ;;;
      Send build_batch) ;;;
    (* Done reading the input, we can safely close it now to free memory. *)
    Close_partition input_partition false ;;;
    FlushFinal.

(** [PhjBuilder::BeginSpilledProbe(empty_probe, partition, probe_client,
    repartitioned, level, new_partitions)]: the result is [*repartitioned],
    [*level] and, when it was assigned, [*new_partitions]. *)
Definition BeginSpilledProbe (empty_probe : bool) (partition : ptr) :
    M (bool * Z * option HashPartitions) :=
  (* DCHECK(partition->is_spilled()) *)
  (* DCHECK_EQ(0, hash_partitions_.size()) *)
  id <- gets join_node_id_ ;;
  if empty_probe then
    (* DCHECK(NeedToProcessUnmatchedBuildRows(join_op_)) *)
    got_read_buffer <- stream_bool partition (OpPrepareForRead true) ;;
    if negb got_read_buffer then fail (MEM_LIMIT_EXCEEDED id)
    else
      UpdateState PROBING_SPILLED_PARTITION ;;;
      x <- deref partition ;;
      ret (false, level_ x, None)
  else
    (* Set aside memory required for reading the probe stream, so that we
       don't use it for the hash table. *)
    size <- gets spillable_buffer_size_ ;;
    SaveReservation size ;;;
    (* Try to build a hash table for the spilled build partition. *)
    built <- BuildHashTable partition ;;
    if built : bool then
      TransferProbeStreamReservation ;;;
      UpdateState PROBING_SPILLED_PARTITION ;;;
      x <- deref partition ;;
      ret (false, level_ x, None)
    else
      (* This build partition still does not fit in memory, repartition. *)
      UpdateState REPARTITIONING_BUILD ;;;
      x <- deref partition ;;
      let next_partition_level := level_ x + 1 in
      if next_partition_level >=? MAX_PARTITION_DEPTH then
        fail (PARTITIONED_HASH_JOIN_MAX_PARTITION_DEPTH id MAX_PARTITION_DEPTH)
      else
        (* Spill to free memory from hash tables and pinned streams for use
           in new partitions. *)
        Spill partition UNPIN_ALL ;;;
        (* Temporarily free up the probe reservation to use when
           repartitioning. *)
        RestoreReservation size ;;;
        s <- build_rows partition ;;
        let num_input_rows := num_rows s in
        RepartitionBuildInput partition ;;;
        (* Check if there was any reduction in the size of partitions after
           repartitioning. *)
        largest_partition_rows <- LargestPartitionRows ;;
        (* DCHECK_GE(num_input_rows, largest_partition_rows) *)
        if num_input_rows =? largest_partition_rows then
          fail (PARTITIONED_HASH_JOIN_REPARTITION_FAILS id next_partition_level
                  num_input_rows)
        else
          TransferProbeStreamReservation ;;;
          level <- ht_ctx_level ;;
          b <- get ;;
          ret (true, level,
               Some (mkHashPartitions level (hash_partitions_ b) (non_empty_build_ b))).

(** ** Vocabulary of the statements *)

(** What [SpillPartition] compares: the bytes the stream of the partition
    has pinned, plus the size of its hash table when it has one. *)
Definition freed_mem (x : Partition) : Z :=
  match build_rows_ x with
  | Some s =>
      match hash_tbl_ x with
      | Some ht => BytesPinned s + ht_ByteSize ht
      | None => BytesPinned s
      end
  | None => 0
  end.

(** What a method may change besides the world: a flag per group of
    members.  [fp_parts]: the partitions that exist (flags, hash tables,
    stream memory); [fp_rows]: the rows of their streams; [fp_alloc]: new
    partitions in [all_partitions_]; [fp_unspill]: [is_spilled_] going from
    true to false. *)
Record Footprint := mkFp {
  fp_parts : bool;
  fp_rows : bool;
  fp_alloc : bool;
  fp_ht_ctx : bool;
  fp_filter_ctxs : bool;
  fp_state : bool;
  fp_non_empty_build : bool;
  fp_hash_partitions : bool;
  fp_null_aware : bool;
  fp_reservation : bool;
  fp_filter_bank : bool;
  fp_unspill : bool
}.

Definition fp_le (f g : Footprint) : bool :=
  implb (fp_parts f) (fp_parts g) && implb (fp_rows f) (fp_rows g)
  && implb (fp_alloc f) (fp_alloc g) && implb (fp_ht_ctx f) (fp_ht_ctx g)
  && implb (fp_filter_ctxs f) (fp_filter_ctxs g) && implb (fp_state f) (fp_state g)
  && implb (fp_non_empty_build f) (fp_non_empty_build g)
  && implb (fp_hash_partitions f) (fp_hash_partitions g)
  && implb (fp_null_aware f) (fp_null_aware g)
  && implb (fp_reservation f) (fp_reservation g)
  && implb (fp_filter_bank f) (fp_filter_bank g)
  && implb (fp_unspill f) (fp_unspill g).

(** A partition before and after: the level never changes, a closed
    partition stays closed, a stream only ever gains rows at its end. *)
Definition part_agree (fp : Footprint) (x x' : Partition) : Prop :=
  level_ x' = level_ x
  /\ (fp_unspill fp = false -> is_spilled_ x = true -> is_spilled_ x' = true)
  /\ forall s', build_rows_ x' = Some s' ->
       exists s extra, build_rows_ x = Some s /\ rows s' = rows s ++ extra
                       /\ (fp_rows fp = false -> extra = []).

(** A builder before and after a method with footprint [fp]. *)
Record agree (fp : Footprint) (b b' : PhjBuilder) : Prop := mkAgree {
  ag_join_node_id : join_node_id_ b' = join_node_id_ b;
  ag_join_op : join_op_ b' = join_op_ b;
  ag_buffer_size : spillable_buffer_size_ b' = spillable_buffer_size_ b;
  ag_is_not_distinct_from : is_not_distinct_from_ b' = is_not_distinct_from_ b;
  ag_closed : closed_ b' = closed_ b;
  ag_ht_ctx : fp_ht_ctx fp = false -> ht_ctx_ b' = ht_ctx_ b;
  ag_ht_ctx_some : is_Some (ht_ctx_ b) -> is_Some (ht_ctx_ b');
  ag_filter_ctxs : fp_filter_ctxs fp = false -> filter_ctxs_ b' = filter_ctxs_ b;
  ag_filter_ctxs_length : length (filter_ctxs_ b') = length (filter_ctxs_ b);
  ag_state : fp_state fp = false -> state_ b' = state_ b;
  ag_non_empty_build :
    fp_non_empty_build fp = false -> non_empty_build_ b' = non_empty_build_ b;
  ag_hash_partitions :
    fp_hash_partitions fp = false -> hash_partitions_ b' = hash_partitions_ b;
  ag_null_aware :
    fp_null_aware fp = false -> null_aware_partition_ b' = null_aware_partition_ b;
  ag_reservation :
    fp_reservation fp = false ->
    probe_stream_reservation_ b' = probe_stream_reservation_ b;
  ag_filter_bank :
    fp_filter_bank fp = false ->
    filter_bank_updates b' = filter_bank_updates b
    /\ num_enabled_filters_info b' = num_enabled_filters_info b;
  ag_parts : fp_parts fp = false -> all_partitions_ b' = all_partitions_ b;
  ag_length :
    fp_alloc fp = false ->
    length (all_partitions_ b') = length (all_partitions_ b);
  ag_grow : (length (all_partitions_ b) <= length (all_partitions_ b'))%nat;
  ag_part :
    forall p x, all_partitions_ b !! p = Some x ->
      exists x', all_partitions_ b' !! p = Some x' /\ part_agree fp x x'
}.

(** [m] has footprint [fp]: however it ends. *)
Definition footprint {A} (fp : Footprint) (m : M A) : Prop :=
  forall b, agree fp b (snd (m b)).

(** Only the world. *)
Definition fp_world : Footprint :=
  mkFp false false false false false false false false false false false false.
(** The partitions that exist, not their rows. *)
Definition fp_partitions : Footprint :=
  mkFp true false false false false false false false false false false false.
(** The partitions and the level of the hash-table context. *)
Definition fp_build : Footprint :=
  mkFp true false false true false false false false false false false true.
(** The partitions and their rows. *)
Definition fp_append : Footprint :=
  mkFp true true false false false false false false false false false false.
(** What [Send] may change: partitions, rows and filter contexts. *)
Definition fp_send : Footprint :=
  mkFp true true false false true false false false false false false false.
(** The sub-reservation. *)
Definition fp_reserve : Footprint :=
  mkFp false false false false false false false false false true false false.
(** What the end of a round may change at a level above 0. *)
Definition fp_flush : Footprint :=
  mkFp true false false true false true false false false true false true.
(** What the end of a round may change at level 0. *)
Definition fp_flush0 : Footprint :=
  mkFp true false false true false true true false false true true true.
(** New partitions in a new fanout. *)
Definition fp_create : Footprint :=
  mkFp true false true true false false false true false false false false.
(** What [RepartitionBuildInput] may change above level 0. *)
Definition fp_repartition : Footprint :=
  mkFp true true true true true true false true false true false true.

(** Whether a stream call is [AddRow], the only one that adds a row. *)
Definition is_add_row (op : StreamBoolOp TupleRow) : bool :=
  match op with
  | OpAddRow _ => true
  | _ => false
  end.

(** What [PublishRuntimeFilters] hands to the filter bank for one filter
    context, given the rows of the round. *)
Definition handed_to_bank (num_build_rows : Z) (ctx : FilterContext) (u : FilterUpdate) :
    Prop :=
  upd_id u = filter_id ctx
  /\ upd_min_max u = local_min_max_filter ctx
  /\ upd_bloom u =
     match local_bloom_filter ctx with
     | Some f =>
         Some (if FpRateTooHigh (filter_size ctx) num_build_rows
               then ALWAYS_TRUE_FILTER else Scratch f)
     | None => None
     end.

(** Whether the info string of [PublishRuntimeFilters] counts the filter of
    a context as published. *)
Definition counted_as_published (num_build_rows : Z) (ctx : FilterContext) : bool :=
  match local_bloom_filter ctx, local_min_max_filter ctx with
  | Some _, _ => negb (FpRateTooHigh (filter_size ctx) num_build_rows)
  | None, Some m => negb (AlwaysTrue m)
  | None, None => false
  end.

(** The level of the hash-table context, when there is one. *)
Definition current_level (b : PhjBuilder) : option Z :=
  option_map ctx_level (ht_ctx_ b).

(** [m] leaves the builder and the world as they are. *)
Definition pure {A} (m : M A) : Prop := forall b, snd (m b) = b.

(** The partitions and the level of the hash-table context, no partition
    un-spilled. *)
Definition fp_pin : Footprint :=
  mkFp true false false true false false false false false false false false.

(** Partition [p] exists and is spilled. *)
Definition spilled_at (p : ptr) (b : PhjBuilder) : Prop :=
  exists x, all_partitions_ b !! p = Some x /\ is_spilled_ x = true.

(** Partition [p] exists and can spill. *)
Definition spillable (b : PhjBuilder) (p : ptr) : Prop :=
  exists x, all_partitions_ b !! p = Some x /\ CanSpill x = true.

(** What spilling partition [p] would free, as [SpillPartition] counts it. *)
Definition freed_at (b : PhjBuilder) (p : ptr) : Z :=
  match all_partitions_ b !! p with
  | Some x => freed_mem x
  | None => 0
  end.

(** [c], at position [i] of [candidates], is the first of the spillable
    candidates that frees the most, and it frees something. *)
Definition first_largest (b : PhjBuilder) (candidates : list ptr) (i : nat) (c : ptr) :
    Prop :=
  candidates !! i = Some c /\ spillable b c /\ 0 < freed_at b c
  /\ forall j q, candidates !! j = Some q -> spillable b q ->
       freed_at b q <= freed_at b c /\ ((j < i)%nat -> freed_at b q < freed_at b c).

(** No spillable candidate frees anything. *)
Definition nothing_to_free (b : PhjBuilder) (candidates : list ptr) : Prop :=
  forall q, q ∈ candidates -> spillable b q -> freed_at b q <= 0.

(** The pointers of [l] are owned by [all_partitions_]. *)
Definition valid_ptrs (b : PhjBuilder) (l : list ptr) : Prop :=
  forall q, q ∈ l -> is_Some (all_partitions_ b !! q).

(** Whether each partition of [all_partitions_] is closed, and whether it
    is spilled. *)
Definition flags (x : Partition) : bool * bool := (IsClosed x, is_spilled_ x).
Definition part_flags (b : PhjBuilder) : list (bool * bool) :=
  map flags (all_partitions_ b).

(** [m] leaves those flags as they are. *)
Definition keeps_flags {A} (m : M A) : Prop :=
  forall b, part_flags (snd (m b)) = part_flags b.

(** [CanSpill], read off the flags. *)
Definition can_spill_flags (fl : bool * bool) : bool := negb (fst fl) && negb (snd fl).

(** The number of partitions that can spill: the measure of the spill loops. *)
Definition num_can_spill (b : PhjBuilder) : nat :=
  length (List.filter can_spill_flags (part_flags b)).

(** The pointers [AppendRowStreamFull] follows are good: those of the
    fanout and the null-aware partition are owned by [all_partitions_], and
    the partition of the stream is open. *)
Definition append_ready (b : PhjBuilder) (p : ptr) : Prop :=
  valid_ptrs b (hash_partitions_ b)
  /\ (forall na, null_aware_partition_ b = Some na -> is_Some (all_partitions_ b !! na))
  /\ exists x, all_partitions_ b !! p = Some x /\ IsClosed x = false.

(** The rows in the stream of partition [p]. *)
Definition rows_at (b : PhjBuilder) (p : ptr) : option (list TupleRow) :=
  match all_partitions_ b !! p with
  | Some x => option_map rows (build_rows_ x)
  | None => None
  end.

(** One turn of the loop of [AppendRowStreamFull]: spill a partition, try
    the append again, and go round [again] if the stream is still full. *)
Definition spill_and_retry (p : ptr) (row : TupleRow) (again : M unit) : M unit :=
  SpillPartition UNPIN_ALL_EXCEPT_CURRENT ;;;
  r <- stream_bool_raw p (OpAddRow row) ;;
  match r with
  | Success => ret tt
  | Fault e => fail (COLLABORATOR e)
  | Failure => again
  end.

(** How a spill loop may end: well, with the error of a collaborator, or
    with the internal error of [SpillPartition] when nothing is left that
    it would spill. *)
Definition spill_loop_end {A} (b : PhjBuilder) (r : Result A) (b' : PhjBuilder) : Prop :=
  (exists a, r = Ok a)
  \/ (exists e, r = Err (COLLABORATOR e))
  \/ (r = Err (INTERNAL_ERROR_NO_PARTITION_TO_SPILL (join_node_id_ b))
      /\ best_candidate b' = (Ok None, b')).

(** What an append to the stream of [p] leaves in it: the row at the end
    when it ended well, the rows as they were when it did not. *)
Definition appended {A} (b : PhjBuilder) (p : ptr) (row : TupleRow) (r : Result A)
    (b' : PhjBuilder) : Prop :=
  match r with
  | Ok _ => rows_at b' p = option_map (fun l => l ++ [row]) (rows_at b p)
  | Err _ => rows_at b' p = rows_at b p
  end.

(** The calls to the filter bank and the info string. *)
Definition fp_publish : Footprint :=
  mkFp false false false false false false false false false false true false.
(** New partitions, pushed on the fanout. *)
Definition fp_new_partitions : Footprint :=
  mkFp true false true false false false false true false false false false.
(** What handing a fanout back may change: partitions are closed, the
    fanout is cleared. *)
Definition fp_done : Footprint :=
  mkFp true false false false false false false true false false false false.
(** What [Open] may change. *)
Definition fp_open : Footprint :=
  mkFp true false true true true false false true true true false false.

(** ** The calls of the probe side

    Modelled from the spec: the caller of the builder (the join node) is not
    part of the sources at hand.  "Its methods are invoked in strict
    lifecycle order (Prepare -> Open -> Send* -> FlushFinal ->
    [BeginInitialProbe | BeginSpilledProbe] ... -> Close)";
    "BeginInitialProbe: precondition: state is PARTITIONING_PROBE";
    "Reset restores PARTITIONING_BUILD"; every method returns a status and a
    non-OK status ends the join.  Between two calls the world may change,
    and the probe side may read the streams of the partitions it was
    handed. *)

(** Where the caller is in that order. *)
Inductive Phase :=
  | Prepared            (* after Prepare or Reset *)
  | Building            (* after Open, while rows are sent *)
  | Built               (* after FlushFinal of the level-0 round *)
  | ProbingFanout       (* after BeginInitialProbe or a repartitioning *)
  | ProbingPartition    (* after BeginSpilledProbe without repartitioning *)
  | BetweenPartitions.  (* after DoneProbing... *)

(** Modelled from the spec: the builder as its constructor leaves it; the
    member initialisers are in the header.  "Initial: PARTITIONING_BUILD";
    no partition, no fanout, the sub-reservation not yet opened, and
    [non_empty_build_] false. *)
Definition constructed (b : PhjBuilder) : Prop :=
  state_ b = PARTITIONING_BUILD /\ non_empty_build_ b = false /\ closed_ b = false
  /\ all_partitions_ b = [] /\ hash_partitions_ b = []
  /\ null_aware_partition_ b = None /\ probe_stream_reservation_ b = None.

(** The builders a legal sequence of calls can reach, with the phase of the
    caller and, once the level-0 round is flushed, whether that round had
    partitioned at least one row. *)
Inductive reachable : Phase -> option bool -> PhjBuilder -> Prop :=
  | reach_Prepare b b' :
      constructed b -> Prepare b = (Ok tt, b') -> reachable Prepared None b'
  | reach_Open g b b' :
      reachable Prepared g b -> Open b = (Ok tt, b') -> reachable Building None b'
  | reach_Send b batch b' :
      reachable Building None b -> Send batch b = (Ok tt, b') ->
      reachable Building None b'
  | reach_FlushFinal b n b' :
      reachable Building None b ->
      sum_num_rows (hash_partitions_ b) 0 b = (Ok n, b) ->
      FlushFinal b = (Ok tt, b') ->
      reachable Built (Some (0 <? n)) b'
  | reach_BeginInitialProbe g b hp b' :
      reachable Built g b -> BeginInitialProbe b = (Ok hp, b') ->
      reachable ProbingFanout g b'
  | reach_DoneProbingHashPartitions g b retain batch out b' :
      reachable ProbingFanout g b ->
      DoneProbingHashPartitions retain batch b = (Ok out, b') ->
      reachable BetweenPartitions g b'
  | reach_BeginSpilledProbe g b empty_probe partition level b' :
      reachable BetweenPartitions g b ->
      BeginSpilledProbe empty_probe partition b = (Ok (false, level, None), b') ->
      reachable ProbingPartition g b'
  | reach_BeginSpilledProbe_repartitioned g b empty_probe partition level hp b' :
      reachable BetweenPartitions g b ->
      BeginSpilledProbe empty_probe partition b = (Ok (true, level, Some hp), b') ->
      reachable ProbingFanout g b'
  | reach_DoneProbingSinglePartition g b partition out batch out' b' :
      reachable ProbingPartition g b ->
      DoneProbingSinglePartition partition out batch b = (Ok out', b') ->
      reachable BetweenPartitions g b'
  | reach_Reset ph g b row_batch :
      reachable ph g b -> ph <> Built -> reachable Prepared None (Reset row_batch b)
  | reach_world ph g b w :
      reachable ph g b -> reachable ph g (set_world w b)
  | reach_read ph g b p m u b' :
      reachable ph g b -> update p (set_mem m) b = (Ok u, b') -> reachable ph g b'.

(** Every partition is at a level of 0 or more. *)
Definition levels_ok (b : PhjBuilder) : Prop :=
  Forall (fun x => 0 <= level_ x) (all_partitions_ b).

(** What the legal sequences maintain. *)
Definition protocol_invariant (ph : Phase) (g : option bool) (b : PhjBuilder) : Prop :=
  non_empty_build_ b = match g with Some v => v | None => false end
  /\ levels_ok b
  /\ (ph <> Built -> GetReservation b = 0)
  /\ (ph = Building -> current_level b = Some 0)
  /\ (is_Some g <-> ph <> Prepared /\ ph <> Building).

(** [m] maintains [P], however it ends. *)
Definition preserves {A} (P : PhjBuilder -> Prop) (m : M A) : Prop :=
  forall b, P b -> P (snd (m b)).

(** The filter contexts. *)
Definition fp_filters : Footprint :=
  mkFp false false false false true false false false false false false false.

(** A new partition that becomes the null-aware partition. *)
Definition fp_new_null_aware : Footprint :=
  mkFp true false true false false false false false true false false false.

(** Everything but the creation of partitions. *)
Definition fp_no_alloc : Footprint :=
  mkFp true true false true true true true true true true true true.

(** ** Counting the rows of a round *)

(** The stream of a partition has at most [j] rows more than before. *)
Definition part_grow (j : nat) (x x' : Partition) : Prop :=
  forall s', build_rows_ x' = Some s' ->
    exists s, build_rows_ x = Some s /\ (length (rows s') <= length (rows s) + j)%nat.

(** The fanout is the same and no stream has gained more than [j] rows. *)
Definition grow (j : nat) (b b' : PhjBuilder) : Prop :=
  hash_partitions_ b' = hash_partitions_ b
  /\ forall p x, all_partitions_ b !! p = Some x ->
       exists x', all_partitions_ b' !! p = Some x' /\ part_grow j x x'.

(** [m] adds at most [j] rows to any one stream, however it ends. *)
Definition adds {A} (j : nat) (m : M A) : Prop := forall b, grow j b (snd (m b)).

(** Every partition of the fanout exists and holds at most [k] rows. *)
Definition fanout_rows_le (k : nat) (b : PhjBuilder) : Prop :=
  forall q, q ∈ hash_partitions_ b ->
    exists y, all_partitions_ b !! q = Some y
      /\ forall s, build_rows_ y = Some s -> (length (rows s) <= k)%nat.

(** A new partition, or one whose rows are kept. *)
Definition fp_new_partition : Footprint :=
  mkFp true false true false false false false false false false false false.

(** ** One partition at a time *)

(** [m] works on partition [p] only: no partition is created or deleted,
    every other partition is left as it is, and [p] goes from [x] to some
    [x'] with [R x x']. *)
Definition touches {A} (R : Partition -> Partition -> Prop) (p : ptr) (m : M A) : Prop :=
  forall b,
    length (all_partitions_ (snd (m b))) = length (all_partitions_ b)
    /\ (forall q, q <> p -> all_partitions_ (snd (m b)) !! q = all_partitions_ b !! q)
    /\ (forall x, all_partitions_ b !! p = Some x ->
          exists x', all_partitions_ (snd (m b)) !! p = Some x' /\ R x x').

(** The same partition but for the memory-side state of its stream. *)
Definition same_but_mem (x x' : Partition) : Prop :=
  level_ x' = level_ x /\ is_spilled_ x' = is_spilled_ x /\ hash_tbl_ x' = hash_tbl_ x
  /\ option_map rows (build_rows_ x') = option_map rows (build_rows_ x).

(** The same level and the same rows, in a stream that is open if it was. *)
Definition same_rows (x x' : Partition) : Prop :=
  level_ x' = level_ x
  /\ option_map rows (build_rows_ x') = option_map rows (build_rows_ x).

(** The same partition but for its hash table and the memory-side state of
    its stream. *)
Definition same_but_tbl (x x' : Partition) : Prop :=
  level_ x' = level_ x /\ is_spilled_ x' = is_spilled_ x
  /\ option_map rows (build_rows_ x') = option_map rows (build_rows_ x).

(** As [same_but_tbl], and a hash table that was there is still there. *)
Definition keeps_tbl (x x' : Partition) : Prop :=
  same_but_tbl x x' /\ (is_Some (hash_tbl_ x) -> is_Some (hash_tbl_ x')).

(** What [BuildHashTable] makes of a partition, by its result: built, the
    partition is not spilled and has a hash table; not built, the hash table
    it tried is gone (or, when the stream could not be pinned, nothing was
    tried); and only a built hash table changes [is_spilled_]. *)
Definition after_build (x : Partition) (r : Result bool) (x' : Partition) : Prop :=
  same_rows x x'
  /\ match r with
     | Ok true => is_spilled_ x' = false /\ is_Some (hash_tbl_ x')
     | Ok false =>
         is_spilled_ x' = is_spilled_ x
         /\ (hash_tbl_ x' = None \/ hash_tbl_ x' = hash_tbl_ x)
     | Err _ => is_spilled_ x' = is_spilled_ x
     end.

(** The partitions, one of which may be un-spilled. *)
Definition fp_built : Footprint :=
  mkFp true false false false false false false false false false false true.

(** A partition as [CreateAndPreparePartition] leaves it: at its level, open
    with no row, not spilled, without a hash table. *)
Definition fresh_partition (level : Z) (y : Partition) : Prop :=
  level_ y = level /\ is_spilled_ y = false /\ hash_tbl_ y = None
  /\ option_map rows (build_rows_ y) = Some [].

(** ** The reservation for the probe streams *)

(** Whether partition [q] is open and spilled, as [GetNumSpilledPartitions]
    tests it. *)
Definition open_and_spilled (b : PhjBuilder) (q : ptr) : bool :=
  match all_partitions_ b !! q with
  | Some x => negb (IsClosed x) && is_spilled_ x
  | None => false
  end.

(** The number of open and spilled partitions of [l]. *)
Definition num_spilled (b : PhjBuilder) (l : list ptr) : nat :=
  length (List.filter (open_and_spilled b) l).

(** The fanout is in order: its pointers and the pointer to the null-aware
    partition are owned by [all_partitions_], no partition is twice in the
    fanout, and the null-aware partition is not one of the fanout. *)
Definition fanout_ok (b : PhjBuilder) : Prop :=
  valid_ptrs b (hash_partitions_ b)
  /\ (forall na, null_aware_partition_ b = Some na -> is_Some (all_partitions_ b !! na))
  /\ NoDup (hash_partitions_ b)
  /\ (forall na, null_aware_partition_ b = Some na -> na ∉ hash_partitions_ b).

(** The probe streams the builder reserves a buffer for: one per open and
    spilled partition of the fanout, and one more to read the input when
    that is a spilled partition. *)
Definition num_probe_streams (b : PhjBuilder) (input_is_spilled : bool) : Z :=
  Z.of_nat (num_spilled b (hash_partitions_ b)) + (if input_is_spilled then 1 else 0).

(** What building the hash tables of a round may change: the partitions,
    the level of the hash-table context and the sub-reservation. *)
Definition fp_round : Footprint :=
  mkFp true false false true false false false false false true false true.

(** What the end of a level-0 round publishes: the filters and
    [non_empty_build_]. *)
Definition fp_level0 : Footprint :=
  mkFp false false false false false false true false false false true false.

(** ** The end of a round *)

(** "At the end of the function all partitions either have a hash table
    (and therefore are not spilled) or are spilled"; a partition that had no
    row is closed. *)
Definition settled (x : Partition) : Prop :=
  IsClosed x = true \/ is_spilled_ x = true
  \/ (is_spilled_ x = false /\ is_Some (hash_tbl_ x)).

Definition settled_at (b : PhjBuilder) (q : ptr) : Prop :=
  exists x, all_partitions_ b !! q = Some x /\ settled x.

(** Every partition is still there, and settled if it was. *)
Definition settles (b b' : PhjBuilder) : Prop :=
  forall q x, all_partitions_ b !! q = Some x ->
    exists x', all_partitions_ b' !! q = Some x' /\ (settled x -> settled x').

(** ** No row is lost *)

(** [m] takes every partition [x] to some [x'] with [R x x'], however it
    ends. *)
Definition every {A} (R : Partition -> Partition -> Prop) (m : M A) : Prop :=
  forall b q x, all_partitions_ b !! q = Some x ->
    exists x', all_partitions_ (snd (m b)) !! q = Some x' /\ R x x'.

(** The partition keeps its level and its rows, or it had no row and is
    closed. *)
Definition row_safe (x x' : Partition) : Prop :=
  level_ x' = level_ x
  /\ (option_map rows (build_rows_ x') = option_map rows (build_rows_ x)
      \/ (build_rows_ x' = None /\ option_map rows (build_rows_ x) = Some [])).

(** What [FlushFinal] may change before its [UpdateState]. *)
Definition fp_flush_prefix : Footprint :=
  mkFp true false false true false false true false false true true true.

(** The round is at level [L]: the hash-table context and every partition
    of the fanout. *)
Definition round_level (L : Z) (b : PhjBuilder) : Prop :=
  current_level b = Some L
  /\ forall q x, q ∈ hash_partitions_ b -> all_partitions_ b !! q = Some x -> level_ x = L.

(** Everything but the level of the hash-table context, the fanout and the
    creation of partitions. *)
Definition fp_keep_level : Footprint :=
  mkFp true true false false true true true false true true true true.

(** What [DoneProbingHashPartitions] does to one partition of the fanout:
    [retain] is [retain_partition(i)], [unmatched] is
    [NeedToProcessUnmatchedBuildRows(join_op_)]. *)
Definition done_probing (retain unmatched : bool) (x x' : Partition) : Prop :=
  if IsClosed x then x' = x
  else if is_spilled_ x then (if retain then x' = x else IsClosed x' = true)
  else if unmatched then x' = x
  else IsClosed x' = true.

(** The partitions of the fanout that [DoneProbingHashPartitions] hands to
    the caller: in memory, open, and only for a join that emits unmatched
    build rows. *)
Definition is_output (b : PhjBuilder) (q : ptr) : Prop :=
  NeedToProcessUnmatchedBuildRows (join_op_ b) = true
  /\ exists x, all_partitions_ b !! q = Some x
               /\ IsClosed x = false /\ is_spilled_ x = false.

(** [fanout_ok] as a test. *)
Definition fanout_ok_check (b : PhjBuilder) : bool :=
  forallb (fun q => (q <? length (all_partitions_ b))%nat) (hash_partitions_ b)
  && match null_aware_partition_ b with
     | Some na =>
         (na <? length (all_partitions_ b))%nat
         && negb (existsb (Nat.eqb na) (hash_partitions_ b))
     | None => true
     end
  && bool_decide (NoDup (hash_partitions_ b)).

End Model.

Arguments Ok {C A} a.
Arguments Err {C A} e.

(** * A small world for worked examples

    Collaborators simple enough to run the builder on: rows are numbers, a
    stream pins 8 bytes per row, the hash function at a level looks at one
    bit of the row, and the row 0 stands for a row with a NULL key that is
    not stored.  The world says whether streams can be pinned, whether
    spilling may start and how much reservation is unused: a row is added
    only if 8 bytes are unused, and unpinning a stream gives its bytes
    back.  The fanout is 2 to keep the examples small. *)

Record ExampleWorld := mkWorld {
  can_pin : bool;
  can_spill : bool;
  unused_reservation : Z
}.

Definition example_collaborators : Collaborators := {|
  World := ExampleWorld;
  TupleRow := nat;
  StreamState := Z;
  HashTable := unit;
  BloomFilter := nat;
  MinMaxFilter := bool;
  ExtError := nat;
  PARTITION_FANOUT := 2;
  MAX_PARTITION_DEPTH := 16;
  stream_new := fun w => (0, w);
  stream_BytesPinned := fun m => m;
  stream_status_op := fun op rows m w =>
    match op with
    | OpUnpinStream _ =>
        (None, 0, mkWorld (can_pin w) (can_spill w) (unused_reservation w + m))
    | _ => (None, m, w)
    end;
  stream_bool_op := fun op rows m w =>
    match op with
    | OpPinStream =>
        if can_pin w then (Success, 8 * Z.of_nat (length rows), w)
        else (Failure, m, w)
    | OpAddRow _ =>
        if 8 <=? unused_reservation w then
          (Success, m + 8, mkWorld (can_pin w) (can_spill w) (unused_reservation w - 8))
        else (Failure, m, w)
    | _ => (Success, m, w)
    end;
  stream_Close := fun _ _ w => w;
  stream_batches := fun rows => [rows];
  stream_batches_concat := fun rows => app_nil_r rows;
  ht_Create := fun _ w => (tt, w);
  ht_Init := fun ht w => (Success, ht, w);
  ht_InsertBatch := fun ht _ w => (Success, ht, w);
  ht_ByteSize := fun _ => 4;
  ht_HasMatches := fun _ => false;
  ht_Close := fun _ w => w;
  runtime_op := fun op w =>
    match op with
    | OpStartSpilling => if can_spill w then (None, w) else (Some 1%nat, w)
    | _ => (None, w)
    end;
  is_cancelled := fun _ => false;
  GetUnusedReservation := unused_reservation;
  client_SaveReservation := fun n w =>
    mkWorld (can_pin w) (can_spill w) (unused_reservation w - n);
  client_RestoreReservation := fun n w =>
    mkWorld (can_pin w) (can_spill w) (unused_reservation w + n);
  FpRateTooHigh := fun size num_rows => size <? num_rows;
  AlwaysTrue := fun m => m;
  AllocateScratchBloomFilter := fun id w => (Some 0%nat, w);
  AllocateScratchMinMaxFilter := fun id w => (Some false, w);
  bloom_Insert := fun f row => (f + row)%nat;
  minmax_Insert := fun m row => m || (100 <? row)%nat;
  EvalAndHashBuild := fun level row =>
    match row with
    | O => None
    | _ => Some (Nat.modulo (Nat.div row (2 ^ Z.to_nat level)) 2)
    end;
  IsLeftSemiJoin := fun op =>
    match op with
    | LEFT_SEMI_JOIN | LEFT_ANTI_JOIN | NULL_AWARE_LEFT_ANTI_JOIN => true
    | _ => false
    end;
  release_op := fun _ w => w
|}.

Section Scenarios.
Local Existing Instance example_collaborators.

(** A builder as its constructor leaves it. *)
Definition example_builder (op : TJoinOp) (ctxs : list FilterContext) (w : ExampleWorld) :
    PhjBuilder :=
  mkBuilder 1 op 64 [false] ctxs None PARTITIONING_BUILD false false [] [] None None
    [] None w.

Definition plenty : ExampleWorld := mkWorld true true 1000.

(** The builder a method leaves behind. *)
Definition after {A} (m : M A) (b : PhjBuilder) : PhjBuilder := snd (m b).

(** A level-0 build of three rows with one min-max filter; the row 200
    makes the filter always-true. *)
Definition min_max_build : PhjBuilder :=
  after (Send [1; 200; 3]%nat)
    (after Open
       (after Prepare
          (example_builder INNER_JOIN [mkFilterCtx 7 1024 false None None] plenty))).

(** A world in which no stream can be pinned. *)
Definition tight : ExampleWorld := mkWorld false true 1000.

(** A level-0 build of four rows in the tight world: both partitions spill
    at the end of the round.  The probe side then begins, keeps both spilled
    partitions for later, and memory becomes available again. *)
Definition tight_prepared : PhjBuilder :=
  after Prepare (example_builder INNER_JOIN [] tight).

Definition tight_opened : PhjBuilder := after Open tight_prepared.

Definition tight_sent : PhjBuilder := after (Send [1; 2; 3; 4]%nat) tight_opened.

Definition spilled_build : PhjBuilder := after FlushFinal tight_sent.

Definition revisit_spilled : PhjBuilder :=
  set_world plenty
    (after (DoneProbingHashPartitions (fun _ => true) false)
       (after BeginInitialProbe spilled_build)).

(** The end of [min_max_build] with no reservation left: the next row does
    not fit. *)
Definition memory_full : PhjBuilder := set_world (mkWorld true true 0) min_max_build.

(** The same where spilling cannot start (no scratch space, say). *)
Definition spilling_disabled : PhjBuilder :=
  set_world (mkWorld true false 0) min_max_build.

(** A spilled partition at level 15 comes back for probing, and its
    stream still cannot be pinned. *)
Definition level_15 : Partition :=
  mkPartition true 15 (Some (mkStream [1; 2; 3]%nat 0)) None.

Definition deep_partition : PhjBuilder :=
  mkBuilder 1 INNER_JOIN 64 [false] [] (Some (mkCtx 15 false)) PROBING_SPILLED_PARTITION
    true false [level_15] [] None (Some 0) [] None tight.

(** A fanout of two partitions that can spill and whose streams have no
    byte pinned. *)
Definition nothing_pinned : PhjBuilder :=
  mkBuilder 1 INNER_JOIN 64 [false] [] (Some (mkCtx 0 false)) PARTITIONING_BUILD
    false false
    [mkPartition false 0 (Some (mkStream [2%nat] 0)) None;
     mkPartition false 0 (Some (mkStream [1%nat] 0)) None]
    [0%nat; 1%nat] None (Some 0) [] None plenty.

(** The spilled partitions are revisited while no stream can be pinned
    yet. *)
Definition still_tight : PhjBuilder := set_world tight revisit_spilled.

(** Partition 0 of [still_tight] and its stream. *)
Definition rows_2_4 : BufferedTupleStream := mkStream [2; 4]%nat 0.

Definition spilled_2_4 : Partition := mkPartition true 0 (Some rows_2_4) None.

(** The steps of [BeginSpilledProbe] on that partition. *)
Definition still_tight_not_built : PhjBuilder :=
  after (BuildHashTable 0%nat) (after (SaveReservation 64) still_tight).

Definition still_tight_spilled : PhjBuilder :=
  after (Spill 0%nat UNPIN_ALL) (set_state REPARTITIONING_BUILD still_tight_not_built).

Definition still_tight_repartitioned : PhjBuilder :=
  after (RepartitionBuildInput 0%nat) (after (RestoreReservation 64) still_tight_spilled).

(** The same with a build whose partition 0 holds the rows 4 and 8: the
    hash function of level 1 sends both to the same partition. *)
Definition skewed : PhjBuilder :=
  set_world tight
    (after (DoneProbingHashPartitions (fun _ => true) false)
       (after BeginInitialProbe
          (after FlushFinal (after (Send [4; 8; 1]%nat) tight_opened)))).

(** A null-aware anti join whose build input has NULL keys only, at the
    end of its level-0 round. *)
Definition null_keys_opened : PhjBuilder :=
  after Open (after Prepare (example_builder NULL_AWARE_LEFT_ANTI_JOIN [] plenty)).

Definition null_keys_sent : PhjBuilder := after (Send [0; 0]%nat) null_keys_opened.

Definition null_keys_build : PhjBuilder := after FlushFinal null_keys_sent.

(** Partition 0 of [min_max_build], and the build after [Close] on it. *)
Definition rows_200 : BufferedTupleStream := mkStream [200]%nat 8.

Definition in_memory_200 : Partition := mkPartition false 0 (Some rows_200) None.

Definition closed_once : PhjBuilder := after (Close_partition 0%nat false) min_max_build.

(** Partition 0 of [tight_sent]. *)
Definition rows_2_4_pinned : BufferedTupleStream := mkStream [2; 4]%nat 16.

Definition in_memory_2_4 : Partition := mkPartition false 0 (Some rows_2_4_pinned) None.

(** The probe side has begun on [spilled_build]; it keeps the first
    partition of the fanout only. *)
Definition probing_begun : PhjBuilder := after BeginInitialProbe spilled_build.

Definition retain_first (i : nat) : bool := Nat.eqb i 0.

(** The builder on which [BeginSpilledProbe] calls [RepartitionBuildInput]
    in [still_tight]. *)
Definition repartition_input : PhjBuilder :=
  after (RestoreReservation 64) still_tight_spilled.

(** A null-aware anti join before [Open]. *)
Definition null_aware_prepared : PhjBuilder :=
  after Prepare (example_builder NULL_AWARE_LEFT_ANTI_JOIN [] plenty).


(** The fanout that [BeginSpilledProbe] reports for partition 0 of
    [still_tight]. *)
Definition new_fanout : HashPartitions := mkHashPartitions 1 [2; 3]%nat true.





End Scenarios.

(** * Properties *)

Section Proofs.
Context `{C : Collaborators}.

Local Notation "x <- m ;; k" := (bind m (fun x => k))
  (at level 100, m at next level, right associativity).
Local Notation "m ;;; k" := (bind m (fun _ => k))
  (at level 100, right associativity).

(** ** The monad *)

Lemma bind_unfold {A B} (m : M A) (k : A -> M B) (b : PhjBuilder) :
  bind m k b =
  match m b with
  | (Ok a, b1) => k a b1
  | (Err e, b1) => (Err e, b1)
  end.
Proof. reflexivity. Qed.

Lemma bind_Ok_inv {A B} (m : M A) (k : A -> M B) b y b' :
  bind m k b = (Ok y, b') ->
  exists a b1, m b = (Ok a, b1) /\ k a b1 = (Ok y, b').
Proof.
  rewrite bind_unfold. destruct (m b) as [[a|e] b1]; intros H.
  - eauto.
  - discriminate.
Qed.

Lemma bind_Err_inv {A B} (m : M A) (k : A -> M B) b e b' :
  bind m k b = (Err e, b') ->
  m b = (Err e, b') \/ exists a b1, m b = (Ok a, b1) /\ k a b1 = (Err e, b').
Proof.
  rewrite bind_unfold. destruct (m b) as [[a|e0] b1]; intros H.
  - right. eauto.
  - left. congruence.
Qed.

(** ** Footprints *)

Lemma part_agree_refl fp x : part_agree fp x x.
Proof.
  split; [reflexivity|]. split; [auto|].
  intros s' Hs. exists s', []. rewrite app_nil_r. auto.
Qed.

Lemma part_agree_trans fp x y z :
  part_agree fp x y -> part_agree fp y z -> part_agree fp x z.
Proof.
  intros (Hl1 & Hu1 & Hr1) (Hl2 & Hu2 & Hr2). split; [congruence|].
  split; [auto|].
  intros s' Hs. destruct (Hr2 s' Hs) as (s2 & e2 & Hs2 & Hrows2 & He2).
  destruct (Hr1 s2 Hs2) as (s1 & e1 & Hs1 & Hrows1 & He1).
  exists s1, (e1 ++ e2). split; [assumption|]. split.
  - rewrite Hrows2, Hrows1, app_assoc. reflexivity.
  - intros Hf. rewrite He1, He2 by assumption. reflexivity.
Qed.

Lemma part_agree_mono f g x y :
  fp_le f g = true -> part_agree f x y -> part_agree g x y.
Proof.
  intros Hle (Hl & Hu & Hr). unfold fp_le in Hle.
  rewrite !andb_true_iff in Hle. split; [assumption|]. split.
  - intros Hg. apply Hu. destruct (fp_unspill f); [|reflexivity].
    rewrite Hg in Hle. simpl in Hle. intuition discriminate.
  - intros s' Hs. destruct (Hr s' Hs) as (s & e & Hs0 & Hrows & He).
    exists s, e. split; [assumption|]. split; [assumption|].
    intros Hg. apply He.
    destruct (fp_rows f); [|reflexivity]. rewrite Hg in Hle.
    simpl in Hle. intuition discriminate.
Qed.

Lemma agree_refl fp b : agree fp b b.
Proof.
  split; auto. intros p x Hx. exists x. split; [assumption|apply part_agree_refl].
Qed.

Lemma agree_trans fp b1 b2 b3 : agree fp b1 b2 -> agree fp b2 b3 -> agree fp b1 b3.
Proof.
  intros H1 H2. destruct H1, H2. split; try congruence; auto.
  - intros Hf. rewrite ag_ht_ctx1, ag_ht_ctx0; auto.
  - intros Hf. rewrite ag_filter_ctxs1, ag_filter_ctxs0; auto.
  - intros Hf. rewrite ag_state1, ag_state0; auto.
  - intros Hf. rewrite ag_non_empty_build1, ag_non_empty_build0; auto.
  - intros Hf. rewrite ag_hash_partitions1, ag_hash_partitions0; auto.
  - intros Hf. rewrite ag_null_aware1, ag_null_aware0; auto.
  - intros Hf. rewrite ag_reservation1, ag_reservation0; auto.
  - intros Hf. destruct (ag_filter_bank0 Hf), (ag_filter_bank1 Hf). split; congruence.
  - intros Hf. rewrite ag_parts1, ag_parts0; auto.
  - intros Hf. rewrite ag_length1, ag_length0; auto.
  - lia.
  - intros p x Hx. destruct (ag_part0 p x Hx) as (y & Hy & Hxy).
    destruct (ag_part1 p y Hy) as (z & Hz & Hyz).
    exists z. split; [assumption|]. eapply part_agree_trans; eassumption.
Qed.

Lemma fp_le_flag (f g : Footprint) (proj : Footprint -> bool) :
  (implb (proj f) (proj g) = true) -> proj g = false -> proj f = false.
Proof. destruct (proj f), (proj g); simpl; congruence. Qed.

Lemma agree_mono f g b b' : fp_le f g = true -> agree f b b' -> agree g b b'.
Proof.
  intros Hle H. pose proof Hle as Hle'. unfold fp_le in Hle.
  rewrite !andb_true_iff in Hle.
  destruct Hle as
    (((((((((((L1 & L2) & L3) & L4) & L5) & L6) & L7) & L8) & L9) & L10) & L11) & L12).
  destruct H. split; auto.
  - intros Hg. apply ag_ht_ctx0. eapply (fp_le_flag f g fp_ht_ctx); eassumption.
  - intros Hg. apply ag_filter_ctxs0. eapply (fp_le_flag f g fp_filter_ctxs); eassumption.
  - intros Hg. apply ag_state0. eapply (fp_le_flag f g fp_state); eassumption.
  - intros Hg. apply ag_non_empty_build0.
    eapply (fp_le_flag f g fp_non_empty_build); eassumption.
  - intros Hg. apply ag_hash_partitions0.
    eapply (fp_le_flag f g fp_hash_partitions); eassumption.
  - intros Hg. apply ag_null_aware0. eapply (fp_le_flag f g fp_null_aware); eassumption.
  - intros Hg. apply ag_reservation0. eapply (fp_le_flag f g fp_reservation); eassumption.
  - intros Hg. apply ag_filter_bank0. eapply (fp_le_flag f g fp_filter_bank); eassumption.
  - intros Hg. apply ag_parts0. eapply (fp_le_flag f g fp_parts); eassumption.
  - intros Hg. apply ag_length0. eapply (fp_le_flag f g fp_alloc); eassumption.
  - intros p x Hx. destruct (ag_part0 p x Hx) as (y & Hy & Hxy).
    exists y. split; [assumption|]. eapply part_agree_mono; eassumption.
Qed.

Lemma footprint_ret {A} fp (a : A) : footprint fp (ret a).
Proof. intros b. apply agree_refl. Qed.

Lemma footprint_fail {A} fp e : footprint fp (@fail _ A e).
Proof. intros b. apply agree_refl. Qed.

Lemma footprint_get fp : footprint fp get.
Proof. intros b. apply agree_refl. Qed.

Lemma footprint_gets {A} fp (f : PhjBuilder -> A) : footprint fp (gets f).
Proof. intros b. apply agree_refl. Qed.

Lemma footprint_modify fp f : (forall b, agree fp b (f b)) -> footprint fp (modify f).
Proof. intros H b. apply H. Qed.

Lemma footprint_bind {A B} fp (m : M A) (k : A -> M B) :
  footprint fp m -> (forall a, footprint fp (k a)) -> footprint fp (bind m k).
Proof.
  intros Hm Hk b. rewrite bind_unfold. specialize (Hm b).
  destruct (m b) as [[a|e] b1]; simpl in *.
  - eapply agree_trans; [exact Hm | apply Hk].
  - exact Hm.
Qed.

Lemma footprint_weaken {A} f g (m : M A) :
  footprint f m -> fp_le f g = true -> footprint g m.
Proof. intros H Hle b. eapply agree_mono; [exact Hle | apply H]. Qed.

Lemma footprint_for_each {A} fp (l : list A) (f : A -> M unit) :
  (forall a, footprint fp (f a)) -> footprint fp (for_each l f).
Proof.
  intros H. induction l as [|a l IH]; simpl.
  - apply footprint_ret.
  - apply footprint_bind; [apply H | intros _; exact IH].
Qed.

Lemma agree_set_world fp w b : agree fp b (set_world w b).
Proof.
  split; simpl; auto. intros p x Hx. exists x. split; [assumption|apply part_agree_refl].
Qed.

Lemma agree_assign fp p x x' b :
  fp_parts fp = true ->
  all_partitions_ b !! p = Some x ->
  part_agree fp x x' ->
  agree fp b (set_all_partitions (<[p := x']> (all_partitions_ b)) b).
Proof.
  intros Hfp Hx Hxx'. split; simpl; auto; try congruence.
  - intros _. apply length_insert.
  - rewrite length_insert. lia.
  - intros q y Hy. destruct (decide (p = q)) as [->|Hne].
    + exists x'. split.
      * apply list_lookup_insert_eq. eapply lookup_lt_Some; eassumption.
      * congruence.
    + exists y. split.
      * rewrite list_lookup_insert_ne; assumption.
      * apply part_agree_refl.
Qed.

Lemma footprint_deref fp p : footprint fp (deref p).
Proof.
  intros b. unfold deref. destruct (all_partitions_ b !! p); apply agree_refl.
Qed.

Lemma footprint_update fp p f :
  fp_parts fp = true ->
  (forall x, part_agree fp x (f x)) ->
  footprint fp (update p f).
Proof.
  intros Hfp Hf b. unfold update, deref, assign, modify. rewrite bind_unfold.
  destruct (all_partitions_ b !! p) as [x|] eqn:Hx; simpl.
  - eapply agree_assign; eauto.
  - apply agree_refl.
Qed.

Lemma part_agree_set_is_spilled_true fp x : part_agree fp x (set_is_spilled true x).
Proof.
  split; [reflexivity|]. split; [auto|].
  simpl. intros s' Hs. exists s', []. rewrite app_nil_r. auto.
Qed.

Lemma part_agree_set_is_spilled_false fp x :
  fp_unspill fp = true -> part_agree fp x (set_is_spilled false x).
Proof.
  intros Hfp. split; [reflexivity|]. split; [congruence|].
  simpl. intros s' Hs. exists s', []. rewrite app_nil_r. auto.
Qed.

Lemma part_agree_set_hash_tbl fp v x : part_agree fp x (set_hash_tbl v x).
Proof.
  split; [reflexivity|]. split; [auto|].
  simpl. intros s' Hs. exists s', []. rewrite app_nil_r. auto.
Qed.

Lemma part_agree_set_mem fp m x : part_agree fp x (set_mem m x).
Proof.
  unfold set_mem. destruct (build_rows_ x) as [s|] eqn:Hs; [|apply part_agree_refl].
  split; [reflexivity|]. split; [auto|].
  simpl. intros s' Hs'. inversion Hs'; subst. simpl.
  exists s, []. rewrite app_nil_r. auto.
Qed.

Lemma part_agree_add_row fp row x : fp_rows fp = true -> part_agree fp x (add_row row x).
Proof.
  intros Hfp. unfold add_row. destruct (build_rows_ x) as [s|] eqn:Hs; [|apply part_agree_refl].
  split; [reflexivity|]. split; [auto|].
  simpl. intros s' Hs'. inversion Hs'; subst. simpl.
  exists s, [row]. split; [assumption|]. split; [reflexivity|]. congruence.
Qed.

Lemma part_agree_close fp batch x w : part_agree fp x (fst (Partition_Close batch x w)).
Proof.
  unfold Partition_Close. destruct (IsClosed x); [apply part_agree_refl|].
  destruct (build_rows_ x) as [s|] eqn:Hs; simpl; [|apply part_agree_refl].
  split; [reflexivity|]. split; [auto|]. simpl. discriminate.
Qed.

Ltac solve_part_agree :=
  first
    [ apply part_agree_refl | apply part_agree_set_is_spilled_true
    | apply part_agree_set_is_spilled_false; reflexivity
    | apply part_agree_set_hash_tbl | apply part_agree_set_mem
    | apply part_agree_add_row; reflexivity ].

Ltac solve_agree :=
  first
    [ apply agree_refl
    | apply agree_set_world
    | split; simpl; intros; auto; try congruence; try discriminate; try lia;
      try (eexists; split; [eassumption | apply part_agree_refl]) ].

Create HintDb fp discriminated.

Lemma footprint_pure {A} fp (m : M A) : pure m -> footprint fp m.
Proof. intros H b. rewrite H. apply agree_refl. Qed.

Ltac fp_step :=
  match goal with
  | |- footprint _ (ret _) => apply footprint_ret
  | |- footprint _ (fail _) => apply footprint_fail
  | |- footprint _ get => apply footprint_get
  | |- footprint _ (gets _) => apply footprint_gets
  | |- footprint _ (bind _ _) => apply footprint_bind; [|intros ?]
  | |- footprint _ (for_each _ _) => apply footprint_for_each; intros ?
  | |- footprint _ (deref _) => apply footprint_deref
  | |- footprint _ (modify _) => apply footprint_modify; intros ?; solve_agree
  | |- footprint _ (update _ _) =>
      apply footprint_update; [reflexivity | intros ?; solve_part_agree]
  | |- footprint _ (match ?x with _ => _ end) => destruct x
  | |- footprint _ _ =>
      first
        [ solve [auto with fp]
        | solve [eapply footprint_weaken; [solve [eauto with fp] | reflexivity]]
        | solve [apply footprint_pure; auto with fp] ]
  end.
Ltac fp_auto := repeat fp_step.

Lemma footprint_build_rows fp p : footprint fp (build_rows p).
Proof. unfold build_rows. fp_auto. Qed.

Lemma footprint_of_ext fp st : footprint fp (of_ext st).
Proof. unfold of_ext. fp_auto. Qed.

Lemma footprint_ht_ctx_level fp : footprint fp ht_ctx_level.
Proof. unfold ht_ctx_level. fp_auto. Qed.

Lemma footprint_hash_partition_at fp i : footprint fp (hash_partition_at i).
Proof. unfold hash_partition_at. fp_auto. Qed.

Lemma footprint_runtime fp op : footprint fp (runtime op).
Proof. unfold runtime. fp_auto. apply footprint_of_ext. Qed.

Lemma footprint_RETURN_IF_CANCELLED fp : footprint fp RETURN_IF_CANCELLED.
Proof. unfold RETURN_IF_CANCELLED. fp_auto. Qed.

Hint Resolve footprint_build_rows footprint_of_ext footprint_ht_ctx_level
  footprint_hash_partition_at footprint_runtime footprint_RETURN_IF_CANCELLED : fp.

Lemma footprint_stream_status_raw p op : footprint fp_partitions (stream_status_raw p op).
Proof. unfold stream_status_raw. fp_auto. Qed.
Hint Resolve footprint_stream_status_raw : fp.

Lemma footprint_stream_status p op : footprint fp_partitions (stream_status p op).
Proof. unfold stream_status. fp_auto. Qed.
Hint Resolve footprint_stream_status : fp.

Lemma footprint_stream_bool_raw p op : footprint fp_append (stream_bool_raw p op).
Proof. unfold stream_bool_raw. fp_auto. Qed.

Lemma footprint_stream_bool_raw_no_add p op :
  is_add_row op = false -> footprint fp_partitions (stream_bool_raw p op).
Proof. intros H. unfold stream_bool_raw. destruct op; try discriminate; fp_auto. Qed.

Lemma footprint_stream_bool p op : footprint fp_append (stream_bool p op).
Proof. unfold stream_bool. fp_auto. apply footprint_stream_bool_raw. Qed.

Lemma footprint_stream_bool_no_add p op :
  is_add_row op = false -> footprint fp_partitions (stream_bool p op).
Proof.
  intros H. unfold stream_bool. fp_auto. apply footprint_stream_bool_raw_no_add; exact H.
Qed.

Lemma footprint_close_and_reset_hash_tbl p :
  footprint fp_partitions (close_and_reset_hash_tbl p).
Proof. unfold close_and_reset_hash_tbl. fp_auto. Qed.
Hint Resolve footprint_close_and_reset_hash_tbl : fp.

Lemma footprint_Close_partition p batch : footprint fp_partitions (Close_partition p batch).
Proof.
  intros b. unfold Close_partition, deref, assign, gets, modify.
  rewrite bind_unfold. destruct (all_partitions_ b !! p) as [x|] eqn:Hx; [|apply agree_refl].
  rewrite bind_unfold. simpl.
  pose proof (part_agree_close fp_partitions batch x (world b)) as Hpa.
  destruct (Partition_Close batch x (world b)) as [x1 w1]. simpl in Hpa.
  rewrite bind_unfold. simpl.
  eapply agree_trans; [eapply agree_assign; eauto | apply agree_set_world].
Qed.
Hint Resolve footprint_Close_partition : fp.

Lemma footprint_Spill p mode : footprint fp_partitions (Spill p mode).
Proof. unfold Spill. fp_auto. Qed.
Hint Resolve footprint_Spill : fp.

Lemma footprint_insert_loop p bs : footprint fp_partitions (insert_loop p bs).
Proof. induction bs as [|batch rest IH]; simpl; fp_auto; try exact IH. Qed.
Hint Resolve footprint_insert_loop : fp.

Lemma footprint_not_built p status : footprint fp_partitions (not_built p status).
Proof. unfold not_built. fp_auto. Qed.
Hint Resolve footprint_not_built : fp.

Lemma footprint_set_level level : footprint fp_pin (set_level level).
Proof. unfold set_level. fp_auto. Qed.
Hint Resolve footprint_set_level : fp.

Lemma footprint_BuildHashTable p : footprint fp_build (BuildHashTable p).
Proof.
  unfold BuildHashTable. fp_auto;
    try (eapply footprint_weaken;
         [apply footprint_stream_bool_no_add || apply footprint_stream_bool_raw_no_add;
          reflexivity | reflexivity]).
Qed.
Hint Resolve footprint_BuildHashTable : fp.

Lemma footprint_UpdateState fp next_state :
  fp_state fp = true -> footprint fp (UpdateState next_state).
Proof. intros H. unfold UpdateState. fp_auto. Qed.

Lemma footprint_largest_candidate fp cands m best :
  footprint fp (largest_candidate cands m best).
Proof.
  revert m best. induction cands as [|c rest IH]; intros m best; simpl; fp_auto; try apply IH.
Qed.
Hint Resolve footprint_largest_candidate : fp.

Lemma footprint_best_candidate fp : footprint fp best_candidate.
Proof. unfold best_candidate. fp_auto. Qed.
Hint Resolve footprint_best_candidate : fp.

Lemma footprint_SpillPartition mode : footprint fp_partitions (SpillPartition mode).
Proof. unfold SpillPartition. fp_auto. Qed.
Hint Resolve footprint_SpillPartition : fp.

Lemma footprint_AppendRowStreamFull_loop fuel p row :
  footprint fp_append (AppendRowStreamFull_loop fuel p row).
Proof.
  induction fuel as [|fuel IH]; simpl; fp_auto; try exact IH.
  apply footprint_stream_bool_raw.
Qed.

Lemma footprint_AppendRowStreamFull p row : footprint fp_append (AppendRowStreamFull p row).
Proof. intros b. unfold AppendRowStreamFull. apply footprint_AppendRowStreamFull_loop. Qed.
Hint Resolve footprint_AppendRowStreamFull : fp.

Lemma footprint_AppendRow p row : footprint fp_append (AppendRow p row).
Proof. unfold AppendRow. fp_auto. apply footprint_stream_bool_raw. Qed.
Hint Resolve footprint_AppendRow : fp.

Lemma footprint_InsertRuntimeFilters row : footprint fp_send (InsertRuntimeFilters row).
Proof.
  unfold InsertRuntimeFilters. apply footprint_modify. intros b.
  split; simpl; intros; auto; try discriminate.
  - apply length_map.
  - eexists; split; [eassumption | apply part_agree_refl].
Qed.
Hint Resolve footprint_InsertRuntimeFilters : fp.

Lemma footprint_ProcessBuildBatch batch build_filters is_null_aware :
  footprint fp_send (ProcessBuildBatch batch build_filters is_null_aware).
Proof. induction batch as [|row rest IH]; simpl; fp_auto; try exact IH. Qed.
Hint Resolve footprint_ProcessBuildBatch : fp.

Lemma footprint_Send batch : footprint fp_send (Send batch).
Proof. unfold Send. fp_auto. Qed.
Hint Resolve footprint_Send : fp.

Lemma footprint_GetNumSpilledPartitions fp l : footprint fp (GetNumSpilledPartitions l).
Proof. induction l as [|p rest IH]; simpl; fp_auto; try exact IH. Qed.
Hint Resolve footprint_GetNumSpilledPartitions : fp.

Lemma footprint_SaveReservation bytes : footprint fp_reserve (SaveReservation bytes).
Proof. unfold SaveReservation. fp_auto. Qed.

Lemma footprint_RestoreReservation bytes : footprint fp_reserve (RestoreReservation bytes).
Proof. unfold RestoreReservation. fp_auto. Qed.
Hint Resolve footprint_SaveReservation footprint_RestoreReservation : fp.

Lemma footprint_ReserveProbeBuffers_loop fuel addtl :
  footprint fp_partitions (ReserveProbeBuffers_loop fuel addtl).
Proof.
  revert addtl. induction fuel as [|fuel IH]; intros addtl; simpl; fp_auto; try apply IH.
Qed.
Hint Resolve footprint_ReserveProbeBuffers_loop : fp.

Lemma footprint_ReserveProbeBuffers input_is_spilled :
  footprint fp_flush (ReserveProbeBuffers input_is_spilled).
Proof. unfold ReserveProbeBuffers. fp_auto. Qed.
Hint Resolve footprint_ReserveProbeBuffers : fp.

Lemma footprint_BuildHashTablesAndReserveProbeBuffers :
  footprint fp_flush BuildHashTablesAndReserveProbeBuffers.
Proof. unfold BuildHashTablesAndReserveProbeBuffers. fp_auto. Qed.
Hint Resolve footprint_BuildHashTablesAndReserveProbeBuffers : fp.

Lemma footprint_PublishRuntimeFilters_loop ctxs n k :
  footprint fp_publish (PublishRuntimeFilters_loop ctxs n k).
Proof.
  revert k. induction ctxs as [|ctx rest IH]; intros k; simpl; fp_auto; try apply IH.
Qed.
Hint Resolve footprint_PublishRuntimeFilters_loop : fp.

Lemma footprint_PublishRuntimeFilters n : footprint fp_publish (PublishRuntimeFilters n).
Proof. unfold PublishRuntimeFilters. fp_auto. Qed.
Hint Resolve footprint_PublishRuntimeFilters : fp.

Lemma footprint_sum_num_rows fp l n : footprint fp (sum_num_rows l n).
Proof. revert n. induction l as [|p rest IH]; intros n; simpl; fp_auto; try apply IH. Qed.
Hint Resolve footprint_sum_num_rows : fp.

Lemma footprint_FlushFinal : footprint fp_flush0 FlushFinal.
Proof. unfold FlushFinal. fp_auto; apply footprint_UpdateState; reflexivity. Qed.
Hint Resolve footprint_FlushFinal : fp.

(** ** HashTableStoresNulls *)

Lemma fold_left_orb_true (l : list bool) (acc : bool) :
  fold_left orb l acc = true <-> acc = true \/ In true l.
Proof.
  revert acc. induction l as [|x l IH]; intros acc; simpl.
  - tauto.
  - rewrite IH, orb_true_iff. intuition auto.
Qed.

Lemma TJoinOp_eqb_eq (x y : TJoinOp) : TJoinOp_eqb x y = true <-> x = y.
Proof. destruct x, y; simpl; split; intros H; try reflexivity; discriminate. Qed.

(** C7.  [HashTableStoresNulls()] returns true exactly when the join op is
    RIGHT_OUTER_JOIN, RIGHT_ANTI_JOIN or FULL_OUTER_JOIN, or at least one
    equality conjunct is "is not distinct from"; and that value is the one
    [Prepare] creates the hash-table context with, so in every other case
    the context is told not to store rows with NULL keys. *)
Theorem HashTableStoresNulls_iff (b : PhjBuilder) :
  (HashTableStoresNulls b = true <->
     join_op_ b = RIGHT_OUTER_JOIN \/ join_op_ b = RIGHT_ANTI_JOIN
     \/ join_op_ b = FULL_OUTER_JOIN \/ In true (is_not_distinct_from_ b))
  /\ match Prepare b with
     | (Ok _, b') =>
         option_map stores_nulls (ht_ctx_ b') = Some (HashTableStoresNulls b)
     | (Err _, _) => True
     end.
Proof.
  split.
  - unfold HashTableStoresNulls.
    rewrite !orb_true_iff, !TJoinOp_eqb_eq, fold_left_orb_true.
    intuition discriminate.
  - unfold Prepare. rewrite bind_unfold.
    pose proof (footprint_runtime fp_world OpDataSinkPrepare b) as H1.
    destruct (runtime OpDataSinkPrepare b) as [[[]|e] b1]; [|exact I].
    rewrite bind_unfold.
    pose proof (footprint_runtime fp_world OpHashTableCtxCreate b1) as H2.
    destruct (runtime OpHashTableCtxCreate b1) as [[[]|e] b2]; [|exact I].
    simpl in H1, H2. rewrite bind_unfold. unfold modify at 1.
    rewrite bind_unfold. unfold gets at 1.
    set (b3 := set_ht_ctx _ b2).
    assert (Hsn : HashTableStoresNulls b2 = HashTableStoresNulls b).
    { unfold HashTableStoresNulls.
      rewrite (ag_join_op _ _ _ H2), (ag_join_op _ _ _ H1).
      rewrite (ag_is_not_distinct_from _ _ _ H2), (ag_is_not_distinct_from _ _ _ H1).
      reflexivity. }
    assert (Hloop : forall l b0,
      ht_ctx_ (snd (for_each l (fun ctx => runtime (OpExprEvalCreate (filter_id ctx))) b0))
      = ht_ctx_ b0).
    { intros l b0. apply (ag_ht_ctx fp_world); [|reflexivity].
      apply footprint_for_each. intros a. apply footprint_runtime. }
    specialize (Hloop (filter_ctxs_ b3) b3).
    destruct (for_each _ _ b3) as [[[]|e] b4]; [|exact I].
    simpl in Hloop. rewrite Hloop. subst b3. simpl. rewrite Hsn. reflexivity.
Qed.

(** ** Close *)

Lemma closed_Close (b : PhjBuilder) : closed_ (Close b) = true.
Proof. unfold Close. destruct (closed_ b) eqn:H; [exact H | reflexivity]. Qed.

Lemma Close_when_closed (b : PhjBuilder) : closed_ b = true -> Close b = b.
Proof. intros H. unfold Close. rewrite H. reflexivity. Qed.

(** C9.  [Close] is idempotent: the first call sets [closed_], and any
    number of further calls return at once and leave the whole builder
    (and the world it holds) as the first call left it. *)
Theorem Close_idempotent (b : PhjBuilder) (n : nat) :
  closed_ (Close b) = true /\ Close (Close b) = Close b
  /\ Nat.iter n Close (Close b) = Close b.
Proof.
  split; [apply closed_Close|]. split.
  - apply Close_when_closed, closed_Close.
  - induction n as [|n IH]; simpl; [reflexivity|].
    rewrite IH. apply Close_when_closed, closed_Close.
Qed.

(** ** Methods that only read *)

Lemma pure_ret {A} (a : A) : pure (ret a).
Proof. intros b. reflexivity. Qed.

Lemma pure_fail {A} e : pure (@fail _ A e).
Proof. intros b. reflexivity. Qed.

Lemma pure_gets {A} (f : PhjBuilder -> A) : pure (gets f).
Proof. intros b. reflexivity. Qed.

Lemma pure_get : pure get.
Proof. intros b. reflexivity. Qed.

Lemma pure_bind {A B} (m : M A) (k : A -> M B) :
  pure m -> (forall a, pure (k a)) -> pure (bind m k).
Proof.
  intros Hm Hk b. rewrite bind_unfold. specialize (Hm b).
  destruct (m b) as [[a|e] b1]; simpl in *; subst; [apply Hk | reflexivity].
Qed.

Lemma pure_deref p : pure (deref p).
Proof. intros b. unfold deref. destruct (all_partitions_ b !! p); reflexivity. Qed.

Ltac pure_step :=
  match goal with
  | |- pure (ret _) => apply pure_ret
  | |- pure (fail _) => apply pure_fail
  | |- pure get => apply pure_get
  | |- pure (gets _) => apply pure_gets
  | |- pure (deref _) => apply pure_deref
  | |- pure (bind _ _) => apply pure_bind; [|intros ?]
  | |- pure (match ?x with _ => _ end) => destruct x
  | |- pure _ => solve [auto with fp]
  end.
Ltac pure_auto := repeat pure_step.

Lemma pure_build_rows p : pure (build_rows p).
Proof. unfold build_rows. pure_auto. Qed.

Lemma pure_ht_ctx_level : pure ht_ctx_level.
Proof. unfold ht_ctx_level. pure_auto. Qed.

Lemma pure_hash_partition_at i : pure (hash_partition_at i).
Proof. unfold hash_partition_at. pure_auto. Qed.
Hint Resolve pure_deref pure_build_rows pure_ht_ctx_level pure_hash_partition_at : fp.

Lemma pure_sum_num_rows l n : pure (sum_num_rows l n).
Proof. revert n. induction l as [|p l IH]; intros n; simpl; pure_auto; try apply IH. Qed.

Lemma pure_largest_candidate cands m best : pure (largest_candidate cands m best).
Proof.
  revert m best. induction cands as [|c l IH]; intros m best; simpl; pure_auto;
    try apply IH.
Qed.
Hint Resolve pure_sum_num_rows pure_largest_candidate : fp.

Lemma pure_best_candidate : pure best_candidate.
Proof. unfold best_candidate. pure_auto. Qed.

Lemma pure_GetNumSpilledPartitions l : pure (GetNumSpilledPartitions l).
Proof. induction l as [|p l IH]; simpl; pure_auto; try apply IH. Qed.

Lemma pure_LargestPartitionRows_loop l n : pure (LargestPartitionRows_loop l n).
Proof. revert n. induction l as [|p l IH]; intros n; simpl; pure_auto; try apply IH. Qed.
Hint Resolve pure_best_candidate pure_GetNumSpilledPartitions
  pure_LargestPartitionRows_loop : fp.

Lemma pure_LargestPartitionRows : pure LargestPartitionRows.
Proof. unfold LargestPartitionRows. pure_auto. Qed.
Hint Resolve pure_LargestPartitionRows : fp.

Lemma pure_eq {A} (m : M A) b r b' : pure m -> m b = (r, b') -> b' = b.
Proof. intros H E. specialize (H b). rewrite E in H. exact H. Qed.

(** ** Runtime filters *)

Lemma PublishRuntimeFilters_loop_spec ctxs n k b :
  exists new,
    PublishRuntimeFilters_loop ctxs n k b
    = (Ok (k + Z.of_nat (length (List.filter (counted_as_published n) ctxs))),
       set_filter_bank_updates (filter_bank_updates b ++ new) b)
    /\ Forall2 (handed_to_bank n) ctxs new.
Proof.
  revert k b. induction ctxs as [|ctx rest IH]; intros k b.
  - exists []. split; [|constructor]. simpl. rewrite app_nil_r, Z.add_0_r.
    destruct b; reflexivity.
  - cbn [PublishRuntimeFilters_loop].
    set (pr := match local_bloom_filter ctx with
               | Some f => _ | None => _ end).
    assert (Hpr : pr =
      (match local_bloom_filter ctx with
       | Some f => Some (if FpRateTooHigh (filter_size ctx) n
                         then ALWAYS_TRUE_FILTER else Scratch f)
       | None => None
       end,
       k + (if counted_as_published n ctx then 1 else 0))).
    { subst pr. unfold counted_as_published.
      destruct (local_bloom_filter ctx) as [f|].
      - destruct (FpRateTooHigh (filter_size ctx) n); simpl; f_equal; lia.
      - destruct (local_min_max_filter ctx) as [m|];
          [destruct (AlwaysTrue m)|]; simpl; f_equal; lia. }
    rewrite Hpr. clear Hpr pr.
    rewrite bind_unfold. unfold modify at 1.
    match goal with
    | |- context [PublishRuntimeFilters_loop rest n ?k1 ?b1] =>
        destruct (IH k1 b1) as (new & Hrun & Hall)
    end.
    eexists (_ :: new). split.
    + rewrite Hrun. simpl. rewrite <- app_assoc. simpl. f_equal. f_equal.
      destruct (counted_as_published n ctx); simpl length; lia.
    + constructor; [|exact Hall]. repeat split; reflexivity.
Qed.

Lemma PublishRuntimeFilters_spec n b :
  exists new b',
    PublishRuntimeFilters n b = (Ok tt, b')
    /\ filter_bank_updates b' = filter_bank_updates b ++ new
    /\ Forall2 (handed_to_bank n) (filter_ctxs_ b) new
    /\ (filter_ctxs_ b <> [] ->
        num_enabled_filters_info b'
        = Some (Z.of_nat (length (List.filter (counted_as_published n) (filter_ctxs_ b))))).
Proof.
  unfold PublishRuntimeFilters. rewrite bind_unfold. unfold gets at 1.
  destruct (PublishRuntimeFilters_loop_spec (filter_ctxs_ b) n 0 b) as (new & Hrun & Hall).
  rewrite bind_unfold, Hrun. exists new.
  destruct (filter_ctxs_ b) as [|c l] eqn:Hc.
  - simpl. eexists. split; [reflexivity|]. simpl. repeat split; auto. congruence.
  - simpl length. replace (0 <? Z.of_nat (S (length l))) with true
      by (symmetry; apply Z.ltb_lt; lia).
    eexists. split; [reflexivity|]. simpl. repeat split; auto.
Qed.

(** Symbolic execution of a method: one [bind] of [E : m b = (r, b')].
    [mstep E] is for a first computation that cannot branch; [mstep E as a
    b1 E1] names the result, the builder and the equation of the first
    computation, and leaves a second goal for its failure. *)
Ltac mstep_prim E :=
  lazymatch type of E with
  | bind ?m ?k ?b = _ =>
      rewrite (bind_unfold m k b) in E;
      lazymatch m with
      | gets ?f => change (gets f b) with (Ok (f b), b) in E; cbv beta iota in E
      | get => change (get b) with (Ok b, b) in E; cbv beta iota in E
      | ret ?a => change (ret a b) with (Ok a, b) in E; cbv beta iota in E
      | modify ?f => change (modify f b) with (Ok tt, f b) in E; cbv beta iota in E
      end
  end.

Ltac mstep_destruct E a b1 E1 :=
  lazymatch type of E with
  | bind ?m ?k ?b = _ =>
      rewrite (bind_unfold m k b) in E;
      let e := fresh "e" in
      destruct (m b) as [[a|e] b1] eqn:E1
  end.

Tactic Notation "mstep" hyp(E) := mstep_prim E.
Tactic Notation "mstep" hyp(E) "as" ident(a) ident(b1) ident(E1) :=
  mstep_destruct E a b1 E1.

(** C5 (as amended).  [FlushFinal] hands filters to the filter bank only
    when the level is 0.  At level 0 it hands over one filter per filter
    context, in order: for a context with a scratch Bloom filter, the
    always-true sentinel exactly when [FpRateTooHigh] says so at the rows of
    the round, and the scratch filter otherwise; the min-max filter of the
    context, whether it is always-true or not.  Being always-true only keeps
    a min-max filter out of the count of the "Runtime Filters Published"
    info string. *)
Theorem FlushFinal_publishes_filters (b : PhjBuilder) :
  (current_level b <> Some 0 ->
   filter_bank_updates (snd (FlushFinal b)) = filter_bank_updates b)
  /\ (forall n,
        current_level b = Some 0 ->
        sum_num_rows (hash_partitions_ b) 0 b = (Ok n, b) ->
        exists new,
          filter_bank_updates (snd (FlushFinal b)) = filter_bank_updates b ++ new
          /\ Forall2 (handed_to_bank n) (filter_ctxs_ b) new
          /\ (filter_ctxs_ b <> [] ->
              num_enabled_filters_info (snd (FlushFinal b))
              = Some (Z.of_nat
                        (length (List.filter (counted_as_published n) (filter_ctxs_ b)))))).
Proof.
  assert (Hrest : footprint fp_flush
      (na <- gets null_aware_partition_ ;;
       match na with
       | Some p => x <- deref p ;; if is_spilled_ x then Spill p UNPIN_ALL else ret tt
       | None => ret tt
       end ;;;
       BuildHashTablesAndReserveProbeBuffers ;;;
       st <- gets state_ ;;
       if HashJoinState_eqb st PARTITIONING_BUILD
       then UpdateState PARTITIONING_PROBE
       else UpdateState REPARTITIONING_PROBE)).
  { fp_auto; apply footprint_UpdateState; reflexivity. }
  destruct (FlushFinal b) as [r bf] eqn:E. simpl snd.
  unfold FlushFinal in E. mstep E. mstep E as n0 b0 Esum;
    pose proof (pure_eq _ _ _ _ (pure_sum_num_rows _ _) Esum) as Hb; subst b0.
  2:{ inversion E; subst. split; [reflexivity|].
      intros n _ Hn. congruence. }
  mstep E as lvl b1 Elvl; unfold ht_ctx_level in Elvl; mstep Elvl; unfold current_level;
    destruct (ht_ctx_ b) as [c|] eqn:Hctx; simpl option_map; inversion Elvl; subst.
  2:{ inversion E; subst. split; [reflexivity|]. intros n Hn. discriminate. }
  clear Elvl.
  mstep E as u b2 Epub.
  2:{ (* the publication never fails *)
      exfalso. destruct (ctx_level c =? 0); [|discriminate].
      destruct (PublishRuntimeFilters_spec n0 b1) as (new & b' & Hpub & _).
      mstep Epub as u b3 E3; [unfold modify in Epub; discriminate | congruence]. }
  assert (Hag : agree fp_flush b2 bf).
  { pose proof (Hrest b2) as Hag. rewrite E in Hag. exact Hag. }
  destruct (ag_filter_bank _ _ _ Hag eq_refl) as [Hu Hi]. rewrite Hu, Hi.
  destruct (Z.eqb_spec (ctx_level c) 0) as [Hl|Hl].
  - split; [intros Hne; exfalso; apply Hne; congruence|].
    intros n _ Hn. assert (n0 = n) by congruence. subst n0.
    destruct (PublishRuntimeFilters_spec n b1) as (new & b' & Hpub & Hupd & Hall & Hcnt).
    mstep Epub as u' b3 E3; [|congruence].
    assert (b3 = b') by congruence. subst b3.
    unfold modify in Epub. inversion Epub; subst.
    exists new. simpl. auto.
  - split; [|intros n Hn; exfalso; apply Hl; congruence].
    intros _. inversion Epub; subst. reflexivity.
Qed.

(** ** Spilling is undone by BuildHashTable only *)

Hint Extern 0 (is_add_row _ = false) => reflexivity : fp.
Hint Resolve footprint_stream_bool_no_add footprint_stream_bool_raw_no_add : fp.

Lemma footprint_stream_bool_raw_AddRow p row :
  footprint fp_append (stream_bool_raw p (OpAddRow row)).
Proof. apply footprint_stream_bool_raw. Qed.
Hint Resolve footprint_stream_bool_raw_AddRow : fp.

Lemma footprint_step {A} fp (m : M A) b r b' :
  footprint fp m -> m b = (r, b') -> agree fp b b'.
Proof. intros H E. specialize (H b). rewrite E in H. exact H. Qed.

(** After [E1 : m b = (r, b1)], extend [Hag : agree fp b0 b] to [b1]. *)
Ltac advance Hag E1 :=
  lazymatch type of E1 with
  | ?m ?b = (_, ?b1) =>
      lazymatch type of Hag with
      | agree ?fp ?b0 b =>
          let H := fresh "Hag" in
          assert (H : agree fp b b1)
            by (eapply footprint_step; [|exact E1]; fp_auto);
          apply (agree_trans _ _ _ _ Hag) in H; clear Hag; rename H into Hag
      end
  end.

Lemma spilled_at_agree fp p b b' :
  fp_unspill fp = false -> agree fp b b' -> spilled_at p b -> spilled_at p b'.
Proof.
  intros Hfp Hag (x & Hx & Hs). destruct (ag_part _ _ _ Hag p x Hx) as (x' & Hx' & _ & Hu & _).
  exists x'. split; [assumption|]. apply Hu; assumption.
Qed.

Lemma update_Ok p f b u b' :
  update p f b = (Ok u, b') ->
  exists x, all_partitions_ b !! p = Some x
            /\ b' = set_all_partitions (<[p := f x]> (all_partitions_ b)) b.
Proof.
  unfold update, deref, assign, modify. rewrite bind_unfold.
  destruct (all_partitions_ b !! p) as [x|] eqn:Hx; intros H; inversion H; subst.
  exists x. auto.
Qed.

Lemma update_Err p f b e b' : update p f b = (Err e, b') -> b' = b.
Proof.
  unfold update, deref, assign, modify. rewrite bind_unfold.
  destruct (all_partitions_ b !! p) as [x|] eqn:Hx; intros H; inversion H; subst.
  reflexivity.
Qed.

Lemma Spill_Ok p mode b u b' :
  Spill p mode b = (Ok u, b') -> spilled_at p b'.
Proof.
  unfold Spill. intros E.
  mstep E as x0 b1 E1; [|discriminate].
  mstep E as u1 b2 E2; [|discriminate].
  mstep E as u2 b3 E3; [|discriminate].
  mstep E as u3 b4 E4; [|discriminate].
  destruct (update_Ok _ _ _ _ _ E) as (x & Hx & ->).
  exists (set_is_spilled true x). split; [|reflexivity]. simpl.
  apply list_lookup_insert_eq. eapply lookup_lt_Some; eassumption.
Qed.

Lemma not_built_result p status b r b' : not_built p status b = (r, b') -> r <> Ok true.
Proof.
  unfold not_built. intros E.
  mstep E as u1 b1 E1; [|inversion E; discriminate].
  mstep E as u2 b2 E2; [|inversion E; discriminate].
  inversion E. discriminate.
Qed.

(** How [BuildHashTable] ends: either it leaves every [is_spilled_] that
    was set as it is and does not answer "built", or it answers "built"
    after clearing the flag of its own partition as its last step. *)
Lemma BuildHashTable_cases p b r b' :
  BuildHashTable p b = (r, b') ->
  (r <> Ok true /\ agree fp_pin b b')
  \/ (r = Ok true
      /\ exists b1 x1,
           agree fp_pin b b1 /\ all_partitions_ b1 !! p = Some x1
           /\ b' = set_all_partitions
                     (<[p := set_is_spilled false x1]> (all_partitions_ b1)) b1).
Proof.
  intros E. pose proof (agree_refl fp_pin b) as Hag.
  unfold BuildHashTable in E.
  mstep E as built b1 E1; advance Hag E1.
  2:{ inversion E; subst. left. split; [discriminate | exact Hag]. }
  destruct built; cbv beta iota delta [negb] in E.
  2:{ inversion E; subst. left. split; [discriminate | exact Hag]. }
  mstep E as x b2 E2; advance Hag E2.
  2:{ inversion E; subst. left. split; [discriminate | exact Hag]. }
  mstep E as u3 b3 E3; advance Hag E3.
  2:{ inversion E; subst. left. split; [discriminate | exact Hag]. }
  mstep E as s b4 E4; advance Hag E4.
  2:{ inversion E; subst. left. split; [discriminate | exact Hag]. }
  mstep E.
  destruct (ht_Create (rows s) (world b4)) as [ht w1].
  destruct (ht_Init ht w1) as [[r0 ht1] w2].
  mstep E as u5 b5 E5; advance Hag E5.
  2:{ inversion E; subst. left. split; [discriminate | exact Hag]. }
  mstep E.
  match type of E with
  | _ ?b6 = _ =>
      assert (Hag6 : agree fp_pin b b6)
        by (eapply agree_trans; [exact Hag | apply agree_set_world]);
      clear Hag; set (b6' := b6) in *; clearbody b6'
  end.
  assert (Hnb : forall status bx, agree fp_pin b bx -> not_built p status bx = (r, b') ->
                r <> Ok true /\ agree fp_pin b b').
  { intros status bx Hbx Enb. split; [eapply not_built_result; eassumption|].
    eapply agree_trans; [exact Hbx|]. eapply footprint_step; [|exact Enb]. fp_auto. }
  destruct r0 as [| |e0]; [|left; eapply Hnb; eassumption..].
  mstep E as r1 b7 E7; advance Hag6 E7.
  2:{ inversion E; subst. left. split; [discriminate | exact Hag6]. }
  assert (Hloop : (e <- insert_loop p (batches_of s) ;;
                   match e with
                   | NotBuilt status => not_built p status
                   | Finished => update p (set_is_spilled false) ;;; ret true
                   end) b7 = (r, b')
                  \/ (exists e1, not_built p (Some e1) b7 = (r, b'))).
  { destruct r1; eauto. }
  clear E. destruct Hloop as [E | [e1 E]]; [|left; eapply Hnb; eassumption].
  mstep E as ex b8 E8; advance Hag6 E8.
  2:{ inversion E; subst. left. split; [discriminate | exact Hag6]. }
  destruct ex as [|status]; [|left; eapply Hnb; eassumption].
  mstep E as u9 b9 E9.
  - inversion E; subst. right. split; [reflexivity|].
    destruct (update_Ok _ _ _ _ _ E9) as (x1 & Hx1 & ->).
    exists b8, x1. auto.
  - inversion E; subst. left. split; [discriminate|].
    rewrite (update_Err _ _ _ _ _ E9). exact Hag6.
Qed.

Lemma not_spilled_after_clear p b1 x1 :
  all_partitions_ b1 !! p = Some x1 ->
  ~ spilled_at p
      (set_all_partitions (<[p := set_is_spilled false x1]> (all_partitions_ b1)) b1).
Proof.
  intros Hx (x & Hlook & Hs). simpl in Hlook.
  rewrite list_lookup_insert_eq in Hlook by (eapply lookup_lt_Some; eassumption).
  inversion Hlook; subst. discriminate.
Qed.

Lemma spilled_at_other p q b1 x1 :
  q <> p ->
  spilled_at q b1 ->
  spilled_at q
    (set_all_partitions (<[p := set_is_spilled false x1]> (all_partitions_ b1)) b1).
Proof.
  intros Hne (x & Hlook & Hs). exists x. split; [|assumption]. simpl.
  rewrite list_lookup_insert_ne by congruence. assumption.
Qed.

(** C1 (as amended).  A partition [q] that is spilled stays spilled through
    [Spill], [Partition::Close], the choice and spilling of a victim, the
    appending of rows and the creation of a fanout, whatever partition they
    work on and however they end.  [BuildHashTable] on [p] is the one
    exception: [q] is spilled after it unless [q] is [p] itself and the
    hash table was built. *)
Theorem is_spilled_cleared_only_by_BuildHashTable (b : PhjBuilder) (p q : ptr) :
  spilled_at q b ->
  (forall mode, spilled_at q (snd (Spill p mode b)))
  /\ (forall batch, spilled_at q (snd (Close_partition p batch b)))
  /\ (forall mode, spilled_at q (snd (SpillPartition mode b)))
  /\ (forall row, spilled_at q (snd (AppendRow p row b)))
  /\ (forall batch, spilled_at q (snd (Send batch b)))
  /\ (forall r b', BuildHashTable p b = (r, b') ->
        (spilled_at q b' <-> q <> p \/ r <> Ok true)).
Proof.
  intros Hq.
  split; [intros mode; eapply (spilled_at_agree fp_partitions); eauto;
          apply footprint_Spill|].
  split; [intros batch; eapply (spilled_at_agree fp_partitions); eauto;
          apply footprint_Close_partition|].
  split; [intros mode; eapply (spilled_at_agree fp_partitions); eauto;
          apply footprint_SpillPartition|].
  split; [intros row; eapply (spilled_at_agree fp_append); eauto;
          apply footprint_AppendRow|].
  split; [intros batch; eapply (spilled_at_agree fp_send); eauto;
          apply footprint_Send|].
  intros r b' E.
  destruct (BuildHashTable_cases _ _ _ _ E) as [[Hr Hag] | (Hr & b1 & x1 & Hag & Hx1 & ->)].
  - split; [auto|]. intros _. eapply (spilled_at_agree fp_pin); eauto.
  - assert (Hq1 : spilled_at q b1) by (eapply (spilled_at_agree fp_pin); eauto).
    split.
    + intros Hs. destruct (decide (q = p)) as [->|Hne]; [|auto].
      exfalso. eapply not_spilled_after_clear; eassumption.
    + intros [Hne | Hne]; [|congruence]. apply spilled_at_other; assumption.
Qed.

(** ** The choice of the partition to spill *)

Lemma deref_Some p b x : all_partitions_ b !! p = Some x -> deref p b = (Ok x, b).
Proof. intros H. unfold deref. rewrite H. reflexivity. Qed.

Lemma build_rows_Some p b x s :
  all_partitions_ b !! p = Some x -> build_rows_ x = Some s -> build_rows p b = (Ok s, b).
Proof.
  intros Hx Hs. unfold build_rows. rewrite bind_unfold, (deref_Some _ _ _ Hx), Hs.
  reflexivity.
Qed.

Lemma CanSpill_open x : CanSpill x = true -> exists s, build_rows_ x = Some s.
Proof.
  unfold CanSpill, IsClosed. destruct (build_rows_ x) as [s|]; [eauto|discriminate].
Qed.

(** One turn of the loop of [SpillPartition] on a candidate that exists. *)
Lemma largest_candidate_cons c rest m best b x :
  all_partitions_ b !! c = Some x ->
  largest_candidate (c :: rest) m best b =
  if CanSpill x && (freed_mem x >? m)
  then largest_candidate rest (freed_mem x) (Some c) b
  else largest_candidate rest m best b.
Proof.
  intros Hx. cbn [largest_candidate]. rewrite bind_unfold, (deref_Some _ _ _ Hx).
  destruct (CanSpill x) eqn:Hc; simpl; [|reflexivity].
  destruct (CanSpill_open _ Hc) as [s Hs].
  rewrite bind_unfold, (build_rows_Some _ _ _ _ Hx Hs).
  unfold freed_mem. rewrite Hs.
  destruct (hash_tbl_ x); cbv zeta;
    match goal with |- context [?u >? m] => destruct (u >? m) end; reflexivity.
Qed.

(** The loop keeps, of the candidates seen so far, the first of those that
    free the most, provided it frees something. *)
Lemma largest_candidate_spec b seen cands m best :
  valid_ptrs b cands ->
  match best with
  | None => m = 0 /\ nothing_to_free b seen
  | Some c => exists i, first_largest b seen i c /\ freed_at b c = m
  end ->
  exists r, largest_candidate cands m best b = (Ok r, b)
    /\ match r with
       | None => nothing_to_free b (seen ++ cands)
       | Some c => exists i, first_largest b (seen ++ cands) i c
       end.
Proof.
  revert seen m best. induction cands as [|c rest IH]; intros seen m best Hvalid Hinv.
  - exists best. split; [reflexivity|]. rewrite app_nil_r.
    destruct best as [c|]; [|tauto]. destruct Hinv as (i & Hi & _). eauto.
  - destruct (Hvalid c) as [x Hx]; [left|].
    rewrite (largest_candidate_cons _ _ _ _ _ _ Hx).
    assert (Hvalid' : valid_ptrs b rest).
    { intros q Hq. apply Hvalid. right. exact Hq. }
    assert (Hm : 0 <= m /\ forall j q, seen !! j = Some q -> spillable b q -> freed_at b q <= m).
    { destruct best as [c0|].
      - destruct Hinv as (i & (Hi & Hsp & Hpos & Hmax) & Hfm). split; [lia|].
        intros j q Hj Hq. destruct (Hmax j q Hj Hq). lia.
      - destruct Hinv as [-> Hnone]. split; [lia|]. intros j q Hj Hq.
        apply Hnone; [|assumption]. eapply list_elem_of_lookup_2; eassumption. }
    destruct Hm as [Hm0 Hmseen].
    assert (Hfc : freed_at b c = freed_mem x) by (unfold freed_at; rewrite Hx; reflexivity).
    replace (seen ++ c :: rest) with ((seen ++ [c]) ++ rest)
      by (rewrite <- app_assoc; reflexivity).
    destruct (CanSpill x && (freed_mem x >? m)) eqn:Htest.
    + apply andb_true_iff in Htest. destruct Htest as [Hcs Hgt].
      apply Z.gtb_lt in Hgt.
      apply IH; [assumption|]. exists (length seen). split; [|assumption].
      split; [|split; [|split]].
      * rewrite lookup_app_r by lia. rewrite Nat.sub_diag. reflexivity.
      * exists x. auto.
      * lia.
      * intros j q Hj Hq. rewrite Hfc.
        destruct (lt_dec j (length seen)) as [Hlt|Hge].
        -- rewrite lookup_app_l in Hj by assumption.
           specialize (Hmseen j q Hj Hq). split; [lia|]. intros _. lia.
        -- rewrite lookup_app_r in Hj by lia.
           destruct (j - length seen)%nat as [|k] eqn:Hk; simpl in Hj; [|discriminate].
           inversion Hj; subst q. rewrite Hfc. split; [lia|]. intros Hlt. lia.
    + apply IH; [assumption|].
      assert (Hc : spillable b c -> freed_at b c <= m).
      { intros (x' & Hx' & Hcs). rewrite Hx in Hx'. inversion Hx'; subst x'.
        rewrite Hcs in Htest. simpl in Htest. rewrite Hfc.
        destruct (Z.gtb_spec (freed_mem x) m); [discriminate|lia]. }
      destruct best as [c0|].
      * destruct Hinv as (i & (Hi & Hsp & Hpos & Hmax) & Hfm). exists i. split; [|assumption].
        split; [|split; [|split]]; try assumption.
        -- rewrite lookup_app_l by (eapply lookup_lt_Some; eassumption). assumption.
        -- intros j q Hj Hq. destruct (lt_dec j (length seen)) as [Hlt|Hge].
           ++ rewrite lookup_app_l in Hj by assumption. auto.
           ++ rewrite lookup_app_r in Hj by lia.
              destruct (j - length seen)%nat as [|k] eqn:Hk; simpl in Hj; [|discriminate].
              inversion Hj; subst q. specialize (Hc Hq). split; [lia|].
              intros Hlt. apply lookup_lt_Some in Hi. lia.
      * destruct Hinv as [-> Hnone]. split; [reflexivity|].
        intros q Hq Hsq. apply elem_of_app in Hq. destruct Hq as [Hq|Hq].
        -- auto.
        -- apply list_elem_of_singleton in Hq. subst q. auto.
Qed.

Lemma best_candidate_null_aware b na :
  null_aware_partition_ b = Some na -> spillable b na ->
  best_candidate b = (Ok (Some na), b).
Proof.
  intros Hna (x & Hx & Hcs). unfold best_candidate.
  rewrite bind_unfold. change (get b) with (Ok b, b). cbv beta iota.
  rewrite Hna, bind_unfold, bind_unfold, (deref_Some _ _ _ Hx).
  unfold ret at 1. rewrite Hcs. reflexivity.
Qed.

Lemma best_candidate_fanout b :
  (null_aware_partition_ b = None
   \/ exists na x, null_aware_partition_ b = Some na
                   /\ all_partitions_ b !! na = Some x /\ CanSpill x = false) ->
  valid_ptrs b (hash_partitions_ b) ->
  exists r, best_candidate b = (Ok r, b)
    /\ match r with
       | Some c => exists i, first_largest b (hash_partitions_ b) i c
       | None => nothing_to_free b (hash_partitions_ b)
       end.
Proof.
  intros Hna Hvalid.
  assert (Hbest : best_candidate b = largest_candidate (hash_partitions_ b) 0 None b).
  { unfold best_candidate. rewrite bind_unfold. change (get b) with (Ok b, b).
    cbv beta iota. destruct Hna as [Hna | (na & x & Hna & Hx & Hcs)]; rewrite Hna.
    - rewrite bind_unfold. reflexivity.
    - rewrite bind_unfold, bind_unfold, (deref_Some _ _ _ Hx).
      unfold ret at 1. rewrite Hcs. reflexivity. }
  rewrite Hbest.
  destruct (largest_candidate_spec b [] (hash_partitions_ b) 0 None Hvalid) as (r & Hr & Hspec).
  { split; [reflexivity|]. intros q Hq. inversion Hq. }
  exists r. split; [exact Hr|]. exact Hspec.
Qed.

Lemma SpillPartition_Ok mode b c b' :
  SpillPartition mode b = (Ok c, b') ->
  best_candidate b = (Ok (Some c), b) /\ Spill c mode b = (Ok tt, b').
Proof.
  intros E. unfold SpillPartition in E.
  mstep E as best b1 E1; [|discriminate].
  pose proof (pure_eq _ _ _ _ pure_best_candidate E1). subst b1.
  destruct best as [p|].
  - mstep E as u b2 E2; [|discriminate]. inversion E; subst. destruct u.
    split; first [assumption | reflexivity].
  - mstep E. discriminate.
Qed.

Lemma SpillPartition_none mode b :
  best_candidate b = (Ok None, b) ->
  SpillPartition mode b
  = (Err (INTERNAL_ERROR_NO_PARTITION_TO_SPILL (join_node_id_ b)), b).
Proof. intros Hnone. unfold SpillPartition. rewrite bind_unfold, Hnone. reflexivity. Qed.

(** C4 (as amended).  The victim of [SpillPartition]: the null-aware
    partition if it exists and can spill; otherwise, of the partitions of
    the fanout that can spill, the one for which [BytesPinned(build_rows)]
    plus, when there is a hash table, [hash_tbl.ByteSize()] is largest, the
    first such in the order of the fanout, provided that amount is
    positive.  When no partition that can spill frees a positive amount,
    none is chosen and [SpillPartition] returns its internal error.  The
    partition chosen is the one [SpillPartition] spills and reports. *)
Theorem SpillPartition_victim (b : PhjBuilder) :
  (forall na, null_aware_partition_ b = Some na -> spillable b na ->
     best_candidate b = (Ok (Some na), b))
  /\ ((null_aware_partition_ b = None
       \/ exists na x, null_aware_partition_ b = Some na
                       /\ all_partitions_ b !! na = Some x /\ CanSpill x = false) ->
      valid_ptrs b (hash_partitions_ b) ->
      exists r, best_candidate b = (Ok r, b)
        /\ match r with
           | Some c => exists i, first_largest b (hash_partitions_ b) i c
           | None => nothing_to_free b (hash_partitions_ b)
           end)
  /\ (forall mode c b', SpillPartition mode b = (Ok c, b') ->
        best_candidate b = (Ok (Some c), b) /\ spilled_at c b')
  /\ (forall mode, best_candidate b = (Ok None, b) ->
        SpillPartition mode b
        = (Err (INTERNAL_ERROR_NO_PARTITION_TO_SPILL (join_node_id_ b)), b)).
Proof.
  split; [|split; [|split]].
  - apply best_candidate_null_aware.
  - apply best_candidate_fanout.
  - intros mode c b' E. destruct (SpillPartition_Ok _ _ _ _ E) as [Hbest Hspill].
    split; [exact Hbest|]. eapply Spill_Ok; eassumption.
  - intros mode. apply SpillPartition_none.
Qed.

(** ** Spill and retry *)

Lemma keeps_flags_ret {A} (a : A) : keeps_flags (ret a).
Proof. intros b. reflexivity. Qed.

Lemma keeps_flags_fail {A} e : keeps_flags (@fail _ A e).
Proof. intros b. reflexivity. Qed.

Lemma keeps_flags_gets {A} (f : PhjBuilder -> A) : keeps_flags (gets f).
Proof. intros b. reflexivity. Qed.

Lemma keeps_flags_get : keeps_flags get.
Proof. intros b. reflexivity. Qed.

Lemma keeps_flags_bind {A B} (m : M A) (k : A -> M B) :
  keeps_flags m -> (forall a, keeps_flags (k a)) -> keeps_flags (bind m k).
Proof.
  intros Hm Hk b. rewrite bind_unfold. specialize (Hm b).
  destruct (m b) as [[a|e] b1]; simpl in *; [rewrite Hk|]; exact Hm.
Qed.

Lemma keeps_flags_pure {A} (m : M A) : pure m -> keeps_flags m.
Proof. intros H b. rewrite H. reflexivity. Qed.

Lemma keeps_flags_modify (f : PhjBuilder -> PhjBuilder) :
  (forall b, all_partitions_ (f b) = all_partitions_ b) -> keeps_flags (modify f).
Proof. intros H b. unfold part_flags. simpl. rewrite H. reflexivity. Qed.

Lemma map_insert {A B} (f : A -> B) (l : list A) (i : nat) (x : A) :
  map f (<[i := x]> l) = <[i := f x]> (map f l).
Proof.
  revert i. induction l as [|y l IH]; intros i; [reflexivity|].
  destruct i as [|i]; simpl; [reflexivity|]. f_equal. apply IH.
Qed.

Lemma map_lookup {A B} (f : A -> B) (l : list A) (i : nat) :
  map f l !! i = option_map f (l !! i).
Proof.
  revert i. induction l as [|y l IH]; intros i; [reflexivity|].
  destruct i as [|i]; simpl; [reflexivity|]. apply IH.
Qed.

Lemma keeps_flags_update p f :
  (forall x, flags (f x) = flags x) -> keeps_flags (update p f).
Proof.
  intros Hf b. unfold update, deref, assign, modify. rewrite bind_unfold.
  destruct (all_partitions_ b !! p) as [x|] eqn:Hx; simpl; [|reflexivity].
  unfold part_flags. simpl. rewrite map_insert, Hf.
  apply list_insert_id. rewrite map_lookup, Hx. reflexivity.
Qed.

Lemma flags_set_mem m x : flags (set_mem m x) = flags x.
Proof.
  unfold set_mem, flags, IsClosed. destruct (build_rows_ x) eqn:H; simpl;
    [|rewrite H]; reflexivity.
Qed.

Lemma flags_add_row row x : flags (add_row row x) = flags x.
Proof.
  unfold add_row, flags, IsClosed. destruct (build_rows_ x) eqn:H; simpl;
    [|rewrite H]; reflexivity.
Qed.

Lemma flags_set_hash_tbl v x : flags (set_hash_tbl v x) = flags x.
Proof. reflexivity. Qed.

Ltac kf_step :=
  match goal with
  | |- keeps_flags (ret _) => apply keeps_flags_ret
  | |- keeps_flags (fail _) => apply keeps_flags_fail
  | |- keeps_flags get => apply keeps_flags_get
  | |- keeps_flags (gets _) => apply keeps_flags_gets
  | |- keeps_flags (bind _ _) => apply keeps_flags_bind; [|intros ?]
  | |- keeps_flags (modify _) =>
      apply keeps_flags_modify; intros ?; reflexivity
  | |- keeps_flags (update _ (set_mem _)) =>
      apply keeps_flags_update; intros ?; apply flags_set_mem
  | |- keeps_flags (update _ (add_row _)) =>
      apply keeps_flags_update; intros ?; apply flags_add_row
  | |- keeps_flags (update _ (set_hash_tbl _)) =>
      apply keeps_flags_update; intros ?; apply flags_set_hash_tbl
  | |- keeps_flags (match ?x with _ => _ end) => destruct x
  | |- keeps_flags _ => solve [apply keeps_flags_pure; auto with fp]
  | |- keeps_flags _ => solve [auto with fp]
  end.
Ltac kf_auto := repeat kf_step.

Lemma keeps_flags_of_ext st : keeps_flags (of_ext st).
Proof. unfold of_ext. kf_auto. Qed.
Hint Resolve keeps_flags_of_ext : fp.

Lemma keeps_flags_runtime op : keeps_flags (runtime op).
Proof. unfold runtime. kf_auto. Qed.

Lemma keeps_flags_stream_status_raw p op : keeps_flags (stream_status_raw p op).
Proof. unfold stream_status_raw. kf_auto. Qed.
Hint Resolve keeps_flags_runtime keeps_flags_stream_status_raw : fp.

Lemma keeps_flags_stream_status p op : keeps_flags (stream_status p op).
Proof. unfold stream_status. kf_auto. Qed.

Lemma keeps_flags_stream_bool_raw p op : keeps_flags (stream_bool_raw p op).
Proof. unfold stream_bool_raw. kf_auto. Qed.

Lemma keeps_flags_close_and_reset_hash_tbl p : keeps_flags (close_and_reset_hash_tbl p).
Proof. unfold close_and_reset_hash_tbl. kf_auto. Qed.
Hint Resolve keeps_flags_stream_status keeps_flags_stream_bool_raw
  keeps_flags_close_and_reset_hash_tbl : fp.

Lemma keeps_flags_step {A} (m : M A) b r b' :
  keeps_flags m -> m b = (r, b') -> part_flags b' = part_flags b.
Proof. intros H E. specialize (H b). rewrite E in H. exact H. Qed.

Lemma part_flags_lookup b p :
  part_flags b !! p = option_map flags (all_partitions_ b !! p).
Proof. apply map_lookup. Qed.

Lemma flags_open b b' p x :
  part_flags b' = part_flags b ->
  all_partitions_ b !! p = Some x ->
  exists x', all_partitions_ b' !! p = Some x' /\ flags x' = flags x.
Proof.
  intros Hfl Hx. pose proof (part_flags_lookup b' p) as H'.
  rewrite Hfl, part_flags_lookup, Hx in H'. simpl in H'.
  destruct (all_partitions_ b' !! p) as [x'|]; simpl in H'; [|discriminate].
  exists x'. split; [reflexivity|]. congruence.
Qed.

Lemma IsClosed_flags x y : flags y = flags x -> IsClosed y = IsClosed x.
Proof. unfold flags. congruence. Qed.

Lemma IsClosed_false x : IsClosed x = false -> exists s, build_rows_ x = Some s.
Proof. unfold IsClosed. destruct (build_rows_ x); [eauto|discriminate]. Qed.

Lemma of_ext_result st b r b' :
  of_ext st b = (r, b') ->
  b' = b /\ (r = Ok tt \/ exists e, r = Err (COLLABORATOR e)).
Proof.
  unfold of_ext. destruct st as [e|]; intros H; inversion H; subst; eauto.
Qed.

Lemma runtime_result op b r b' :
  runtime op b = (r, b') -> r = Ok tt \/ exists e, r = Err (COLLABORATOR e).
Proof.
  unfold runtime. intros E. mstep E.
  destruct (runtime_op op (world b)) as [st w1]. mstep E.
  apply of_ext_result in E. tauto.
Qed.

Lemma update_valid p f b x :
  all_partitions_ b !! p = Some x ->
  update p f b = (Ok tt, set_all_partitions (<[p := f x]> (all_partitions_ b)) b).
Proof.
  intros Hx. unfold update. rewrite bind_unfold, (deref_Some _ _ _ Hx). reflexivity.
Qed.

Lemma close_and_reset_hash_tbl_result p b x r b' :
  all_partitions_ b !! p = Some x ->
  close_and_reset_hash_tbl p b = (r, b') -> r = Ok tt.
Proof.
  intros Hx. unfold close_and_reset_hash_tbl.
  rewrite bind_unfold, (deref_Some _ _ _ Hx).
  destruct (hash_tbl_ x) as [ht|]; [|intros H; inversion H; reflexivity].
  rewrite bind_unfold. unfold modify at 1.
  rewrite (update_valid p _ _ x) by exact Hx. intros H; inversion H; reflexivity.
Qed.

Lemma stream_status_raw_result p op b x r b' :
  all_partitions_ b !! p = Some x -> IsClosed x = false ->
  stream_status_raw p op b = (r, b') -> exists st, r = Ok st.
Proof.
  intros Hx Hopen. destruct (IsClosed_false _ Hopen) as [s Hs].
  unfold stream_status_raw.
  rewrite bind_unfold, (build_rows_Some _ _ _ _ Hx Hs).
  rewrite bind_unfold. change (gets world b) with (Ok (world b), b). cbv beta iota.
  destruct (stream_status_op op (rows s) (mem s) (world b)) as [[st m1] w1].
  rewrite bind_unfold, (update_valid p _ _ x) by exact Hx.
  intros H. inversion H. eauto.
Qed.

Lemma stream_status_result p op b x r b' :
  all_partitions_ b !! p = Some x -> IsClosed x = false ->
  stream_status p op b = (r, b') -> r = Ok tt \/ exists e, r = Err (COLLABORATOR e).
Proof.
  intros Hx Hopen. unfold stream_status. intros E.
  mstep E as st b1 E1.
  - apply of_ext_result in E. tauto.
  - destruct (stream_status_raw_result _ _ _ _ _ _ Hx Hopen E1). discriminate.
Qed.

Lemma stream_bool_raw_result p op b x r b' :
  all_partitions_ b !! p = Some x -> IsClosed x = false ->
  stream_bool_raw p op b = (r, b') -> exists res, r = Ok res.
Proof.
  intros Hx Hopen. destruct (IsClosed_false _ Hopen) as [s Hs].
  unfold stream_bool_raw.
  rewrite bind_unfold, (build_rows_Some _ _ _ _ Hx Hs).
  rewrite bind_unfold. change (gets world b) with (Ok (world b), b). cbv beta iota.
  destruct (stream_bool_op op (rows s) (mem s) (world b)) as [[res m1] w1].
  rewrite bind_unfold, (update_valid p _ _ x) by exact Hx.
  set (b1 := set_all_partitions _ b).
  assert (Hx1 : exists x1, all_partitions_ b1 !! p = Some x1).
  { subst b1. simpl. eexists. apply list_lookup_insert_eq.
    eapply lookup_lt_Some; eassumption. }
  destruct Hx1 as [x1 Hx1].
  rewrite bind_unfold.
  assert (Hmid : exists b2,
    (match op with
     | OpAddRow row => match res with Success => update p (add_row row) | _ => ret tt end
     | _ => ret tt
     end) b1 = (Ok tt, b2)).
  { destruct op; try (eexists; reflexivity).
    destruct res; try (eexists; reflexivity).
    eexists. apply (update_valid p _ _ x1). exact Hx1. }
  destruct Hmid as [b2 Hmid]. rewrite Hmid.
  intros H. inversion H. eauto.
Qed.

(** [Spill] on a partition that exists and is open: it ends well with the
    partition spilled, or it passes on the error of a collaborator; no other
    partition changes its flags. *)
Lemma Spill_spec c mode b x r b' :
  all_partitions_ b !! c = Some x -> IsClosed x = false ->
  Spill c mode b = (r, b') ->
  (r = Ok tt /\ part_flags b' = <[c := (false, true)]> (part_flags b))
  \/ (exists e, r = Err (COLLABORATOR e)) /\ part_flags b' = part_flags b.
Proof.
  intros Hx Hopen E. unfold Spill in E.
  rewrite bind_unfold, (deref_Some _ _ _ Hx) in E.
  mstep E as u1 b1 E1; pose proof (keeps_flags_step _ _ _ _ (keeps_flags_runtime _) E1) as F1.
  2:{ inversion E; subst. right. split; [|assumption].
      destruct (runtime_result _ _ _ _ E1) as [?|?]; [discriminate|assumption]. }
  destruct (flags_open _ _ _ _ F1 Hx) as (x1 & Hx1 & Hf1).
  mstep E as u2 b2 E2;
    pose proof (keeps_flags_step _ _ _ _ (keeps_flags_close_and_reset_hash_tbl _) E2) as F2.
  2:{ pose proof (close_and_reset_hash_tbl_result _ _ _ _ _ Hx1 E2). discriminate. }
  rewrite F1 in F2.
  destruct (flags_open _ _ _ _ F2 Hx) as (x2 & Hx2 & Hf2).
  assert (Hopen2 : IsClosed x2 = false) by (rewrite (IsClosed_flags _ _ Hf2); assumption).
  mstep E as u3 b3 E3;
    pose proof (keeps_flags_step _ _ _ _ (keeps_flags_stream_status _ _) E3) as F3.
  2:{ inversion E; subst. right. split; [|congruence].
      destruct (stream_status_result _ _ _ _ _ _ Hx2 Hopen2 E3) as [?|?];
        [discriminate|assumption]. }
  rewrite F2 in F3.
  destruct (flags_open _ _ _ _ F3 Hx) as (x3 & Hx3 & Hf3).
  rewrite (update_valid c _ _ x3) in E by exact Hx3. inversion E; subst.
  left. split; [reflexivity|]. unfold part_flags at 1. simpl.
  rewrite map_insert. fold (part_flags b3). rewrite F3.
  f_equal. unfold flags. simpl. f_equal.
  change (IsClosed (set_is_spilled true x3)) with (IsClosed x3).
  rewrite (IsClosed_flags _ _ Hf3). exact Hopen.
Qed.

Lemma filter_length_le {A} (P : A -> bool) (l : list A) :
  (length (List.filter P l) <= length l)%nat.
Proof.
  induction l as [|x l IH]; simpl; [lia|]. destruct (P x); simpl; lia.
Qed.

Lemma filter_insert_S {A} (P : A -> bool) (l : list A) (c : nat) (v w : A) :
  l !! c = Some v -> P v = true -> P w = false ->
  S (length (List.filter P (<[c := w]> l))) = length (List.filter P l).
Proof.
  revert c. induction l as [|x l IH]; intros c Hc Hv Hw; [discriminate|].
  destruct c as [|c]; simpl in *.
  - inversion Hc; subst. rewrite Hv, Hw. reflexivity.
  - destruct (P x); simpl; rewrite <- (IH c Hc Hv Hw); reflexivity.
Qed.

Lemma num_can_spill_le_length b : (num_can_spill b <= length (all_partitions_ b))%nat.
Proof.
  unfold num_can_spill. etransitivity; [apply filter_length_le|].
  unfold part_flags. rewrite length_map. lia.
Qed.

Lemma spillable_flags b c : spillable b c <-> part_flags b !! c = Some (false, false).
Proof.
  rewrite part_flags_lookup. unfold spillable, CanSpill, flags. split.
  - intros (x & Hx & Hcs). rewrite Hx. simpl.
    destruct (IsClosed x), (is_spilled_ x); simpl in Hcs; congruence.
  - destruct (all_partitions_ b !! c) as [x|]; simpl; [|discriminate].
    intros H. assert (H1 : IsClosed x = false) by congruence.
    assert (H2 : is_spilled_ x = false) by congruence.
    exists x. rewrite H1, H2. auto.
Qed.

Lemma best_candidate_ready b :
  valid_ptrs b (hash_partitions_ b) ->
  (forall na, null_aware_partition_ b = Some na -> is_Some (all_partitions_ b !! na)) ->
  exists best, best_candidate b = (Ok best, b)
               /\ forall c, best = Some c -> spillable b c.
Proof.
  intros Hvalid Hna.
  destruct (null_aware_partition_ b) as [na|] eqn:Ena.
  - destruct (Hna na eq_refl) as [x Hx]. destruct (CanSpill x) eqn:Hcs.
    + exists (Some na). split.
      * apply best_candidate_null_aware; [assumption|]. exists x. auto.
      * intros c Hc. inversion Hc; subst. exists x. auto.
    + destruct (best_candidate_fanout b) as (r & Hr & Hspec); [right; eauto 6|assumption|].
      exists r. split; [assumption|]. intros c ->.
      destruct Hspec as (i & _ & Hsp & _). exact Hsp.
  - destruct (best_candidate_fanout b) as (r & Hr & Hspec); [left; assumption|assumption|].
    exists r. split; [assumption|]. intros c ->.
    destruct Hspec as (i & _ & Hsp & _). exact Hsp.
Qed.

Lemma valid_ptrs_agree fp b b' l : agree fp b b' -> valid_ptrs b l -> valid_ptrs b' l.
Proof.
  intros Hag Hv q Hq. destruct (Hv q Hq) as [x Hx].
  destruct (ag_part _ _ _ Hag q x Hx) as (x' & Hx' & _). eauto.
Qed.

Lemma append_ready_step b b' p :
  agree fp_append b b' ->
  (forall x, all_partitions_ b !! p = Some x -> IsClosed x = false ->
     exists x', all_partitions_ b' !! p = Some x' /\ IsClosed x' = false) ->
  append_ready b p -> append_ready b' p.
Proof.
  intros Hag Hopen (Hv & Hna & x & Hx & Hcl). split; [|split].
  - rewrite (ag_hash_partitions _ _ _ Hag eq_refl). eapply valid_ptrs_agree; eassumption.
  - intros na Ena. rewrite (ag_null_aware _ _ _ Hag eq_refl) in Ena.
    destruct (Hna na Ena) as [y Hy].
    destruct (ag_part _ _ _ Hag na y Hy) as (y' & Hy' & _). eauto.
  - destruct (Hopen x Hx Hcl) as (x' & Hx' & Hcl'). eauto.
Qed.

Lemma open_after_flags b b' p x :
  part_flags b' = part_flags b ->
  all_partitions_ b !! p = Some x -> IsClosed x = false ->
  exists x', all_partitions_ b' !! p = Some x' /\ IsClosed x' = false.
Proof.
  intros Hfl Hx Hcl. destruct (flags_open _ _ _ _ Hfl Hx) as (x' & Hx' & Hf).
  exists x'. split; [assumption|]. rewrite (IsClosed_flags _ _ Hf). assumption.
Qed.

Lemma open_after_spill b b' c p x :
  part_flags b' = <[c := (false, true)]> (part_flags b) ->
  all_partitions_ b !! p = Some x -> IsClosed x = false ->
  exists x', all_partitions_ b' !! p = Some x' /\ IsClosed x' = false.
Proof.
  intros Hfl Hx Hcl. pose proof (part_flags_lookup b' p) as H'.
  rewrite Hfl in H'. destruct (decide (c = p)) as [->|Hne].
  - rewrite list_lookup_insert_eq in H'.
    2:{ unfold part_flags. rewrite length_map. eapply lookup_lt_Some; eassumption. }
    destruct (all_partitions_ b' !! p) as [x'|]; simpl in H'; [|discriminate].
    exists x'. split; [reflexivity|]. unfold flags in H'. congruence.
  - rewrite list_lookup_insert_ne, part_flags_lookup, Hx in H' by assumption.
    simpl in H'. destruct (all_partitions_ b' !! p) as [x'|]; simpl in H'; [|discriminate].
    exists x'. split; [reflexivity|]. unfold flags in H'. congruence.
Qed.

(** One turn of the loop: it ends the loop in one of the three ways, or it
    has spilled one more partition and goes round again. *)
Lemma rows_at_keep fp b b' p x :
  agree fp b b' -> fp_rows fp = false ->
  all_partitions_ b !! p = Some x ->
  (exists x', all_partitions_ b' !! p = Some x' /\ IsClosed x' = false) ->
  rows_at b' p = rows_at b p.
Proof.
  intros Hag Hfp Hx (x' & Hx' & Hcl). unfold rows_at. rewrite Hx, Hx'.
  destruct (ag_part _ _ _ Hag p x Hx) as (y & Hy & _ & _ & Hrows).
  rewrite Hx' in Hy. inversion Hy; subst y.
  destruct (IsClosed_false _ Hcl) as [s' Hs'].
  destruct (Hrows s' Hs') as (s & extra & Hs & Hr & Hextra).
  rewrite Hs, Hs'. simpl. rewrite Hr, (Hextra Hfp), app_nil_r. reflexivity.
Qed.

Lemma stream_bool_raw_AddRow_rows p row b x res b' :
  all_partitions_ b !! p = Some x -> IsClosed x = false ->
  stream_bool_raw p (OpAddRow row) b = (Ok res, b') ->
  rows_at b' p =
  match res with
  | Success => option_map (fun l => l ++ [row]) (rows_at b p)
  | _ => rows_at b p
  end.
Proof.
  intros Hx Hopen. destruct (IsClosed_false _ Hopen) as [s Hs].
  unfold stream_bool_raw.
  rewrite bind_unfold, (build_rows_Some _ _ _ _ Hx Hs).
  rewrite bind_unfold. change (gets world b) with (Ok (world b), b). cbv beta iota.
  destruct (stream_bool_op (OpAddRow row) (rows s) (mem s) (world b)) as [[res0 m1] w1].
  rewrite bind_unfold, (update_valid p _ _ x) by exact Hx.
  set (b1 := set_all_partitions _ b).
  assert (Hx1 : all_partitions_ b1 !! p = Some (set_mem m1 x)).
  { subst b1. simpl. apply list_lookup_insert_eq. eapply lookup_lt_Some; eassumption. }
  assert (Hr0 : rows_at b p = Some (rows s)).
  { unfold rows_at. rewrite Hx, Hs. reflexivity. }
  rewrite bind_unfold. destruct res0.
  - rewrite (update_valid p _ _ _ Hx1). rewrite bind_unfold. unfold modify at 1.
    intros H. inversion H; subst. rewrite Hr0. unfold rows_at. simpl.
    rewrite list_lookup_insert_eq
      by (rewrite length_insert; eapply lookup_lt_Some; eassumption).
    unfold add_row, set_mem. rewrite Hs. simpl. reflexivity.
  - unfold ret at 1. rewrite bind_unfold. unfold modify at 1.
    intros H. inversion H; subst. rewrite Hr0. unfold rows_at.
    change (all_partitions_ (set_world w1 b1)) with (all_partitions_ b1).
    rewrite Hx1. unfold set_mem. rewrite Hs. reflexivity.
  - unfold ret at 1. rewrite bind_unfold. unfold modify at 1.
    intros H. inversion H; subst. rewrite Hr0. unfold rows_at.
    change (all_partitions_ (set_world w1 b1)) with (all_partitions_ b1).
    rewrite Hx1. unfold set_mem. rewrite Hs. reflexivity.
Qed.

Lemma spill_and_retry_turn p row b :
  append_ready b p ->
  (exists r b',
     (forall again, spill_and_retry p row again b = (r, b'))
     /\ agree fp_append b b' /\ spill_loop_end b r b' /\ appended b p row r b')
  \/ (exists b2,
        (forall again, spill_and_retry p row again b = again b2)
        /\ agree fp_append b b2
        /\ (num_can_spill b2 < num_can_spill b)%nat
        /\ append_ready b2 p
        /\ rows_at b2 p = rows_at b p).
Proof.
  intros Hready. pose proof Hready as (Hvalid & Hna & xp & Hxp & Hclp).
  destruct (best_candidate_ready b Hvalid Hna) as (best & Hbest & Hsp).
  unfold spill_and_retry.
  destruct best as [c|].
  2:{ left. eexists _, b. split; [|split; [|split]].
      - intros again. rewrite bind_unfold, (SpillPartition_none _ _ Hbest). reflexivity.
      - apply agree_refl.
      - right. right. auto.
      - reflexivity. }
  destruct (Hsp c eq_refl) as (xc & Hxc & Hcs).
  assert (Hopen_c : IsClosed xc = false).
  { unfold CanSpill in Hcs. destruct (IsClosed xc); [discriminate|reflexivity]. }
  assert (HSP : forall mode,
    SpillPartition mode b = (c <- (Spill c mode ;;; ret c) ;; ret c) b).
  { intros mode. unfold SpillPartition. rewrite bind_unfold, Hbest.
    rewrite !bind_unfold. destruct (Spill c mode b) as [[u|e] b1]; reflexivity. }
  destruct (Spill c UNPIN_ALL_EXCEPT_CURRENT b) as [r1 b1] eqn:ES.
  pose proof (footprint_step _ _ _ _ _ (footprint_Spill _ _) ES) as Hag1.
  apply (agree_mono fp_partitions fp_append) in Hag1; [|reflexivity].
  assert (Hag1' : agree fp_partitions b b1)
    by exact (footprint_step _ _ _ _ _ (footprint_Spill _ _) ES).
  destruct (Spill_spec _ _ _ _ _ _ Hxc Hopen_c ES) as [[-> Hfl] | [[e ->] Hfl]].
  2:{ left. eexists _, b1. split; [|split; [|split]].
      - intros again. rewrite bind_unfold, HSP, !bind_unfold, ES. reflexivity.
      - exact Hag1.
      - right. left. eauto.
      - simpl. eapply (rows_at_keep fp_partitions); [exact Hag1' | reflexivity | exact Hxp |].
        eapply open_after_flags; eassumption. }
  assert (Hrows1 : rows_at b1 p = rows_at b p).
  { eapply (rows_at_keep fp_partitions); [exact Hag1' | reflexivity | exact Hxp |].
    eapply open_after_spill; eassumption. }
  assert (Hlt : (num_can_spill b1 < num_can_spill b)%nat).
  { unfold num_can_spill. rewrite Hfl.
    rewrite <- (filter_insert_S can_spill_flags (part_flags b) c (false, false) (false, true));
      [lia | | reflexivity | reflexivity].
    apply spillable_flags. exists xc. auto. }
  assert (Hready1 : append_ready b1 p).
  { eapply append_ready_step; [exact Hag1 | | exact Hready].
    intros x Hx Hcl. eapply open_after_spill; eassumption. }
  destruct Hready1 as (Hv1 & Hna1 & x1 & Hx1 & Hcl1).
  destruct (stream_bool_raw p (OpAddRow row) b1) as [r2 b2] eqn:EA.
  pose proof (footprint_step _ _ _ _ _ (footprint_stream_bool_raw _ _) EA) as Hag2.
  pose proof (keeps_flags_step _ _ _ _ (keeps_flags_stream_bool_raw _ _) EA) as Hfl2.
  destruct (stream_bool_raw_result _ _ _ _ _ _ Hx1 Hcl1 EA) as [res ->].
  pose proof (stream_bool_raw_AddRow_rows _ _ _ _ _ _ Hx1 Hcl1 EA) as Hrows2.
  rewrite Hrows1 in Hrows2.
  pose proof (agree_trans _ _ _ _ Hag1 Hag2) as Hag12.
  assert (Hrun : forall again,
    spill_and_retry p row again b
    = match res with
      | Success => (Ok tt, b2)
      | Fault e => (Err (COLLABORATOR e), b2)
      | Failure => again b2
      end).
  { intros again. unfold spill_and_retry. rewrite bind_unfold, HSP, !bind_unfold, ES.
    unfold ret at 1. unfold ret at 1. rewrite bind_unfold, EA.
    destruct res; reflexivity. }
  destruct res as [| |e].
  - left. eexists _, b2. split; [exact Hrun|]. split; [exact Hag12|].
    split; [left; eauto | exact Hrows2].
  - right. exists b2. split; [exact Hrun|]. split; [exact Hag12|]. split; [|split].
    + unfold num_can_spill in *. rewrite Hfl2. exact Hlt.
    + eapply append_ready_step; [exact Hag12 | | exact Hready].
      intros x Hx Hcl.
      destruct (open_after_spill _ _ _ _ _ Hfl Hx Hcl) as (x' & Hx' & Hcl').
      eapply open_after_flags; eassumption.
    + exact Hrows2.
  - left. eexists _, b2. split; [exact Hrun|]. split; [exact Hag12|].
    split; [right; left; eauto | exact Hrows2].
Qed.

Lemma spill_loop_end_agree {A} fp b b2 (r : Result A) b' :
  agree fp b b2 -> spill_loop_end b2 r b' -> spill_loop_end b r b'.
Proof.
  intros Hag [H | [H | [H1 H2]]]; [left; assumption | right; left; assumption |].
  right. right. rewrite <- (ag_join_node_id _ _ _ Hag). auto.
Qed.

Lemma appended_after_keep {A} b b2 p row (r : Result A) b' :
  rows_at b2 p = rows_at b p -> appended b2 p row r b' -> appended b p row r b'.
Proof. intros H. unfold appended. rewrite H. auto. Qed.

(** With more fuel than there are partitions that can spill, the loop of
    [AppendRowStreamFull] stops by itself, and more fuel changes nothing. *)
Lemma AppendRowStreamFull_loop_spec p row fuel :
  forall b, (num_can_spill b < fuel)%nat -> append_ready b p ->
  exists r b',
    (forall extra, AppendRowStreamFull_loop (fuel + extra) p row b = (r, b'))
    /\ agree fp_append b b' /\ spill_loop_end b r b' /\ appended b p row r b'.
Proof.
  induction fuel as [|fuel IH]; intros b Hlt Hready; [lia|].
  assert (Hunf : forall extra,
    AppendRowStreamFull_loop (S fuel + extra) p row b
    = spill_and_retry p row (AppendRowStreamFull_loop (fuel + extra) p row) b)
    by reflexivity.
  destruct (spill_and_retry_turn p row b Hready)
    as [(r & b' & Hrun & Hag & Hend & Happ) | (b2 & Hrun & Hag & Hlt2 & Hready2 & Hrows)].
  - exists r, b'. split; [|auto]. intros extra. rewrite Hunf. apply Hrun.
  - destruct (IH b2) as (r & b' & Hloop & Hag2 & Hend & Happ); [lia|assumption|].
    exists r, b'. split; [|split; [|split]].
    + intros extra. rewrite Hunf, Hrun. apply Hloop.
    + eapply agree_trans; eassumption.
    + eapply spill_loop_end_agree; eassumption.
    + eapply appended_after_keep; eassumption.
Qed.

(** C3 (as amended).  When the append to the stream of [p] failed for lack
    of memory, [AppendRowStreamFull] spills one partition and tries the
    append again, and goes round again while the stream is still full.  It
    always stops, in one of three ways: the append succeeded (it returns
    true and the row is at the end of the stream); a spill or the append
    reported an error of its own, which is returned; or [SpillPartition]
    found no partition to spill and its internal error "could not find a
    partition to spill in hash join" is returned.  In the last two cases the
    rows of the stream are as they were. *)
Theorem AppendRowStreamFull_spills_and_retries (p : ptr) (row : TupleRow) (b : PhjBuilder) :
  append_ready b p ->
  AppendRowStreamFull p row b
  = spill_and_retry p row (AppendRowStreamFull p row) b
  /\ spill_loop_end b (fst (AppendRowStreamFull p row b)) (snd (AppendRowStreamFull p row b))
  /\ appended b p row (fst (AppendRowStreamFull p row b)) (snd (AppendRowStreamFull p row b)).
Proof.
  intros Hready.
  pose proof (num_can_spill_le_length b) as Hle.
  destruct (AppendRowStreamFull_loop_spec p row (S (length (all_partitions_ b))) b)
    as (r & b' & Hloop & Hag & Hend & Happ); [lia|assumption|].
  assert (Hrun : AppendRowStreamFull p row b = (r, b')).
  { unfold AppendRowStreamFull. rewrite <- (Hloop 0%nat). f_equal. lia. }
  split; [|rewrite Hrun; auto].
  rewrite Hrun. rewrite <- (Hloop 0%nat).
  replace (S (length (all_partitions_ b)) + 0)%nat with (S (length (all_partitions_ b)))
    by lia.
  change (AppendRowStreamFull_loop (S (length (all_partitions_ b))) p row b)
    with (spill_and_retry p row
            (AppendRowStreamFull_loop (length (all_partitions_ b)) p row) b).
  destruct (spill_and_retry_turn p row b Hready)
    as [(r1 & b1 & Hturn & _) | (b2 & Hturn & Hag2 & Hlt2 & Hready2 & _)].
  - rewrite !Hturn. reflexivity.
  - rewrite !Hturn.
    destruct (AppendRowStreamFull_loop_spec p row (length (all_partitions_ b)) b2)
      as (r2 & b2' & Hloop2 & _); [lia|assumption|].
    unfold AppendRowStreamFull.
    rewrite (ag_length _ _ _ Hag2 eq_refl).
    pose proof (Hloop2 0%nat) as H0. pose proof (Hloop2 1%nat) as H1.
    replace (length (all_partitions_ b) + 0)%nat with (length (all_partitions_ b)) in H0
      by lia.
    replace (length (all_partitions_ b) + 1)%nat with (S (length (all_partitions_ b))) in H1
      by lia.
    rewrite H0, H1. reflexivity.
Qed.

(** ** BeginSpilledProbe *)

Lemma footprint_TransferProbeStreamReservation :
  footprint fp_reserve TransferProbeStreamReservation.
Proof. unfold TransferProbeStreamReservation. fp_auto. Qed.
Hint Resolve footprint_TransferProbeStreamReservation : fp.

Lemma SaveReservation_run bytes b :
  SaveReservation bytes b
  = (Ok tt,
     set_world (client_SaveReservation bytes (world b))
       (set_probe_stream_reservation (Some (GetReservation b + bytes)) b)).
Proof. reflexivity. Qed.

(** C6.  When [BeginSpilledProbe] has probe rows for a partition whose hash
    table does not fit ([BuildHashTable] answers "not built" after the
    reservation for the probe stream was set aside) and the level of the
    partition plus one reaches [MAX_PARTITION_DEPTH], it fails with
    PARTITIONED_HASH_JOIN_MAX_PARTITION_DEPTH.  It has then entered
    REPARTITIONING_BUILD and done nothing else: the fanout is as it was and
    no partition was created. *)
Theorem BeginSpilledProbe_max_partition_depth
    (b : PhjBuilder) (partition : ptr) (x : Partition) (b1 : PhjBuilder) :
  all_partitions_ b !! partition = Some x ->
  level_ x + 1 >= MAX_PARTITION_DEPTH ->
  BuildHashTable partition (snd (SaveReservation (spillable_buffer_size_ b) b))
  = (Ok false, b1) ->
  BeginSpilledProbe false partition b
  = (Err (PARTITIONED_HASH_JOIN_MAX_PARTITION_DEPTH (join_node_id_ b) MAX_PARTITION_DEPTH),
     set_state REPARTITIONING_BUILD b1)
  /\ hash_partitions_ (set_state REPARTITIONING_BUILD b1) = hash_partitions_ b
  /\ length (all_partitions_ (set_state REPARTITIONING_BUILD b1))
     = length (all_partitions_ b).
Proof.
  intros Hx Hdepth Ebuild.
  rewrite SaveReservation_run in Ebuild. simpl snd in Ebuild.
  pose proof (footprint_step _ _ _ _ _ (footprint_BuildHashTable _) Ebuild) as Hag.
  assert (Hx0 : all_partitions_
                  (set_world (client_SaveReservation (spillable_buffer_size_ b) (world b))
                     (set_probe_stream_reservation
                        (Some (GetReservation b + spillable_buffer_size_ b)) b))
                !! partition = Some x) by exact Hx.
  destruct (ag_part _ _ _ Hag partition x Hx0) as (x1 & Hx1 & Hlevel & _).
  split; [|split].
  - unfold BeginSpilledProbe.
    rewrite bind_unfold. change (gets join_node_id_ b) with (Ok (join_node_id_ b), b).
    cbv beta iota.
    rewrite bind_unfold.
    change (gets spillable_buffer_size_ b) with (Ok (spillable_buffer_size_ b), b).
    cbv beta iota.
    rewrite bind_unfold, SaveReservation_run. rewrite bind_unfold, Ebuild.
    rewrite bind_unfold. unfold UpdateState, modify at 1.
    rewrite bind_unfold.
    rewrite (deref_Some partition (set_state REPARTITIONING_BUILD b1) x1) by exact Hx1.
    rewrite Hlevel.
    destruct (Z.geb_spec (level_ x + 1) MAX_PARTITION_DEPTH) as [_|Hlt]; [reflexivity|lia].
  - simpl. rewrite (ag_hash_partitions _ _ _ Hag eq_refl). reflexivity.
  - simpl. rewrite (ag_length _ _ _ Hag eq_refl). reflexivity.
Qed.

(** ** The level of a round *)

Lemma agree_new_partition fp w x b :
  fp_parts fp = true -> fp_alloc fp = true ->
  agree fp b (set_world w (set_all_partitions (all_partitions_ b ++ [x]) b)).
Proof.
  intros H1 H2. split; simpl; intros; auto; try congruence.
  - rewrite length_app. simpl. lia.
  - eexists. split; [apply lookup_app_l_Some; eassumption | apply part_agree_refl].
Qed.

Lemma footprint_CreateAndPreparePartition fp level out :
  fp_le fp_partitions fp = true -> fp_alloc fp = true ->
  (forall p, footprint fp (out p)) ->
  footprint fp (CreateAndPreparePartition level out).
Proof.
  intros Hle Halloc Hout. unfold CreateAndPreparePartition.
  assert (Hparts : fp_parts fp = true).
  { unfold fp_le in Hle. rewrite !andb_true_iff in Hle. simpl in Hle.
    destruct (fp_parts fp); intuition. }
  apply footprint_bind; [apply footprint_get | intros b0].
  destruct (stream_new (world b0)) as [m w1].
  apply footprint_bind.
  { apply footprint_modify. intros b. apply agree_new_partition; assumption. }
  intros _. apply footprint_bind; [apply Hout | intros _].
  apply footprint_bind.
  { eapply footprint_weaken; [apply footprint_stream_status | exact Hle]. }
  intros _. apply footprint_bind; [|intros _; apply footprint_ret].
  eapply footprint_weaken; [apply footprint_stream_bool_no_add; reflexivity | exact Hle].
Qed.

Lemma footprint_CreateHashPartitions_loop n level :
  footprint fp_new_partitions (CreateHashPartitions_loop n level).
Proof.
  induction n as [|n IH]; simpl; [apply footprint_ret|].
  apply footprint_bind.
  { apply footprint_CreateAndPreparePartition; [reflexivity | reflexivity |].
    intros p. apply footprint_ret. }
  intros p. apply footprint_bind; [|intros _; exact IH].
  apply footprint_modify. intros b. solve_agree.
Qed.
Hint Resolve footprint_CreateHashPartitions_loop : fp.

Lemma footprint_CreateHashPartitions level : footprint fp_create (CreateHashPartitions level).
Proof. unfold CreateHashPartitions. fp_auto. Qed.
Hint Resolve footprint_CreateHashPartitions : fp.

Lemma set_level_Ok level b u b' :
  set_level level b = (Ok u, b') -> current_level b' = Some level.
Proof.
  unfold set_level. intros E. mstep E.
  destruct (ht_ctx_ b) as [c|]; [|discriminate].
  unfold modify in E. inversion E; subst. reflexivity.
Qed.

Lemma current_level_agree fp b b' :
  fp_ht_ctx fp = false -> agree fp b b' -> current_level b' = current_level b.
Proof. intros Hfp Hag. unfold current_level. rewrite (ag_ht_ctx _ _ _ Hag Hfp). reflexivity. Qed.

Lemma CreateHashPartitions_level level b u b' :
  CreateHashPartitions level b = (Ok u, b') -> current_level b' = Some level.
Proof.
  unfold CreateHashPartitions. intros E.
  mstep E as u1 b1 E1; [|discriminate].
  rewrite (current_level_agree fp_new_partitions b1 b'); [eapply set_level_Ok; eassumption | reflexivity |].
  eapply footprint_step; [|exact E]. apply footprint_CreateHashPartitions_loop.
Qed.

Lemma ht_ctx_level_Ok b l b' : ht_ctx_level b = (Ok l, b') -> b' = b /\ current_level b = Some l.
Proof.
  unfold ht_ctx_level, current_level. intros E. mstep E.
  destruct (ht_ctx_ b) as [c|]; inversion E; subst. auto.
Qed.

(** How [FlushFinal] goes: above level 0 it publishes nothing and leaves
    [non_empty_build_] alone; at level 0 it publishes the filters and ors
    "the round has rows" into [non_empty_build_], before anything else. *)
Lemma FlushFinal_cases b r b' :
  FlushFinal b = (r, b') ->
  (current_level b <> Some 0 -> agree fp_flush b b')
  /\ (current_level b = Some 0 ->
      forall n, sum_num_rows (hash_partitions_ b) 0 b = (Ok n, b) ->
      exists bp,
        PublishRuntimeFilters n b = (Ok tt, bp)
        /\ agree fp_flush (set_non_empty_build (non_empty_build_ bp || (0 <? n)) bp) b')
  /\ (forall e, sum_num_rows (hash_partitions_ b) 0 b = (Err e, b) -> b' = b).
Proof.
  assert (Hrest : footprint fp_flush
      (na <- gets null_aware_partition_ ;;
       match na with
       | Some p => x <- deref p ;; if is_spilled_ x then Spill p UNPIN_ALL else ret tt
       | None => ret tt
       end ;;;
       BuildHashTablesAndReserveProbeBuffers ;;;
       st <- gets state_ ;;
       if HashJoinState_eqb st PARTITIONING_BUILD
       then UpdateState PARTITIONING_PROBE
       else UpdateState REPARTITIONING_PROBE)).
  { fp_auto; apply footprint_UpdateState; reflexivity. }
  intros E. unfold FlushFinal in E. mstep E. mstep E as n0 b0 Esum;
    pose proof (pure_eq _ _ _ _ (pure_sum_num_rows _ _) Esum) as Hb; subst b0.
  2:{ inversion E; subst. split; [intros _; apply agree_refl|].
      split; [intros _ n Hn; congruence | reflexivity]. }
  mstep E as lvl b1 Elvl.
  2:{ unfold ht_ctx_level in Elvl. mstep Elvl. unfold current_level.
      destruct (ht_ctx_ b) as [c|]; inversion Elvl; subst. inversion E; subst.
      split; [intros _; apply agree_refl|].
      split; [intros Hn; discriminate | reflexivity]. }
  destruct (ht_ctx_level_Ok _ _ _ Elvl) as [-> Hlvl]. rewrite Hlvl.
  mstep E as u1 b2 Epub.
  2:{ exfalso. destruct (lvl =? 0); [|discriminate].
      destruct (PublishRuntimeFilters_spec n0 b) as (new & bp & Hpub & _).
      mstep Epub as u b3 E3; [unfold modify in Epub; discriminate | congruence]. }
  assert (Hag : agree fp_flush b2 b') by (eapply footprint_step; [exact Hrest | exact E]).
  split; [|split; [|intros e He; congruence]].
  - intros Hne. destruct (Z.eqb_spec lvl 0) as [Hl|Hl]; [exfalso; apply Hne; congruence|].
    inversion Epub; subst. exact Hag.
  - intros Hl0 n Hn. assert (n0 = n) by congruence. subst n0.
    assert (lvl = 0) by congruence. subst lvl. simpl in Epub.
    destruct (PublishRuntimeFilters_spec n b) as (new & bp & Hpub & _).
    mstep Epub as u' b3 E3; [|congruence].
    assert (b3 = bp) by congruence. subst b3.
    unfold modify in Epub. inversion Epub; subst.
    exists bp. auto.
Qed.

Hint Extern 1 (footprint _ (UpdateState _)) =>
  apply footprint_UpdateState; reflexivity : fp.

Lemma level_agree fp b b' p x :
  agree fp b b' -> all_partitions_ b !! p = Some x ->
  exists x', all_partitions_ b' !! p = Some x' /\ level_ x' = level_ x.
Proof.
  intros Hag Hx. destruct (ag_part _ _ _ Hag p x Hx) as (x' & Hx' & Hl & _). eauto.
Qed.

Lemma deref_Ok p b x b' : deref p b = (Ok x, b') -> b' = b /\ all_partitions_ b !! p = Some x.
Proof.
  unfold deref. destruct (all_partitions_ b !! p) as [y|]; intros H; inversion H; auto.
Qed.

(** Repartitioning a partition at a level of 0 or more runs its round above
    level 0: nothing is published and [non_empty_build_] stays. *)
Lemma RepartitionBuildInput_footprint b input x r b' :
  all_partitions_ b !! input = Some x -> level_ x + 1 <> 0 ->
  RepartitionBuildInput input b = (r, b') -> agree fp_repartition b b'.
Proof.
  intros Hx Hlevel E. pose proof (agree_refl fp_repartition b) as Hag.
  unfold RepartitionBuildInput in E.
  rewrite bind_unfold, (deref_Some _ _ _ Hx) in E.
  mstep E as got b1 E1; advance Hag E1; [|inversion E; subst; exact Hag].
  destruct got; cbv beta iota delta [negb] in E.
  2:{ mstep E. inversion E; subst. exact Hag. }
  mstep E as u2 b2 E2; advance Hag E2; [|inversion E; subst; exact Hag].
  pose proof (CreateHashPartitions_level _ _ _ _ E2) as Hlvl.
  mstep E as s b3 E3; pose proof (pure_eq _ _ _ _ (pure_build_rows _) E3); subst b3;
    [|inversion E; subst; exact Hag].
  mstep E as u4 b4 E4; advance Hag E4; [|inversion E; subst; exact Hag].
  assert (Hag4 : agree fp_send b2 b4) by (eapply footprint_step; [|exact E4]; fp_auto).
  mstep E as u5 b5 E5; advance Hag E5; [|inversion E; subst; exact Hag].
  assert (Hag5 : agree fp_partitions b4 b5) by (eapply footprint_step; [|exact E5]; fp_auto).
  assert (Hlvl5 : current_level b5 = Some (level_ x + 1)).
  { rewrite (current_level_agree fp_partitions b4 b5), (current_level_agree fp_send b2 b4);
      auto. }
  destruct (FlushFinal_cases _ _ _ E) as [Hflush _].
  eapply agree_trans; [exact Hag|].
  eapply agree_mono; [|apply Hflush]; [reflexivity|].
  rewrite Hlvl5. congruence.
Qed.

(** [BeginSpilledProbe] on a partition at a level of 0 or more. *)
Lemma BeginSpilledProbe_footprint b empty_probe partition x r b' :
  all_partitions_ b !! partition = Some x -> level_ x + 1 <> 0 ->
  BeginSpilledProbe empty_probe partition b = (r, b') -> agree fp_repartition b b'.
Proof.
  intros Hx Hlevel E. pose proof (agree_refl fp_repartition b) as Hag.
  unfold BeginSpilledProbe in E. mstep E. destruct empty_probe.
  - mstep E as got b1 E1; advance Hag E1; [|inversion E; subst; exact Hag].
    destruct got; cbv beta iota delta [negb] in E; [|inversion E; subst; exact Hag].
    mstep E as u2 b2 E2; advance Hag E2; [|inversion E; subst; exact Hag].
    mstep E as x3 b3 E3; advance Hag E3; inversion E; subst; exact Hag.
  - mstep E.
    mstep E as u1 b1 E1; advance Hag E1; [|inversion E; subst; exact Hag].
    mstep E as built b2 E2; advance Hag E2; [|inversion E; subst; exact Hag].
    destruct built.
    + mstep E as u3 b3 E3; advance Hag E3; [|inversion E; subst; exact Hag].
      mstep E as u4 b4 E4; advance Hag E4; [|inversion E; subst; exact Hag].
      mstep E as x5 b5 E5; advance Hag E5; inversion E; subst; exact Hag.
    + mstep E as u3 b3 E3; advance Hag E3; [|inversion E; subst; exact Hag].
      mstep E as x4 b4 E4; advance Hag E4; [|inversion E; subst; exact Hag].
      destruct (level_ x4 + 1 >=? MAX_PARTITION_DEPTH); [inversion E; subst; exact Hag|].
      mstep E as u5 b5 E5; advance Hag E5; [|inversion E; subst; exact Hag].
      mstep E as u6 b6 E6; advance Hag E6; [|inversion E; subst; exact Hag].
      mstep E as s7 b7 E7; advance Hag E7; [|inversion E; subst; exact Hag].
      destruct (level_agree _ _ _ _ _ Hag Hx) as (x7 & Hx7 & Hl7).
      mstep E as u8 b8 E8.
      2:{ inversion E; subst. eapply agree_trans; [exact Hag|].
          eapply RepartitionBuildInput_footprint; [exact Hx7 | lia | exact E8]. }
      assert (Hag8 : agree fp_repartition b b8).
      { eapply agree_trans; [exact Hag|].
        eapply RepartitionBuildInput_footprint; [exact Hx7 | lia | exact E8]. }
      clear Hag. rename Hag8 into Hag.
      mstep E as largest b9 E9; advance Hag E9; [|inversion E; subst; exact Hag].
      destruct (num_rows s7 =? largest); [inversion E; subst; exact Hag|].
      mstep E as u10 b10 E10; advance Hag E10; [|inversion E; subst; exact Hag].
      mstep E as l11 b11 E11; advance Hag E11; [|inversion E; subst; exact Hag].
      mstep E. inversion E; subst; exact Hag.
Qed.

(** ** Footprints of the remaining calls *)

Lemma footprint_Prepare : footprint fp_pin Prepare.
Proof. unfold Prepare. fp_auto. Qed.

Lemma footprint_BeginInitialProbe : footprint fp_reserve BeginInitialProbe.
Proof. unfold BeginInitialProbe. fp_auto. Qed.

Lemma footprint_DoneProbingHashPartitions_loop indices retain out batch :
  footprint fp_partitions (DoneProbingHashPartitions_loop indices retain out batch).
Proof.
  revert out. induction indices as [|i rest IH]; intros out; simpl; fp_auto;
    try apply IH.
Qed.
Hint Resolve footprint_DoneProbingHashPartitions_loop : fp.

Lemma footprint_DoneProbingHashPartitions retain batch :
  footprint fp_done (DoneProbingHashPartitions retain batch).
Proof. unfold DoneProbingHashPartitions. fp_auto. Qed.

Lemma footprint_DoneProbingSinglePartition p out batch :
  footprint fp_done (DoneProbingSinglePartition p out batch).
Proof. unfold DoneProbingSinglePartition. fp_auto. Qed.

Lemma AllocateRuntimeFilters_loop_length ctxs w :
  length (fst (AllocateRuntimeFilters_loop ctxs w)) = length ctxs.
Proof.
  revert w. induction ctxs as [|ctx rest IH]; intros w; simpl; [reflexivity|].
  destruct (is_bloom_filter ctx).
  - destruct (AllocateScratchBloomFilter (filter_id ctx) w) as [f w1].
    specialize (IH w1). destruct (AllocateRuntimeFilters_loop rest w1) as [rest1 w2].
    simpl in *. congruence.
  - destruct (AllocateScratchMinMaxFilter (filter_id ctx) w) as [f w1].
    specialize (IH w1). destruct (AllocateRuntimeFilters_loop rest w1) as [rest1 w2].
    simpl in *. congruence.
Qed.

Lemma footprint_AllocateRuntimeFilters : footprint fp_filters AllocateRuntimeFilters.
Proof.
  unfold AllocateRuntimeFilters. apply footprint_modify. intros b.
  pose proof (AllocateRuntimeFilters_loop_length (filter_ctxs_ b) (world b)) as Hlen.
  destruct (AllocateRuntimeFilters_loop (filter_ctxs_ b) (world b)) as [ctxs w].
  simpl in Hlen.
  split; simpl; intros; auto; try congruence; try discriminate; try lia.
  eexists; split; [eassumption | apply part_agree_refl].
Qed.
Hint Resolve footprint_AllocateRuntimeFilters : fp.

Lemma footprint_Open : footprint fp_open Open.
Proof.
  unfold Open. apply footprint_bind.
  { apply footprint_modify. intros b.
    destruct (probe_stream_reservation_ b); solve_agree. }
  intros _. fp_auto.
  apply footprint_CreateAndPreparePartition; [reflexivity | reflexivity |].
  intros p. fp_auto.
Qed.

(** ** What a legal sequence of calls maintains *)

Lemma preserves_bind {A B} P (m : M A) (k : A -> M B) :
  preserves P m -> (forall a, preserves P (k a)) -> preserves P (bind m k).
Proof.
  intros Hm Hk b Hb. rewrite bind_unfold. specialize (Hm b Hb).
  destruct (m b) as [[a|e] b1]; simpl in *; [apply Hk; exact Hm | exact Hm].
Qed.

Lemma preserves_for_each {A} P (l : list A) (f : A -> M unit) :
  (forall a, preserves P (f a)) -> preserves P (for_each l f).
Proof.
  intros Hf. induction l as [|a rest IH]; simpl; [intros b Hb; exact Hb|].
  apply preserves_bind; [apply Hf | intros _; exact IH].
Qed.

Lemma preserves_step {A} P (m : M A) b r b' :
  preserves P m -> m b = (r, b') -> P b -> P b'.
Proof. intros H E Hb. specialize (H b Hb). rewrite E in H. exact H. Qed.

Lemma levels_ok_agree fp b b' :
  agree fp b b' -> fp_alloc fp = false -> levels_ok b -> levels_ok b'.
Proof.
  unfold levels_ok. intros Hag Halloc Hb. apply Forall_lookup. intros i x' Hx'.
  assert (Hlt : (i < length (all_partitions_ b))%nat).
  { rewrite <- (ag_length _ _ _ Hag Halloc). eapply lookup_lt_Some; eassumption. }
  destruct (lookup_lt_is_Some_2 _ _ Hlt) as [x Hx].
  destruct (ag_part _ _ _ Hag i x Hx) as (x'' & Hx'' & Hl & _).
  rewrite Hx' in Hx''. inversion Hx''; subst x''. rewrite Hl.
  exact (proj1 (Forall_lookup _ _) Hb i x Hx).
Qed.

Lemma preserves_levels_footprint {A} fp (m : M A) :
  footprint fp m -> fp_alloc fp = false -> preserves levels_ok m.
Proof. intros H Halloc b Hb. eapply levels_ok_agree; [apply H | exact Halloc | exact Hb]. Qed.

Lemma preserves_levels_CreateAndPreparePartition level out :
  0 <= level -> (forall p, preserves levels_ok (out p)) ->
  preserves levels_ok (CreateAndPreparePartition level out).
Proof.
  intros Hlevel Hout. unfold CreateAndPreparePartition. intros b0 Hb0.
  rewrite bind_unfold. change (get b0) with (Ok b0, b0). cbv beta iota.
  destruct (stream_new (world b0)) as [m w1].
  generalize (length (all_partitions_ b0)). intros p.
  apply (fun m H => H b0 Hb0 : levels_ok (snd (m b0))).
  apply preserves_bind.
  { intros b Hb. unfold levels_ok in *. simpl. apply Forall_app. split; [exact Hb|].
    constructor; [exact Hlevel | constructor]. }
  intros _. apply preserves_bind; [apply Hout | intros _].
  apply preserves_bind.
  { eapply preserves_levels_footprint; [apply footprint_stream_status | reflexivity]. }
  intros _. apply preserves_bind.
  { eapply preserves_levels_footprint;
      [apply footprint_stream_bool_no_add; reflexivity | reflexivity]. }
  intros _ b Hb. exact Hb.
Qed.

Lemma preserves_apply {A} (P : PhjBuilder -> Prop) (m : M A) b :
  preserves P m -> P b -> P (snd (m b)).
Proof. intros H Hb. exact (H b Hb). Qed.

Ltac lv_step :=
  match goal with
  | |- preserves _ (bind _ _) => apply preserves_bind; [|intros ?]
  | |- preserves _ (match ?x with _ => _ end) => destruct x
  | |- preserves levels_ok _ =>
      solve [apply (preserves_levels_footprint fp_no_alloc); [fp_auto | reflexivity]]
  end.
Ltac lv_auto := repeat lv_step.

Lemma preserves_levels_CreateHashPartitions_loop n level :
  0 <= level -> preserves levels_ok (CreateHashPartitions_loop n level).
Proof.
  intros Hlevel. induction n as [|n IH]; simpl; [intros b Hb; exact Hb|].
  apply preserves_bind.
  { apply preserves_levels_CreateAndPreparePartition; [exact Hlevel|].
    intros p b Hb. exact Hb. }
  intros p. apply preserves_bind; [|intros _; exact IH].
  intros b Hb. exact Hb.
Qed.

Lemma preserves_levels_CreateHashPartitions level :
  0 <= level -> preserves levels_ok (CreateHashPartitions level).
Proof.
  intros Hlevel. unfold CreateHashPartitions. apply preserves_bind.
  - apply (preserves_levels_footprint fp_pin); [apply footprint_set_level | reflexivity].
  - intros _. apply preserves_levels_CreateHashPartitions_loop. exact Hlevel.
Qed.

Lemma preserves_levels_Open : preserves levels_ok Open.
Proof.
  unfold Open. apply preserves_bind.
  { intros b Hb. unfold modify. simpl. destruct (probe_stream_reservation_ b); exact Hb. }
  intros _. lv_auto.
  - apply preserves_levels_CreateHashPartitions. lia.
  - apply preserves_levels_CreateAndPreparePartition; [lia|]. intros p. lv_auto.
Qed.

Lemma levels_ok_lookup b p x : levels_ok b -> all_partitions_ b !! p = Some x -> 0 <= level_ x.
Proof. intros H Hx. exact (proj1 (Forall_lookup _ _) H p x Hx). Qed.

Lemma preserves_levels_RepartitionBuildInput input :
  preserves levels_ok (RepartitionBuildInput input).
Proof.
  intros b Hb. unfold RepartitionBuildInput. rewrite bind_unfold.
  destruct (deref input b) as [[x|e] b1] eqn:E;
    [|rewrite (pure_eq _ _ _ _ (pure_deref _) E); exact Hb].
  apply deref_Ok in E. destruct E as [-> Hx].
  pose proof (levels_ok_lookup _ _ _ Hb Hx) as Hlevel.
  apply (preserves_apply levels_ok); [|exact Hb]. lv_auto.
  apply preserves_levels_CreateHashPartitions. lia.
Qed.

Lemma preserves_levels_BeginSpilledProbe empty_probe partition :
  preserves levels_ok (BeginSpilledProbe empty_probe partition).
Proof.
  unfold BeginSpilledProbe. lv_auto. apply preserves_levels_RepartitionBuildInput.
Qed.

Lemma GetReservation_agree fp b b' :
  agree fp b b' -> fp_reservation fp = false -> GetReservation b' = GetReservation b.
Proof. intros Hag Hfp. unfold GetReservation. rewrite (ag_reservation _ _ _ Hag Hfp). reflexivity. Qed.

(** The probe side takes everything that was set aside. *)
Lemma TransferProbeStreamReservation_Ok b u b' :
  TransferProbeStreamReservation b = (Ok u, b') ->
  GetReservation b' = 0 /\ agree fp_reserve b b'.
Proof.
  intros E. split; [|eapply footprint_step; [|exact E]; fp_auto].
  unfold TransferProbeStreamReservation in E. mstep E.
  mstep E as n b1 E1; [|discriminate].
  pose proof (pure_eq _ _ _ _ (pure_GetNumSpilledPartitions _) E1); subst b1.
  unfold RestoreReservation, modify in E. inversion E; subst.
  change (GetReservation b - GetReservation b = 0). lia.
Qed.

Lemma BeginInitialProbe_Ok b hp b' :
  BeginInitialProbe b = (Ok hp, b') ->
  GetReservation b' = 0 /\ non_empty_build hp = non_empty_build_ b'
  /\ hash_partitions hp = hash_partitions_ b' /\ current_level b' = Some (level hp).
Proof.
  intros E. unfold BeginInitialProbe in E.
  mstep E as u b1 E1; [|discriminate].
  destruct (TransferProbeStreamReservation_Ok _ _ _ E1) as [H0 _].
  mstep E as l b2 E2; [|discriminate].
  destruct (ht_ctx_level_Ok _ _ _ E2) as [-> Hl].
  mstep E. inversion E; subst. simpl. auto.
Qed.

Lemma lookup_agree_back fp b b' p :
  agree fp b b' -> fp_alloc fp = false ->
  is_Some (all_partitions_ b' !! p) -> is_Some (all_partitions_ b !! p).
Proof.
  intros Hag Halloc [x' Hx']. apply lookup_lt_is_Some_2.
  rewrite <- (ag_length _ _ _ Hag Halloc). eapply lookup_lt_Some; eassumption.
Qed.

Lemma Open_Ok b u b' :
  Open b = (Ok u, b') ->
  current_level b' = Some 0 /\ (GetReservation b = 0 -> GetReservation b' = 0).
Proof.
  intros E. unfold Open in E. mstep E.
  set (b0 := match probe_stream_reservation_ b with
             | Some _ => b
             | None => set_probe_stream_reservation (Some 0) b
             end) in E.
  assert (Hres : GetReservation b = 0 -> GetReservation b0 = 0).
  { unfold b0, GetReservation.
    destruct (probe_stream_reservation_ b) eqn:H; simpl; rewrite ?H; auto. }
  clearbody b0. mstep E.
  mstep E as u1 b1 E1; [|discriminate].
  assert (Hag : agree fp_world b0 b1).
  { eapply footprint_step; [|exact E1]. destruct (ht_ctx_ b0); fp_auto. }
  mstep E.
  mstep E as u2 b2 E2; [|discriminate]. advance Hag E2.
  mstep E as u3 b3 E3; [|discriminate].
  pose proof (CreateHashPartitions_level _ _ _ _ E3) as Hlvl.
  assert (Hag3 : agree fp_create b2 b3) by (eapply footprint_step; [|exact E3]; fp_auto).
  mstep E as u4 b4 E4; [|discriminate].
  assert (Hag4 : agree fp_filters b3 b4) by (eapply footprint_step; [|exact E4]; fp_auto).
  mstep E.
  assert (Hag5 : agree fp_new_null_aware b4 b').
  { destruct (TJoinOp_eqb (join_op_ b4) NULL_AWARE_LEFT_ANTI_JOIN).
    - mstep E as p5 b5 E5; [|discriminate]. inversion E; subst.
      eapply footprint_step; [|exact E5].
      apply footprint_CreateAndPreparePartition; [reflexivity | reflexivity |].
      intros p. fp_auto.
    - inversion E; subst. apply agree_refl. }
  split.
  - rewrite (current_level_agree fp_new_null_aware b4 b'),
      (current_level_agree fp_filters b3 b4); auto.
  - intros H. rewrite (GetReservation_agree _ _ _ Hag5), (GetReservation_agree _ _ _ Hag4),
      (GetReservation_agree _ _ _ Hag3), (GetReservation_agree _ _ _ Hag); auto.
Qed.

(** What a successful [BeginSpilledProbe] leaves: the partition exists, the
    probe side holds the whole reservation, and the new fanout is reported
    with the level and [non_empty_build_] of the builder. *)
Lemma BeginSpilledProbe_Ok b empty_probe partition rep lvl hp b' :
  BeginSpilledProbe empty_probe partition b = (Ok (rep, lvl, hp), b') ->
  is_Some (all_partitions_ b !! partition)
  /\ (GetReservation b = 0 -> GetReservation b' = 0)
  /\ match hp with
     | Some h =>
         rep = true /\ non_empty_build h = non_empty_build_ b'
         /\ hash_partitions h = hash_partitions_ b' /\ level h = lvl
         /\ current_level b' = Some lvl
     | None => rep = false
     end.
Proof.
  intros E. pose proof (agree_refl fp_no_alloc b) as Hag.
  unfold BeginSpilledProbe in E. mstep E. destruct empty_probe.
  - mstep E as got b1 E1; [|discriminate].
    assert (Hag1 : agree fp_partitions b b1) by (eapply footprint_step; [|exact E1]; fp_auto).
    destruct got; cbv beta iota delta [negb] in E; [|discriminate].
    mstep E as u2 b2 E2; [|discriminate].
    assert (Hag2 : agree fp_flush b1 b2) by (eapply footprint_step; [|exact E2]; fp_auto).
    assert (Hres2 : GetReservation b2 = GetReservation b1).
    { unfold UpdateState, modify in E2. inversion E2; subst. reflexivity. }
    mstep E as x3 b3 E3; [|discriminate]. apply deref_Ok in E3. destruct E3 as [-> Hx3].
    inversion E; subst. split; [|split; [|reflexivity]].
    + eapply (lookup_agree_back fp_partitions); [exact Hag1 | reflexivity |].
      eapply (lookup_agree_back fp_flush); [exact Hag2 | reflexivity | eauto].
    + intros H. rewrite Hres2, (GetReservation_agree _ _ _ Hag1); auto.
  - mstep E.
    mstep E as u1 b1 E1; advance Hag E1; [|discriminate].
    mstep E as built b2 E2; advance Hag E2; [|discriminate].
    destruct built.
    + mstep E as u3 b3 E3; advance Hag E3; [|discriminate].
      destruct (TransferProbeStreamReservation_Ok _ _ _ E3) as [H0 _].
      mstep E as u4 b4 E4; advance Hag E4; [|discriminate].
      assert (Hres4 : GetReservation b4 = GetReservation b3).
      { unfold UpdateState, modify in E4. inversion E4; subst. reflexivity. }
      mstep E as x5 b5 E5; [|discriminate]. apply deref_Ok in E5. destruct E5 as [-> Hx5].
      inversion E; subst. split; [|split; [|reflexivity]].
      * eapply lookup_agree_back; [exact Hag | reflexivity | eauto].
      * intros _. congruence.
    + mstep E as u3 b3 E3; advance Hag E3; [|discriminate].
      mstep E as x4 b4 E4; [|discriminate]. apply deref_Ok in E4. destruct E4 as [-> Hx4].
      destruct (level_ x4 + 1 >=? MAX_PARTITION_DEPTH); [discriminate|].
      mstep E as u5 b5 E5; [|discriminate].
      mstep E as u6 b6 E6; [|discriminate].
      mstep E as s7 b7 E7; [|discriminate].
      mstep E as u8 b8 E8; [|discriminate].
      mstep E as largest b9 E9; [|discriminate].
      destruct (num_rows s7 =? largest); [discriminate|].
      mstep E as u10 b10 E10; [|discriminate].
      destruct (TransferProbeStreamReservation_Ok _ _ _ E10) as [H0 _].
      mstep E as l11 b11 E11; [|discriminate].
      destruct (ht_ctx_level_Ok _ _ _ E11) as [-> Hl].
      mstep E. inversion E; subst. split; [|split; [auto|simpl; auto]].
      eapply lookup_agree_back; [exact Hag | reflexivity | eauto].
Qed.

Lemma FlushFinal_level_0 b n r b' :
  current_level b = Some 0 ->
  sum_num_rows (hash_partitions_ b) 0 b = (Ok n, b) ->
  FlushFinal b = (r, b') ->
  non_empty_build_ b' = non_empty_build_ b || (0 <? n).
Proof.
  intros Hl Hn E. destruct (FlushFinal_cases _ _ _ E) as (_ & H & _).
  destruct (H Hl n Hn) as (bp & Hp & Hag).
  rewrite (ag_non_empty_build _ _ _ Hag eq_refl). simpl.
  assert (Hagp : agree fp_publish b bp)
    by (eapply footprint_step; [|exact Hp]; apply footprint_PublishRuntimeFilters).
  rewrite (ag_non_empty_build _ _ _ Hagp eq_refl). reflexivity.
Qed.

Lemma FlushFinal_above_level_0 b r b' :
  current_level b <> Some 0 -> FlushFinal b = (r, b') ->
  non_empty_build_ b' = non_empty_build_ b.
Proof.
  intros Hl E. destruct (FlushFinal_cases _ _ _ E) as (H & _).
  exact (ag_non_empty_build _ _ _ (H Hl) eq_refl).
Qed.

Lemma sum_num_rows_result l n b :
  (exists k, sum_num_rows l n b = (Ok k, b)) \/ (exists e, sum_num_rows l n b = (Err e, b)).
Proof.
  destruct (sum_num_rows l n b) as [[k|e] b1] eqn:E;
    pose proof (pure_eq _ _ _ _ (pure_sum_num_rows _ _) E); subst b1; eauto.
Qed.

(** [non_empty_build_ |= ...]: [FlushFinal] never clears the flag. *)
Lemma FlushFinal_monotone b r b' :
  FlushFinal b = (r, b') -> non_empty_build_ b = true -> non_empty_build_ b' = true.
Proof.
  intros E Hne. destruct (decide (current_level b = Some 0)) as [Hl|Hl].
  - destruct (sum_num_rows_result (hash_partitions_ b) 0 b) as [[n Hn]|[e He]].
    + rewrite (FlushFinal_level_0 _ _ _ _ Hl Hn E), Hne. reflexivity.
    + destruct (FlushFinal_cases _ _ _ E) as (_ & _ & H). rewrite (H e He). exact Hne.
  - rewrite (FlushFinal_above_level_0 _ _ _ Hl E). exact Hne.
Qed.

Lemma Reset_fields batch b :
  state_ (Reset batch b) = PARTITIONING_BUILD
  /\ non_empty_build_ (Reset batch b) = false
  /\ all_partitions_ (Reset batch b) = []
  /\ hash_partitions_ (Reset batch b) = []
  /\ null_aware_partition_ (Reset batch b) = None
  /\ probe_stream_reservation_ (Reset batch b) = probe_stream_reservation_ b
  /\ ht_ctx_ (Reset batch b) = ht_ctx_ b
  /\ closed_ (Reset batch b) = closed_ b.
Proof.
  unfold Reset, CloseAndDeletePartitions, close_all_partitions. simpl.
  destruct (close_all batch (all_partitions_ b) (world b)) as [l w]. simpl.
  repeat split; reflexivity.
Qed.

Ltac phase_part Hg :=
  first
    [ split; [intros [? ?]; discriminate | intros [? ?]; congruence]
    | let H := fresh in
      assert (H : is_Some _) by (apply Hg; split; discriminate);
      split; [intros _; split; discriminate | intros _; exact H] ].

(** The builders of the legal sequences: [non_empty_build_] is what the
    level-0 round found, all levels are 0 or more, and outside the time
    between [FlushFinal] and [BeginInitialProbe] nothing is set aside for
    the probe streams. *)
Lemma reachable_invariant ph g b : reachable ph g b -> protocol_invariant ph g b.
Proof.
  induction 1 as
    [ b b' Hc E | g b b' _ IH E | b batch b' _ IH E | b n b' _ IH Hn E
    | g b hp b' _ IH E | g b retain batch out b' _ IH E
    | g b e p lvl b' _ IH E | g b e p lvl hp b' _ IH E
    | g b p out batch out' b' _ IH E | ph g b batch _ IH Hph | ph g b w _ IH
    | ph g b p m u b' _ IH E ]; unfold protocol_invariant in *.
  - destruct Hc as (_ & Hne & _ & Hall & _ & _ & Hres).
    assert (Hag : agree fp_pin b b')
      by (eapply footprint_step; [|exact E]; apply footprint_Prepare).
    split; [rewrite (ag_non_empty_build _ _ _ Hag eq_refl); exact Hne|].
    split; [eapply levels_ok_agree; [exact Hag | reflexivity |];
            unfold levels_ok; rewrite Hall; constructor|].
    split; [intros _; rewrite (GetReservation_agree _ _ _ Hag eq_refl);
            unfold GetReservation; rewrite Hres; reflexivity|].
    split; [discriminate | phase_part I].
  - destruct IH as (Hne & Hlv & Hres & _ & Hg).
    assert (Hnone : g = None).
    { destruct g; [|reflexivity]. destruct (proj1 Hg (mk_is_Some _ _ eq_refl)); congruence. }
    subst g.
    assert (Hag : agree fp_open b b')
      by (eapply footprint_step; [|exact E]; apply footprint_Open).
    destruct (Open_Ok _ _ _ E) as [Hl Hr].
    split; [rewrite (ag_non_empty_build _ _ _ Hag eq_refl); exact Hne|].
    split; [exact (preserves_step _ _ _ _ _ preserves_levels_Open E Hlv)|].
    split; [intros _; apply Hr, Hres; discriminate|].
    split; [intros _; exact Hl | phase_part Hg].
  - destruct IH as (Hne & Hlv & Hres & Hl & Hg).
    assert (Hag : agree fp_send b b')
      by (eapply footprint_step; [|exact E]; apply footprint_Send).
    split; [rewrite (ag_non_empty_build _ _ _ Hag eq_refl); exact Hne|].
    split; [eapply levels_ok_agree; [exact Hag | reflexivity | exact Hlv]|].
    split; [intros _; rewrite (GetReservation_agree _ _ _ Hag eq_refl); apply Hres;
            discriminate|].
    split; [intros _; rewrite (current_level_agree fp_send b b'); auto | phase_part Hg].
  - destruct IH as (Hne & Hlv & Hres & Hl & Hg).
    assert (Hag : agree fp_flush0 b b')
      by (eapply footprint_step; [|exact E]; apply footprint_FlushFinal).
    split; [rewrite (FlushFinal_level_0 _ _ _ _ (Hl eq_refl) Hn E), Hne; reflexivity|].
    split; [eapply levels_ok_agree; [exact Hag | reflexivity | exact Hlv]|].
    split; [congruence|].
    split; [discriminate|].
    split; [intros _; split; discriminate | intros _; eauto].
  - destruct IH as (Hne & Hlv & Hres & Hl & Hg).
    assert (Hag : agree fp_reserve b b')
      by (eapply footprint_step; [|exact E]; apply footprint_BeginInitialProbe).
    split; [rewrite (ag_non_empty_build _ _ _ Hag eq_refl); exact Hne|].
    split; [eapply levels_ok_agree; [exact Hag | reflexivity | exact Hlv]|].
    split; [intros _; apply (BeginInitialProbe_Ok _ _ _ E)|].
    split; [discriminate | phase_part Hg].
  - destruct IH as (Hne & Hlv & Hres & Hl & Hg).
    assert (Hag : agree fp_done b b')
      by (eapply footprint_step; [|exact E]; apply footprint_DoneProbingHashPartitions).
    split; [rewrite (ag_non_empty_build _ _ _ Hag eq_refl); exact Hne|].
    split; [eapply levels_ok_agree; [exact Hag | reflexivity | exact Hlv]|].
    split; [intros _; rewrite (GetReservation_agree _ _ _ Hag eq_refl); apply Hres;
            discriminate|].
    split; [discriminate | phase_part Hg].
  - destruct IH as (Hne & Hlv & Hres & Hl & Hg).
    destruct (BeginSpilledProbe_Ok _ _ _ _ _ _ _ E) as ([x Hx] & Hr & _).
    pose proof (levels_ok_lookup _ _ _ Hlv Hx) as Hlevel.
    assert (Hag : agree fp_repartition b b')
      by (eapply BeginSpilledProbe_footprint; [exact Hx | lia | exact E]).
    split; [rewrite (ag_non_empty_build _ _ _ Hag eq_refl); exact Hne|].
    split; [exact (preserves_step _ _ _ _ _ (preserves_levels_BeginSpilledProbe _ _) E Hlv)|].
    split; [intros _; apply Hr, Hres; discriminate|].
    split; [discriminate | phase_part Hg].
  - destruct IH as (Hne & Hlv & Hres & Hl & Hg).
    destruct (BeginSpilledProbe_Ok _ _ _ _ _ _ _ E) as ([x Hx] & Hr & _).
    pose proof (levels_ok_lookup _ _ _ Hlv Hx) as Hlevel.
    assert (Hag : agree fp_repartition b b')
      by (eapply BeginSpilledProbe_footprint; [exact Hx | lia | exact E]).
    split; [rewrite (ag_non_empty_build _ _ _ Hag eq_refl); exact Hne|].
    split; [exact (preserves_step _ _ _ _ _ (preserves_levels_BeginSpilledProbe _ _) E Hlv)|].
    split; [intros _; apply Hr, Hres; discriminate|].
    split; [discriminate | phase_part Hg].
  - destruct IH as (Hne & Hlv & Hres & Hl & Hg).
    assert (Hag : agree fp_done b b')
      by (eapply footprint_step; [|exact E]; apply footprint_DoneProbingSinglePartition).
    split; [rewrite (ag_non_empty_build _ _ _ Hag eq_refl); exact Hne|].
    split; [eapply levels_ok_agree; [exact Hag | reflexivity | exact Hlv]|].
    split; [intros _; rewrite (GetReservation_agree _ _ _ Hag eq_refl); apply Hres;
            discriminate|].
    split; [discriminate | phase_part Hg].
  - destruct IH as (Hne & Hlv & Hres & Hl & Hg).
    destruct (Reset_fields batch b) as (_ & Hne' & Hall' & _ & _ & Hres' & _).
    split; [exact Hne'|].
    split; [unfold levels_ok; rewrite Hall'; constructor|].
    split; [intros _; unfold GetReservation; rewrite Hres'; exact (Hres Hph)|].
    split; [discriminate | phase_part Hg].
  - destruct IH as (Hne & Hlv & Hres & Hl & Hg).
    split; [exact Hne|]. split; [exact Hlv|]. split; [exact Hres|]. split; assumption.
  - destruct IH as (Hne & Hlv & Hres & Hl & Hg).
    assert (Hag : agree fp_partitions b b').
    { eapply footprint_step; [|exact E].
      apply footprint_update; [reflexivity | intros x; apply part_agree_set_mem]. }
    split; [rewrite (ag_non_empty_build _ _ _ Hag eq_refl); exact Hne|].
    split; [eapply levels_ok_agree; [exact Hag | reflexivity | exact Hlv]|].
    split; [intros Hph; rewrite (GetReservation_agree _ _ _ Hag eq_refl); auto|].
    split; [intros Hph; rewrite (current_level_agree fp_partitions b b'); auto | exact Hg].
Qed.

Lemma Partition_Close_closed batch x w : IsClosed (fst (Partition_Close batch x w)) = true.
Proof.
  unfold Partition_Close. destruct (IsClosed x) eqn:Hx; [exact Hx|].
  unfold IsClosed in *. destruct (build_rows_ x); [reflexivity | discriminate].
Qed.

Lemma close_all_closed batch l w :
  Forall (fun x => IsClosed x = true) (fst (close_all batch l w))
  /\ length (fst (close_all batch l w)) = length l.
Proof.
  revert w. induction l as [|x rest IH]; intros w; simpl; [split; [constructor | reflexivity]|].
  pose proof (Partition_Close_closed batch x w) as Hx.
  destruct (Partition_Close batch x w) as [x1 w1]. specialize (IH w1).
  destruct (close_all batch rest w1) as [rest1 w2]. simpl in *.
  destruct IH as [IH1 IH2]. split; [constructor; assumption | congruence].
Qed.

Lemma Reset_world batch b :
  world (Reset batch b) = snd (close_all batch (all_partitions_ b) (world b)).
Proof.
  unfold Reset, CloseAndDeletePartitions, close_all_partitions. simpl.
  destruct (close_all batch (all_partitions_ b) (world b)) as [l w]. reflexivity.
Qed.

Lemma non_empty_build_Close b : non_empty_build_ (Close b) = non_empty_build_ b.
Proof.
  unfold Close. destruct (closed_ b); [reflexivity|]. simpl.
  unfold CloseAndDeletePartitions, close_all_partitions.
  destruct (close_all false (all_partitions_ b) (world b)) as [l w]. reflexivity.
Qed.

(** C8 (as amended).  No call but [FlushFinal] at level 0 and [Reset] changes
    [non_empty_build_]: not [Prepare], [Open], [Send], [BeginInitialProbe],
    [DoneProbingHashPartitions], [DoneProbingSinglePartition] or [Close],
    however they end, nor [BeginSpilledProbe] on a partition at a level of 0
    or more (its round runs above level 0), nor [FlushFinal] above level 0.
    [FlushFinal] at level 0 or-assigns whether the round partitioned at least
    one row, so it never clears the flag; [Reset] clears it.  Consequently,
    on every legal sequence of calls, the [non_empty_build] of the
    [HashPartitions] that [BeginInitialProbe] returns, and of those that
    [BeginSpilledProbe] returns after repartitioning, says whether the
    level-0 round had put at least one row into the partitions of its
    fanout; the rows it kept in the null-aware partition or skipped for
    their NULL keys are not counted. *)
Theorem non_empty_build_reflects_level_0_round :
  (forall b r b', Prepare b = (r, b') -> non_empty_build_ b' = non_empty_build_ b)
  /\ (forall b r b', Open b = (r, b') -> non_empty_build_ b' = non_empty_build_ b)
  /\ (forall batch b r b', Send batch b = (r, b') -> non_empty_build_ b' = non_empty_build_ b)
  /\ (forall b r b',
        BeginInitialProbe b = (r, b') -> non_empty_build_ b' = non_empty_build_ b)
  /\ (forall retain batch b r b',
        DoneProbingHashPartitions retain batch b = (r, b') ->
        non_empty_build_ b' = non_empty_build_ b)
  /\ (forall p out batch b r b',
        DoneProbingSinglePartition p out batch b = (r, b') ->
        non_empty_build_ b' = non_empty_build_ b)
  /\ (forall empty_probe p x b r b',
        all_partitions_ b !! p = Some x -> 0 <= level_ x ->
        BeginSpilledProbe empty_probe p b = (r, b') ->
        non_empty_build_ b' = non_empty_build_ b)
  /\ (forall b, non_empty_build_ (Close b) = non_empty_build_ b)
  /\ (forall b r b',
        FlushFinal b = (r, b') -> current_level b <> Some 0 ->
        non_empty_build_ b' = non_empty_build_ b)
  /\ (forall b n r b',
        FlushFinal b = (r, b') -> current_level b = Some 0 ->
        sum_num_rows (hash_partitions_ b) 0 b = (Ok n, b) ->
        non_empty_build_ b' = non_empty_build_ b || (0 <? n))
  /\ (forall b r b',
        FlushFinal b = (r, b') -> non_empty_build_ b = true -> non_empty_build_ b' = true)
  /\ (forall row_batch b, non_empty_build_ (Reset row_batch b) = false)
  /\ (forall g b hp b',
        reachable Built g b -> BeginInitialProbe b = (Ok hp, b') ->
        g = Some (non_empty_build hp))
  /\ (forall g b empty_probe p lvl hp b',
        reachable BetweenPartitions g b ->
        BeginSpilledProbe empty_probe p b = (Ok (true, lvl, Some hp), b') ->
        g = Some (non_empty_build hp)).
Proof.
  assert (Hfp : forall A fp (m : M A) b r b',
    footprint fp m -> fp_non_empty_build fp = false -> m b = (r, b') ->
    non_empty_build_ b' = non_empty_build_ b).
  { intros A fp m b r b' Hm Hfp E.
    exact (ag_non_empty_build _ _ _ (footprint_step _ _ _ _ _ Hm E) Hfp). }
  assert (Hspilled : forall empty_probe p x b r b',
    all_partitions_ b !! p = Some x -> 0 <= level_ x ->
    BeginSpilledProbe empty_probe p b = (r, b') ->
    non_empty_build_ b' = non_empty_build_ b).
  { intros e p x b r b' Hx Hl E.
    refine (ag_non_empty_build _ _ _ (BeginSpilledProbe_footprint _ _ _ _ _ _ Hx _ E) eq_refl).
    lia. }
  repeat apply conj.
  - intros b r b'. apply (Hfp _ fp_pin); [apply footprint_Prepare | reflexivity].
  - intros b r b'. apply (Hfp _ fp_open); [apply footprint_Open | reflexivity].
  - intros batch b r b'. apply (Hfp _ fp_send); [apply footprint_Send | reflexivity].
  - intros b r b'.
    apply (Hfp _ fp_reserve); [apply footprint_BeginInitialProbe | reflexivity].
  - intros retain batch b r b'.
    apply (Hfp _ fp_done); [apply footprint_DoneProbingHashPartitions | reflexivity].
  - intros p out batch b r b'.
    apply (Hfp _ fp_done); [apply footprint_DoneProbingSinglePartition | reflexivity].
  - exact Hspilled.
  - exact non_empty_build_Close.
  - intros b r b' E Hl. exact (FlushFinal_above_level_0 _ _ _ Hl E).
  - intros b n r b' E Hl Hn. exact (FlushFinal_level_0 _ _ _ _ Hl Hn E).
  - intros b r b' E. exact (FlushFinal_monotone _ _ _ E).
  - intros batch b. apply (Reset_fields batch b).
  - intros g b hp b' Hr E.
    destruct (reachable_invariant _ _ _ Hr) as (Hne & _ & _ & _ & Hg).
    assert (Hs : is_Some g) by (apply Hg; split; discriminate). destruct Hs as [v ->].
    destruct (BeginInitialProbe_Ok _ _ _ E) as (_ & Hhp & _).
    rewrite Hhp, (Hfp _ fp_reserve _ _ _ _ footprint_BeginInitialProbe eq_refl E), Hne.
    reflexivity.
  - intros g b e p lvl hp b' Hr E.
    destruct (reachable_invariant _ _ _ Hr) as (Hne & Hlv & _ & _ & Hg).
    assert (Hs : is_Some g) by (apply Hg; split; discriminate). destruct Hs as [v ->].
    destruct (BeginSpilledProbe_Ok _ _ _ _ _ _ _ E) as ([x Hx] & _ & _ & Hhp & _).
    rewrite Hhp, (Hspilled _ _ _ _ _ _ Hx (levels_ok_lookup _ _ _ Hlv Hx) E), Hne.
    reflexivity.
Qed.

(** C10.  [Reset] asserts that the sub-reservation for the probe streams
    holds nothing.  Where that holds, [Reset] leaves the builder in
    PARTITIONING_BUILD with [non_empty_build_] cleared, has closed every
    partition (in the world it leaves) and deleted them all, with the fanout
    and the null-aware partition, and the sub-reservation still holds
    nothing.  The assertion holds wherever a legal sequence of calls may call
    [Reset]: in every phase but the one between [FlushFinal] and
    [BeginInitialProbe], when the reservation has not yet been handed to the
    probe side. *)
Theorem Reset_restores_PARTITIONING_BUILD :
  (forall row_batch b,
     Reset_DCHECK b ->
     state_ (Reset row_batch b) = PARTITIONING_BUILD
     /\ non_empty_build_ (Reset row_batch b) = false
     /\ (exists closed,
           close_all row_batch (all_partitions_ b) (world b)
             = (closed, world (Reset row_batch b))
           /\ length closed = length (all_partitions_ b)
           /\ Forall (fun x => IsClosed x = true) closed)
     /\ all_partitions_ (Reset row_batch b) = []
     /\ hash_partitions_ (Reset row_batch b) = []
     /\ null_aware_partition_ (Reset row_batch b) = None
     /\ Reset_DCHECK (Reset row_batch b))
  /\ (forall ph g b, reachable ph g b -> ph <> Built -> Reset_DCHECK b).
Proof.
  split.
  - intros batch b Hpre.
    destruct (Reset_fields batch b) as (Hst & Hne & Hall & Hhp & Hna & Hres & _).
    split; [exact Hst|]. split; [exact Hne|]. split.
    { exists (fst (close_all batch (all_partitions_ b) (world b))).
      rewrite Reset_world. destruct (close_all_closed batch (all_partitions_ b) (world b)).
      split; [apply surjective_pairing|]. split; assumption. }
    split; [exact Hall|]. split; [exact Hhp|]. split; [exact Hna|].
    unfold Reset_DCHECK, GetReservation in *. rewrite Hres. exact Hpre.
  - intros ph g b Hr Hph.
    destruct (reachable_invariant _ _ _ Hr) as (_ & _ & Hres & _). exact (Hres Hph).
Qed.

(** ** The rows of a round *)

Lemma grow_refl j b : grow j b b.
Proof.
  split; [reflexivity|]. intros p x Hx. exists x. split; [exact Hx|].
  intros s' Hs'. exists s'. split; [exact Hs' | lia].
Qed.

Lemma grow_trans i j b b1 b2 : grow i b b1 -> grow j b1 b2 -> grow (i + j) b b2.
Proof.
  intros [Hh1 H1] [Hh2 H2]. split; [congruence|]. intros p x Hx.
  destruct (H1 p x Hx) as (x1 & Hx1 & Hg1). destruct (H2 p x1 Hx1) as (x2 & Hx2 & Hg2).
  exists x2. split; [exact Hx2|]. intros s2 Hs2.
  destruct (Hg2 s2 Hs2) as (s1 & Hs1 & Hl1). destruct (Hg1 s1 Hs1) as (s & Hs & Hl).
  exists s. split; [exact Hs | lia].
Qed.

Lemma grow_mono i j b b' : (i <= j)%nat -> grow i b b' -> grow j b b'.
Proof.
  intros Hij [Hh H]. split; [exact Hh|]. intros p x Hx.
  destruct (H p x Hx) as (x' & Hx' & Hg). exists x'. split; [exact Hx'|].
  intros s' Hs'. destruct (Hg s' Hs') as (s & Hs & Hl). exists s. split; [exact Hs | lia].
Qed.

Lemma grow_agree fp b b' :
  agree fp b b' -> fp_rows fp = false -> fp_hash_partitions fp = false -> grow 0 b b'.
Proof.
  intros Hag Hrows Hhp. split; [exact (ag_hash_partitions _ _ _ Hag Hhp)|].
  intros p x Hx. destruct (ag_part _ _ _ Hag p x Hx) as (x' & Hx' & _ & _ & Hr).
  exists x'. split; [exact Hx'|]. intros s' Hs'.
  destruct (Hr s' Hs') as (s & extra & Hs & Heq & Hextra).
  exists s. split; [exact Hs|]. rewrite Heq, (Hextra Hrows), app_nil_r. lia.
Qed.

Lemma adds_footprint {A} fp (m : M A) :
  footprint fp m -> fp_rows fp = false -> fp_hash_partitions fp = false -> adds 0 m.
Proof. intros H Hrows Hhp b. exact (grow_agree _ _ _ (H b) Hrows Hhp). Qed.

Lemma adds_mono {A} i j (m : M A) : (i <= j)%nat -> adds i m -> adds j m.
Proof. intros Hij H b. exact (grow_mono _ _ _ _ Hij (H b)). Qed.

Lemma adds_bind {A B} i j (m : M A) (k : A -> M B) :
  adds i m -> (forall a, adds j (k a)) -> adds (i + j) (bind m k).
Proof.
  intros Hm Hk b. rewrite bind_unfold. specialize (Hm b).
  destruct (m b) as [[a|e] b1]; simpl in *.
  - exact (grow_trans _ _ _ _ _ Hm (Hk a b1)).
  - eapply grow_mono; [|exact Hm]. lia.
Qed.

Lemma adds_step {A} j (m : M A) b r b' : adds j m -> m b = (r, b') -> grow j b b'.
Proof. intros H E. specialize (H b). rewrite E in H. exact H. Qed.

Lemma adds_update j p f : (forall x, part_grow j x (f x)) -> adds j (update p f).
Proof.
  intros Hf b. unfold update, deref, assign, modify. rewrite bind_unfold.
  destruct (all_partitions_ b !! p) as [x|] eqn:Hx; simpl; [|apply grow_refl].
  split; [reflexivity|]. intros q y Hy. destruct (decide (q = p)) as [->|Hne].
  - exists (f x). split.
    + apply list_lookup_insert_eq. eapply lookup_lt_Some; eassumption.
    + assert (y = x) by congruence. subst y. apply Hf.
  - exists y. split; [simpl; rewrite list_lookup_insert_ne by congruence; exact Hy|].
    intros s' Hs'. exists s'. split; [exact Hs' | lia].
Qed.

Lemma part_grow_add_row row x : part_grow 1 x (add_row row x).
Proof.
  unfold add_row. intros s' Hs'. destruct (build_rows_ x) as [s|] eqn:Hs.
  - simpl in Hs'. inversion Hs'; subst. exists s. split; [reflexivity|]. simpl.
    rewrite length_app. simpl. lia.
  - rewrite Hs in Hs'. discriminate.
Qed.

Lemma fanout_rows_le_grow k j b b' :
  fanout_rows_le k b -> grow j b b' -> fanout_rows_le (k + j) b'.
Proof.
  intros Hk [Hh Hg] q Hq. rewrite Hh in Hq. destruct (Hk q Hq) as (y & Hy & Hle).
  destruct (Hg q y Hy) as (y' & Hy' & Hpg). exists y'. split; [exact Hy'|].
  intros s' Hs'. destruct (Hpg s' Hs') as (s & Hs & Hl). specialize (Hle s Hs). lia.
Qed.

Ltac adds_zero :=
  solve [ eapply adds_footprint; [fp_auto | reflexivity | reflexivity]
        | apply (adds_footprint fp_partitions); [fp_auto | reflexivity | reflexivity]
        | apply (adds_footprint fp_flush0); [fp_auto | reflexivity | reflexivity] ].

(** [AddRow] adds its row when it answers true, and nothing otherwise. *)
Lemma AddRow_grow p row b r b' :
  stream_bool_raw p (OpAddRow row) b = (r, b') ->
  grow (match r with Ok Success => 1 | _ => 0 end) b b'.
Proof.
  intros E. unfold stream_bool_raw in E.
  mstep E as s b1 E1; pose proof (pure_eq _ _ _ _ (pure_build_rows _) E1); subst b1;
    [|inversion E; subst; apply grow_refl].
  mstep E. destruct (stream_bool_op (OpAddRow row) (rows s) (mem s) (world b))
    as [[res m1] w1].
  mstep E as u2 b2 E2.
  2:{ inversion E; subst. eapply (adds_step 0 (update p (set_mem m1))); [|exact E2].
      apply (adds_footprint fp_partitions); [fp_auto | reflexivity | reflexivity]. }
  assert (H2 : grow 0 b b2).
  { eapply (adds_step 0 (update p (set_mem m1))); [|exact E2].
    apply (adds_footprint fp_partitions); [fp_auto | reflexivity | reflexivity]. }
  assert (Hw : forall j b3 r3, grow j b2 b3 ->
             (modify (set_world w1) ;;; ret r3) b3 = (r, b') -> r = Ok r3 /\ grow j b b').
  { intros j b3 r3 H3 E3. mstep E3. inversion E3; subst. split; [reflexivity|].
    apply (grow_trans 0 j _ _ _ H2). destruct H3 as [Hh Hp]. split; [exact Hh | exact Hp]. }
  destruct res.
  - mstep E as u3 b3 E3.
    + destruct (Hw 1%nat b3 Success) as [-> Hg]; [|exact E|exact Hg].
      eapply (adds_step 1 (update p (add_row row))); [|exact E3].
      apply adds_update. intros x. apply part_grow_add_row.
    + inversion E; subst. unfold update in E3. mstep E3 as x3 b4 E4.
      * unfold assign, modify in E3. discriminate.
      * pose proof (pure_eq _ _ _ _ (pure_deref _) E4). inversion E3; subst. exact H2.
  - mstep E. destruct (Hw 0%nat b2 Failure) as [-> Hg]; [apply grow_refl|exact E|exact Hg].
  - mstep E. destruct (Hw 0%nat b2 (Fault e)) as [-> Hg]; [apply grow_refl|exact E|exact Hg].
Qed.

Lemma adds_AppendRowStreamFull_loop fuel p row :
  adds 1 (AppendRowStreamFull_loop fuel p row).
Proof.
  induction fuel as [|fuel IH]; intros b; simpl; [apply grow_refl|].
  rewrite bind_unfold.
  destruct (SpillPartition UNPIN_ALL_EXCEPT_CURRENT b) as [[c|e] b1] eqn:E1;
    assert (H1 : grow 0 b b1)
      by (eapply (adds_step 0 (SpillPartition UNPIN_ALL_EXCEPT_CURRENT)); [|exact E1];
          apply (adds_footprint fp_partitions); [fp_auto | reflexivity | reflexivity]);
    simpl; [|eapply grow_mono; [|exact H1]; lia].
  rewrite bind_unfold.
  destruct (stream_bool_raw p (OpAddRow row) b1) as [[res|e] b2] eqn:E2;
    pose proof (AddRow_grow _ _ _ _ _ E2) as H2; simpl;
    [|exact (grow_trans 0 1 _ _ _ H1 (grow_mono 0 1 _ _ ltac:(lia) H2))].
  destruct res; simpl.
  - exact (grow_trans 0 1 _ _ _ H1 H2).
  - exact (grow_trans 0 1 _ _ _ H1 (grow_trans 0 1 _ _ _ H2 (IH b2))).
  - exact (grow_trans 0 1 _ _ _ H1 (grow_mono 0 1 _ _ ltac:(lia) H2)).
Qed.

Lemma adds_AppendRow p row : adds 1 (AppendRow p row).
Proof.
  intros b. unfold AppendRow. rewrite bind_unfold.
  destruct (stream_bool_raw p (OpAddRow row) b) as [[res|e] b1] eqn:E1;
    pose proof (AddRow_grow _ _ _ _ _ E1) as H1; simpl;
    [|exact (grow_mono 0 1 _ _ ltac:(lia) H1)].
  destruct res; simpl.
  - exact H1.
  - exact (grow_trans 0 1 _ _ _ H1 (adds_AppendRowStreamFull_loop _ p row b1)).
  - exact (grow_mono 0 1 _ _ ltac:(lia) H1).
Qed.

Lemma adds_InsertRuntimeFilters row : adds 0 (InsertRuntimeFilters row).
Proof.
  intros b. unfold InsertRuntimeFilters, modify. simpl. split; [reflexivity|].
  intros p x Hx. exists x. split; [exact Hx|].
  intros s' Hs'. exists s'. split; [exact Hs' | lia].
Qed.

Lemma adds_ProcessBuildBatch batch build_filters is_null_aware :
  adds (length batch) (ProcessBuildBatch batch build_filters is_null_aware).
Proof.
  induction batch as [|row rest IH]; simpl; [intros b; apply grow_refl|].
  apply (adds_bind 0 (S (length rest))); [adds_zero | intros lvl].
  destruct (EvalAndHashBuild lvl row) as [idx|].
  - apply (adds_bind 0 (S (length rest))); [|intros _].
    { destruct build_filters; [apply adds_InsertRuntimeFilters | adds_zero]. }
    apply (adds_bind 0 (S (length rest))); [adds_zero | intros q].
    apply (adds_bind 1 (length rest)); [apply adds_AppendRow | intros _; exact IH].
  - apply (adds_bind 1 (length rest)); [|intros _; exact IH].
    destruct is_null_aware; [|apply (adds_mono 0 1); [lia | adds_zero]].
    apply (adds_bind 0 1); [adds_zero | intros na].
    destruct na as [q|]; [apply adds_AppendRow | apply (adds_mono 0 1); [lia | adds_zero]].
Qed.

Lemma adds_Send batch : adds (length batch) (Send batch).
Proof.
  unfold Send.
  apply (adds_bind 0 (length batch)); [adds_zero | intros lvl].
  apply (adds_bind 0 (length batch)); [adds_zero | intros ctxs].
  apply (adds_bind 0 (length batch)); [adds_zero | intros op].
  apply adds_ProcessBuildBatch.
Qed.

Lemma adds_for_each_batches (bs : list (list TupleRow)) (f : list TupleRow -> M unit) :
  (forall batch, adds (length batch) (f batch)) ->
  adds (length (concat bs)) (for_each bs f).
Proof.
  intros Hf. induction bs as [|batch rest IH]; simpl; [intros b; apply grow_refl|].
  rewrite length_app. apply adds_bind; [apply Hf | intros _; exact IH].
Qed.

Lemma batches_of_rows s : length (concat (batches_of s)) = length (rows s).
Proof.
  unfold batches_of. pose proof (stream_batches_concat (rows s)) as H.
  destruct (stream_batches (rows s)) as [|batch rest]; rewrite <- H; reflexivity.
Qed.

(** A partition that was just created holds no row. *)
Lemma CreateAndPreparePartition_new level b p b' :
  CreateAndPreparePartition level (fun _ => ret tt) b = (Ok p, b') ->
  grow 0 b b'
  /\ exists y, all_partitions_ b' !! p = Some y
       /\ forall s, build_rows_ y = Some s -> rows s = [].
Proof.
  intros E. split.
  { eapply (adds_step 0); [|exact E]. apply (adds_footprint fp_new_partition).
    - apply footprint_CreateAndPreparePartition; [reflexivity | reflexivity |].
      intros q. apply footprint_ret.
    - reflexivity.
    - reflexivity. }
  unfold CreateAndPreparePartition in E. mstep E.
  destruct (stream_new (world b)) as [m w1].
  mstep E. mstep E.
  set (b1 := set_world w1 _) in E.
  assert (H1 : all_partitions_ b1 !! length (all_partitions_ b)
               = Some (mkPartition false level (Some (mkStream [] m)) None)).
  { subst b1. simpl. rewrite lookup_app_r by lia. rewrite Nat.sub_diag. reflexivity. }
  clearbody b1.
  mstep E as u2 b2 E2; [|discriminate].
  assert (Hag : agree fp_partitions b1 b2) by (eapply footprint_step; [|exact E2]; fp_auto).
  mstep E as u3 b3 E3; [|discriminate]. advance Hag E3.
  inversion E; subst.
  destruct (ag_part _ _ _ Hag _ _ H1) as (y & Hy & _ & _ & Hr).
  exists y. split; [exact Hy|]. intros s Hs.
  destruct (Hr s Hs) as (s0 & extra & Hs0 & Heq & Hextra).
  simpl in Hs0. inversion Hs0; subst s0. rewrite Heq, (Hextra eq_refl). reflexivity.
Qed.

Lemma fanout_rows_le_CreateHashPartitions_loop n level b u b' :
  fanout_rows_le 0 b ->
  CreateHashPartitions_loop n level b = (Ok u, b') -> fanout_rows_le 0 b'.
Proof.
  revert b. induction n as [|n IH]; intros b Hb E; simpl in E.
  - inversion E; subst. exact Hb.
  - mstep E as p b1 E1; [|discriminate].
    destruct (CreateAndPreparePartition_new _ _ _ _ E1) as (Hg & y & Hy & Hrows).
    mstep E. apply IH in E; [exact E|].
    intros q Hq. simpl in Hq. apply elem_of_app in Hq. destruct Hq as [Hq|Hq].
    + exact (fanout_rows_le_grow 0 0 _ _ Hb Hg q Hq).
    + apply list_elem_of_singleton in Hq. subst q. exists y. split; [exact Hy|].
      intros s Hs. rewrite (Hrows s Hs). simpl. lia.
Qed.

Lemma fanout_rows_le_CreateHashPartitions level b u b' :
  hash_partitions_ b = [] ->
  CreateHashPartitions level b = (Ok u, b') -> fanout_rows_le 0 b'.
Proof.
  intros Hb E. unfold CreateHashPartitions in E.
  mstep E as u1 b1 E1; [|discriminate].
  assert (Hag : agree fp_pin b b1)
    by (eapply footprint_step; [|exact E1]; apply footprint_set_level).
  eapply fanout_rows_le_CreateHashPartitions_loop; [|exact E].
  intros q Hq. rewrite (ag_hash_partitions _ _ _ Hag eq_refl), Hb in Hq.
  inversion Hq.
Qed.

(** [LargestPartitionRows] over partitions that exist: the result is the
    starting value or the rows of an open partition, and no open partition
    has more. *)
Lemma LargestPartitionRows_loop_spec l m b :
  (forall q, q ∈ l -> is_Some (all_partitions_ b !! q)) ->
  exists largest,
    LargestPartitionRows_loop l m b = (Ok largest, b)
    /\ m <= largest
    /\ (forall q y s, q ∈ l -> all_partitions_ b !! q = Some y ->
          build_rows_ y = Some s -> num_rows s <= largest)
    /\ (largest = m
        \/ exists q y s, q ∈ l /\ all_partitions_ b !! q = Some y
             /\ build_rows_ y = Some s /\ num_rows s = largest).
Proof.
  revert m. induction l as [|p rest IH]; intros m Hvalid; simpl.
  - exists m. split; [reflexivity|]. split; [lia|]. split; [|left; reflexivity].
    intros q y s Hq. inversion Hq.
  - destruct (Hvalid p ltac:(left)) as [x Hx].
    rewrite bind_unfold, (deref_Some _ _ _ Hx).
    assert (Hrest : forall q, q ∈ rest -> is_Some (all_partitions_ b !! q))
      by (intros q Hq; apply Hvalid; right; exact Hq).
    destruct (build_rows_ x) as [s0|] eqn:Hs0.
    + destruct (IH (if num_rows s0 >? m then num_rows s0 else m) Hrest)
        as (largest & E & Hge & Hall & Hwit).
      exists largest. split; [exact E|].
      assert (Hm : m <= largest /\ num_rows s0 <= largest)
        by (destruct (Z.gtb_spec (num_rows s0) m); lia).
      split; [lia|]. split.
      * intros q y s Hq Hy Hs. apply elem_of_cons in Hq. destruct Hq as [->|Hq].
        -- assert (y = x) by congruence. subst y.
           assert (s = s0) by congruence. subst s. lia.
        -- exact (Hall q y s Hq Hy Hs).
      * destruct Hwit as [Heq|(q & y & s & Hq & Hy & Hs & Heq)].
        -- destruct (Z.gtb_spec (num_rows s0) m) as [Hgt|Hle]; [|left; exact Heq].
           right. exists p, x, s0. split; [left|]. auto.
        -- right. exists q, y, s. split; [right; exact Hq|]. auto.
    + destruct (IH m Hrest) as (largest & E & Hge & Hall & Hwit).
      exists largest. split; [exact E|]. split; [exact Hge|]. split.
      * intros q y s Hq Hy Hs. apply elem_of_cons in Hq. destruct Hq as [->|Hq].
        -- assert (y = x) by congruence. subst y. congruence.
        -- exact (Hall q y s Hq Hy Hs).
      * destruct Hwit as [Heq|(q & y & s & Hq & Hy & Hs & Heq)]; [left; exact Heq|].
        right. exists q, y, s. split; [right; exact Hq|]. auto.
Qed.

Lemma LargestPartitionRows_spec k b :
  fanout_rows_le k b ->
  exists largest,
    LargestPartitionRows b = (Ok largest, b)
    /\ 0 <= largest <= Z.of_nat k
    /\ (forall q y s, q ∈ hash_partitions_ b -> all_partitions_ b !! q = Some y ->
          build_rows_ y = Some s -> num_rows s <= largest).
Proof.
  intros Hk. unfold LargestPartitionRows. rewrite bind_unfold.
  change (gets hash_partitions_ b) with (Ok (hash_partitions_ b), b). cbv beta iota.
  destruct (LargestPartitionRows_loop_spec (hash_partitions_ b) 0 b)
    as (largest & E & Hge & Hall & Hwit).
  { intros q Hq. destruct (Hk q Hq) as (y & Hy & _). eauto. }
  exists largest. split; [exact E|]. split; [|exact Hall].
  split; [exact Hge|]. destruct Hwit as [->|(q & y & s & Hq & Hy & Hs & <-)]; [lia|].
  destruct (Hk q Hq) as (y' & Hy' & Hle). assert (y' = y) by congruence. subst y'.
  specialize (Hle s Hs). unfold num_rows. lia.
Qed.

Lemma rows_agree fp b b' p x s x' s' :
  agree fp b b' -> fp_rows fp = false ->
  all_partitions_ b !! p = Some x -> build_rows_ x = Some s ->
  all_partitions_ b' !! p = Some x' -> build_rows_ x' = Some s' ->
  rows s' = rows s.
Proof.
  intros Hag Hfp Hx Hs Hx' Hs'.
  destruct (ag_part _ _ _ Hag p x Hx) as (x1 & Hx1 & _ & _ & Hr).
  assert (x1 = x') by congruence. subst x1.
  destruct (Hr s' Hs') as (s0 & extra & Hs0 & Heq & Hextra).
  assert (s0 = s) by congruence. subst s0.
  rewrite Heq, (Hextra Hfp), app_nil_r. reflexivity.
Qed.

Lemma build_rows_Ok p b s b' :
  build_rows p b = (Ok s, b') ->
  b' = b /\ exists x, all_partitions_ b !! p = Some x /\ build_rows_ x = Some s.
Proof.
  intros E. pose proof (pure_eq _ _ _ _ (pure_build_rows _) E). subst b'.
  split; [reflexivity|]. unfold build_rows in E.
  mstep E as x b1 E1; [|discriminate]. apply deref_Ok in E1. destruct E1 as [-> Hx].
  exists x. split; [exact Hx|].
  destruct (build_rows_ x) as [s0|]; inversion E; reflexivity.
Qed.

(** Repartitioning into an empty fanout: every partition of the new fanout
    exists and holds at most as many rows as the input had. *)
Lemma RepartitionBuildInput_rows input b x s u b' :
  all_partitions_ b !! input = Some x -> build_rows_ x = Some s ->
  hash_partitions_ b = [] ->
  RepartitionBuildInput input b = (Ok u, b') ->
  fanout_rows_le (length (rows s)) b' /\ is_Some (ht_ctx_ b').
Proof.
  intros Hx Hs Hempty E. unfold RepartitionBuildInput in E.
  rewrite bind_unfold, (deref_Some _ _ _ Hx) in E.
  mstep E as got b1 E1; [|discriminate].
  assert (Hag1 : agree fp_partitions b b1) by (eapply footprint_step; [|exact E1]; fp_auto).
  destruct got; cbv beta iota delta [negb] in E; [|mstep E; discriminate].
  mstep E as u2 b2 E2; [|discriminate].
  assert (Hag2 : agree fp_create b1 b2) by (eapply footprint_step; [|exact E2]; fp_auto).
  assert (Hf2 : fanout_rows_le 0 b2).
  { eapply fanout_rows_le_CreateHashPartitions; [|exact E2].
    rewrite (ag_hash_partitions _ _ _ Hag1 eq_refl). exact Hempty. }
  assert (Hctx2 : is_Some (ht_ctx_ b2)).
  { pose proof (CreateHashPartitions_level _ _ _ _ E2) as Hl. unfold current_level in Hl.
    destruct (ht_ctx_ b2); [eauto | discriminate]. }
  mstep E as s2 b3 E3; [|discriminate].
  destruct (build_rows_Ok _ _ _ _ E3) as (-> & x2 & Hx2 & Hs2).
  assert (Hrows : rows s2 = rows s).
  { assert (Hag : agree fp_create b b2).
    { eapply agree_trans; [|exact Hag2]. eapply agree_mono; [|exact Hag1]. reflexivity. }
    exact (rows_agree _ _ _ _ _ _ _ _ Hag eq_refl Hx Hs Hx2 Hs2). }
  mstep E as u4 b4 E4; [|discriminate].
  assert (H4 : grow (length (concat (batches_of s2))) b2 b4).
  { eapply adds_step; [|exact E4]. apply adds_for_each_batches. intros batch.
    apply (adds_bind 0 (length batch)); [adds_zero | intros _].
    apply (adds_bind 0 (length batch)); [adds_zero | intros _].
    apply (adds_bind 0 (length batch)); [adds_zero | intros _].
    apply adds_Send. }
  rewrite batches_of_rows, Hrows in H4.
  assert (Hag4 : agree fp_no_alloc b2 b4) by (eapply footprint_step; [|exact E4]; fp_auto).
  mstep E as u5 b5 E5; [|discriminate]. advance Hag4 E5.
  assert (H5 : grow 0 b4 b5) by (eapply (adds_step 0); [|exact E5]; adds_zero).
  assert (H6 : grow 0 b5 b') by (eapply (adds_step 0); [|exact E]; adds_zero).
  advance Hag4 E.
  split.
  - pose proof (fanout_rows_le_grow _ _ _ _ Hf2 H4) as Hf4.
    pose proof (fanout_rows_le_grow _ _ _ _ Hf4 H5) as Hf5.
    pose proof (fanout_rows_le_grow _ _ _ _ Hf5 H6) as Hf6.
    replace (length (rows s)) with (0 + length (rows s) + 0 + 0)%nat by lia. exact Hf6.
  - exact (ag_ht_ctx_some _ _ _ Hag4 Hctx2).
Qed.

Lemma GetNumSpilledPartitions_valid l b :
  (forall q, q ∈ l -> is_Some (all_partitions_ b !! q)) ->
  exists n, GetNumSpilledPartitions l b = (Ok n, b).
Proof.
  induction l as [|p rest IH]; intros Hvalid; simpl; [eexists; reflexivity|].
  destruct (Hvalid p ltac:(left)) as [x Hx].
  rewrite bind_unfold, (deref_Some _ _ _ Hx).
  destruct IH as [n Hn]; [intros q Hq; apply Hvalid; right; exact Hq|].
  rewrite bind_unfold, Hn. eexists. reflexivity.
Qed.

Lemma RepartitionBuildInput_input input b u b' :
  RepartitionBuildInput input b = (Ok u, b') ->
  exists x s, all_partitions_ b !! input = Some x /\ build_rows_ x = Some s.
Proof.
  intros E. unfold RepartitionBuildInput in E.
  mstep E as x b1 E1; [|discriminate]. apply deref_Ok in E1. destruct E1 as [-> Hx].
  mstep E as got b1 E1; [|discriminate].
  unfold stream_bool in E1. mstep E1 as r b2 E2; [|discriminate].
  unfold stream_bool_raw in E2. mstep E2 as s b3 E3; [|discriminate].
  destruct (build_rows_Ok _ _ _ _ E3) as (_ & x' & Hx' & Hs).
  exists x', s. auto.
Qed.

Lemma RestoreReservation_run bytes b :
  RestoreReservation bytes b
  = (Ok tt,
     set_world (client_RestoreReservation bytes (world b))
       (set_probe_stream_reservation (Some (GetReservation b - bytes)) b)).
Proof. reflexivity. Qed.

(** C2.  [BeginSpilledProbe] repartitions a partition that holds [s], into
    an empty fanout, when its hash table does not fit, the next level is
    below MAX_PARTITION_DEPTH, and [Spill] and [RepartitionBuildInput] end
    well.  [LargestPartitionRows] then finds the most rows [largest] that an
    open partition of the new fanout holds, and it is at most the rows of
    [s].  When it equals the rows of [s], [BeginSpilledProbe] fails with
    PARTITIONED_HASH_JOIN_REPARTITION_FAILS; otherwise it succeeds with
    [*repartitioned] true and the new fanout, in which every open partition
    has strictly fewer rows than [s] had. *)
Theorem BeginSpilledProbe_progress_check
    (b : PhjBuilder) (partition : ptr) (x : Partition) (s : BufferedTupleStream)
    (b1 b2 b3 : PhjBuilder) :
  all_partitions_ b !! partition = Some x ->
  build_rows_ x = Some s ->
  hash_partitions_ b = [] ->
  BuildHashTable partition (snd (SaveReservation (spillable_buffer_size_ b) b))
  = (Ok false, b1) ->
  level_ x + 1 < MAX_PARTITION_DEPTH ->
  Spill partition UNPIN_ALL (set_state REPARTITIONING_BUILD b1) = (Ok tt, b2) ->
  RepartitionBuildInput partition (snd (RestoreReservation (spillable_buffer_size_ b) b2))
  = (Ok tt, b3) ->
  exists largest,
    LargestPartitionRows b3 = (Ok largest, b3)
    /\ (forall q y s', q ∈ hash_partitions_ b3 -> all_partitions_ b3 !! q = Some y ->
          build_rows_ y = Some s' -> num_rows s' <= largest)
    /\ largest <= num_rows s
    /\ (largest = num_rows s ->
        BeginSpilledProbe false partition b
        = (Err (PARTITIONED_HASH_JOIN_REPARTITION_FAILS (join_node_id_ b) (level_ x + 1)
                  (num_rows s)), b3))
    /\ (largest < num_rows s ->
        exists lvl b',
          BeginSpilledProbe false partition b
          = (Ok (true, lvl,
                 Some (mkHashPartitions lvl (hash_partitions_ b3) (non_empty_build_ b3))),
             b')
          /\ all_partitions_ b' = all_partitions_ b3
          /\ hash_partitions_ b' = hash_partitions_ b3
          /\ forall q y s', q ∈ hash_partitions_ b' -> all_partitions_ b' !! q = Some y ->
               build_rows_ y = Some s' -> num_rows s' < num_rows s).
Proof.
  intros Hx Hs Hempty Ebuild Hdepth Espill Erep.
  rewrite SaveReservation_run in Ebuild. simpl snd in Ebuild.
  rewrite RestoreReservation_run in Erep. simpl snd in Erep.
  set (b0 := set_world _ (set_probe_stream_reservation _ b)) in Ebuild.
  set (b2' := set_world _ (set_probe_stream_reservation _ b2)) in Erep.
  assert (Hag0 : agree fp_flush b b0) by (subst b0; solve_agree).
  assert (Hag1 : agree fp_flush b0 b1).
  { eapply agree_mono; [|exact (footprint_step _ _ _ _ _ (footprint_BuildHashTable _) Ebuild)].
    reflexivity. }
  assert (Hag1' : agree fp_flush b1 (set_state REPARTITIONING_BUILD b1)) by solve_agree.
  assert (Hag2 : agree fp_flush (set_state REPARTITIONING_BUILD b1) b2).
  { eapply agree_mono; [|exact (footprint_step _ _ _ _ _ (footprint_Spill _ _) Espill)].
    reflexivity. }
  assert (Hag2' : agree fp_flush b2 b2') by (subst b2'; solve_agree).
  assert (Hag : agree fp_flush b b2').
  { eapply agree_trans; [exact Hag0|]. eapply agree_trans; [exact Hag1|].
    eapply agree_trans; [exact Hag1'|]. eapply agree_trans; [exact Hag2|]. exact Hag2'. }
  assert (Hagm : agree fp_flush b (set_state REPARTITIONING_BUILD b1)).
  { eapply agree_trans; [exact Hag0|]. eapply agree_trans; [exact Hag1|]. exact Hag1'. }
  destruct (level_agree _ _ _ _ _ Hagm Hx) as (xm & Hxm & Hlm).
  destruct (RepartitionBuildInput_input _ _ _ _ Erep) as (x6 & s6 & Hx6 & Hs6).
  pose proof (rows_agree _ _ _ _ _ _ _ _ Hag eq_refl Hx Hs Hx6 Hs6) as Hrows.
  assert (Hempty' : hash_partitions_ b2' = []).
  { rewrite (ag_hash_partitions _ _ _ Hag eq_refl). exact Hempty. }
  destruct (RepartitionBuildInput_rows _ _ _ _ _ _ Hx6 Hs6 Hempty' Erep) as [Hfan [c Hctx]].
  destruct (LargestPartitionRows_spec _ _ Hfan) as (largest & Elargest & Hbound & Hall).
  assert (Hn6 : num_rows s6 = num_rows s) by (unfold num_rows; rewrite Hrows; reflexivity).
  assert (Hrun : BeginSpilledProbe false partition b
    = (if num_rows s =? largest
       then fail (PARTITIONED_HASH_JOIN_REPARTITION_FAILS (join_node_id_ b) (level_ x + 1)
                    (num_rows s))
       else
         TransferProbeStreamReservation ;;;
         level <- ht_ctx_level ;;
         b <- get ;;
         ret (true, level,
              Some (mkHashPartitions level (hash_partitions_ b) (non_empty_build_ b)))) b3).
  { unfold BeginSpilledProbe.
    rewrite bind_unfold. change (gets join_node_id_ b) with (Ok (join_node_id_ b), b).
    cbv beta iota.
    rewrite bind_unfold.
    change (gets spillable_buffer_size_ b) with (Ok (spillable_buffer_size_ b), b).
    cbv beta iota.
    rewrite bind_unfold, SaveReservation_run. fold b0. rewrite bind_unfold, Ebuild.
    rewrite bind_unfold. unfold UpdateState, modify at 1.
    rewrite bind_unfold, (deref_Some partition (set_state REPARTITIONING_BUILD b1) xm)
      by exact Hxm.
    rewrite Hlm.
    destruct (Z.geb_spec (level_ x + 1) MAX_PARTITION_DEPTH) as [Hge|_]; [lia|].
    rewrite bind_unfold, Espill. rewrite bind_unfold, RestoreReservation_run. fold b2'.
    rewrite bind_unfold, (build_rows_Some _ _ _ _ Hx6 Hs6).
    rewrite bind_unfold, Erep. rewrite bind_unfold, Elargest.
    rewrite Hn6. reflexivity. }
  exists largest. split; [exact Elargest|]. split; [exact Hall|].
  split; [unfold num_rows in *; lia|]. split.
  - intros Heq. rewrite Hrun, Heq, Z.eqb_refl. reflexivity.
  - intros Hlt. rewrite Hrun.
    destruct (Z.eqb_spec (num_rows s) largest) as [Heq|_]; [lia|].
    destruct (GetNumSpilledPartitions_valid (hash_partitions_ b3) b3) as [n Hn].
    { intros q Hq. destruct (Hfan q Hq) as (y & Hy & _). eauto. }
    exists (ctx_level c).
    exists (set_world (client_RestoreReservation (GetReservation b3) (world b3))
              (set_probe_stream_reservation (Some (GetReservation b3 - GetReservation b3))
                 b3)).
    split; [|split; [reflexivity|split; [reflexivity|]]].
    + rewrite bind_unfold.
      unfold TransferProbeStreamReservation at 1. rewrite bind_unfold.
      change (get b3) with (Ok b3, b3). cbv beta iota.
      rewrite bind_unfold, Hn. rewrite RestoreReservation_run.
      rewrite bind_unfold. unfold ht_ctx_level at 1. rewrite bind_unfold.
      unfold gets at 1.
      change (ht_ctx_ (set_world (client_RestoreReservation (GetReservation b3) (world b3))
                (set_probe_stream_reservation
                   (Some (GetReservation b3 - GetReservation b3)) b3)))
        with (ht_ctx_ b3).
      rewrite Hctx. reflexivity.
    + intros q y s' Hq Hy Hs'. simpl in Hq, Hy. specialize (Hall q y s' Hq Hy Hs'). lia.
Qed.

(** ** One partition at a time *)

Section Touches.
Context (R : Partition -> Partition -> Prop) `{!PreOrder R}.

Lemma touches_same {A} p (m : M A) :
  (forall b, all_partitions_ (snd (m b)) = all_partitions_ b) -> touches R p m.
Proof.
  intros H b. rewrite H. split; [reflexivity|]. split; [reflexivity|].
  intros x Hx. exists x. split; [exact Hx | reflexivity].
Qed.

Lemma touches_ret {A} p (a : A) : touches R p (ret a).
Proof. apply touches_same. reflexivity. Qed.

Lemma touches_fail {A} p e : touches R p (@fail _ A e).
Proof. apply touches_same. reflexivity. Qed.

Lemma touches_pure {A} p (m : M A) : pure m -> touches R p m.
Proof. intros H. apply touches_same. intros b. rewrite H. reflexivity. Qed.

Lemma touches_modify p f :
  (forall b, all_partitions_ (f b) = all_partitions_ b) -> touches R p (modify f).
Proof. intros H. apply touches_same. exact H. Qed.

Lemma touches_bind {A B} p (m : M A) (k : A -> M B) :
  touches R p m -> (forall a, touches R p (k a)) -> touches R p (bind m k).
Proof.
  intros Hm Hk b. rewrite bind_unfold. specialize (Hm b).
  destruct (m b) as [[a|e] b1]; simpl in *; [|exact Hm].
  destruct Hm as (Hl & Ho & Hp). destruct (Hk a b1) as (Hl' & Ho' & Hp').
  split; [congruence|]. split.
  - intros q Hq. rewrite (Ho' q Hq). exact (Ho q Hq).
  - intros x Hx. destruct (Hp x Hx) as (x1 & Hx1 & HR1).
    destruct (Hp' x1 Hx1) as (x2 & Hx2 & HR2). exists x2. split; [exact Hx2|].
    etransitivity; eassumption.
Qed.

Lemma touches_update p f : (forall x, R x (f x)) -> touches R p (update p f).
Proof.
  intros Hf b. unfold update, deref, assign, modify. rewrite bind_unfold.
  destruct (all_partitions_ b !! p) as [x|] eqn:Hx; simpl.
  - split; [apply length_insert|]. split.
    + intros q Hq. apply list_lookup_insert_ne. congruence.
    + intros y Hy. inversion Hy; subst y. exists (f x). split; [|apply Hf].
      apply list_lookup_insert_eq. eapply lookup_lt_Some; eassumption.
  - split; [reflexivity|]. split; [reflexivity|]. intros y Hy. discriminate.
Qed.

Lemma touches_step {A} p (m : M A) b r b' :
  touches R p m -> m b = (r, b') ->
  length (all_partitions_ b') = length (all_partitions_ b)
  /\ (forall q, q <> p -> all_partitions_ b' !! q = all_partitions_ b !! q)
  /\ (forall x, all_partitions_ b !! p = Some x ->
        exists x', all_partitions_ b' !! p = Some x' /\ R x x').
Proof. intros H E. specialize (H b). rewrite E in H. exact H. Qed.

End Touches.

Lemma touches_weaken {A} (R R' : Partition -> Partition -> Prop) p (m : M A) :
  (forall x x', R x x' -> R' x x') -> touches R p m -> touches R' p m.
Proof.
  intros HR H b. destruct (H b) as (Hl & Ho & Hp). split; [exact Hl|].
  split; [exact Ho|]. intros x Hx. destruct (Hp x Hx) as (x' & Hx' & Hxx').
  exists x'. auto.
Qed.

#[local] Instance same_but_mem_preorder : PreOrder same_but_mem.
Proof.
  split.
  - intros x. repeat split; reflexivity.
  - intros x y z (H1 & H2 & H3 & H4) (H1' & H2' & H3' & H4').
    repeat split; congruence.
Qed.

#[local] Instance same_rows_preorder : PreOrder same_rows.
Proof.
  split.
  - intros x. split; reflexivity.
  - intros x y z (H1 & H2) (H1' & H2'). split; congruence.
Qed.

Lemma same_but_mem_same_rows x x' : same_but_mem x x' -> same_rows x x'.
Proof. intros (H1 & _ & _ & H4). split; assumption. Qed.

Lemma same_but_mem_set_mem m x : same_but_mem x (set_mem m x).
Proof.
  unfold set_mem. destruct (build_rows_ x) as [s|] eqn:Hs; [|reflexivity].
  repeat split; simpl; try reflexivity. rewrite Hs. reflexivity.
Qed.

Lemma same_rows_set_hash_tbl v x : same_rows x (set_hash_tbl v x).
Proof. split; reflexivity. Qed.

Lemma same_rows_set_is_spilled v x : same_rows x (set_is_spilled v x).
Proof. split; reflexivity. Qed.

Lemma same_rows_set_mem m x : same_rows x (set_mem m x).
Proof. apply same_but_mem_same_rows, same_but_mem_set_mem. Qed.

Create HintDb touch discriminated.

Ltac tc_apply lem tac := first [ apply lem; [tac] | apply lem; [exact _ | tac] ].

Ltac tc_step :=
  match goal with
  | |- touches _ _ (ret _) => apply touches_ret; try exact _
  | |- touches _ _ (fail _) => apply touches_fail; try exact _
  | |- touches _ _ (gets _) => tc_apply touches_pure ltac:(apply pure_gets)
  | |- touches _ _ get => tc_apply touches_pure ltac:(apply pure_get)
  | |- touches _ _ (bind _ _) =>
      first [ apply touches_bind; [|intros ?]
            | apply touches_bind; [exact _ | | intros ?] ]
  | |- touches _ _ (modify _) => tc_apply touches_modify ltac:(intros ?; reflexivity)
  | |- touches same_but_mem ?p (update ?p (set_mem _)) =>
      tc_apply touches_update ltac:(intros ?; apply same_but_mem_set_mem)
  | |- touches same_rows ?p (update ?p (set_mem _)) =>
      tc_apply touches_update ltac:(intros ?; apply same_rows_set_mem)
  | |- touches same_rows ?p (update ?p (set_hash_tbl _)) =>
      tc_apply touches_update ltac:(intros ?; apply same_rows_set_hash_tbl)
  | |- touches same_rows ?p (update ?p (set_is_spilled _)) =>
      tc_apply touches_update ltac:(intros ?; apply same_rows_set_is_spilled)
  | |- touches _ _ (match ?x with _ => _ end) => destruct x
  | |- touches _ _ _ => solve [tc_apply touches_pure ltac:(auto with fp)]
  | |- touches _ _ _ => solve [auto with touch]
  | |- touches same_rows _ _ =>
      solve [apply (touches_weaken same_but_mem);
             [exact same_but_mem_same_rows | auto with touch]]
  end.
Ltac tc_auto := repeat tc_step.

Lemma touches_of_ext R `{!PreOrder R} p st : touches R p (of_ext st).
Proof. unfold of_ext. tc_auto. Qed.

Lemma touches_runtime R `{!PreOrder R} p op : touches R p (runtime op).
Proof. unfold runtime. tc_auto. apply touches_of_ext; exact _. Qed.

Lemma touches_stream_status_raw p op : touches same_but_mem p (stream_status_raw p op).
Proof. unfold stream_status_raw. tc_auto. Qed.
Hint Resolve touches_stream_status_raw : touch.

Lemma touches_stream_status p op : touches same_but_mem p (stream_status p op).
Proof. unfold stream_status. tc_auto. apply touches_of_ext; exact _. Qed.
Hint Resolve touches_stream_status : touch.

Lemma touches_stream_bool_raw p op :
  is_add_row op = false -> touches same_but_mem p (stream_bool_raw p op).
Proof. intros H. unfold stream_bool_raw. tc_auto; discriminate. Qed.

Lemma touches_stream_bool p op :
  is_add_row op = false -> touches same_but_mem p (stream_bool p op).
Proof.
  intros H. unfold stream_bool. tc_auto. apply touches_stream_bool_raw. exact H.
Qed.

Lemma touches_close_and_reset_hash_tbl p : touches same_rows p (close_and_reset_hash_tbl p).
Proof. unfold close_and_reset_hash_tbl. tc_auto. Qed.
Hint Resolve touches_close_and_reset_hash_tbl : touch.

#[local] Instance same_but_tbl_preorder : PreOrder same_but_tbl.
Proof.
  split.
  - intros x. repeat split; reflexivity.
  - intros x y z (H1 & H2 & H3) (H1' & H2' & H3'). repeat split; congruence.
Qed.

Lemma same_but_mem_same_but_tbl x x' : same_but_mem x x' -> same_but_tbl x x'.
Proof. intros (H1 & H2 & _ & H4). repeat split; assumption. Qed.

Lemma same_but_tbl_same_rows x x' : same_but_tbl x x' -> same_rows x x'.
Proof. intros (H1 & _ & H3). split; assumption. Qed.

Hint Extern 1 (touches _ _ (runtime _)) => apply touches_runtime; exact _ : touch.
Hint Extern 1 (touches _ _ (of_ext _)) => apply touches_of_ext; exact _ : touch.

Lemma touches_tbl_close_and_reset_hash_tbl p :
  touches same_but_tbl p (close_and_reset_hash_tbl p).
Proof.
  unfold close_and_reset_hash_tbl. tc_auto.
  tc_apply touches_update ltac:(intros x; repeat split; reflexivity).
Qed.

Lemma close_and_reset_hash_tbl_Ok p b x u b' :
  all_partitions_ b !! p = Some x ->
  close_and_reset_hash_tbl p b = (Ok u, b') ->
  exists x', all_partitions_ b' !! p = Some x' /\ hash_tbl_ x' = None.
Proof.
  intros Hx E. unfold close_and_reset_hash_tbl in E.
  rewrite bind_unfold, (deref_Some _ _ _ Hx) in E.
  destruct (hash_tbl_ x) as [ht|] eqn:Hht.
  - mstep E. rewrite (update_valid p _ _ x) in E by exact Hx. inversion E; subst.
    exists (set_hash_tbl None x). split; [|reflexivity]. simpl.
    apply list_lookup_insert_eq. eapply lookup_lt_Some; eassumption.
  - inversion E; subst. exists x. auto.
Qed.

Lemma touches_tbl_Spill_prefix p mode :
  touches same_but_tbl p
    (runtime OpStartSpilling ;;; close_and_reset_hash_tbl p ;;;
     stream_status p (OpUnpinStream mode)).
Proof.
  tc_auto.
  - apply touches_tbl_close_and_reset_hash_tbl.
  - apply (touches_weaken same_but_mem); [exact same_but_mem_same_but_tbl|].
    apply touches_stream_status.
Qed.

Lemma Spill_result (p : ptr) (mode : UnpinMode) (b : PhjBuilder) (x : Partition)
    (r : Result unit) (b' : PhjBuilder) :
  all_partitions_ b !! p = Some x ->
  Spill p mode b = (r, b') ->
  length (all_partitions_ b') = length (all_partitions_ b)
  /\ (forall q, q <> p -> all_partitions_ b' !! q = all_partitions_ b !! q)
  /\ exists x',
       all_partitions_ b' !! p = Some x' /\ same_rows x x'
       /\ match r with
          | Ok _ => is_spilled_ x' = true /\ hash_tbl_ x' = None
          | Err _ => is_spilled_ x' = is_spilled_ x
          end.
Proof.
  intros Hx E. unfold Spill in E.
  rewrite bind_unfold, (deref_Some _ _ _ Hx) in E.
  mstep E as u1 b1 E1.
  2:{ inversion E; subst.
      destruct (touches_step same_but_tbl p _ _ _ _ (touches_runtime _ p _) E1)
        as (Hl & Ho & Hp).
      split; [exact Hl|]. split; [exact Ho|].
      destruct (Hp x Hx) as (x' & Hx' & HR). exists x'. split; [exact Hx'|].
      split; [exact (same_but_tbl_same_rows _ _ HR) | apply HR]. }
  destruct (touches_step same_but_tbl p _ _ _ _ (touches_runtime _ p _) E1)
    as (Hl1 & Ho1 & Hp1).
  destruct (Hp1 x Hx) as (x1 & Hx1 & HR1).
  mstep E as u2 b2 E2.
  2:{ inversion E; subst.
      destruct (touches_step _ p _ _ _ _ (touches_tbl_close_and_reset_hash_tbl p) E2)
        as (Hl & Ho & Hp).
      split; [congruence|]. split; [intros q Hq; rewrite (Ho q Hq); exact (Ho1 q Hq)|].
      destruct (Hp x1 Hx1) as (x' & Hx' & HR). exists x'. split; [exact Hx'|].
      assert (HR' : same_but_tbl x x') by (etransitivity; eassumption).
      split; [exact (same_but_tbl_same_rows _ _ HR') | apply HR']. }
  destruct (touches_step _ p _ _ _ _ (touches_tbl_close_and_reset_hash_tbl p) E2)
    as (Hl2 & Ho2 & Hp2).
  destruct (Hp2 x1 Hx1) as (x2 & Hx2 & HR2).
  destruct (close_and_reset_hash_tbl_Ok _ _ _ _ _ Hx1 E2) as (x2' & Hx2' & Hnone).
  assert (x2' = x2) by congruence. subst x2'.
  mstep E as u3 b3 E3;
    destruct (touches_step _ p _ _ _ _ (touches_stream_status p _) E3)
      as (Hl3 & Ho3 & Hp3);
    destruct (Hp3 x2 Hx2) as (x3 & Hx3 & HR3);
    assert (HR' : same_but_tbl x x3)
      by (etransitivity; [exact HR1|]; etransitivity; [exact HR2|];
          exact (same_but_mem_same_but_tbl _ _ HR3)).
  2:{ inversion E; subst. split; [congruence|].
      split; [intros q Hq; rewrite (Ho3 q Hq), (Ho2 q Hq); exact (Ho1 q Hq)|].
      exists x3. split; [exact Hx3|].
      split; [exact (same_but_tbl_same_rows _ _ HR') | apply HR']. }
  rewrite (update_valid p _ _ x3) in E by exact Hx3. inversion E; subst. simpl.
  split; [rewrite length_insert; congruence|]. split.
  - intros q Hq. rewrite list_lookup_insert_ne by congruence.
    rewrite (Ho3 q Hq), (Ho2 q Hq). exact (Ho1 q Hq).
  - exists (set_is_spilled true x3). split.
    + apply list_lookup_insert_eq. eapply lookup_lt_Some; eassumption.
    + split; [|split; [reflexivity|]].
      * destruct HR' as (H1 & _ & H3). split; assumption.
      * simpl. destruct HR3 as (_ & _ & H & _). congruence.
Qed.

#[local] Instance keeps_tbl_preorder : PreOrder keeps_tbl.
Proof.
  split.
  - intros x. split; [reflexivity | auto].
  - intros x y z [H1 H2] [H1' H2']. split; [etransitivity; eassumption | auto].
Qed.

Lemma same_but_mem_keeps_tbl x x' : same_but_mem x x' -> keeps_tbl x x'.
Proof.
  intros H. split; [exact (same_but_mem_same_but_tbl _ _ H)|].
  destruct H as (_ & _ & -> & _). auto.
Qed.

Lemma touches_insert_loop p bs : touches keeps_tbl p (insert_loop p bs).
Proof.
  induction bs as [|batch rest IH]; simpl; [apply touches_ret; exact _|].
  apply touches_bind; [exact _ | | intros st].
  { apply (touches_weaken same_but_mem); [exact same_but_mem_keeps_tbl|].
    apply touches_stream_status_raw. }
  destruct st; [apply touches_ret; exact _|].
  apply touches_bind; [exact _ | apply touches_pure; [exact _ | apply pure_deref] |].
  intros x. destruct (hash_tbl_ x) as [ht|]; [|apply touches_fail; exact _].
  apply touches_bind; [exact _ | apply touches_pure; [exact _ | apply pure_gets] |].
  intros w. destruct (ht_InsertBatch ht batch w) as [[r ht1] w1].
  apply touches_bind; [exact _ | | intros _].
  { tc_apply touches_update
      ltac:(intros y; split; [repeat split; reflexivity | intros _; simpl; eauto]). }
  apply touches_bind; [exact _ | apply touches_modify; [exact _ | reflexivity] |].
  intros _. destruct r; try (apply touches_ret; exact _).
  apply touches_bind; [exact _ | apply touches_pure; [exact _ | apply pure_gets] |].
  intros w2. destruct (is_cancelled w2); [apply touches_fail; exact _|].
  apply touches_bind; [exact _ | apply touches_runtime; exact _ | intros _; exact IH].
Qed.

Lemma not_built_outcome p status b x r b' :
  all_partitions_ b !! p = Some x ->
  not_built p status b = (r, b') ->
  length (all_partitions_ b') = length (all_partitions_ b)
  /\ (forall q, q <> p -> all_partitions_ b' !! q = all_partitions_ b !! q)
  /\ exists x', all_partitions_ b' !! p = Some x' /\ same_but_tbl x x'
       /\ r <> Ok true /\ (r = Ok false -> hash_tbl_ x' = None).
Proof.
  intros Hx E. pose proof (not_built_result _ _ _ _ _ E) as Hr.
  unfold not_built in E. mstep E as u1 b1 E1;
    destruct (touches_step _ p _ _ _ _ (touches_tbl_close_and_reset_hash_tbl p) E1)
      as (Hl & Ho & Hp);
    destruct (Hp x Hx) as (x1 & Hx1 & HR).
  2:{ inversion E; subst. split; [exact Hl|]. split; [exact Ho|].
      exists x1. split; [exact Hx1|]. split; [exact HR|]. split; [exact Hr|].
      discriminate. }
  destruct (close_and_reset_hash_tbl_Ok _ _ _ _ _ Hx E1) as (x1' & Hx1' & Hnone).
  assert (x1' = x1) by congruence. subst x1'.
  assert (b' = b1).
  { mstep E as u2 b2 E2; destruct (of_ext_result _ _ _ _ E2) as [-> _];
      inversion E; reflexivity. }
  subst b'. split; [exact Hl|]. split; [exact Ho|].
  exists x1. split; [exact Hx1|]. split; [exact HR|]. split; [exact Hr|]. auto.
Qed.

Lemma touches_not_built p status : touches same_rows p (not_built p status).
Proof. unfold not_built. tc_auto. Qed.

Lemma touches_rows_insert_loop p bs : touches same_rows p (insert_loop p bs).
Proof.
  apply (touches_weaken keeps_tbl); [|apply touches_insert_loop].
  intros x x' [H _]. exact (same_but_tbl_same_rows _ _ H).
Qed.

Lemma touches_rows_stream_bool_raw p op :
  is_add_row op = false -> touches same_rows p (stream_bool_raw p op).
Proof.
  intros H. apply (touches_weaken same_but_mem); [exact same_but_mem_same_rows|].
  apply touches_stream_bool_raw. exact H.
Qed.

Lemma touches_BuildHashTable p : touches same_rows p (BuildHashTable p).
Proof.
  unfold BuildHashTable.
  apply touches_bind; [exact _ | | intros built].
  { apply (touches_weaken same_but_mem); [exact same_but_mem_same_rows|].
    apply touches_stream_bool. reflexivity. }
  destruct built; cbv beta iota delta [negb]; [|apply touches_ret; exact _].
  apply touches_bind; [exact _ | apply touches_pure; [exact _ | apply pure_deref] |].
  intros x. apply touches_bind; [exact _ | | intros _].
  { unfold set_level. tc_auto. }
  apply touches_bind; [exact _ | apply touches_pure; [exact _ | apply pure_build_rows] |].
  intros s. tc_auto;
    first [ apply touches_not_built
          | apply touches_rows_stream_bool_raw; reflexivity
          | apply touches_rows_insert_loop ].
Qed.

Lemma lookup_set_world w b q : all_partitions_ (set_world w b) !! q = all_partitions_ b !! q.
Proof. reflexivity. Qed.

(** The end of [BuildHashTable], from the insert loop on. *)
Lemma BuildHashTable_insert p bs b x r b' :
  all_partitions_ b !! p = Some x -> is_Some (hash_tbl_ x) ->
  (e <- insert_loop p bs ;;
   match e with
   | NotBuilt status => not_built p status
   | Finished => update p (set_is_spilled false) ;;; ret true
   end) b = (r, b') ->
  exists x', all_partitions_ b' !! p = Some x'
    /\ match r with
       | Ok true => is_spilled_ x' = false /\ is_Some (hash_tbl_ x')
       | Ok false => is_spilled_ x' = is_spilled_ x /\ hash_tbl_ x' = None
       | Err _ => is_spilled_ x' = is_spilled_ x
       end.
Proof.
  intros Hx Htbl E.
  mstep E as e b1 E1;
    destruct (touches_step _ p _ _ _ _ (touches_insert_loop p bs) E1) as (_ & _ & Hp);
    destruct (Hp x Hx) as (x1 & Hx1 & [(_ & Hsp & _) Hsome]).
  2:{ inversion E; subst. exists x1. auto. }
  destruct e as [|status].
  - rewrite bind_unfold, (update_valid p _ _ x1) in E by exact Hx1. inversion E; subst.
    exists (set_is_spilled false x1). split; [|simpl; auto].
    simpl. apply list_lookup_insert_eq. eapply lookup_lt_Some; eassumption.
  - destruct (not_built_outcome _ _ _ _ _ _ Hx1 E)
      as (_ & _ & x' & Hx' & (_ & Hsp' & _) & Hr & Hnone).
    exists x'. split; [exact Hx'|].
    destruct r as [[|]|err]; [congruence | split; [congruence | auto] | congruence].
Qed.

Lemma BuildHashTable_result (p : ptr) (b : PhjBuilder) (x : Partition)
    (r : Result bool) (b' : PhjBuilder) :
  all_partitions_ b !! p = Some x ->
  BuildHashTable p b = (r, b') ->
  length (all_partitions_ b') = length (all_partitions_ b)
  /\ (forall q, q <> p -> all_partitions_ b' !! q = all_partitions_ b !! q)
  /\ (exists x', all_partitions_ b' !! p = Some x' /\ after_build x r x')
  /\ (r = Ok true -> current_level b' = Some (level_ x)).
Proof.
  intros Hx E.
  destruct (touches_step _ p _ _ _ _ (touches_BuildHashTable p) E) as (Hl & Ho & Hp).
  split; [exact Hl|]. split; [exact Ho|].
  destruct (Hp x Hx) as (x' & Hx' & Hrows).
  assert (Hmain :
    (exists y, all_partitions_ b' !! p = Some y
       /\ match r with
          | Ok true => is_spilled_ y = false /\ is_Some (hash_tbl_ y)
          | Ok false =>
              is_spilled_ y = is_spilled_ x
              /\ (hash_tbl_ y = None \/ hash_tbl_ y = hash_tbl_ x)
          | Err _ => is_spilled_ y = is_spilled_ x
          end)
    /\ (r = Ok true -> current_level b' = Some (level_ x))).
  { unfold BuildHashTable in E.
    mstep E as built b1 E1;
      destruct (touches_step _ p _ _ _ _ (touches_stream_bool p OpPinStream eq_refl) E1)
        as (_ & _ & Hp1);
      destruct (Hp1 x Hx) as (x1 & Hx1 & (Hlv1 & Hsp1 & Htbl1 & _)).
    2:{ inversion E; subst. split; [eauto | discriminate]. }
    destruct built; cbv beta iota delta [negb] in E.
    2:{ inversion E; subst. split; [|discriminate]. exists x1. auto. }
    rewrite bind_unfold, (deref_Some _ _ _ Hx1) in E.
    mstep E as u2 b2 E2.
    2:{ inversion E; subst. split; [|discriminate]. exists x1.
        unfold set_level in E2. mstep E2. destruct (ht_ctx_ b1); inversion E2; subst.
        auto. }
    pose proof (set_level_Ok _ _ _ _ E2) as Hlevel. rewrite Hlv1 in Hlevel.
    assert (Hx2 : all_partitions_ b2 !! p = Some x1).
    { unfold set_level in E2. mstep E2.
      destruct (ht_ctx_ b1); inversion E2; subst; exact Hx1. }
    assert (Hctx : r = Ok true -> current_level b' = Some (level_ x)).
    { intros _. rewrite <- Hlevel. apply (current_level_agree fp_built); [reflexivity|].
      eapply footprint_step; [|exact E].
      fp_auto;
        try (eapply footprint_weaken;
             [apply footprint_stream_bool_no_add || apply footprint_stream_bool_raw_no_add;
              reflexivity | reflexivity]). }
    split; [|exact Hctx].
    mstep E as s b3 E3; pose proof (pure_eq _ _ _ _ (pure_build_rows _) E3); subst b3.
    2:{ inversion E; subst. exists x1. auto. }
    mstep E. destruct (ht_Create (rows s) (world b2)) as [ht w1].
    destruct (ht_Init ht w1) as [[r0 ht1] w2].
    rewrite bind_unfold, (update_valid p _ _ x1) in E by exact Hx2.
    set (b4 := set_all_partitions _ b2) in E.
    assert (Hx4 : all_partitions_ b4 !! p = Some (set_hash_tbl (Some ht1) x1)).
    { subst b4. simpl. apply list_lookup_insert_eq. eapply lookup_lt_Some; eassumption. }
    clearbody b4. mstep E.
    assert (Hnb : forall status b5 y,
      all_partitions_ b5 !! p = Some y -> is_spilled_ y = is_spilled_ x ->
      not_built p status b5 = (r, b') ->
      exists y', all_partitions_ b' !! p = Some y'
        /\ match r with
           | Ok true => is_spilled_ y' = false /\ is_Some (hash_tbl_ y')
           | Ok false =>
               is_spilled_ y' = is_spilled_ x
               /\ (hash_tbl_ y' = None \/ hash_tbl_ y' = hash_tbl_ x)
           | Err _ => is_spilled_ y' = is_spilled_ x
           end).
    { intros status b5 y Hy Hsp Enb.
      destruct (not_built_outcome _ _ _ _ _ _ Hy Enb)
        as (_ & _ & y' & Hy' & (_ & Hsp' & _) & Hr & Hnone).
      exists y'. split; [exact Hy'|].
      destruct r as [[|]|err]; [congruence | split; [congruence | auto] | congruence]. }
    destruct r0.
    - mstep E as r1 b5 E5;
        destruct (touches_step _ p _ _ _ _
                    (touches_stream_bool_raw p (OpPrepareForRead false) eq_refl) E5)
          as (_ & _ & Hp5);
        destruct (Hp5 _ (eq_trans (lookup_set_world _ _ _) Hx4))
          as (x5 & Hx5 & (_ & Hsp5 & Htbl5 & _)).
      2:{ inversion E; subst. exists x5. split; [exact Hx5|]. simpl in Hsp5. congruence. }
      assert (Hins :
        (e <- insert_loop p (batches_of s) ;;
         match e with
         | NotBuilt status => not_built p status
         | Finished => update p (set_is_spilled false) ;;; ret true
         end) b5 = (r, b') ->
        exists y', all_partitions_ b' !! p = Some y'
          /\ match r with
             | Ok true => is_spilled_ y' = false /\ is_Some (hash_tbl_ y')
             | Ok false =>
                 is_spilled_ y' = is_spilled_ x
                 /\ (hash_tbl_ y' = None \/ hash_tbl_ y' = hash_tbl_ x)
             | Err _ => is_spilled_ y' = is_spilled_ x
             end).
      { intros Eins.
        destruct (BuildHashTable_insert _ _ _ _ _ _ Hx5
                    ltac:(rewrite Htbl5; simpl; eauto) Eins) as (y' & Hy' & Hpost).
        exists y'. split; [exact Hy'|]. simpl in Hsp5.
        destruct r as [[|]|err]; [exact Hpost | | congruence].
        destruct Hpost as [H1 H2]. split; [congruence | auto]. }
      destruct r1; [exact (Hins E) | exact (Hins E) |].
      eapply Hnb; [exact Hx5 | simpl in Hsp5; congruence | exact E].
    - eapply (Hnb _ (set_world w2 b4) (set_hash_tbl (Some ht1) x1));
        [exact Hx4 | simpl; congruence | exact E].
    - eapply (Hnb _ (set_world w2 b4) (set_hash_tbl (Some ht1) x1));
        [exact Hx4 | simpl; congruence | exact E]. }
  destruct Hmain as [(y & Hy & Hpost) Hctx].
  assert (y = x') by congruence. subst y.
  split; [|exact Hctx]. exists x'. split; [exact Hx'|]. split; assumption.
Qed.

(** X1.  [Partition::Close] on a closed partition does nothing: the stream
    and the hash table are closed once. *)
Theorem Close_partition_idempotent (p : ptr) (batch batch' : bool) (b b1 : PhjBuilder)
    (u : unit) :
  Close_partition p batch b = (Ok u, b1) ->
  (exists x1, all_partitions_ b1 !! p = Some x1 /\ IsClosed x1 = true)
  /\ Close_partition p batch' b1 = (Ok tt, b1).
Proof.
  intros E. unfold Close_partition in E.
  mstep E as x b0 E0; [|discriminate]. apply deref_Ok in E0. destruct E0 as [-> Hx].
  mstep E. pose proof (Partition_Close_closed batch x (world b)) as Hclosed.
  destruct (Partition_Close batch x (world b)) as [x1 w1]. simpl in Hclosed.
  unfold assign in E. mstep E. unfold modify in E. inversion E; subst. clear E.
  assert (Hx1 : all_partitions_
                  (set_world w1 (set_all_partitions (<[p:=x1]> (all_partitions_ b)) b))
                !! p = Some x1).
  { simpl. apply list_lookup_insert_eq. eapply lookup_lt_Some; eassumption. }
  split; [eauto|].
  unfold Close_partition. rewrite bind_unfold, (deref_Some _ _ _ Hx1).
  rewrite bind_unfold. unfold gets at 1. cbv beta iota.
  unfold Partition_Close. rewrite Hclosed.
  rewrite bind_unfold. unfold assign, modify. simpl.
  rewrite list_insert_insert_eq. reflexivity.
Qed.

(** ** New partitions *)

Lemma CreateAndPreparePartition_spec level out b r b' :
  (forall p b0, all_partitions_ (snd (out p b0)) = all_partitions_ b0) ->
  CreateAndPreparePartition level out b = (r, b') ->
  length (all_partitions_ b') = S (length (all_partitions_ b))
  /\ (forall q, (q < length (all_partitions_ b))%nat ->
        all_partitions_ b' !! q = all_partitions_ b !! q)
  /\ (exists y, all_partitions_ b' !! length (all_partitions_ b) = Some y
                /\ fresh_partition level y)
  /\ (forall p, r = Ok p -> p = length (all_partitions_ b)).
Proof.
  intros Hout E. unfold CreateAndPreparePartition in E. mstep E.
  destruct (stream_new (world b)) as [m w1]. mstep E.
  set (p := length (all_partitions_ b)) in *.
  set (b1 := set_world w1 _) in E.
  assert (Hl1 : length (all_partitions_ b1) = S p).
  { subst b1. simpl. rewrite length_app. simpl. lia. }
  assert (Ho1 : forall q, (q < p)%nat -> all_partitions_ b1 !! q = all_partitions_ b !! q).
  { intros q Hq. subst b1. simpl. apply lookup_app_l. exact Hq. }
  assert (Hp1 : all_partitions_ b1 !! p
                = Some (mkPartition false level (Some (mkStream [] m)) None)).
  { subst b1. simpl. rewrite lookup_app_r by lia. subst p. rewrite Nat.sub_diag.
    reflexivity. }
  clearbody b1.
  assert (Ht : touches same_but_mem p
                 (out p ;;; stream_status p OpInit ;;; stream_bool p OpPrepareForWrite ;;;
                  ret p)).
  { apply touches_bind; [exact _ | apply touches_same; [exact _ | apply Hout] | intros _].
    tc_auto. apply touches_stream_bool. reflexivity. }
  destruct (touches_step _ p _ _ _ _ Ht E) as (Hl & Ho & Hp).
  destruct (Hp _ Hp1) as (y & Hy & (H1 & H2 & H3 & H4)).
  split; [congruence|]. split; [|split].
  - intros q Hq. rewrite (Ho q ltac:(lia)). exact (Ho1 q Hq).
  - exists y. split; [exact Hy|]. repeat split; assumption.
  - intros q ->.
    assert (Hret : forall (m0 : M unit) (k : M nat) b0 q0 b0',
              (m0 ;;; k) b0 = (Ok q0, b0') ->
              exists b2, k b2 = (Ok q0, b0')).
    { intros m0 k b0 q0 b0' E0. rewrite bind_unfold in E0.
      destruct (m0 b0) as [[u0|e0] b2]; [eauto | discriminate]. }
    apply Hret in E. destruct E as [b2 E]. apply Hret in E. destruct E as [b3 E].
    rewrite bind_unfold in E.
    destruct (stream_bool p OpPrepareForWrite b3) as [[u0|e0] b4]; inversion E.
    reflexivity.
Qed.

(** X2.  A partition that [CreateAndPreparePartition] creates is owned by
    [all_partitions_] however the call ends, so that
    [CloseAndDeletePartitions] closes it; no other partition changes. *)
Theorem CreateAndPreparePartition_registers (level : Z) (out : ptr -> M unit)
    (b : PhjBuilder) (r : Result ptr) (b' : PhjBuilder) :
  (forall p b0, all_partitions_ (snd (out p b0)) = all_partitions_ b0) ->
  CreateAndPreparePartition level out b = (r, b') ->
  length (all_partitions_ b') = S (length (all_partitions_ b))
  /\ (forall q, (q < length (all_partitions_ b))%nat ->
        all_partitions_ b' !! q = all_partitions_ b !! q)
  /\ (exists y, all_partitions_ b' !! length (all_partitions_ b) = Some y
                /\ fresh_partition level y)
  /\ (forall p, r = Ok p -> p = length (all_partitions_ b)).
Proof. exact (CreateAndPreparePartition_spec level out b r b'). Qed.

Lemma CreateHashPartitions_loop_spec n level b u b' :
  CreateHashPartitions_loop n level b = (Ok u, b') ->
  hash_partitions_ b' = hash_partitions_ b ++ seq (length (all_partitions_ b)) n
  /\ length (all_partitions_ b') = (length (all_partitions_ b) + n)%nat
  /\ (forall q, (q < length (all_partitions_ b))%nat ->
        all_partitions_ b' !! q = all_partitions_ b !! q)
  /\ (forall q, (length (all_partitions_ b) <= q < length (all_partitions_ b) + n)%nat ->
        exists y, all_partitions_ b' !! q = Some y /\ fresh_partition level y).
Proof.
  revert b. induction n as [|n IH]; intros b E; simpl in E.
  - inversion E; subst. rewrite app_nil_r, Nat.add_0_r.
    split; [reflexivity|]. split; [reflexivity|]. split; [reflexivity|]. intros q Hq. lia.
  - mstep E as p b1 E1; [|discriminate].
    destruct (CreateAndPreparePartition_spec level (fun _ => ret tt) b (Ok p) b1
                (fun _ _ => eq_refl) E1)
      as (Hl1 & Ho1 & (y & Hy & Hfresh) & Hp).
    specialize (Hp p eq_refl). subst p.
    assert (Hhp1 : hash_partitions_ b1 = hash_partitions_ b).
    { apply (ag_hash_partitions fp_new_partition); [|reflexivity].
      eapply footprint_step; [|exact E1].
      apply footprint_CreateAndPreparePartition; [reflexivity | reflexivity |].
      intros q. apply footprint_ret. }
    mstep E. apply IH in E. simpl in E. destruct E as (Hhp & Hl & Ho & Hnew).
    rewrite Hl1 in *. rewrite Hhp1 in Hhp.
    split; [rewrite Hhp, <- app_assoc; reflexivity|]. split; [lia|]. split.
    + intros q Hq. rewrite (Ho q ltac:(lia)). exact (Ho1 q Hq).
    + intros q Hq. destruct (decide (q = length (all_partitions_ b))) as [->|Hne].
      * exists y. split; [|exact Hfresh].
        rewrite (Ho (length (all_partitions_ b)) ltac:(lia)). exact Hy.
      * apply Hnew. lia.
Qed.

Lemma CreateHashPartitions_result (level : Z) (b : PhjBuilder) (u : unit)
    (b' : PhjBuilder) :
  CreateHashPartitions level b = (Ok u, b') ->
  hash_partitions_ b'
  = hash_partitions_ b ++ seq (length (all_partitions_ b)) PARTITION_FANOUT
  /\ length (all_partitions_ b') = (length (all_partitions_ b) + PARTITION_FANOUT)%nat
  /\ (forall q, (q < length (all_partitions_ b))%nat ->
        all_partitions_ b' !! q = all_partitions_ b !! q)
  /\ (forall q, q ∈ seq (length (all_partitions_ b)) PARTITION_FANOUT ->
        exists y, all_partitions_ b' !! q = Some y /\ fresh_partition level y)
  /\ current_level b' = Some level.
Proof.
  intros E. pose proof (CreateHashPartitions_level _ _ _ _ E) as Hlevel.
  unfold CreateHashPartitions in E.
  mstep E as u1 b1 E1; [|discriminate].
  assert (H1 : all_partitions_ b1 = all_partitions_ b
               /\ hash_partitions_ b1 = hash_partitions_ b).
  { unfold set_level in E1. mstep E1.
    destruct (ht_ctx_ b); inversion E1; subst; auto. }
  destruct H1 as [Hall Hhp].
  destruct (CreateHashPartitions_loop_spec _ _ _ _ _ E) as (H1 & H2 & H3 & H4).
  rewrite Hall, Hhp in *.
  split; [exact H1|]. split; [exact H2|]. split; [exact H3|]. split; [|exact Hlevel].
  intros q Hq. apply H4. apply elem_of_seq in Hq. lia.
Qed.

(** ** The reservation for the probe streams *)

Lemma GetNumSpilledPartitions_count l b :
  valid_ptrs b l ->
  GetNumSpilledPartitions l b = (Ok (Z.of_nat (num_spilled b l)), b).
Proof.
  induction l as [|p rest IH]; intros Hv; simpl; [reflexivity|].
  destruct (Hv p ltac:(left)) as [x Hx].
  rewrite bind_unfold, (deref_Some _ _ _ Hx).
  rewrite bind_unfold, IH by (intros q Hq; apply Hv; right; exact Hq).
  unfold ret, num_spilled. simpl.
  assert (Hp : open_and_spilled b p = negb (IsClosed x) && is_spilled_ x)
    by (unfold open_and_spilled; rewrite Hx; reflexivity).
  rewrite Hp. destruct (negb (IsClosed x) && is_spilled_ x); simpl; [|reflexivity].
  f_equal. f_equal. lia.
Qed.

Lemma GetNumSpilledPartitions_dangling l b :
  ~ valid_ptrs b l -> exists b', GetNumSpilledPartitions l b = (Err NULL_POINTER, b').
Proof.
  induction l as [|p rest IH]; intros Hv.
  - exfalso. apply Hv. intros q Hq. inversion Hq.
  - simpl. rewrite bind_unfold. unfold deref.
    destruct (all_partitions_ b !! p) as [x|] eqn:Hx; [|eauto].
    destruct IH as [b' Hb'].
    { intros Hrest. apply Hv. intros q Hq. apply elem_of_cons in Hq.
      destruct Hq as [->|Hq]; [eauto | exact (Hrest q Hq)]. }
    rewrite bind_unfold, Hb'. eauto.
Qed.

Lemma num_spilled_le l b : (num_spilled b l <= length l)%nat.
Proof. apply filter_length_le. Qed.

(** X3.  [GetNumSpilledPartitions] counts the partitions of its argument that
    are open and spilled, closed ones left out; it leaves the builder as it
    is. *)
Theorem GetNumSpilledPartitions_counts (l : list ptr) (b : PhjBuilder) :
  valid_ptrs b l ->
  GetNumSpilledPartitions l b = (Ok (Z.of_nat (num_spilled b l)), b)
  /\ (num_spilled b l <= length l)%nat
  /\ (forall q, q ∈ l ->
        open_and_spilled b q = true <->
        exists x, all_partitions_ b !! q = Some x
                  /\ IsClosed x = false /\ is_spilled_ x = true).
Proof.
  intros Hv. split; [exact (GetNumSpilledPartitions_count l b Hv)|].
  split; [apply num_spilled_le|]. intros q Hq. unfold open_and_spilled.
  destruct (Hv q Hq) as [x Hx]. rewrite Hx. split.
  - intros H. apply andb_true_iff in H. destruct H as [H1 H2].
    exists x. split; [reflexivity|]. split; [|exact H2].
    destruct (IsClosed x); [discriminate | reflexivity].
  - intros (y & Hy & Hc & Hs). inversion Hy; subst y. rewrite Hc, Hs. reflexivity.
Qed.














Lemma footprint_round_ReserveProbeBuffers input_is_spilled :
  footprint fp_round (ReserveProbeBuffers input_is_spilled).
Proof. unfold ReserveProbeBuffers. fp_auto. Qed.
Hint Resolve footprint_round_ReserveProbeBuffers : fp.

Lemma footprint_round_BuildHashTablesAndReserveProbeBuffers :
  footprint fp_round BuildHashTablesAndReserveProbeBuffers.
Proof. unfold BuildHashTablesAndReserveProbeBuffers. fp_auto. Qed.



(** ** The end of a round *)

Lemma settles_refl b : settles b b.
Proof. intros q x Hx. eauto. Qed.

Lemma settles_trans b b1 b2 : settles b b1 -> settles b1 b2 -> settles b b2.
Proof.
  intros H1 H2 q x Hx. destruct (H1 q x Hx) as (x1 & Hx1 & Hs1).
  destruct (H2 q x1 Hx1) as (x2 & Hx2 & Hs2). eauto.
Qed.

Lemma settles_same b b' : all_partitions_ b' = all_partitions_ b -> settles b b'.
Proof. intros H q x Hx. rewrite H. eauto. Qed.

Lemma settled_at_settles b b' q : settles b b' -> settled_at b q -> settled_at b' q.
Proof.
  intros H (x & Hx & Hs). destruct (H q x Hx) as (x' & Hx' & Hs'). exists x'. auto.
Qed.

Lemma same_rows_closed x x' : same_rows x x' -> IsClosed x' = IsClosed x.
Proof.
  intros [_ H]. unfold IsClosed.
  destruct (build_rows_ x), (build_rows_ x'); simpl in H; congruence.
Qed.

(** A step on partition [p] alone that leaves [p] settled. *)
Lemma settles_one p b b' :
  (forall q, q <> p -> all_partitions_ b' !! q = all_partitions_ b !! q) ->
  (is_Some (all_partitions_ b !! p) -> settled_at b' p) ->
  settles b b'.
Proof.
  intros Ho Hp q x Hx. destruct (decide (q = p)) as [->|Hne].
  - destruct (Hp ltac:(eauto)) as (x' & Hx' & Hs). eauto.
  - rewrite (Ho q Hne). eauto.
Qed.

Lemma Spill_settles p mode b u b' :
  Spill p mode b = (Ok u, b') -> settles b b' /\ settled_at b' p.
Proof.
  intros E.
  assert (Hx : is_Some (all_partitions_ b !! p)).
  { unfold Spill in E. mstep E as x b0 E0; [|discriminate].
    apply deref_Ok in E0. destruct E0 as [_ Hx]. eauto. }
  destruct Hx as [x Hx].
  destruct (Spill_result _ _ _ _ _ _ Hx E) as (_ & Ho & x' & Hx' & _ & Hsp & _).
  assert (Hs : settled_at b' p) by (exists x'; split; [exact Hx' | right; left; exact Hsp]).
  split; [|exact Hs]. apply (settles_one p); auto.
Qed.

Lemma SpillPartition_settles mode b c b' :
  SpillPartition mode b = (Ok c, b') -> settles b b'.
Proof.
  intros E. destruct (SpillPartition_Ok _ _ _ _ E) as [_ Hspill].
  exact (proj1 (Spill_settles _ _ _ _ _ Hspill)).
Qed.

Lemma ReserveProbeBuffers_loop_settles fuel addtl b a b' :
  ReserveProbeBuffers_loop fuel addtl b = (Ok a, b') -> settles b b'.
Proof.
  revert addtl b. induction fuel as [|fuel IH]; intros addtl b E; simpl in E; mstep E;
    destruct (addtl >? GetUnusedReservation (world b));
    try discriminate; try (inversion E; subst; apply settles_refl).
  mstep E as c b1 E1; [|discriminate].
  pose proof (SpillPartition_settles _ _ _ _ E1) as H1.
  destruct (decide (Some c <> null_aware_partition_ b));
    exact (settles_trans _ _ _ H1 (IH _ _ E)).
Qed.

Lemma ReserveProbeBuffers_settles input_is_spilled b u b' :
  ReserveProbeBuffers input_is_spilled b = (Ok u, b') -> settles b b'.
Proof.
  intros E. unfold ReserveProbeBuffers in E. mstep E.
  mstep E as n b0 E0; [|discriminate].
  pose proof (pure_eq _ _ _ _ (pure_GetNumSpilledPartitions _) E0). subst b0.
  mstep E as a b1 E1; [|discriminate].
  rewrite SaveReservation_run in E. inversion E; subst.
  eapply settles_trans; [exact (ReserveProbeBuffers_loop_settles _ _ _ _ _ E1)|].
  apply settles_same. reflexivity.
Qed.

Lemma hash_partition_at_Ok i b p b' :
  hash_partition_at i b = (Ok p, b') -> b' = b /\ hash_partitions_ b !! i = Some p.
Proof.
  intros E. pose proof (pure_eq _ _ _ _ (pure_hash_partition_at _) E). subst b'.
  split; [reflexivity|]. unfold hash_partition_at in E. mstep E.
  destruct (hash_partitions_ b !! i); inversion E; reflexivity.
Qed.

(** One turn of the second loop of [BuildHashTablesAndReserveProbeBuffers]. *)
Lemma build_or_spill_settles i b u b' :
  (partition <- hash_partition_at i ;;
   x <- deref partition ;;
   if IsClosed x || is_spilled_ x then ret tt
   else
     built <- BuildHashTable partition ;;
     if negb built then Spill partition UNPIN_ALL else ret tt) b = (Ok u, b') ->
  hash_partitions_ b' = hash_partitions_ b
  /\ settles b b'
  /\ forall q, hash_partitions_ b !! i = Some q -> settled_at b' q.
Proof.
  intros E.
  assert (Hhp : hash_partitions_ b' = hash_partitions_ b).
  { apply (ag_hash_partitions fp_build); [|reflexivity].
    eapply footprint_step; [|exact E]. fp_auto. }
  split; [exact Hhp|].
  mstep E as p b0 E0; [|discriminate].
  destruct (hash_partition_at_Ok _ _ _ _ E0) as [-> Hp].
  mstep E as x b0 E1; [|discriminate]. apply deref_Ok in E1. destruct E1 as [-> Hx].
  assert (Hgoal : settles b b' /\ settled_at b' p).
  { destruct (IsClosed x) eqn:Hc; simpl in E.
    { inversion E; subst. split; [apply settles_refl|]. exists x. split; [exact Hx|].
      left. exact Hc. }
    destruct (is_spilled_ x) eqn:Hsp; simpl in E.
    { inversion E; subst. split; [apply settles_refl|]. exists x. split; [exact Hx|].
      right. left. exact Hsp. }
    mstep E as built b1 E1; [|discriminate].
    destruct (BuildHashTable_result _ _ _ _ _ Hx E1) as (_ & Ho1 & (x1 & Hx1 & Hab) & _).
    destruct built; cbv beta iota delta [negb] in E.
    - inversion E; subst.
      assert (Hs : settled_at b' p).
      { exists x1. split; [exact Hx1|]. right. right. apply Hab. }
      split; [|exact Hs]. apply (settles_one p); auto.
    - destruct (Spill_settles _ _ _ _ _ E) as [_ Hs].
      destruct (Spill_result _ _ _ _ _ _ Hx1 E) as (_ & Ho2 & _).
      split; [|exact Hs]. apply (settles_one p); [|auto].
      intros q Hq. rewrite (Ho2 q Hq). exact (Ho1 q Hq). }
  destruct Hgoal as [Hs Hp']. split; [exact Hs|].
  intros q Hq. assert (q = p) by congruence. subst q. exact Hp'.
Qed.

Lemma for_each_settles (l : list nat) (f : nat -> M unit) b u b' :
  (forall i b0 u0 b1, f i b0 = (Ok u0, b1) ->
     hash_partitions_ b1 = hash_partitions_ b0 /\ settles b0 b1
     /\ forall q, hash_partitions_ b0 !! i = Some q -> settled_at b1 q) ->
  for_each l f b = (Ok u, b') ->
  hash_partitions_ b' = hash_partitions_ b /\ settles b b'
  /\ forall i q, i ∈ l -> hash_partitions_ b !! i = Some q -> settled_at b' q.
Proof.
  intros Hf. revert b. induction l as [|i rest IH]; intros b E; simpl in E.
  - inversion E; subst. split; [reflexivity|]. split; [apply settles_refl|].
    intros i q Hi. inversion Hi.
  - mstep E as u1 b1 E1; [|discriminate].
    destruct (Hf _ _ _ _ E1) as (Hhp1 & Hs1 & Hi1).
    destruct (IH _ E) as (Hhp & Hs & Hrest).
    split; [congruence|]. split; [exact (settles_trans _ _ _ Hs1 Hs)|].
    intros j q Hj Hq. apply elem_of_cons in Hj. destruct Hj as [->|Hj].
    + exact (settled_at_settles _ _ _ Hs (Hi1 q Hq)).
    + apply (Hrest j q Hj). rewrite Hhp1. exact Hq.
Qed.

(** X6.  The end of [BuildHashTablesAndReserveProbeBuffers], as its comment
    has it: when it ends well, every partition of the fanout is closed, or
    spilled, or not spilled with a hash table; the fanout is the same. *)
Theorem BuildHashTablesAndReserveProbeBuffers_settles (b : PhjBuilder) (u : unit)
    (b' : PhjBuilder) :
  BuildHashTablesAndReserveProbeBuffers b = (Ok u, b') ->
  hash_partitions_ b' = hash_partitions_ b
  /\ forall i q, (i < PARTITION_FANOUT)%nat -> hash_partitions_ b' !! i = Some q ->
       exists x, all_partitions_ b' !! q = Some x
         /\ (IsClosed x = true \/ is_spilled_ x = true
             \/ (is_spilled_ x = false /\ is_Some (hash_tbl_ x))).
Proof.
  intros E.
  assert (Hhp : hash_partitions_ b' = hash_partitions_ b).
  { apply (ag_hash_partitions fp_round); [|reflexivity].
    eapply footprint_step; [|exact E].
    apply footprint_round_BuildHashTablesAndReserveProbeBuffers. }
  split; [exact Hhp|].
  unfold BuildHashTablesAndReserveProbeBuffers in E.
  mstep E as u1 b1 E1; [|discriminate].
  assert (Hhp1 : hash_partitions_ b1 = hash_partitions_ b).
  { apply (ag_hash_partitions fp_partitions); [|reflexivity].
    eapply footprint_step; [|exact E1]. fp_auto. }
  mstep E as lvl b2 E2; [|discriminate]. destruct (ht_ctx_level_Ok _ _ _ E2) as [-> _].
  mstep E as u3 b3 E3; [|discriminate].
  assert (Hhp3 : hash_partitions_ b3 = hash_partitions_ b1).
  { apply (ag_hash_partitions fp_round); [|reflexivity].
    eapply footprint_step; [|exact E3]. apply footprint_round_ReserveProbeBuffers. }
  mstep E as u4 b4 E4; [|discriminate].
  destruct (for_each_settles _ _ _ _ _ build_or_spill_settles E4) as (Hhp4 & _ & Hall).
  pose proof (ReserveProbeBuffers_settles _ _ _ _ E) as Hlast.
  intros i q Hi Hq. rewrite Hhp, <- Hhp1, <- Hhp3 in Hq.
  apply (settled_at_settles _ _ _ Hlast). apply (Hall i q); [|exact Hq].
  apply elem_of_seq. lia.
Qed.

(** ** No row is lost *)

#[local] Instance row_safe_preorder : PreOrder row_safe.
Proof.
  split.
  - intros x. split; [reflexivity | left; reflexivity].
  - intros x y z [Hl1 H1] [Hl2 H2]. split; [congruence|].
    destruct H2 as [H2|[H2 H2']].
    + destruct H1 as [H1|[H1 H1']]; [left; congruence|].
      right. split; [|exact H1']. rewrite H1 in H2. simpl in H2.
      destruct (build_rows_ z); [discriminate | reflexivity].
    + destruct H1 as [H1|[H1 H1']]; [right; split; [exact H2 | congruence]|].
      rewrite H1 in H2'. discriminate.
Qed.

Lemma same_rows_row_safe x x' : same_rows x x' -> row_safe x x'.
Proof. intros [H1 H2]. split; [exact H1 | left; exact H2]. Qed.

Section Every.
Context (R : Partition -> Partition -> Prop) `{!PreOrder R}.

Lemma every_same {A} (m : M A) :
  (forall b, all_partitions_ (snd (m b)) = all_partitions_ b) -> every R m.
Proof. intros H b q x Hx. rewrite H. exists x. split; [exact Hx | reflexivity]. Qed.

Lemma every_pure {A} (m : M A) : pure m -> every R m.
Proof. intros H. apply every_same. intros b. rewrite H. reflexivity. Qed.

Lemma every_bind {A B} (m : M A) (k : A -> M B) :
  every R m -> (forall a, every R (k a)) -> every R (bind m k).
Proof.
  intros Hm Hk b q x Hx. rewrite bind_unfold. specialize (Hm b q x Hx).
  destruct (m b) as [[a|e] b1]; simpl in *; [|exact Hm].
  destruct Hm as (x1 & Hx1 & HR1). destruct (Hk a b1 q x1 Hx1) as (x2 & Hx2 & HR2).
  exists x2. split; [exact Hx2 | etransitivity; eassumption].
Qed.

Lemma every_for_each {A} (l : list A) (f : A -> M unit) :
  (forall a, every R (f a)) -> every R (for_each l f).
Proof.
  intros Hf. induction l as [|a rest IH]; simpl.
  - apply every_same. reflexivity.
  - apply every_bind; [apply Hf | intros _; exact IH].
Qed.

Lemma every_touches {A} p (m : M A) : touches R p m -> every R m.
Proof.
  intros H b q x Hx. destruct (H b) as (_ & Ho & Hp).
  destruct (decide (q = p)) as [->|Hne]; [exact (Hp x Hx)|].
  exists x. split; [rewrite (Ho q Hne); exact Hx | reflexivity].
Qed.

Lemma every_step {A} (m : M A) b r b' q x :
  every R m -> m b = (r, b') -> all_partitions_ b !! q = Some x ->
  exists x', all_partitions_ b' !! q = Some x' /\ R x x'.
Proof. intros H E Hx. specialize (H b q x Hx). rewrite E in H. exact H. Qed.

End Every.

Lemma every_weaken {A} (R R' : Partition -> Partition -> Prop) (m : M A) :
  (forall x x', R x x' -> R' x x') -> every R m -> every R' m.
Proof.
  intros HR H b q x Hx. destruct (H b q x Hx) as (x' & Hx' & Hxx'). eauto.
Qed.

Lemma touches_Spill p mode : touches same_rows p (Spill p mode).
Proof.
  unfold Spill. apply touches_bind; [exact _ | apply touches_pure; [exact _|apply pure_deref] |].
  intros _. tc_auto.
Qed.

Lemma every_rows_Spill p mode : every same_rows (Spill p mode).
Proof. apply (every_touches _ p), touches_Spill. Qed.

Lemma every_rows_BuildHashTable p : every same_rows (BuildHashTable p).
Proof. apply (every_touches _ p), touches_BuildHashTable. Qed.

Lemma every_rows_SpillPartition mode : every same_rows (SpillPartition mode).
Proof.
  unfold SpillPartition.
  apply every_bind; [exact _ | apply every_pure; [exact _ | apply pure_best_candidate] |].
  intros [c|].
  - apply every_bind; [exact _ | apply every_rows_Spill | intros _].
    apply every_same; [exact _ | reflexivity].
  - apply every_bind; [exact _ | apply every_pure; [exact _ | apply pure_gets] | intros id].
    apply every_same; [exact _ | reflexivity].
Qed.

Lemma every_rows_ReserveProbeBuffers_loop fuel addtl :
  every same_rows (ReserveProbeBuffers_loop fuel addtl).
Proof.
  revert addtl. induction fuel as [|fuel IH]; intros addtl; simpl;
    (apply every_bind; [exact _ | apply every_pure; [exact _ | apply pure_get] | intros b]);
    destruct (addtl >? GetUnusedReservation (world b));
    try (apply every_same; [exact _ | reflexivity]).
  apply every_bind; [exact _ | apply every_rows_SpillPartition | intros c].
  destruct (decide (Some c <> null_aware_partition_ b)); apply IH.
Qed.

Lemma every_rows_ReserveProbeBuffers input_is_spilled :
  every same_rows (ReserveProbeBuffers input_is_spilled).
Proof.
  unfold ReserveProbeBuffers.
  apply every_bind; [exact _ | apply every_pure; [exact _ | apply pure_get] | intros b].
  apply every_bind;
    [exact _ | apply every_pure; [exact _ | apply pure_GetNumSpilledPartitions] | intros n].
  apply every_bind; [exact _ | apply every_rows_ReserveProbeBuffers_loop | intros a].
  apply every_same; [exact _ | reflexivity].
Qed.

Lemma Partition_Close_level batch x w : level_ (fst (Partition_Close batch x w)) = level_ x.
Proof.
  unfold Partition_Close. destruct (IsClosed x); [reflexivity|].
  destruct (build_rows_ x); reflexivity.
Qed.

(** Closing an empty partition loses no row. *)
Lemma every_Close_partition_empty p batch b x s :
  all_partitions_ b !! p = Some x -> build_rows_ x = Some s -> rows s = [] ->
  forall q y, all_partitions_ b !! q = Some y ->
    exists y', all_partitions_ (snd (Close_partition p batch b)) !! q = Some y'
               /\ row_safe y y'.
Proof.
  intros Hx Hs Hrows q y Hy. unfold Close_partition.
  rewrite bind_unfold, (deref_Some _ _ _ Hx). rewrite bind_unfold.
  unfold gets at 1. cbv beta iota.
  pose proof (Partition_Close_level batch x (world b)) as Hlevel.
  pose proof (Partition_Close_closed batch x (world b)) as Hclosed.
  destruct (Partition_Close batch x (world b)) as [x1 w1]. simpl in Hlevel, Hclosed.
  rewrite bind_unfold. unfold assign, modify. simpl.
  destruct (decide (q = p)) as [->|Hne].
  - exists x1. split; [apply list_lookup_insert_eq; eapply lookup_lt_Some; eassumption|].
    assert (y = x) by congruence. subst y. split; [exact Hlevel|]. right.
    split; [|rewrite Hs; simpl; rewrite Hrows; reflexivity].
    unfold IsClosed in Hclosed. destruct (build_rows_ x1); [discriminate | reflexivity].
  - exists y. split; [rewrite list_lookup_insert_ne by congruence; exact Hy | reflexivity].
Qed.

Lemma every_safe_close_or_unpin i :
  every row_safe
    (partition <- hash_partition_at i ;;
     s <- build_rows partition ;;
     x <- deref partition ;;
     if num_rows s =? 0 then Close_partition partition false
     else if is_spilled_ x then stream_status partition (OpUnpinStream UNPIN_ALL)
     else ret tt).
Proof.
  intros b q y Hy. rewrite bind_unfold.
  destruct (hash_partition_at i b) as [[p|e] b0] eqn:E0;
    pose proof (pure_eq _ _ _ _ (pure_hash_partition_at _) E0); subst b0; simpl;
    [|exists y; split; [exact Hy | reflexivity]].
  rewrite bind_unfold.
  destruct (build_rows p b) as [[s|e] b0] eqn:E1;
    [|pose proof (pure_eq _ _ _ _ (pure_build_rows _) E1); subst b0; simpl;
      exists y; split; [exact Hy | reflexivity]].
  destruct (build_rows_Ok _ _ _ _ E1) as (-> & x & Hx & Hs). simpl.
  rewrite bind_unfold, (deref_Some _ _ _ Hx).
  destruct (Z.eqb_spec (num_rows s) 0) as [H0|Hn0].
  - apply (every_Close_partition_empty _ _ _ _ _ Hx Hs); [|exact Hy].
    unfold num_rows in H0. destruct (rows s); [reflexivity | simpl in H0; lia].
  - destruct (is_spilled_ x).
    + assert (Ht : every row_safe (stream_status p (OpUnpinStream UNPIN_ALL))).
      { apply (every_weaken same_rows); [exact same_rows_row_safe|].
        apply (every_touches _ p). apply (touches_weaken same_but_mem);
          [exact same_but_mem_same_rows | apply touches_stream_status]. }
      exact (Ht b q y Hy).
    + exists y. split; [exact Hy | reflexivity].
Qed.

Lemma every_safe_BuildHashTablesAndReserveProbeBuffers :
  every row_safe BuildHashTablesAndReserveProbeBuffers.
Proof.
  assert (Hres : forall input, every row_safe (ReserveProbeBuffers input)).
  { intros input. apply (every_weaken same_rows); [exact same_rows_row_safe|].
    apply every_rows_ReserveProbeBuffers. }
  unfold BuildHashTablesAndReserveProbeBuffers.
  apply every_bind; [exact _ | | intros _].
  { apply every_for_each; [exact _|]. intros i. apply every_safe_close_or_unpin. }
  apply every_bind;
    [exact _ | apply every_pure; [exact _ | apply pure_ht_ctx_level] | intros lvl].
  apply every_bind; [exact _ | apply Hres | intros _].
  apply every_bind; [exact _ | | intros _; apply Hres].
  apply every_for_each; [exact _|]. intros i.
  apply (every_weaken same_rows); [exact same_rows_row_safe|].
  apply every_bind;
    [exact _ | apply every_pure; [exact _ | apply pure_hash_partition_at] | intros p].
  apply every_bind; [exact _ | apply every_pure; [exact _ | apply pure_deref] | intros x].
  destruct (IsClosed x || is_spilled_ x); [apply every_same; [exact _ | reflexivity]|].
  apply every_bind; [exact _ | apply every_rows_BuildHashTable | intros built].
  destruct built; cbv beta iota delta [negb];
    [apply every_same; [exact _ | reflexivity] | apply every_rows_Spill].
Qed.

Lemma every_safe_FlushFinal : every row_safe FlushFinal.
Proof.
  unfold FlushFinal.
  apply every_bind; [exact _ | apply every_pure; [exact _ | apply pure_gets] | intros hp].
  apply every_bind;
    [exact _ | apply every_pure; [exact _ | apply pure_sum_num_rows] | intros n].
  apply every_bind;
    [exact _ | apply every_pure; [exact _ | apply pure_ht_ctx_level] | intros lvl].
  apply every_bind; [exact _ | | intros _].
  { apply every_same; [exact _|]. intros b.
    apply (ag_parts fp_level0); [|reflexivity].
    assert (H : footprint fp_level0
                  (if lvl =? 0
                   then PublishRuntimeFilters n ;;;
                        modify (fun b => set_non_empty_build
                                           (non_empty_build_ b || (0 <? n)) b)
                   else ret tt)) by (destruct (lvl =? 0); fp_auto).
    apply H. }
  apply every_bind; [exact _ | apply every_pure; [exact _ | apply pure_gets] | intros na].
  apply every_bind; [exact _ | | intros _].
  { apply (every_weaken same_rows); [exact same_rows_row_safe|].
    destruct na as [p|]; [|apply every_same; [exact _ | reflexivity]].
    apply every_bind; [exact _ | apply every_pure; [exact _ | apply pure_deref] | intros x].
    destruct (is_spilled_ x); [apply every_rows_Spill|].
    apply every_same; [exact _ | reflexivity]. }
  apply every_bind; [exact _ | apply every_safe_BuildHashTablesAndReserveProbeBuffers |].
  intros _.
  apply every_bind; [exact _ | apply every_pure; [exact _ | apply pure_gets] | intros st].
  destruct (HashJoinState_eqb st PARTITIONING_BUILD);
    apply every_same; try exact _; reflexivity.
Qed.

(** X7.  [FlushFinal] loses no build row.  However it ends, every partition
    is still owned by [all_partitions_] at its level, and a partition that
    was open either is open with the rows it had, or had no row and is
    closed. *)
Theorem FlushFinal_loses_no_row (b : PhjBuilder) (r : Result unit) (b' : PhjBuilder)
    (q : ptr) (x : Partition) (s : BufferedTupleStream) :
  FlushFinal b = (r, b') ->
  all_partitions_ b !! q = Some x -> build_rows_ x = Some s ->
  exists x', all_partitions_ b' !! q = Some x' /\ level_ x' = level_ x
    /\ ((exists s', build_rows_ x' = Some s' /\ rows s' = rows s)
        \/ (IsClosed x' = true /\ rows s = [])).
Proof.
  intros E Hx Hs.
  destruct (every_step _ _ _ _ _ _ _ every_safe_FlushFinal E Hx) as (x' & Hx' & Hl & Hr).
  exists x'. split; [exact Hx'|]. split; [exact Hl|]. rewrite Hs in Hr. simpl in Hr.
  destruct Hr as [Hr|[Hnone Hr]].
  - left. destruct (build_rows_ x') as [s'|]; [|discriminate]. exists s'.
    split; [reflexivity|]. simpl in Hr. congruence.
  - right. split; [unfold IsClosed; rewrite Hnone; reflexivity | congruence].
Qed.

(** ** The state machine *)

Lemma FlushFinal_prefix b r b' :
  FlushFinal b = (r, b') ->
  exists b4, agree fp_flush_prefix b b4
    /\ ((exists e, r = Err e /\ b' = b4)
        \/ (r = Ok tt
            /\ b' = set_state (if HashJoinState_eqb (state_ b) PARTITIONING_BUILD
                               then PARTITIONING_PROBE else REPARTITIONING_PROBE) b4)).
Proof.
  intros E. unfold FlushFinal in E. pose proof (agree_refl fp_flush_prefix b) as Hag.
  mstep E.
  mstep E as n0 b0 E0; advance Hag E0; [|inversion E; subst; eexists; split; [exact Hag | left; eauto]].
  mstep E as lvl b1 E1; advance Hag E1; [|inversion E; subst; eexists; split; [exact Hag | left; eauto]].
  mstep E as u2 b2 E2.
  1,2: assert (Hag2 : agree fp_level0 b1 b2)
         by (eapply footprint_step; [|exact E2]; destruct (lvl =? 0); fp_auto);
       apply (agree_mono fp_level0 fp_flush_prefix) in Hag2; [|reflexivity];
       apply (agree_trans _ _ _ _ Hag) in Hag2; clear Hag; rename Hag2 into Hag.
  2:{ inversion E; subst. eexists. split; [exact Hag | left; eauto]. }
  mstep E.
  mstep E as u3 b3 E3.
  1,2: assert (Hag3 : agree fp_partitions b2 b3)
         by (eapply footprint_step; [|exact E3];
             destruct (null_aware_partition_ b2); fp_auto);
       apply (agree_mono fp_partitions fp_flush_prefix) in Hag3; [|reflexivity];
       apply (agree_trans _ _ _ _ Hag) in Hag3; clear Hag; rename Hag3 into Hag.
  2:{ inversion E; subst. eexists. split; [exact Hag | left; eauto]. }
  mstep E as u4 b4 E4.
  1,2: assert (Hag4 : agree fp_round b3 b4)
         by (eapply footprint_step; [|exact E4];
             apply footprint_round_BuildHashTablesAndReserveProbeBuffers);
       apply (agree_mono fp_round fp_flush_prefix) in Hag4; [|reflexivity];
       apply (agree_trans _ _ _ _ Hag) in Hag4; clear Hag; rename Hag4 into Hag.
  2:{ inversion E; subst. eexists. split; [exact Hag | left; eauto]. }
  mstep E. rewrite (ag_state _ _ _ Hag eq_refl) in E.
  exists b4. split; [exact Hag|]. right.
  destruct (HashJoinState_eqb (state_ b) PARTITIONING_BUILD);
    unfold UpdateState, modify in E; inversion E; subst; auto.
Qed.

(** X8.  [FlushFinal] moves the state machine only when it ends well: from
    PARTITIONING_BUILD to PARTITIONING_PROBE, and otherwise (which its
    assertion has as REPARTITIONING_BUILD) to REPARTITIONING_PROBE, both of
    them transitions that [UpdateState] asserts; when it fails the state is
    as it was. *)
Theorem FlushFinal_state (b : PhjBuilder) (r : Result unit) (b' : PhjBuilder) :
  FlushFinal b = (r, b') ->
  match r with
  | Ok _ =>
      state_ b' = (if HashJoinState_eqb (state_ b) PARTITIONING_BUILD
                   then PARTITIONING_PROBE else REPARTITIONING_PROBE)
      /\ (state_ b = PARTITIONING_BUILD \/ state_ b = REPARTITIONING_BUILD ->
          UpdateState_DCHECK (state_ b) (state_ b') = true)
  | Err _ => state_ b' = state_ b
  end.
Proof.
  intros E. destruct (FlushFinal_prefix _ _ _ E) as (b4 & Hag & [(e & -> & ->)|[-> ->]]).
  - exact (ag_state _ _ _ Hag eq_refl).
  - split; [reflexivity|]. simpl. intros [H|H]; rewrite H; reflexivity.
Qed.

(** ** The level of a round, kept *)

Lemma round_level_agree fp L b b' :
  agree fp b b' -> fp_ht_ctx fp = false -> fp_hash_partitions fp = false ->
  fp_alloc fp = false -> round_level L b -> round_level L b'.
Proof.
  intros Hag Hctx Hhp Halloc [Hl Hall]. split.
  - rewrite (current_level_agree fp b b'); auto.
  - intros q x' Hq Hx'. rewrite (ag_hash_partitions _ _ _ Hag Hhp) in Hq.
    destruct (lookup_agree_back _ _ _ q Hag Halloc ltac:(eauto)) as [x Hx].
    destruct (ag_part _ _ _ Hag q x Hx) as (x'' & Hx'' & Hlv & _).
    assert (x'' = x') by congruence. subst x''. rewrite Hlv. exact (Hall q x Hq Hx).
Qed.

Lemma preserves_round_level_footprint {A} fp L (m : M A) :
  footprint fp m -> fp_ht_ctx fp = false -> fp_hash_partitions fp = false ->
  fp_alloc fp = false -> preserves (round_level L) m.
Proof. intros H H1 H2 H3 b Hb. exact (round_level_agree _ _ _ _ (H b) H1 H2 H3 Hb). Qed.

Ltac rl_leaf :=
  solve [apply (preserves_round_level_footprint fp_keep_level);
         [fp_auto | reflexivity | reflexivity | reflexivity]].

Ltac rl_step :=
  match goal with
  | |- preserves _ (bind _ _) => apply preserves_bind; [|intros ?]
  | |- preserves _ (for_each _ _) => apply preserves_for_each; intros ?
  | |- preserves _ (match ?x with _ => _ end) => destruct x
  | |- preserves (round_level _) _ => rl_leaf
  end.
Ltac rl_auto := repeat rl_step.

Lemma preserves_round_level_ReserveProbeBuffers L input :
  preserves (round_level L) (ReserveProbeBuffers input).
Proof. unfold ReserveProbeBuffers. rl_auto. Qed.

Lemma round_level_BuildHashTable L p b :
  p ∈ hash_partitions_ b -> round_level L b -> round_level L (snd (BuildHashTable p b)).
Proof.
  intros Hin Hinv. unfold BuildHashTable. rewrite bind_unfold.
  destruct (stream_bool p OpPinStream b) as [[built|e] b1] eqn:E1;
    assert (Hinv1 : round_level L b1)
      by (eapply (preserves_step (round_level L)); [|exact E1|exact Hinv]; rl_leaf);
    simpl; [|exact Hinv1].
  destruct built; cbv beta iota delta [negb]; [|exact Hinv1].
  assert (Hin1 : p ∈ hash_partitions_ b1).
  { rewrite (ag_hash_partitions fp_partitions b b1); [exact Hin | | reflexivity].
    eapply footprint_step; [|exact E1]. fp_auto. }
  rewrite bind_unfold. unfold deref at 1.
  destruct (all_partitions_ b1 !! p) as [x1|] eqn:Hx1; simpl; [|exact Hinv1].
  rewrite (proj2 Hinv1 p x1 Hin1 Hx1).
  rewrite bind_unfold.
  assert (Hset : round_level L (snd (set_level L b1))).
  { unfold set_level. rewrite bind_unfold. unfold gets at 1. cbv beta iota.
    destruct (ht_ctx_ b1) as [c|] eqn:Hc; simpl; [|exact Hinv1].
    split; [unfold current_level; reflexivity | exact (proj2 Hinv1)]. }
  destruct (set_level L b1) as [[u2|e2] b2]; simpl in *; [|exact Hset].
  apply (preserves_apply (round_level L)); [|exact Hset].
  apply (preserves_round_level_footprint fp_built);
    [|reflexivity | reflexivity | reflexivity].
  fp_auto;
    try (eapply footprint_weaken;
         [apply footprint_stream_bool_no_add || apply footprint_stream_bool_raw_no_add;
          reflexivity | reflexivity]).
Qed.

Lemma preserves_round_level_BuildHashTablesAndReserveProbeBuffers L :
  preserves (round_level L) BuildHashTablesAndReserveProbeBuffers.
Proof.
  unfold BuildHashTablesAndReserveProbeBuffers.
  apply preserves_bind; [rl_auto | intros _].
  apply preserves_bind; [rl_leaf | intros lvl].
  apply preserves_bind; [apply preserves_round_level_ReserveProbeBuffers | intros _].
  apply preserves_bind; [|intros _; apply preserves_round_level_ReserveProbeBuffers].
  apply preserves_for_each. intros i b Hinv. rewrite bind_unfold.
  destruct (hash_partition_at i b) as [[p|e] b0] eqn:E0;
    pose proof (pure_eq _ _ _ _ (pure_hash_partition_at _) E0); subst b0; simpl;
    [|exact Hinv].
  destruct (hash_partition_at_Ok _ _ _ _ E0) as [_ Hp].
  assert (Hin : p ∈ hash_partitions_ b) by (eapply list_elem_of_lookup_2; exact Hp).
  rewrite bind_unfold. unfold deref at 1.
  destruct (all_partitions_ b !! p) as [x|]; simpl; [|exact Hinv].
  destruct (IsClosed x || is_spilled_ x); [exact Hinv|].
  rewrite bind_unfold. pose proof (round_level_BuildHashTable L p b Hin Hinv) as H1.
  destruct (BuildHashTable p b) as [[built|e] b1]; simpl in *; [|exact H1].
  destruct built; cbv beta iota delta [negb]; [exact H1|].
  apply (preserves_apply (round_level L)); [rl_leaf | exact H1].
Qed.

Lemma preserves_round_level_FlushFinal L : preserves (round_level L) FlushFinal.
Proof.
  unfold FlushFinal.
  apply preserves_bind; [rl_leaf | intros hp].
  apply preserves_bind; [rl_leaf | intros n].
  apply preserves_bind; [rl_leaf | intros lvl].
  apply preserves_bind; [rl_auto | intros _].
  apply preserves_bind; [rl_leaf | intros na].
  apply preserves_bind; [rl_auto | intros _].
  apply preserves_bind;
    [apply preserves_round_level_BuildHashTablesAndReserveProbeBuffers | intros _].
  rl_auto.
Qed.

Lemma Close_partition_closed p batch b u b1 :
  Close_partition p batch b = (Ok u, b1) ->
  exists x1, all_partitions_ b1 !! p = Some x1 /\ IsClosed x1 = true.
Proof.
  intros E. unfold Close_partition in E.
  mstep E as x b0 E0; [|discriminate]. apply deref_Ok in E0. destruct E0 as [-> Hx].
  mstep E. pose proof (Partition_Close_closed batch x (world b)) as Hclosed.
  destruct (Partition_Close batch x (world b)) as [x1 w1]. simpl in Hclosed.
  unfold assign in E. mstep E. unfold modify in E. inversion E; subst.
  exists x1. split; [|exact Hclosed]. simpl.
  apply list_lookup_insert_eq. eapply lookup_lt_Some; eassumption.
Qed.

Lemma row_safe_closed x x' : row_safe x x' -> IsClosed x = true -> IsClosed x' = true.
Proof.
  intros [_ H] Hc. unfold IsClosed in *.
  destruct (build_rows_ x); [discriminate|]. simpl in H.
  destruct H as [H|[H _]]; destruct (build_rows_ x'); try reflexivity; discriminate.
Qed.

(** What a successful [RepartitionBuildInput] into an empty fanout leaves. *)
Lemma RepartitionBuildInput_result input b x u b' :
  all_partitions_ b !! input = Some x -> hash_partitions_ b = [] ->
  RepartitionBuildInput input b = (Ok u, b') ->
  round_level (level_ x + 1) b'
  /\ hash_partitions_ b' = seq (length (all_partitions_ b)) PARTITION_FANOUT
  /\ length (all_partitions_ b') = (length (all_partitions_ b) + PARTITION_FANOUT)%nat
  /\ (exists x', all_partitions_ b' !! input = Some x' /\ IsClosed x' = true)
  /\ state_ b' = (if HashJoinState_eqb (state_ b) PARTITIONING_BUILD
                  then PARTITIONING_PROBE else REPARTITIONING_PROBE).
Proof.
  intros Hx Hempty E. unfold RepartitionBuildInput in E.
  rewrite bind_unfold, (deref_Some _ _ _ Hx) in E.
  mstep E as got b1 E1; [|discriminate].
  assert (Hag1 : agree fp_partitions b b1) by (eapply footprint_step; [|exact E1]; fp_auto).
  destruct got; cbv beta iota delta [negb] in E; [|mstep E; discriminate].
  mstep E as u2 b2 E2; [|discriminate].
  destruct (CreateHashPartitions_result _ _ _ _ E2) as (Hhp2 & Hl2 & Ho2 & Hnew2 & Hlvl2).
  assert (Hag2 : agree fp_create b1 b2) by (eapply footprint_step; [|exact E2]; fp_auto).
  rewrite (ag_hash_partitions _ _ _ Hag1 eq_refl), Hempty in Hhp2. simpl in Hhp2.
  rewrite (ag_length _ _ _ Hag1 eq_refl) in Hhp2, Hl2.
  assert (Hrl2 : round_level (level_ x + 1) b2).
  { split; [exact Hlvl2|]. intros q y Hq Hy. rewrite Hhp2 in Hq.
    rewrite <- (ag_length _ _ _ Hag1 eq_refl) in Hq.
    destruct (Hnew2 q Hq) as (y' & Hy' & Hf & _). congruence. }
  assert (Hrest : preserves (round_level (level_ x + 1))
    (s <- build_rows input ;;
     for_each (batches_of s) (fun build_batch =>
       RETURN_IF_CANCELLED ;;;
       runtime OpCheckQueryState ;;;
       stream_status input OpGetNext ;;;
       Send build_batch) ;;;
     Close_partition input false ;;;
     FlushFinal)).
  { apply preserves_bind; [rl_leaf | intros s].
    apply preserves_bind; [rl_auto | intros _].
    apply preserves_bind; [rl_leaf | intros _; apply preserves_round_level_FlushFinal]. }
  split; [exact (preserves_step _ _ _ _ _ Hrest E Hrl2)|].
  mstep E as s b3 E3; [|discriminate].
  pose proof (pure_eq _ _ _ _ (pure_build_rows _) E3). subst b3.
  mstep E as u4 b4 E4; [|discriminate].
  assert (Hag4 : agree fp_send b2 b4) by (eapply footprint_step; [|exact E4]; fp_auto).
  mstep E as u5 b5 E5; [|discriminate].
  assert (Hag5 : agree fp_partitions b4 b5) by (eapply footprint_step; [|exact E5]; fp_auto).
  destruct (Close_partition_closed _ _ _ _ _ E5) as (x5 & Hx5 & Hc5).
  destruct (FlushFinal_prefix _ _ _ E) as (b6 & Hag6 & [(e & He & _)|[_ ->]]);
    [discriminate|].
  assert (Hst5 : state_ b5 = state_ b).
  { rewrite (ag_state _ _ _ Hag5 eq_refl), (ag_state _ _ _ Hag4 eq_refl),
      (ag_state _ _ _ Hag2 eq_refl). exact (ag_state _ _ _ Hag1 eq_refl). }
  split; [|split; [|split]].
  - simpl. rewrite (ag_hash_partitions _ _ _ Hag6 eq_refl),
      (ag_hash_partitions _ _ _ Hag5 eq_refl), (ag_hash_partitions _ _ _ Hag4 eq_refl).
    exact Hhp2.
  - simpl. rewrite (ag_length _ _ _ Hag6 eq_refl), (ag_length _ _ _ Hag5 eq_refl),
      (ag_length _ _ _ Hag4 eq_refl). exact Hl2.
  - destruct (every_step _ _ _ _ _ _ _ every_safe_FlushFinal E Hx5) as (x' & Hx' & Hsafe).
    exists x'. split; [exact Hx' | exact (row_safe_closed _ _ Hsafe Hc5)].
  - simpl. rewrite Hst5. reflexivity.
Qed.

(** X9.  [RepartitionBuildInput] into an empty fanout.  Without a read buffer
    for the input it fails with MEM_LIMIT_EXCEEDED before any partition is
    created.  When it ends well, the fanout is PARTITION_FANOUT new
    partitions, all of them and the hash-table context at the level of the
    input plus one; the input is closed; and the state machine has moved as
    [FlushFinal] moves it. *)
Theorem RepartitionBuildInput_outcome (input : ptr) (b : PhjBuilder) (x : Partition)
    (r : Result unit) (b' : PhjBuilder) :
  all_partitions_ b !! input = Some x -> hash_partitions_ b = [] ->
  RepartitionBuildInput input b = (r, b') ->
  (forall b1, stream_bool input (OpPrepareForRead true) b = (Ok false, b1) ->
     r = Err (MEM_LIMIT_EXCEEDED (join_node_id_ b)) /\ b' = b1
     /\ hash_partitions_ b' = []
     /\ length (all_partitions_ b') = length (all_partitions_ b))
  /\ (r = Ok tt ->
      round_level (level_ x + 1) b'
      /\ hash_partitions_ b' = seq (length (all_partitions_ b)) PARTITION_FANOUT
      /\ length (all_partitions_ b') = (length (all_partitions_ b) + PARTITION_FANOUT)%nat
      /\ (exists x', all_partitions_ b' !! input = Some x' /\ IsClosed x' = true)
      /\ state_ b' = (if HashJoinState_eqb (state_ b) PARTITIONING_BUILD
                      then PARTITIONING_PROBE else REPARTITIONING_PROBE)).
Proof.
  intros Hx Hempty E. split.
  - intros b1 E1. unfold RepartitionBuildInput in E.
    rewrite bind_unfold, (deref_Some _ _ _ Hx) in E. rewrite bind_unfold, E1 in E.
    cbv beta iota delta [negb] in E. mstep E. inversion E; subst.
    assert (Hag : agree fp_partitions b b')
      by (eapply footprint_step; [|exact E1]; fp_auto).
    rewrite (ag_join_node_id _ _ _ Hag), (ag_hash_partitions _ _ _ Hag eq_refl),
      (ag_length _ _ _ Hag eq_refl). auto.
  - intros ->. exact (RepartitionBuildInput_result _ _ _ _ _ Hx Hempty E).
Qed.

(** X10.  What a successful [BeginSpilledProbe] hands back, for a partition
    that comes with an empty fanout.  Not repartitioned: the level is that
    of the partition, the state is PROBING_SPILLED_PARTITION, no partition
    was created and the fanout is empty; with probe rows the partition now
    has a hash table and is not spilled.  Repartitioned: the level is that of
    the partition plus one, the new fanout is PARTITION_FANOUT new partitions
    at that level, the partition itself is closed, and the state is
    REPARTITIONING_PROBE. *)
Theorem BeginSpilledProbe_outcome (b : PhjBuilder) (empty_probe : bool) (partition : ptr)
    (x : Partition) (repartitioned : bool) (lvl : Z) (hp : option HashPartitions)
    (b' : PhjBuilder) :
  all_partitions_ b !! partition = Some x -> hash_partitions_ b = [] ->
  BeginSpilledProbe empty_probe partition b = (Ok (repartitioned, lvl, hp), b') ->
  if repartitioned then
    lvl = level_ x + 1
    /\ hp = Some (mkHashPartitions lvl (hash_partitions_ b') (non_empty_build_ b'))
    /\ state_ b' = REPARTITIONING_PROBE
    /\ round_level lvl b'
    /\ hash_partitions_ b' = seq (length (all_partitions_ b)) PARTITION_FANOUT
    /\ exists x', all_partitions_ b' !! partition = Some x' /\ IsClosed x' = true
  else
    lvl = level_ x /\ hp = None
    /\ state_ b' = PROBING_SPILLED_PARTITION
    /\ hash_partitions_ b' = []
    /\ length (all_partitions_ b') = length (all_partitions_ b)
    /\ (empty_probe = false ->
        exists x', all_partitions_ b' !! partition = Some x'
                   /\ is_spilled_ x' = false /\ is_Some (hash_tbl_ x')).
Proof.
  intros Hx Hempty E. unfold BeginSpilledProbe in E. mstep E. destruct empty_probe.
  - mstep E as got b1 E1; [|discriminate].
    assert (Hag1 : agree fp_partitions b b1)
      by (eapply footprint_step; [|exact E1]; fp_auto).
    destruct got; cbv beta iota delta [negb] in E; [|discriminate].
    unfold UpdateState in E. mstep E.
    mstep E as x3 b3 E3; [|discriminate]. apply deref_Ok in E3. destruct E3 as [-> Hx3].
    inversion E; subst. simpl.
    destruct (level_agree _ _ _ _ _ Hag1 Hx) as (x1 & Hx1 & Hl1).
    assert (x1 = x3) by (simpl in Hx3; congruence). subst x1.
    split; [exact Hl1|]. split; [reflexivity|]. split; [reflexivity|].
    split; [rewrite (ag_hash_partitions _ _ _ Hag1 eq_refl); exact Hempty|].
    split; [exact (ag_length _ _ _ Hag1 eq_refl) | discriminate].
  - mstep E. rewrite bind_unfold, SaveReservation_run in E.
    set (b0 := set_world _ (set_probe_stream_reservation _ b)) in E.
    assert (Hag0 : agree fp_flush b b0) by (subst b0; solve_agree).
    assert (Hx0 : all_partitions_ b0 !! partition = Some x) by exact Hx.
    clearbody b0. pose proof Hag0 as Hag.
    mstep E as built b2 E2; [|discriminate].
    destruct (BuildHashTable_result _ _ _ _ _ Hx0 E2)
      as (Hl2 & _ & (x2 & Hx2 & [Hrows2 Hpost2]) & _).
    advance Hag E2.
    destruct built.
    + mstep E as u3 b3 E3; [|discriminate]. advance Hag E3.
      assert (Hparts3 : all_partitions_ b3 = all_partitions_ b2).
      { apply (ag_parts fp_reserve); [|reflexivity].
        eapply footprint_step; [|exact E3]. fp_auto. }
      unfold UpdateState in E. mstep E.
      mstep E as x5 b5 E5; [|discriminate]. apply deref_Ok in E5. destruct E5 as [-> Hx5].
      inversion E; subst. simpl in *. rewrite Hparts3 in Hx5.
      assert (x5 = x2) by congruence. subst x5.
      split; [exact (proj1 Hrows2)|]. split; [reflexivity|]. split; [reflexivity|].
      split; [rewrite (ag_hash_partitions _ _ _ Hag eq_refl); exact Hempty|].
      split; [exact (ag_length _ _ _ Hag eq_refl)|].
      intros _. exists x2. rewrite Hparts3. split; [exact Hx2 | exact Hpost2].
    + unfold UpdateState in E. mstep E.
      mstep E as x4 b4 E4; [|discriminate]. apply deref_Ok in E4. destruct E4 as [-> Hx4].
      simpl in Hx4. assert (x4 = x2) by congruence. subst x4.
      destruct (level_ x2 + 1 >=? MAX_PARTITION_DEPTH); [discriminate|].
      mstep E as u5 b5 E5; [|discriminate].
      assert (Hag5 : agree fp_partitions (set_state REPARTITIONING_BUILD b2) b5)
        by (eapply footprint_step; [|exact E5]; fp_auto).
      rewrite bind_unfold, RestoreReservation_run in E.
      set (b6 := set_world _ (set_probe_stream_reservation _ b5)) in E.
      assert (Hag6 : agree fp_flush b b6).
      { eapply agree_trans; [exact Hag|].
        eapply agree_trans; [|eapply agree_trans;
          [eapply agree_mono; [|exact Hag5]; reflexivity|]].
        - solve_agree.
        - subst b6. solve_agree. }
      assert (Hst6 : state_ b6 = REPARTITIONING_BUILD).
      { subst b6. simpl. rewrite (ag_state _ _ _ Hag5 eq_refl). reflexivity. }
      clearbody b6.
      destruct (level_agree _ _ _ _ _ Hag6 Hx) as (x6 & Hx6 & Hl6).
      assert (Hempty6 : hash_partitions_ b6 = [])
        by (rewrite (ag_hash_partitions _ _ _ Hag6 eq_refl); exact Hempty).
      mstep E as s7 b7 E7; [|discriminate].
      pose proof (pure_eq _ _ _ _ (pure_build_rows _) E7). subst b7.
      mstep E as u8 b8 E8; [|discriminate]. destruct u8.
      destruct (RepartitionBuildInput_result _ _ _ _ _ Hx6 Hempty6 E8)
        as (Hrl & Hhp8 & _ & (x8 & Hx8 & Hc8) & Hst8).
      rewrite Hl6 in Hrl. rewrite Hst6 in Hst8. simpl in Hst8.
      rewrite (ag_length _ _ _ Hag6 eq_refl) in Hhp8.
      mstep E as largest b9 E9; [|discriminate].
      pose proof (pure_eq _ _ _ _ pure_LargestPartitionRows E9). subst b9.
      destruct (num_rows s7 =? largest); [discriminate|].
      mstep E as u10 b10 E10; [|discriminate].
      assert (Hag10 : agree fp_reserve b8 b10)
        by (eapply footprint_step; [|exact E10]; fp_auto).
      mstep E as l11 b11 E11; [|discriminate].
      destruct (ht_ctx_level_Ok _ _ _ E11) as [-> Hlvl].
      assert (Hrl' : round_level (level_ x + 1) b10)
        by exact (round_level_agree _ _ _ _ Hag10 eq_refl eq_refl eq_refl Hrl).
      assert (l11 = level_ x + 1) by (destruct Hrl' as [H _]; congruence). subst l11.
      mstep E. inversion E; subst.
      split; [reflexivity|]. split; [reflexivity|].
      split; [rewrite (ag_state _ _ _ Hag10 eq_refl); exact Hst8|].
      split; [exact Hrl'|].
      split; [rewrite (ag_hash_partitions _ _ _ Hag10 eq_refl); exact Hhp8|].
      exists x8. rewrite (ag_parts _ _ _ Hag10 eq_refl). auto.
Qed.

Lemma Close_partition_Ok p batch b u b' :
  Close_partition p batch b = (Ok u, b') ->
  hash_partitions_ b' = hash_partitions_ b
  /\ join_op_ b' = join_op_ b
  /\ length (all_partitions_ b') = length (all_partitions_ b)
  /\ (forall q, q <> p -> all_partitions_ b' !! q = all_partitions_ b !! q)
  /\ exists x1, all_partitions_ b' !! p = Some x1 /\ IsClosed x1 = true.
Proof.
  intros E.
  assert (Hag : agree fp_partitions b b')
    by (eapply footprint_step; [|exact E]; apply footprint_Close_partition).
  split; [exact (ag_hash_partitions _ _ _ Hag eq_refl)|].
  split; [exact (ag_join_op _ _ _ Hag)|].
  split; [exact (ag_length _ _ _ Hag eq_refl)|].
  split; [|exact (Close_partition_closed _ _ _ _ _ E)].
  intros q Hq. unfold Close_partition in E.
  mstep E as x b0 E0; [|discriminate]. apply deref_Ok in E0. destruct E0 as [-> Hx].
  mstep E. destruct (Partition_Close batch x (world b)) as [x1 w1].
  unfold assign in E. mstep E. unfold modify in E. inversion E; subst. simpl.
  apply list_lookup_insert_ne. congruence.
Qed.

(** The loop of [DoneProbingHashPartitions] over distinct indices of a
    fanout without repetition. *)
Lemma DoneProbingHashPartitions_loop_spec idx retain batch :
  forall out b out' b',
  NoDup idx -> NoDup (hash_partitions_ b) ->
  DoneProbingHashPartitions_loop idx retain out batch b = (Ok out', b') ->
  hash_partitions_ b' = hash_partitions_ b
  /\ length (all_partitions_ b') = length (all_partitions_ b)
  /\ (forall q, (forall i, i ∈ idx -> hash_partitions_ b !! i <> Some q) ->
        all_partitions_ b' !! q = all_partitions_ b !! q)
  /\ (forall q, q ∈ out' <->
        q ∈ out \/ (is_output b q /\ exists i, i ∈ idx /\ hash_partitions_ b !! i = Some q))
  /\ (forall i q x, i ∈ idx -> hash_partitions_ b !! i = Some q ->
        all_partitions_ b !! q = Some x ->
        exists x', all_partitions_ b' !! q = Some x'
          /\ done_probing (retain i) (NeedToProcessUnmatchedBuildRows (join_op_ b)) x x').
Proof.
  induction idx as [|i rest IH]; intros out b out' b' Hnd Hhp E; simpl in E.
  - inversion E; subst. split; [reflexivity|]. split; [reflexivity|].
    split; [reflexivity|]. split.
    + intros q. split; [auto|]. intros [H|(_ & j & Hj & _)]; [exact H | inversion Hj].
    + intros j q x Hj. inversion Hj.
  - apply NoDup_cons in Hnd. destruct Hnd as [Hi Hnd].
    mstep E as p b0 E0; [|discriminate].
    apply hash_partition_at_Ok in E0. destruct E0 as [-> Hp].
    mstep E as x b0 E0; [|discriminate]. apply deref_Ok in E0. destruct E0 as [-> Hx].
    assert (Hfresh : forall j, j ∈ rest -> hash_partitions_ b !! j <> Some p).
    { intros j Hj Hjp. apply Hi.
      rewrite (NoDup_lookup _ _ _ _ Hhp Hp Hjp). exact Hj. }
    assert (Hsame : forall b1 out1,
      hash_partitions_ b1 = hash_partitions_ b -> join_op_ b1 = join_op_ b ->
      length (all_partitions_ b1) = length (all_partitions_ b) ->
      (forall q, q <> p -> all_partitions_ b1 !! q = all_partitions_ b !! q) ->
      (exists x1, all_partitions_ b1 !! p = Some x1
         /\ done_probing (retain i) (NeedToProcessUnmatchedBuildRows (join_op_ b)) x x1) ->
      (forall q, q ∈ out1 <-> q ∈ out \/ (is_output b q /\ q = p)) ->
      DoneProbingHashPartitions_loop rest retain out1 batch b1 = (Ok out', b') ->
      hash_partitions_ b' = hash_partitions_ b
      /\ length (all_partitions_ b') = length (all_partitions_ b)
      /\ (forall q, (forall j, j ∈ i :: rest -> hash_partitions_ b !! j <> Some q) ->
            all_partitions_ b' !! q = all_partitions_ b !! q)
      /\ (forall q, q ∈ out' <->
            q ∈ out \/ (is_output b q
                        /\ exists j, j ∈ i :: rest /\ hash_partitions_ b !! j = Some q))
      /\ (forall j q y, j ∈ i :: rest -> hash_partitions_ b !! j = Some q ->
            all_partitions_ b !! q = Some y ->
            exists y', all_partitions_ b' !! q = Some y'
              /\ done_probing (retain j)
                   (NeedToProcessUnmatchedBuildRows (join_op_ b)) y y')).
    { intros b1 out1 Hhp1 Hop1 Hlen1 Hoth1 (x1 & Hx1 & Hdone1) Hout1 E1.
      assert (Hnd1 : NoDup (hash_partitions_ b1)) by (rewrite Hhp1; exact Hhp).
      destruct (IH _ _ _ _ Hnd Hnd1 E1) as (H1 & H2 & H3 & H4 & H5).
      rewrite Hhp1 in H1, H3, H4, H5. rewrite Hop1 in H5.
      assert (Hout_eq : forall q, q <> p -> is_output b1 q <-> is_output b q).
      { intros q Hq. unfold is_output. rewrite Hop1, (Hoth1 q Hq). reflexivity. }
      split; [exact H1|]. split; [lia|]. split; [|split].
      - intros q Hq. rewrite H3 by (intros j Hj; apply Hq; right; exact Hj).
        apply Hoth1. intros ->. exact (Hq i ltac:(left) Hp).
      - intros q. rewrite H4, Hout1. split.
        + intros [[H|[Ho ->]]|(Ho & j & Hj & Hjq)].
          * left; exact H.
          * right. split; [exact Ho|]. exists i. split; [left | exact Hp].
          * right. assert (q <> p) by (intros ->; exact (Hfresh j Hj Hjq)).
            split; [apply Hout_eq; assumption|]. exists j. split; [right|]; assumption.
        + intros [H|(Ho & j & Hj & Hjq)]; [left; left; exact H|].
          apply elem_of_cons in Hj. destruct Hj as [->|Hj].
          * left. right. split; [exact Ho | congruence].
          * right. assert (q <> p) by (intros ->; exact (Hfresh j Hj Hjq)).
            split; [apply Hout_eq; assumption|]. exists j. auto.
      - intros j q y Hj Hjq Hy. apply elem_of_cons in Hj. destruct Hj as [->|Hj].
        + assert (q = p) by congruence. subst q.
          assert (y = x) by congruence. subst y.
          exists x1. split; [|exact Hdone1].
          rewrite (H3 p Hfresh). exact Hx1.
        + assert (q <> p) by (intros ->; exact (Hfresh j Hj Hjq)).
          apply (H5 j q y Hj Hjq). rewrite Hoth1 by assumption. exact Hy. }
    unfold done_probing in Hsame. unfold is_output in Hsame at 1.
    destruct (IsClosed x) eqn:Hc.
    + apply (Hsame b out); auto; [eauto|].
      intros q. split; [auto|]. intros [H|[(_ & y & Hy & Hyc & _) ->]]; [exact H|].
      congruence.
    + destruct (is_spilled_ x) eqn:Hs.
      * mstep E as u1 b1 E1; [|discriminate].
        assert (Hnot : forall q, q ∈ out <->
                  q ∈ out \/ ((NeedToProcessUnmatchedBuildRows (join_op_ b) = true
                     /\ exists y, all_partitions_ b !! q = Some y
                          /\ IsClosed y = false /\ is_spilled_ y = false) /\ q = p)).
        { intros q. split; [auto|].
          intros [H|[(_ & y & Hy & _ & Hys) ->]]; [exact H | congruence]. }
        destruct (retain i); simpl in E1.
        -- inversion E1; subst. apply (Hsame b1 out); auto. eauto.
        -- destruct (Close_partition_Ok _ _ _ _ _ E1) as (H1 & H2 & H3 & H4 & H5).
           apply (Hsame b1 out); auto.
      * mstep E. destruct (NeedToProcessUnmatchedBuildRows (join_op_ b)) eqn:Hneed.
        -- apply (Hsame b (out ++ [p])); auto; [eauto|].
           intros q. rewrite elem_of_app, list_elem_of_singleton. split.
           ++ intros [H | ->]; [left; exact H|]. right. split; [|reflexivity].
              split; [reflexivity|]. eauto.
           ++ intros [H|[_ ->]]; auto.
        -- mstep E as u1 b1 E1; [|discriminate].
           destruct (Close_partition_Ok _ _ _ _ _ E1) as (H1 & H2 & H3 & H4 & H5).
           apply (Hsame b1 out); auto.
           intros q. split; [auto|]. intros [H|[(Hn & _) _]]; [exact H | discriminate].
Qed.

(** X11.  A successful [DoneProbingHashPartitions] over a fanout of distinct
    partitions.  The fanout is cleared.  A partition outside it is untouched.
    Of the fanout: a closed partition stays as it is; a spilled one is closed
    unless the caller retains it; an in-memory one is handed to the caller,
    open, when the join emits unmatched build rows, and is closed otherwise.
    The output holds these partitions only. *)
Theorem DoneProbingHashPartitions_outcome (retain : nat -> bool) (batch : bool)
    (b : PhjBuilder) (out : list ptr) (b' : PhjBuilder) :
  NoDup (hash_partitions_ b) -> length (hash_partitions_ b) = PARTITION_FANOUT ->
  DoneProbingHashPartitions retain batch b = (Ok out, b') ->
  hash_partitions_ b' = []
  /\ length (all_partitions_ b') = length (all_partitions_ b)
  /\ (forall q, q ∉ hash_partitions_ b ->
        all_partitions_ b' !! q = all_partitions_ b !! q)
  /\ (forall q, q ∈ out <-> q ∈ hash_partitions_ b /\ is_output b q)
  /\ (forall i q x, hash_partitions_ b !! i = Some q ->
        all_partitions_ b !! q = Some x ->
        exists x', all_partitions_ b' !! q = Some x'
          /\ done_probing (retain i) (NeedToProcessUnmatchedBuildRows (join_op_ b)) x x').
Proof.
  intros Hnd Hlen E. unfold DoneProbingHashPartitions in E.
  mstep E as out1 b1 E1; [|discriminate].
  destruct (DoneProbingHashPartitions_loop_spec _ _ _ _ _ _ _
              (NoDup_seq 0 PARTITION_FANOUT) Hnd E1) as (H1 & H2 & H3 & H4 & H5).
  mstep E. inversion E; subst. simpl.
  assert (Hidx : forall i q, hash_partitions_ b !! i = Some q ->
                   i ∈ seq 0 PARTITION_FANOUT).
  { intros i q Hi. apply elem_of_seq. apply lookup_lt_Some in Hi. lia. }
  split; [reflexivity|]. split; [exact H2|]. split; [|split].
  - intros q Hq. apply H3. intros i _ Hi. apply Hq.
    eapply list_elem_of_lookup_2; exact Hi.
  - intros q. rewrite H4. split.
    + intros [H|(Ho & i & _ & Hi)]; [inversion H|].
      split; [eapply list_elem_of_lookup_2; exact Hi | exact Ho].
    + intros [Hq Ho]. right. split; [exact Ho|].
      apply list_elem_of_lookup_1 in Hq. destruct Hq as [i Hi]. exists i. eauto.
  - intros i q x Hi Hx. exact (H5 i q x (Hidx i q Hi) Hi Hx).
Qed.

Lemma CreateAndPreparePartition_null_aware level b p b' :
  CreateAndPreparePartition level (fun p => modify (set_null_aware_partition (Some p))) b
  = (Ok p, b') ->
  null_aware_partition_ b' = Some (length (all_partitions_ b)).
Proof.
  intros E. unfold CreateAndPreparePartition in E. mstep E.
  destruct (stream_new (world b)) as [m w1]. mstep E. mstep E.
  set (b2 := set_null_aware_partition _ _) in E.
  assert (Hna : null_aware_partition_ b2 = Some (length (all_partitions_ b)))
    by reflexivity.
  clearbody b2. rewrite <- Hna. apply (ag_null_aware fp_partitions); [|reflexivity].
  eapply footprint_step; [|exact E]. fp_auto.
Qed.

(** X12.  A successful [Open] on a builder without fanout and without
    null-aware partition, as [Reset] leaves it.  The fanout is
    PARTITION_FANOUT new partitions; a null-aware partition is created after
    them for a null-aware anti join and for no other; every new partition is
    at level 0, in memory, without hash table and without rows, and so is
    the level of the hash-table context; the partitions that existed are
    untouched. *)
Theorem Open_creates_fanout (b : PhjBuilder) (u : unit) (b' : PhjBuilder) :
  hash_partitions_ b = [] -> null_aware_partition_ b = None ->
  Open b = (Ok u, b') ->
  let n := length (all_partitions_ b) in
  let na := TJoinOp_eqb (join_op_ b) NULL_AWARE_LEFT_ANTI_JOIN in
  hash_partitions_ b' = seq n PARTITION_FANOUT
  /\ null_aware_partition_ b' = (if na then Some (n + PARTITION_FANOUT)%nat else None)
  /\ length (all_partitions_ b')
     = (n + PARTITION_FANOUT + (if na then 1 else 0))%nat
  /\ (forall q, (q < n)%nat -> all_partitions_ b' !! q = all_partitions_ b !! q)
  /\ (forall q, (n <= q < length (all_partitions_ b'))%nat ->
        exists y, all_partitions_ b' !! q = Some y /\ fresh_partition 0 y)
  /\ round_level 0 b'
  /\ fanout_ok b'.
Proof.
  intros Hhp Hna E n na. pose proof (Open_Ok _ _ _ E) as [Hlevel _].
  unfold Open in E. mstep E.
  set (b0 := match probe_stream_reservation_ b with
             | Some _ => b
             | None => set_probe_stream_reservation (Some 0) b
             end) in E.
  assert (H0 : all_partitions_ b0 = all_partitions_ b
               /\ hash_partitions_ b0 = hash_partitions_ b
               /\ null_aware_partition_ b0 = null_aware_partition_ b
               /\ join_op_ b0 = join_op_ b).
  { unfold b0. destruct (probe_stream_reservation_ b); auto. }
  destruct H0 as (Hall0 & Hhp0 & Hna0 & Hop0). clearbody b0. mstep E.
  mstep E as u1 b1 E1; [|discriminate].
  assert (Hag : agree fp_world b0 b1).
  { eapply footprint_step; [|exact E1]. destruct (ht_ctx_ b0); fp_auto. }
  mstep E.
  mstep E as u2 b2 E2; [|discriminate]. advance Hag E2.
  mstep E as u3 b3 E3; [|discriminate].
  destruct (CreateHashPartitions_result _ _ _ _ E3) as (Hhp3 & Hlen3 & Hold3 & Hnew3 & _).
  assert (Hag3 : agree fp_create b2 b3) by (eapply footprint_step; [|exact E3]; fp_auto).
  rewrite (ag_parts _ _ _ Hag eq_refl), Hall0 in Hhp3, Hlen3, Hold3, Hnew3.
  rewrite (ag_hash_partitions _ _ _ Hag eq_refl), Hhp0, Hhp in Hhp3. simpl in Hhp3.
  fold n in Hhp3, Hlen3, Hold3, Hnew3.
  mstep E as u4 b4 E4; [|discriminate].
  assert (Hag4 : agree fp_filters b3 b4) by (eapply footprint_step; [|exact E4]; fp_auto).
  rewrite <- (ag_parts _ _ _ Hag4 eq_refl) in Hlen3, Hold3, Hnew3.
  rewrite <- (ag_hash_partitions _ _ _ Hag4 eq_refl) in Hhp3.
  assert (Hna4 : null_aware_partition_ b4 = None).
  { rewrite (ag_null_aware _ _ _ Hag4 eq_refl), (ag_null_aware _ _ _ Hag3 eq_refl),
      (ag_null_aware _ _ _ Hag eq_refl), Hna0. exact Hna. }
  assert (Hop4 : join_op_ b4 = join_op_ b).
  { rewrite (ag_join_op _ _ _ Hag4), (ag_join_op _ _ _ Hag3), (ag_join_op _ _ _ Hag).
    exact Hop0. }
  mstep E. rewrite Hop4 in E. fold na in E.
  assert (Hmain :
    hash_partitions_ b' = seq n PARTITION_FANOUT
    /\ null_aware_partition_ b' = (if na then Some (n + PARTITION_FANOUT)%nat else None)
    /\ length (all_partitions_ b') = (n + PARTITION_FANOUT + (if na then 1 else 0))%nat
    /\ (forall q, (q < n)%nat -> all_partitions_ b' !! q = all_partitions_ b !! q)
    /\ (forall q, (n <= q < length (all_partitions_ b'))%nat ->
          exists y, all_partitions_ b' !! q = Some y /\ fresh_partition 0 y)).
  { destruct na.
    - mstep E as p5 b5 E5; [|discriminate]. inversion E; subst b5. clear E.
      pose proof (CreateAndPreparePartition_null_aware _ _ _ _ E5) as Hna5.
      assert (Hag5 : agree fp_new_null_aware b4 b').
      { eapply footprint_step; [|exact E5].
        apply footprint_CreateAndPreparePartition; [reflexivity | reflexivity |].
        intros p. fp_auto. }
      destruct (CreateAndPreparePartition_spec 0
                  (fun p => modify (set_null_aware_partition (Some p))) b4 (Ok p5) b'
                  (fun _ _ => eq_refl) E5)
        as (Hl5 & Ho5 & (y5 & Hy5 & Hf5) & _).
      rewrite Hlen3 in Hl5, Ho5, Hy5, Hna5.
      split; [rewrite (ag_hash_partitions _ _ _ Hag5 eq_refl); exact Hhp3|].
      split; [exact Hna5|]. split; [lia|]. split.
      + intros q Hq. rewrite (Ho5 q ltac:(lia)). apply Hold3. exact Hq.
      + intros q Hq.
        destruct (decide (q = (n + PARTITION_FANOUT)%nat)) as [->|Hne]; [eauto|].
        rewrite (Ho5 q ltac:(lia)). apply Hnew3. apply elem_of_seq. lia.
    - inversion E; subst b'. clear E.
      split; [exact Hhp3|]. split; [exact Hna4|]. split; [lia|].
      split; [exact Hold3|]. intros q Hq. apply Hnew3. apply elem_of_seq. lia. }
  destruct Hmain as (M1 & M2 & M3 & M4 & M5).
  split; [exact M1|]. split; [exact M2|]. split; [exact M3|]. split; [exact M4|].
  split; [exact M5|].
  assert (Hin : forall q, q ∈ hash_partitions_ b' ->
                  (n <= q < n + PARTITION_FANOUT)%nat).
  { intros q Hq. rewrite M1 in Hq. apply elem_of_seq in Hq. lia. }
  split.
  - split; [exact Hlevel|]. intros q x Hq Hx.
    destruct (M5 q ltac:(specialize (Hin q Hq); lia)) as (y & Hy & Hl & _).
    congruence.
  - split; [|split; [|split]].
    + intros q Hq. destruct (M5 q ltac:(specialize (Hin q Hq); lia)) as (y & Hy & _).
      eauto.
    + intros p Hp. rewrite M2 in Hp. destruct na; [|discriminate].
      inversion Hp; subst p. destruct (M5 (n + PARTITION_FANOUT)%nat ltac:(lia)) as (y & Hy & _).
      eauto.
    + rewrite M1. apply NoDup_seq.
    + intros p Hp Hq. rewrite M2 in Hp. destruct na; [|discriminate].
      inversion Hp; subst p. specialize (Hin _ Hq). lia.
Qed.

(** X13.  [Partition::Spill] touches one partition and never its rows.  When
    it ends well the partition is spilled and has no hash table; when it
    fails the partition is spilled exactly if it was. *)
Theorem Spill_outcome (p : ptr) (mode : UnpinMode) (b : PhjBuilder) (x : Partition)
    (r : Result unit) (b' : PhjBuilder) :
  all_partitions_ b !! p = Some x ->
  Spill p mode b = (r, b') ->
  length (all_partitions_ b') = length (all_partitions_ b)
  /\ (forall q, q <> p -> all_partitions_ b' !! q = all_partitions_ b !! q)
  /\ exists x',
       all_partitions_ b' !! p = Some x' /\ same_rows x x'
       /\ match r with
          | Ok _ => is_spilled_ x' = true /\ hash_tbl_ x' = None
          | Err _ => is_spilled_ x' = is_spilled_ x
          end.
Proof. exact (Spill_result p mode b x r b'). Qed.

(** X14.  [Partition::BuildHashTable] touches one partition and never its
    rows.  Built: the partition is in memory with a hash table, and the
    hash-table context is at the level of the partition.  Not built for lack
    of memory: the partition is spilled exactly if it was, and has no hash
    table or the one it had.  Failed: it is spilled exactly if it was. *)
Theorem BuildHashTable_outcome (p : ptr) (b : PhjBuilder) (x : Partition)
    (r : Result bool) (b' : PhjBuilder) :
  all_partitions_ b !! p = Some x ->
  BuildHashTable p b = (r, b') ->
  length (all_partitions_ b') = length (all_partitions_ b)
  /\ (forall q, q <> p -> all_partitions_ b' !! q = all_partitions_ b !! q)
  /\ (exists x', all_partitions_ b' !! p = Some x' /\ after_build x r x')
  /\ (r = Ok true -> current_level b' = Some (level_ x)).
Proof. exact (BuildHashTable_result p b x r b'). Qed.

(** X15.  A successful [CreateHashPartitions] appends PARTITION_FANOUT new
    partitions to the fanout, in the order of their creation: each is at the
    level asked for, in memory, without hash table and without rows; the
    hash-table context is set to that level; the partitions that existed are
    untouched. *)
Theorem CreateHashPartitions_fanout (level : Z) (b : PhjBuilder) (u : unit)
    (b' : PhjBuilder) :
  CreateHashPartitions level b = (Ok u, b') ->
  hash_partitions_ b'
  = hash_partitions_ b ++ seq (length (all_partitions_ b)) PARTITION_FANOUT
  /\ length (all_partitions_ b') = (length (all_partitions_ b) + PARTITION_FANOUT)%nat
  /\ (forall q, (q < length (all_partitions_ b))%nat ->
        all_partitions_ b' !! q = all_partitions_ b !! q)
  /\ (forall q, q ∈ seq (length (all_partitions_ b)) PARTITION_FANOUT ->
        exists y, all_partitions_ b' !! q = Some y /\ fresh_partition level y)
  /\ current_level b' = Some level.
Proof. exact (CreateHashPartitions_result level b u b'). Qed.

(** X16.  [LargestPartitionRows] over a fanout of partitions that exist: it
    changes nothing; no open partition of the fanout has more rows than the
    result; and the result is 0 or the row count of an open partition of the
    fanout, so a fanout of closed partitions gives 0. *)
Theorem LargestPartitionRows_maximum (b : PhjBuilder) :
  valid_ptrs b (hash_partitions_ b) ->
  exists largest,
    LargestPartitionRows b = (Ok largest, b)
    /\ 0 <= largest
    /\ (forall q y s, q ∈ hash_partitions_ b -> all_partitions_ b !! q = Some y ->
          build_rows_ y = Some s -> num_rows s <= largest)
    /\ (largest = 0
        \/ exists q y s, q ∈ hash_partitions_ b /\ all_partitions_ b !! q = Some y
             /\ build_rows_ y = Some s /\ num_rows s = largest).
Proof.
  intros Hv. unfold LargestPartitionRows. rewrite bind_unfold.
  change (gets hash_partitions_ b) with (Ok (hash_partitions_ b), b). cbv beta iota.
  exact (LargestPartitionRows_loop_spec (hash_partitions_ b) 0 b Hv).
Qed.

Lemma fanout_ok_check_sound b : fanout_ok_check b = true -> fanout_ok b.
Proof.
  unfold fanout_ok_check. intros H.
  apply andb_prop in H. destruct H as [H Hnd]. apply andb_prop in H.
  destruct H as [Hv Hna]. apply bool_decide_eq_true in Hnd.
  split; [|split; [|split; [exact Hnd|]]].
  - intros q Hq. apply lookup_lt_is_Some_2. apply Nat.ltb_lt.
    rewrite forallb_forall in Hv. apply Hv. apply list_elem_of_In. exact Hq.
  - intros na E. rewrite E in Hna. apply andb_prop in Hna. destruct Hna as [Hna _].
    apply lookup_lt_is_Some_2. apply Nat.ltb_lt. exact Hna.
  - intros na E Hin. rewrite E in Hna. apply andb_prop in Hna. destruct Hna as [_ Hna].
    apply negb_true_iff in Hna.
    assert (Hex : existsb (Nat.eqb na) (hash_partitions_ b) = true).
    { apply existsb_exists. exists na. split; [apply list_elem_of_In; exact Hin|].
      apply Nat.eqb_refl. }
    congruence.
Qed.






End Proofs.

(** * Worked examples *)

Section Examples.
Local Existing Instance example_collaborators.

(** C5, counterexample to "a min-max filter is published unless it is
    always-true".  At the end of the level-0 build [min_max_build] the only
    filter context holds a min-max filter that is always-true, and
    [FlushFinal] hands exactly that filter to the filter bank; it only
    leaves it out of the count of published filters. *)
Lemma always_true_min_max_filter_is_handed_over :
  map local_min_max_filter (filter_ctxs_ min_max_build) = [Some true]
  /\ AlwaysTrue true = true
  /\ fst (FlushFinal min_max_build) = Ok tt
  /\ filter_bank_updates (after FlushFinal min_max_build) = [mkUpdate 7 None (Some true)]
  /\ num_enabled_filters_info (after FlushFinal min_max_build) = Some 0.
Proof. vm_compute. repeat split; reflexivity. Qed.

(** C5, witness: the level-0 round of [min_max_build] has three rows. *)
Lemma FlushFinal_publishes_filters_witness :
  exists new,
    filter_bank_updates (snd (FlushFinal min_max_build))
    = filter_bank_updates min_max_build ++ new
    /\ Forall2 (handed_to_bank 3) (filter_ctxs_ min_max_build) new
    /\ (filter_ctxs_ min_max_build <> [] ->
        num_enabled_filters_info (snd (FlushFinal min_max_build))
        = Some (Z.of_nat
                  (length (List.filter (counted_as_published 3)
                             (filter_ctxs_ min_max_build))))).
Proof.
  apply (proj2 (FlushFinal_publishes_filters min_max_build) 3).
  - reflexivity.
  - vm_compute. reflexivity.
Defined.

(** C1, counterexample to "once spilled, never un-spilled before Close".
    Partition 0 of [revisit_spilled] is spilled and not closed.  Now that
    its stream can be pinned, [BeginSpilledProbe] builds its hash table, and
    [BuildHashTable] leaves the partition open with [is_spilled_] false. *)
Lemma spilled_partition_unspilled_by_BuildHashTable :
  spilled_at 0%nat revisit_spilled
  /\ fst (BeginSpilledProbe false 0%nat revisit_spilled) = Ok (false, 0, None)
  /\ option_map (fun x => (is_spilled_ x, IsClosed x))
       (all_partitions_ (after (BeginSpilledProbe false 0%nat) revisit_spilled) !! 0%nat)
     = Some (false, false).
Proof.
  split; [|split].
  - eexists. split; vm_compute; reflexivity.
  - vm_compute. reflexivity.
  - vm_compute. reflexivity.
Qed.

(** C1, witness: partition 1 of [revisit_spilled] is spilled, and stays
    spilled while the hash table of partition 0 is built. *)
Lemma is_spilled_cleared_only_by_BuildHashTable_witness :
  spilled_at 1%nat (snd (BuildHashTable 0%nat revisit_spilled)).
Proof.
  assert (Hq : spilled_at 1%nat revisit_spilled)
    by (eexists; split; vm_compute; reflexivity).
  destruct (BuildHashTable 0%nat revisit_spilled) as [r b'] eqn:E.
  apply (proj2 (proj2 (proj2 (proj2 (proj2
           (is_spilled_cleared_only_by_BuildHashTable revisit_spilled 0%nat 1%nat Hq)))))
           r b' E).
  left. discriminate.
Defined.

(** C4, counterexample to "otherwise the victim is the spillable partition
    whose pinned bytes are largest".  Both partitions of [nothing_pinned]
    can spill and there is no null-aware partition, yet [SpillPartition]
    chooses no victim and returns its internal error: a partition is chosen
    only if it frees more than the initial [max_freed_mem = 0]. *)
Lemma spillable_partition_not_chosen :
  null_aware_partition_ nothing_pinned = None
  /\ hash_partitions_ nothing_pinned = [0%nat; 1%nat]
  /\ map CanSpill (all_partitions_ nothing_pinned) = [true; true]
  /\ map freed_mem (all_partitions_ nothing_pinned) = [0; 0]
  /\ best_candidate nothing_pinned = (Ok None, nothing_pinned)
  /\ SpillPartition UNPIN_ALL nothing_pinned
     = (Err (INTERNAL_ERROR_NO_PARTITION_TO_SPILL 1), nothing_pinned).
Proof. vm_compute. repeat split; reflexivity. Qed.

(** C4, witness: at the end of [min_max_build] partition 0 pins 8 bytes and
    partition 1 pins 16; there is no null-aware partition. *)
Lemma SpillPartition_victim_witness :
  exists r, best_candidate min_max_build = (Ok r, min_max_build)
    /\ match r with
       | Some c => exists i, first_largest min_max_build (hash_partitions_ min_max_build) i c
       | None => nothing_to_free min_max_build (hash_partitions_ min_max_build)
       end.
Proof.
  apply (proj1 (proj2 (SpillPartition_victim min_max_build))).
  - left. reflexivity.
  - intros q Hq. change (q ∈ [0%nat; 1%nat]) in Hq.
    apply elem_of_cons in Hq. destruct Hq as [->|Hq]; [eexists; reflexivity|].
    apply elem_of_cons in Hq. destruct Hq as [->|Hq]; [eexists; reflexivity|].
    inversion Hq.
Defined.

(** C3, counterexample to "repeating until the append succeeds or no
    spillable partition remains".  In [spilling_disabled] the row 7 does not
    fit in the stream of partition 0.  [AppendRowStreamFull] chooses
    partition 1 as the victim, spilling fails to start, and the loop ends at
    once with that error: the row is not appended and both partitions can
    still spill. *)
Lemma AppendRowStreamFull_stops_on_spill_error :
  fst (stream_bool_raw 0%nat (OpAddRow 7%nat) spilling_disabled) = Ok Failure
  /\ fst (AppendRowStreamFull 0%nat 7%nat spilling_disabled) = Err (COLLABORATOR 1%nat)
  /\ map CanSpill (all_partitions_ (after (AppendRowStreamFull 0%nat 7%nat) spilling_disabled))
     = [true; true]
  /\ rows_at (after (AppendRowStreamFull 0%nat 7%nat) spilling_disabled) 0%nat
     = rows_at spilling_disabled 0%nat.
Proof. vm_compute. repeat split; reflexivity. Qed.

Lemma memory_full_ready : append_ready memory_full 0%nat.
Proof.
  split; [|split].
  - intros q Hq. change (q ∈ [0%nat; 1%nat]) in Hq.
    apply elem_of_cons in Hq. destruct Hq as [->|Hq]; [eexists; reflexivity|].
    apply elem_of_cons in Hq. destruct Hq as [->|Hq]; [eexists; reflexivity|].
    inversion Hq.
  - intros na Hna. vm_compute in Hna. discriminate.
  - eexists. split; vm_compute; reflexivity.
Defined.

(** C3, witness: in [memory_full] the row 7 does not fit in the stream of
    partition 0; partition 1 is spilled, which frees 16 bytes, and the
    append succeeds. *)
Lemma AppendRowStreamFull_spills_and_retries_witness :
  AppendRowStreamFull 0%nat 7%nat memory_full
  = spill_and_retry 0%nat 7%nat (AppendRowStreamFull 0%nat 7%nat) memory_full
  /\ spill_loop_end memory_full (fst (AppendRowStreamFull 0%nat 7%nat memory_full))
       (snd (AppendRowStreamFull 0%nat 7%nat memory_full))
  /\ appended memory_full 0%nat 7%nat (fst (AppendRowStreamFull 0%nat 7%nat memory_full))
       (snd (AppendRowStreamFull 0%nat 7%nat memory_full)).
Proof.
  exact (AppendRowStreamFull_spills_and_retries 0%nat 7%nat memory_full memory_full_ready).
Defined.

(** The run of that witness. *)
Example AppendRowStreamFull_memory_full :
  fst (AppendRowStreamFull 0%nat 7%nat memory_full) = Ok tt
  /\ rows_at (after (AppendRowStreamFull 0%nat 7%nat) memory_full) 0%nat
     = Some [200; 7]%nat
  /\ map is_spilled_ (all_partitions_ (after (AppendRowStreamFull 0%nat 7%nat) memory_full))
     = [false; true].
Proof. vm_compute. repeat split; reflexivity. Qed.

(** C6, witness: the partition of [deep_partition] is at level 15 and
    [MAX_PARTITION_DEPTH] is 16 in the example world. *)
Lemma BeginSpilledProbe_max_partition_depth_witness :
  BeginSpilledProbe false 0%nat deep_partition
  = (Err (PARTITIONED_HASH_JOIN_MAX_PARTITION_DEPTH 1 16),
     set_state REPARTITIONING_BUILD
       (snd (BuildHashTable 0%nat (snd (SaveReservation 64 deep_partition)))))
  /\ hash_partitions_
       (set_state REPARTITIONING_BUILD
          (snd (BuildHashTable 0%nat (snd (SaveReservation 64 deep_partition))))) = []
  /\ length (all_partitions_
       (set_state REPARTITIONING_BUILD
          (snd (BuildHashTable 0%nat (snd (SaveReservation 64 deep_partition)))))) = 1%nat.
Proof.
  apply (BeginSpilledProbe_max_partition_depth deep_partition 0%nat level_15).
  - reflexivity.
  - vm_compute. discriminate.
  - vm_compute. reflexivity.
Defined.

(** The level-0 build of [spilled_build] is a legal sequence of calls, and
    so is coming back to its spilled partitions. *)
Lemma spilled_build_reachable : reachable Built (Some true) spilled_build.
Proof.
  apply (reach_FlushFinal tight_sent 4 spilled_build).
  - apply (reach_Send tight_opened [1; 2; 3; 4]%nat); [|vm_compute; reflexivity].
    apply (reach_Open None tight_prepared); [|vm_compute; reflexivity].
    apply (reach_Prepare (example_builder INNER_JOIN [] tight)); [|vm_compute; reflexivity].
    repeat split; reflexivity.
  - vm_compute. reflexivity.
  - vm_compute. reflexivity.
Qed.

Lemma revisit_spilled_reachable : reachable BetweenPartitions (Some true) revisit_spilled.
Proof.
  apply reach_world.
  apply (reach_DoneProbingHashPartitions (Some true) (after BeginInitialProbe spilled_build)
           (fun _ => true) false []); [|vm_compute; reflexivity].
  apply (reach_BeginInitialProbe (Some true) spilled_build
           (mkHashPartitions 0 [0; 1]%nat true)); [|vm_compute; reflexivity].
  exact spilled_build_reachable.
Qed.

Example reservation_held_after_FlushFinal : GetReservation spilled_build = 128.
Proof. vm_compute. reflexivity. Qed.

Lemma non_empty_build_reflects_level_0_round_witness :
  Some true = Some (non_empty_build (mkHashPartitions 0 [0; 1]%nat true))
  /\ Some true = Some (non_empty_build (mkHashPartitions 1 [2; 3]%nat true)).
Proof.
  destruct non_empty_build_reflects_level_0_round
    as (_ & _ & _ & _ & _ & _ & _ & _ & _ & _ & _ & _ & Hinitial & Hspilled).
  split.
  - apply (Hinitial (Some true) spilled_build (mkHashPartitions 0 [0; 1]%nat true)
             (after BeginInitialProbe spilled_build)).
    + exact spilled_build_reachable.
    + vm_compute. reflexivity.
  - apply (Hspilled (Some true) still_tight false 0%nat 1
             (mkHashPartitions 1 [2; 3]%nat true)
             (after (BeginSpilledProbe false 0%nat) still_tight)).
    + apply reach_world. exact revisit_spilled_reachable.
    + vm_compute. reflexivity.
Defined.

Lemma Reset_restores_PARTITIONING_BUILD_witness :
  Reset_DCHECK revisit_spilled
  /\ state_ (Reset false revisit_spilled) = PARTITIONING_BUILD
  /\ non_empty_build_ (Reset false revisit_spilled) = false
  /\ all_partitions_ (Reset false revisit_spilled) = [].
Proof.
  destruct Reset_restores_PARTITIONING_BUILD as [Heffects Hlegal].
  assert (H : Reset_DCHECK revisit_spilled).
  { apply (Hlegal BetweenPartitions (Some true)); [exact revisit_spilled_reachable|].
    discriminate. }
  destruct (Heffects false revisit_spilled H) as (Hst & Hne & _ & Hall & _).
  split; [exact H|]. split; [exact Hst|]. split; [exact Hne | exact Hall].
Defined.

Lemma BeginSpilledProbe_progress_check_witness :
  exists largest,
    LargestPartitionRows still_tight_repartitioned = (Ok largest, still_tight_repartitioned)
    /\ largest <= 2
    /\ (largest < 2 ->
        exists lvl b',
          BeginSpilledProbe false 0%nat still_tight
          = (Ok (true, lvl,
                 Some (mkHashPartitions lvl (hash_partitions_ still_tight_repartitioned)
                         (non_empty_build_ still_tight_repartitioned))), b')
          /\ forall q y s', q ∈ hash_partitions_ b' -> all_partitions_ b' !! q = Some y ->
               build_rows_ y = Some s' -> num_rows s' < 2).
Proof.
  destruct (BeginSpilledProbe_progress_check still_tight 0%nat
              spilled_2_4 rows_2_4
              still_tight_not_built still_tight_spilled still_tight_repartitioned)
    as (largest & Hl & _ & Hle & _ & Hlt).
  - vm_compute. reflexivity.
  - reflexivity.
  - vm_compute. reflexivity.
  - vm_compute. reflexivity.
  - vm_compute. reflexivity.
  - vm_compute. reflexivity.
  - vm_compute. reflexivity.
  - exists largest. split; [exact Hl|]. split; [exact Hle|].
    intros H. destruct (Hlt H) as (lvl & b' & E & _ & _ & Hrows).
    exists lvl, b'. split; [exact E | exact Hrows].
Defined.

Example BeginSpilledProbe_splits_the_rows :
  fst (BeginSpilledProbe false 0%nat still_tight)
  = Ok (true, 1, Some (mkHashPartitions 1 [2; 3]%nat true))
  /\ rows_at (after (BeginSpilledProbe false 0%nat) still_tight) 2%nat = Some [4%nat]
  /\ rows_at (after (BeginSpilledProbe false 0%nat) still_tight) 3%nat = Some [2%nat].
Proof. vm_compute. repeat split; reflexivity. Qed.

Example BeginSpilledProbe_repartition_fails :
  fst (BeginSpilledProbe false 0%nat skewed)
  = Err (PARTITIONED_HASH_JOIN_REPARTITION_FAILS 1 1 2).
Proof. vm_compute. reflexivity. Qed.

(** C8, as it is worded.  The build input of this null-aware anti join is
    the two rows of [Send [0; 0]], both with a NULL key.  The level-0 round
    keeps them in the null-aware partition and puts no row into the fanout:
    [BeginInitialProbe] reports [non_empty_build] false for a build input
    that was not empty. *)
Lemma non_empty_build_false_for_null_key_rows :
  Send [0; 0]%nat null_keys_opened = (Ok tt, null_keys_sent)
  /\ FlushFinal null_keys_sent = (Ok tt, null_keys_build)
  /\ null_aware_partition_ null_keys_build = Some 2%nat
  /\ rows_at null_keys_build 2%nat = Some [0; 0]%nat
  /\ BeginInitialProbe null_keys_build
     = (Ok (mkHashPartitions 0 [0; 1]%nat false), after BeginInitialProbe null_keys_build).
Proof. vm_compute. repeat split; reflexivity. Qed.

(** ** More of the builder *)

Lemma spilled_build_valid : valid_ptrs spilled_build (hash_partitions_ spilled_build).
Proof. apply fanout_ok_check_sound. vm_compute. reflexivity. Defined.


Lemma probing_begun_fanout_ok : fanout_ok probing_begun.
Proof. apply fanout_ok_check_sound. vm_compute. reflexivity. Defined.

Lemma min_max_build_valid : valid_ptrs min_max_build (hash_partitions_ min_max_build).
Proof. apply fanout_ok_check_sound. vm_compute. reflexivity. Defined.

(** X1, witness: [Close] twice on partition 0 of [min_max_build], the second
    time with a row batch. *)
Lemma Close_partition_idempotent_witness :
  (exists x1, all_partitions_ closed_once !! 0%nat = Some x1 /\ IsClosed x1 = true)
  /\ Close_partition 0%nat true closed_once = (Ok tt, closed_once).
Proof.
  apply (Close_partition_idempotent 0%nat false true min_max_build closed_once tt).
  vm_compute. reflexivity.
Defined.

(** X2, witness: the first partition of a builder that has none. *)
Lemma CreateAndPreparePartition_registers_witness :
  length (all_partitions_
            (after (CreateAndPreparePartition 0 (fun _ => ret tt)) tight_prepared))
  = S (length (all_partitions_ tight_prepared))
  /\ (forall q, (q < length (all_partitions_ tight_prepared))%nat ->
        all_partitions_
          (after (CreateAndPreparePartition 0 (fun _ => ret tt)) tight_prepared) !! q
        = all_partitions_ tight_prepared !! q)
  /\ (exists y,
        all_partitions_
          (after (CreateAndPreparePartition 0 (fun _ => ret tt)) tight_prepared)
        !! length (all_partitions_ tight_prepared) = Some y
        /\ fresh_partition 0 y)
  /\ (forall p, Ok 0%nat = Ok p -> p = length (all_partitions_ tight_prepared)).
Proof.
  apply (CreateAndPreparePartition_registers 0 (fun _ => ret tt) tight_prepared).
  - intros p b0. reflexivity.
  - vm_compute. reflexivity.
Defined.

(** X3, witness: both partitions of [spilled_build] are open and spilled. *)
Lemma GetNumSpilledPartitions_counts_witness :
  GetNumSpilledPartitions (hash_partitions_ spilled_build) spilled_build
  = (Ok (Z.of_nat (num_spilled spilled_build (hash_partitions_ spilled_build))),
     spilled_build)
  /\ num_spilled spilled_build (hash_partitions_ spilled_build) = 2%nat.
Proof.
  split; [|vm_compute; reflexivity].
  exact (proj1 (GetNumSpilledPartitions_counts (hash_partitions_ spilled_build)
                  spilled_build spilled_build_valid)).
Defined.



(** X6, witness: no stream of [tight_sent] can be pinned, so both partitions
    end spilled. *)
Lemma BuildHashTablesAndReserveProbeBuffers_settles_witness :
  hash_partitions_ (after BuildHashTablesAndReserveProbeBuffers tight_sent)
  = hash_partitions_ tight_sent
  /\ forall i q, (i < PARTITION_FANOUT)%nat ->
       hash_partitions_ (after BuildHashTablesAndReserveProbeBuffers tight_sent) !! i
       = Some q ->
       exists x,
         all_partitions_ (after BuildHashTablesAndReserveProbeBuffers tight_sent) !! q
         = Some x
         /\ (IsClosed x = true \/ is_spilled_ x = true
             \/ (is_spilled_ x = false /\ is_Some (hash_tbl_ x))).
Proof.
  apply (BuildHashTablesAndReserveProbeBuffers_settles tight_sent tt).
  vm_compute. reflexivity.
Defined.

(** X7, witness: the rows 2 and 4 of partition 0 of [tight_sent] are still
    there, spilled, after [FlushFinal]. *)
Lemma FlushFinal_loses_no_row_witness :
  exists x', all_partitions_ spilled_build !! 0%nat = Some x'
    /\ level_ x' = level_ in_memory_2_4
    /\ ((exists s', build_rows_ x' = Some s' /\ rows s' = rows rows_2_4_pinned)
        \/ (IsClosed x' = true /\ rows rows_2_4_pinned = [])).
Proof.
  apply (FlushFinal_loses_no_row tight_sent (Ok tt) spilled_build 0%nat in_memory_2_4
           rows_2_4_pinned).
  - vm_compute. reflexivity.
  - vm_compute. reflexivity.
  - reflexivity.
Defined.

(** X8, witness: the level-0 round of [tight_sent] ends in
    PARTITIONING_PROBE. *)
Lemma FlushFinal_state_witness :
  state_ spilled_build
  = (if HashJoinState_eqb (state_ tight_sent) PARTITIONING_BUILD
     then PARTITIONING_PROBE else REPARTITIONING_PROBE)
  /\ (state_ tight_sent = PARTITIONING_BUILD \/ state_ tight_sent = REPARTITIONING_BUILD ->
      UpdateState_DCHECK (state_ tight_sent) (state_ spilled_build) = true).
Proof.
  apply (FlushFinal_state tight_sent (Ok tt) spilled_build).
  vm_compute. reflexivity.
Defined.

(** X9, witness: the spilled partition 0 of [still_tight], rows 2 and 4, is
    repartitioned into the partitions 2 and 3 at level 1. *)
Lemma RepartitionBuildInput_outcome_witness :
  round_level (level_ spilled_2_4 + 1) still_tight_repartitioned
  /\ hash_partitions_ still_tight_repartitioned
     = seq (length (all_partitions_ repartition_input)) PARTITION_FANOUT
  /\ length (all_partitions_ still_tight_repartitioned)
     = (length (all_partitions_ repartition_input) + PARTITION_FANOUT)%nat
  /\ (exists x', all_partitions_ still_tight_repartitioned !! 0%nat = Some x'
                 /\ IsClosed x' = true)
  /\ state_ still_tight_repartitioned
     = (if HashJoinState_eqb (state_ repartition_input) PARTITIONING_BUILD
        then PARTITIONING_PROBE else REPARTITIONING_PROBE).
Proof.
  refine (proj2 (RepartitionBuildInput_outcome 0%nat repartition_input spilled_2_4
                   (Ok tt) still_tight_repartitioned _ _ _) eq_refl).
  - vm_compute. reflexivity.
  - vm_compute. reflexivity.
  - vm_compute. reflexivity.
Defined.

(** X10, witness: [BeginSpilledProbe] on partition 0 of [still_tight], whose
    stream cannot be pinned, repartitions it. *)
Lemma BeginSpilledProbe_outcome_witness :
  1 = level_ spilled_2_4 + 1
  /\ Some new_fanout
     = Some (mkHashPartitions 1
               (hash_partitions_ (after (BeginSpilledProbe false 0%nat) still_tight))
               (non_empty_build_ (after (BeginSpilledProbe false 0%nat) still_tight)))
  /\ state_ (after (BeginSpilledProbe false 0%nat) still_tight) = REPARTITIONING_PROBE
  /\ round_level 1 (after (BeginSpilledProbe false 0%nat) still_tight)
  /\ hash_partitions_ (after (BeginSpilledProbe false 0%nat) still_tight)
     = seq (length (all_partitions_ still_tight)) PARTITION_FANOUT
  /\ exists x',
       all_partitions_ (after (BeginSpilledProbe false 0%nat) still_tight) !! 0%nat
       = Some x'
       /\ IsClosed x' = true.
Proof.
  refine (BeginSpilledProbe_outcome still_tight false 0%nat spilled_2_4 true 1
            (Some new_fanout) (after (BeginSpilledProbe false 0%nat) still_tight) _ _ _).
  - vm_compute. reflexivity.
  - vm_compute. reflexivity.
  - vm_compute. reflexivity.
Defined.

(** X11, witness: both partitions of [probing_begun] are spilled; the first
    is retained and the second is closed, and nothing is handed back. *)
Lemma DoneProbingHashPartitions_outcome_witness :
  hash_partitions_ (after (DoneProbingHashPartitions retain_first false) probing_begun)
  = []
  /\ (forall i q x, hash_partitions_ probing_begun !! i = Some q ->
        all_partitions_ probing_begun !! q = Some x ->
        exists x',
          all_partitions_
            (after (DoneProbingHashPartitions retain_first false) probing_begun) !! q
          = Some x'
          /\ done_probing (retain_first i)
               (NeedToProcessUnmatchedBuildRows (join_op_ probing_begun)) x x')
  /\ map IsClosed
       (all_partitions_
          (after (DoneProbingHashPartitions retain_first false) probing_begun))
     = [false; true].
Proof.
  split; [|split; [|vm_compute; reflexivity]].
  - refine (proj1 (DoneProbingHashPartitions_outcome retain_first false probing_begun nil
                     (after (DoneProbingHashPartitions retain_first false) probing_begun)
                     (proj1 (proj2 (proj2 probing_begun_fanout_ok))) _ _)).
    + vm_compute. reflexivity.
    + vm_compute. reflexivity.
  - refine (proj2 (proj2 (proj2 (proj2
             (DoneProbingHashPartitions_outcome retain_first false probing_begun nil
                (after (DoneProbingHashPartitions retain_first false) probing_begun)
                (proj1 (proj2 (proj2 probing_begun_fanout_ok))) _ _))))).
    + vm_compute. reflexivity.
    + vm_compute. reflexivity.
Defined.

(** X12, witness: [Open] for a null-aware anti join creates the partitions 0
    and 1 of the fanout and the null-aware partition 2. *)
Lemma Open_creates_fanout_witness :
  hash_partitions_ null_keys_opened = seq 0 PARTITION_FANOUT
  /\ null_aware_partition_ null_keys_opened = Some 2%nat
  /\ length (all_partitions_ null_keys_opened) = 3%nat
  /\ round_level 0 null_keys_opened
  /\ fanout_ok null_keys_opened.
Proof.
  destruct (Open_creates_fanout null_aware_prepared tt null_keys_opened)
    as (H1 & H2 & H3 & _ & _ & H6 & H7).
  - vm_compute. reflexivity.
  - vm_compute. reflexivity.
  - vm_compute. reflexivity.
  - split; [exact H1|]. split; [exact H2|]. split; [exact H3|]. split; assumption.
Defined.

(** X13, witness: partition 0 of [min_max_build] is spilled; its row 200
    stays. *)
Lemma Spill_outcome_witness :
  exists x',
    all_partitions_ (after (Spill 0%nat UNPIN_ALL) min_max_build) !! 0%nat = Some x'
    /\ same_rows in_memory_200 x'
    /\ is_spilled_ x' = true /\ hash_tbl_ x' = None.
Proof.
  refine (proj2 (proj2 (Spill_outcome 0%nat UNPIN_ALL min_max_build in_memory_200 (Ok tt)
                          (after (Spill 0%nat UNPIN_ALL) min_max_build) _ _))).
  - vm_compute. reflexivity.
  - vm_compute. reflexivity.
Defined.

(** X14, witness: the stream of the spilled partition 0 of [revisit_spilled]
    can be pinned again, and its hash table is built. *)
Lemma BuildHashTable_outcome_witness :
  (exists x', all_partitions_ (after (BuildHashTable 0%nat) revisit_spilled) !! 0%nat
              = Some x'
              /\ after_build spilled_2_4 (Ok true) x')
  /\ current_level (after (BuildHashTable 0%nat) revisit_spilled)
     = Some (level_ spilled_2_4).
Proof.
  destruct (BuildHashTable_outcome 0%nat revisit_spilled spilled_2_4 (Ok true)
              (after (BuildHashTable 0%nat) revisit_spilled))
    as (_ & _ & H3 & H4).
  - vm_compute. reflexivity.
  - vm_compute. reflexivity.
  - split; [exact H3 | exact (H4 eq_refl)].
Defined.

(** X15, witness: the first fanout of [tight_prepared]. *)
Lemma CreateHashPartitions_fanout_witness :
  hash_partitions_ (after (CreateHashPartitions 0) tight_prepared)
  = hash_partitions_ tight_prepared
    ++ seq (length (all_partitions_ tight_prepared)) PARTITION_FANOUT
  /\ length (all_partitions_ (after (CreateHashPartitions 0) tight_prepared))
     = (length (all_partitions_ tight_prepared) + PARTITION_FANOUT)%nat
  /\ current_level (after (CreateHashPartitions 0) tight_prepared) = Some 0.
Proof.
  destruct (CreateHashPartitions_fanout 0 tight_prepared tt
              (after (CreateHashPartitions 0) tight_prepared))
    as (H1 & H2 & _ & _ & H5).
  - vm_compute. reflexivity.
  - split; [exact H1|]. split; [exact H2 | exact H5].
Defined.

(** X16, witness: the partitions of [min_max_build] hold one row and two. *)
Lemma LargestPartitionRows_maximum_witness :
  exists largest,
    LargestPartitionRows min_max_build = (Ok largest, min_max_build)
    /\ 0 <= largest
    /\ (forall q y s, q ∈ hash_partitions_ min_max_build ->
          all_partitions_ min_max_build !! q = Some y ->
          build_rows_ y = Some s -> num_rows s <= largest)
    /\ (largest = 0
        \/ exists q y s, q ∈ hash_partitions_ min_max_build
             /\ all_partitions_ min_max_build !! q = Some y
             /\ build_rows_ y = Some s /\ num_rows s = largest).
Proof. exact (LargestPartitionRows_maximum min_max_build min_max_build_valid). Defined.



End Examples.
